(* ===== verification/_CoqProject ===== *)
-Q . S2P
Prelude.v
CMem.v
Words.v
Kernel.v
PhysMem.v
MmapRoot.v
MmapLab.v
BlockSpec.v
BlockLayer.v
RamhdMkreq.v
RamhdReq.v
SampleBlk.v
Disk.v
LabMisc.v
LabChar.v
WaitEvent.v
WaitFile.v
Testers.v
WaitTest.v
NetHash.v
ListLabs.v
Kobject.v
Poll.v
Vfs.v
MemLabs.v
Hooks.v
SchedDl.v
Deferred.v
ProductTree.v
TreeMap.v
Kvm.v
KvmMain.v
Kvm2.v
Threads.v
Sync.v
SyncStop.v
Interrupt.v
IrqThread.v
IrqUnload.v
Modules.v
