(* ===== verification/Prelude.v ===== *)
(** * Verification of the kernel labs

    The repository is a collection of small Linux kernel modules, each in one
    C file, with a few user programs that exercise them.  This library models
    the modules as Rocq functions and step relations and proves what makes
    each of them correct, or where it is not.

    ** The parts and their files

    Shared by all:
    - [Prelude] (this file): machine integers as [Z] with the wrap-around
      written out ([u32], [s32], ...), errno values, results of loops run with
      fuel ([outcome]), list lemmas, tactics, hint databases.
    - [CMem]: C memory as blocks of bytes; an access outside its block is
      [None].  [Words]: bit fields and little-endian words.  [PhysMem]:
      physical memory and the page tables of processes (interface [Remap] with
      the documented law of remap_pfn_range).
    - [Kernel]: calls into the kernel as events; the kernel is an environment
      that answers every call from the whole history; the monad [M] of module
      code, whose failure is an oops; [audit], which replays a history and
      accounts for every resource obtained and given back, the memory of a cdev
      and regions of I/O memory included; weakest
      preconditions and the tactics of symbolic execution.

    Block drivers (ramdisk-lab):
    - [BlockSpec]: what a disk promises (class [BlockDriver]); write then read,
      and writes apart from each other commute, proved once for all drivers.
    - [BlockLayer]: the request queue of the kernel as an interface with laws.
    - [RamhdMkreq] (ramhd_mkreq.c), [RamhdReq] (ramhd_req.c), [SampleBlk]
      (sample_blk.c): the data paths refine the disk, load and unload give back
      what they obtain, and the paths that do not.
    - [Disk]: the disks of one driver (class [Shelf]).  From load on, any
      sequence of reads and writes of them leaves a history that replays on one
      array of bytes per disk; and what the tables of operations report of the
      geometry.

    Character devices:
    - [LabMisc] (char-device-labs/lab-misc.c), [LabChar] (lab-char.c),
      [WaitEvent] (wait-event-labs/wait_event.c: readers that sleep and writers
      that wake them, interleaved at every point), [Poll] (poll-labs/poll.c),
      [Testers] (lab_read.c, lab_write.c, read.c, write.c).
    - [WaitFile]: the device of wait_event.c with processes that open and close
      it, and unloading; no reader sleeps in code that is gone.
    - [WaitTest]: read.c and write.c as processes on the model of wait_event.c,
      with opens that may be refused and signals that may kill; no run of the
      three together is infinite, and what each can end with.
    - [Vfs]: the file_operations tables of five drivers and the part of the file
      layer that calls through them, with unloading; what a driver promises of
      each operation (class [WfDriver]), and at which positions of pread and
      pwrite it does, makes every session of system calls safe.

    Memory shared with processes:
    - [MmapLab] (mmap-labs/mmap.c, main.c), [MmapRoot] (mmap-root: mmap-root.c,
      kmalloc.c, jeff-mmap.c, mmap-get-root.c).  The modules and the programs
      are composed: what one stores in kernel memory another changes through
      the mapping of a third.

    Data structures:
    - [NetHash] (data-struct-labs/hlist.c), [ListLabs] (list.c, taints.c),
      [ProductTree] (rbtree.c) and [TreeMap], which shows that it refines a
      finite map.  Lists and red-black trees of the kernel are
      interfaces with laws and an instance that shows the laws can be met.

    Concurrency and deferred work:
    - [Threads]: kernel threads in a small step language, locks as an interface,
      what a thread must have done with the lock at each instruction, and a
      checker of that discipline with what it guarantees.  [Sync] (sync:
      spinlock.c, mutex.c, rw_lock.c, atomic.c, completion.c) instantiates it.
      [SyncStop]: every kthread_stop of their unloads can return, and the
      completion lab ends.
    - [Interrupt] (interrupt-labs: interrupt_tasklet.c,
      interrupt_workqueue.c), [IrqThread] (interrupt_thread.c,
      interrupt_add_thread.c): handlers, bottom halves and threads interleaved
      with my_exit.  [IrqUnload] states what a module promises when it is
      unloaded (class [Unloadable]), what it has to show for that (class
      [UnloadSpec]), and which of the four labs keep the promise.
    - [Deferred] (timer-labs and sched-lab), [SchedDl]
      (sched-dl/patch-dl/test-dl.c).

    Others:
    - [Kobject] (kobject-ueveng-lab/kobject-event.c), [Hooks]
      (notifier-labs/notifier-module.c, kprobe-labs/kprobe.c), [MemLabs]
      (sync/high_mem.c, mm-lab, mmap-labs/rammap.c, include/kernel_helper.h),
      [Kvm] (kvm-test-lab/kvm-test.c: flags, tables and the guest), [KvmMain]
      (its main, a tree of processes), [Kvm2] (kvm-test-2.c, checked in every
      run against the protocol of the KVM interface).

    All modules:
    - [Modules]: the table of 29 modules with the functions named by module_init
      and module_exit, the life of a module as the kernel runs it, and for each
      module whether anything is left when it is gone or given back that it did
      not hold, in a kernel that grants
      every request and in any kernel whose calls fail the way their
      documentation says ([errno_env]).

    ** How code is modelled

    Globals of a module are the fields of a record [st]; a function is a
    definition of the same name that takes and returns that record, in the
    monad [M] where it calls the kernel.  Labels of goto chains are
    definitions of their own.  Functions that can be interrupted by others are
    cut into steps at the points where that matters, and the steps are
    interleaved in every order by an inductive relation.  What the kernel
    answers, what freshly allocated memory holds, and what the processor
    leaves in variables that are never assigned are parameters.  Messages are
    left out except where they are the result of the program.

    ** What is shown

    - Functional behaviour and round trips: disks and character devices return
      what was written; the search tree and the hash table implement ordered
      and finite maps; the guest of kvm-test.c is set up as its processor
      expects; scans of memory change exactly what they are meant to.
    - Refinement: the request functions of two drivers against the abstract
      disk, all three drivers from load on against arrays of bytes, the hash
      table and the tree against a map.
    - Safety and invariants over all interleavings: mutual exclusion, no lost
      wake-up, accounting of interrupts, a timer that keeps its distance,
      resources that follow the open files, well-formed driver states under any
      system calls, a server that waits for the one child it has, no code of a
      module left running when it is gone.
    - Termination and liveness: loops end with the fuel given; unloading
      three of the interrupt labs, hrtimer.c and kthread_run.c, the completion
      lab and the deadline test come to an end on every run, and the wait-event
      lab with its two programs has no infinite one; no thread keeps kthread_stop from returning for good, no reader
      keeps wait_event.c loaded for good; the one loop that never ends is
      proved not to.
    - Error behaviour and bounds: all-or-nothing loads for every answer of the
      kernel, and counterparts where the code leaks, reports success wrongly,
      or leaves its buffers.

    ** Fuel and bounds

    Loops that are not structural take fuel and answer [NoFuel] without it.
    The theorems give enough of it: one unit per request or segment for the
    request functions, more than the height of the tree for descents, more
    than the number of nodes for list walks, more than the bytes or words
    mapped for the scans of physical memory.  Loops of a fixed count take that
    count.

    ** Not modelled

    printg, which main of kvm-test.c calls and no file defines: it only ends
    in the model.  sample_blk.mod.c, which the build generates;
    sync/rw_sem.c, which is empty; the patches of sched-dl, which change a
    kernel that is not in the repository; Makefiles; the macros of
    include/kernel_helper.h that only choose a print level; modules whose load
    takes nothing from the kernel (taints.c, vm_area.c) and the timers, tasklets and work items of
    timer-labs and sched-lab are not in the table of [Modules], the latter
    because what matters there is when functions run ([Deferred]).  The expiry
    time of timers in timer-labs, and what a virtual machine does once it runs,
    are outside the models.  System calls that user programs do not check may
    fail in the models of the test programs; their mallocs succeed. *)

From stdpp Require Export base tactics list list_numbers gmap strings relations.
From Stdlib Require Export ZArith Lia.
From Stdlib Require Export Morphisms.

#[global] Open Scope Z_scope.
#[global] Set Default Goal Selector "!".
#[global] Set Warnings "-clear-no-such-hyp".

(** ** Machine integers

    A C integer of width [w] is a [Z]; every operation that can leave the
    range is followed by the wrap-around written out. *)

Definition wrap (w n : Z) : Z := n mod 2 ^ w.

Definition swrap (w n : Z) : Z :=
  let u := wrap w n in if u <? 2 ^ (w - 1) then u else u - 2 ^ w.

Definition u8 (n : Z) : Z := wrap 8 n.
Definition u16 (n : Z) : Z := wrap 16 n.
Definition u32 (n : Z) : Z := wrap 32 n.
Definition u64 (n : Z) : Z := wrap 64 n.
Definition s8 (n : Z) : Z := swrap 8 n.
Definition s32 (n : Z) : Z := swrap 32 n.
Definition s64 (n : Z) : Z := swrap 64 n.

(** Tactic of the whole development for goals about machine integers: the
    widths are expanded to literals and [lia] reasons about the divisions. *)
Ltac unfold_int :=
  unfold u8, u16, u32, u64, s8, s32, s64, swrap, wrap in *;
  change (2 ^ 8) with 256 in *; change (2 ^ 16) with 65536 in *;
  change (2 ^ 32) with 4294967296 in *;
  change (2 ^ 64) with 18446744073709551616 in *;
  change (2 ^ (8 - 1)) with 128 in *;
  change (2 ^ (32 - 1)) with 2147483648 in *;
  change (2 ^ (64 - 1)) with 9223372036854775808 in *.

Ltac zify_bool :=
  repeat match goal with
    | H : context [Z.eqb ?a ?b] |- _ => destruct (Z.eqb_spec a b)
    | H : context [Z.ltb ?a ?b] |- _ => destruct (Z.ltb_spec a b)
    | H : context [Z.leb ?a ?b] |- _ => destruct (Z.leb_spec a b)
    | |- context [Z.eqb ?a ?b] => destruct (Z.eqb_spec a b)
    | |- context [Z.ltb ?a ?b] => destruct (Z.ltb_spec a b)
    | |- context [Z.leb ?a ?b] => destruct (Z.leb_spec a b)
    end.

Ltac mlia := unfold_int; Z.div_mod_to_equations; lia.
Ltac blia := unfold_int; zify_bool; Z.div_mod_to_equations; lia.

Create HintDb ints.

Lemma wrap_range w n : 0 <= w -> 0 <= wrap w n < 2 ^ w.
Proof. intros. apply Z.mod_pos_bound. by apply Z.pow_pos_nonneg. Qed.

Lemma wrap_id w n : 0 <= n < 2 ^ w -> wrap w n = n.
Proof. apply Z.mod_small. Qed.

Lemma u32_id n : 0 <= n < 4294967296 -> u32 n = n.
Proof. intros. by apply wrap_id. Qed.

Lemma u64_id n : 0 <= n < 18446744073709551616 -> u64 n = n.
Proof. intros. by apply wrap_id. Qed.

Lemma u64_range n : 0 <= u64 n < 18446744073709551616.
Proof. by apply (wrap_range 64). Qed.

Lemma u32_range n : 0 <= u32 n < 4294967296.
Proof. by apply (wrap_range 32). Qed.

Lemma s32_id n : -2147483648 <= n < 2147483648 -> s32 n = n.
Proof. intros. blia. Qed.

Lemma s32_range n : -2147483648 <= s32 n < 2147483648.
Proof. blia. Qed.

Lemma s64_id n :
  -9223372036854775808 <= n < 9223372036854775808 -> s64 n = n.
Proof. intros. blia. Qed.

Lemma wrap_add_wrap w a b : wrap w (wrap w a + b) = wrap w (a + b).
Proof. apply Zplus_mod_idemp_l. Qed.

Create Rewrite HintDb intw.
#[export] Hint Rewrite u32_id u64_id s32_id s64_id using lia : intw.
#[export] Hint Resolve u32_range u64_range s32_range : ints.

(** ** Errno values (include/uapi/asm-generic/errno-base.h) *)

Definition EIO : Z := 5.
Definition EAGAIN : Z := 11.
Definition ENOMEM : Z := 12.
Definition EFAULT : Z := 14.
Definition EBUSY : Z := 16.
Definition EINVAL : Z := 22.
Definition ENOTTY : Z := 25.
Definition ERESTARTSYS : Z := 512.
Definition EBADF : Z := 9.

(** ** Results of loops

    A loop run with fuel is done, has made a wild memory access, or needs more
    fuel. *)
Inductive outcome (A : Type) :=
  | Done (a : A)
  | Wild
  | NoFuel.
Arguments Done {A} a.
Arguments Wild {A}.
Arguments NoFuel {A}.

(** ** Lists *)

Section lists.
Context {A : Type}.

(** The list left when one occurrence of [x] is taken out of [l]. *)
Fixpoint take_one `{!EqDecision A} (x : A) (l : list A) : option (list A) :=
  match l with
  | [] => None
  | y :: l' =>
      if decide (x = y) then Some l' else (y ::.) <$> take_one x l'
  end.

Lemma take_one_head `{!EqDecision A} (x : A) l : take_one x (x :: l) = Some l.
Proof. simpl. by rewrite decide_True. Qed.

Lemma take_one_perm `{!EqDecision A} (x : A) l l' :
  take_one x l = Some l' -> l ≡ₚ (x :: l').
Proof.
  revert l'. induction l as [|y l IH]; intros l'; simpl; [done|].
  case_decide as Hd; [naive_solver|].
  destruct (take_one x l) as [k|]; intros [= <-].
  rewrite (IH k eq_refl). apply Permutation_swap.
Qed.

Lemma take_one_ne `{!EqDecision A} (x y : A) l :
  x <> y -> take_one x (y :: l) = (y ::.) <$> take_one x l.
Proof. intros. simpl. by rewrite decide_False. Qed.

Lemma take_one_is_Some `{!EqDecision A} (x : A) l : x ∈ l -> is_Some (take_one x l).
Proof.
  induction l as [|y l IH]; [by intros []%not_elem_of_nil|].
  intros [->|Hin]%elem_of_cons; simpl; case_decide; eauto; [done|].
  destruct (IH Hin) as [? ->]. simpl. eauto.
Qed.

Lemma take_later (x y : A) l k : l ≡ₚ (x :: k) -> y :: l ≡ₚ (x :: y :: k).
Proof. intros ->. apply perm_swap. Qed.

(** The elements at the first [n] positions from [k] on. *)
Definition slice (f : Z -> A) (k n : Z) : list A := f <$> seqZ k n.

Lemma length_slice f k n : length (slice f k n) = Z.to_nat n.
Proof. unfold slice. rewrite length_fmap. apply length_seqZ. Qed.

Lemma slice_app f k n1 n2 :
  0 <= n1 -> 0 <= n2 -> slice f k (n1 + n2) = slice f k n1 ++ slice f (k + n1) n2.
Proof. intros. unfold slice. rewrite seqZ_app by lia. by rewrite fmap_app. Qed.

Lemma slice_ext f g k n :
  (forall i, k <= i < k + n -> f i = g i) -> slice f k n = slice g k n.
Proof.
  intros H. apply list_fmap_ext. intros i x Hx.
  apply lookup_seqZ in Hx as [-> ?]. apply H. lia.
Qed.

Lemma slice_shift f k n d : slice f (k + d) n = slice (fun i => f (i + d)) k n.
Proof.
  apply list_eq. intros i. unfold slice. rewrite !list_lookup_fmap.
  destruct (seqZ k n !! i) as [x|] eqn:E.
  - apply lookup_seqZ in E as [-> ?].
    assert (seqZ (k + d) n !! i = Some (k + d + Z.of_nat i)) as -> by by apply lookup_seqZ.
    simpl. do 2 f_equal. lia.
  - rewrite (proj2 (lookup_ge_None (seqZ (k + d) n) i)); [done|].
    apply lookup_ge_None in E. rewrite length_seqZ in *. done.
Qed.

Lemma lookup_slice f k n (i : nat) :
  Z.of_nat i < n -> slice f k n !! i = Some (f (k + Z.of_nat i)).
Proof.
  intros. unfold slice. rewrite list_lookup_fmap.
  by rewrite (proj2 (lookup_seqZ k n i _) (conj eq_refl H)).
Qed.

Lemma slice_inj f g k n :
  slice f k n = slice g k n -> forall i, k <= i < k + n -> f i = g i.
Proof.
  intros E i Hi.
  assert (slice f k n !! Z.to_nat (i - k) = slice g k n !! Z.to_nat (i - k)) as E'
    by by rewrite E.
  rewrite !lookup_slice in E' by lia. injection E' as E'.
  by replace (k + Z.of_nat (Z.to_nat (i - k))) with i in E' by lia.
Qed.

Lemma slice_from0 f k n : slice f k n = slice (fun i => f (k + i)) 0 n.
Proof.
  pose proof (slice_shift f 0 n k) as H. rewrite Z.add_0_l in H. rewrite H.
  apply slice_ext. intros. f_equal. lia.
Qed.
End lists.

(** ** Reachability *)

(** What every step preserves holds wherever the steps lead. *)
Lemma rtc_preserves {A} (R : relation A) (P : A -> Prop) x y :
  (forall a b, R a b -> P a -> P b) -> rtc R x y -> P x -> P y.
Proof. intros H. induction 1; eauto. Qed.

(** ** Strings *)

(** The bytes of a C string, without its NUL. *)
Definition bytes_of (s : string) : list Z :=
  (fun c => Z.of_nat (Ascii.nat_of_ascii c)) <$> String.list_ascii_of_string s.
