(* ===== verification/CMem.v ===== *)
(** * Byte-addressed C memory

    The objects the drivers copy between (ram disks, bio pages, user
    buffers, guest memory) are blocks of bytes; a pointer is a block and an
    offset.  An access outside its block, and a [memcpy] of overlapping
    ranges, are undefined behaviour in C: the operations return [None].
    Contents are functions, so that an 8 MB disk costs nothing to allocate
    and every operation still computes. *)

From S2P Require Import Prelude.

Record block := Block { bsize : Z; bdata : Z -> Z }.

Abbreviation mem := (gmap Z block).
Definition ptr : Type := Z * Z.

Definition padd (p : ptr) (d : Z) : ptr := (p.1, p.2 + d).

(** Contents of block [b] at offset [i] (0 outside the memory). *)
Definition peek (m : mem) (b i : Z) : Z :=
  match m !! b with Some k => bdata k i | None => 0 end.

Definition bytes (m : mem) (p : ptr) (n : Z) : list Z :=
  slice (peek m p.1) p.2 n.

(** The [n] bytes at [p] are inside an allocated block. *)
Definition valid (m : mem) (p : ptr) (n : Z) : bool :=
  match m !! p.1 with
  | Some k => (0 <=? n) && (0 <=? p.2) && (p.2 + n <=? bsize k)
  | None => false
  end.

Definition overlap (p q : ptr) (n : Z) : bool :=
  (p.1 =? q.1) && (p.2 <? q.2 + n) && (q.2 <? p.2 + n).

(** [k] with its [n] bytes from [o] on replaced by [f 0 .. f (n-1)]. *)
Definition put (k : block) (o n : Z) (f : Z -> Z) : block :=
  Block (bsize k)
    (fun i => if (o <=? i) && (i <? o + n) then f (i - o) else bdata k i).

Definition write (m : mem) (p : ptr) (n : Z) (f : Z -> Z) : option mem :=
  if valid m p n then
    match m !! p.1 with
    | Some k => Some (<[p.1 := put k p.2 n f]> m)
    | None => None
    end
  else None.

Definition memcpy (m : mem) (dst src : ptr) (n : Z) : option mem :=
  if valid m src n && negb (overlap dst src n)
  then write m dst n (fun i => peek m src.1 (src.2 + i))
  else None.

Definition memset (m : mem) (p : ptr) (c n : Z) : option mem :=
  write m p n (fun _ => u8 c).

(** Bytes of a literal: [memcpy] from an array of the program's data. *)
Definition store_list (m : mem) (p : ptr) (l : list Z) : option mem :=
  write m p (Z.of_nat (length l)) (fun i => nth (Z.to_nat i) l 0).

Definition load (m : mem) (p : ptr) : option Z :=
  if valid m p 1 then Some (peek m p.1 p.2) else None.

(** Little-endian stores and loads of machine words. *)
Definition le_byte (v i : Z) : Z := Z.land (Z.shiftr v (8 * i)) 255.

Definition store_le (w : Z) (m : mem) (p : ptr) (v : Z) : option mem :=
  write m p w (le_byte v).

Definition peek_le (w : nat) (m : mem) (b i : Z) : Z :=
  foldr (fun j acc => Z.lor (Z.shiftl (peek m b (i + Z.of_nat j)) (8 * Z.of_nat j)) acc)
    0 (seq 0 w).

(** ** Memories with the same contents *)

(** Two memories are equivalent when they have the same blocks with the
    same sizes and bytes: contents are compared pointwise, so equivalence is
    coarser than equality. *)
Definition same_mem (m1 m2 : mem) : Prop :=
  forall b, bsize <$> (m1 !! b) = bsize <$> (m2 !! b) /\
            forall i, peek m1 b i = peek m2 b i.

Infix "≃" := same_mem (at level 70).

#[export] Instance same_mem_equivalence : Equivalence same_mem.
Proof.
  split.
  - by intros m b.
  - intros m1 m2 H b. destruct (H b) as [-> H2]. done.
  - intros m1 m2 m3 H H' b. destruct (H b) as [-> H2], (H' b) as [-> H3].
    split; [done|]. intros i. by rewrite H2.
Qed.

Lemma valid_bsize m p n :
  valid m p n =
  match bsize <$> (m !! p.1) with
  | Some s => (0 <=? n) && (0 <=? p.2) && (p.2 + n <=? s)
  | None => false
  end.
Proof. unfold valid. by destruct (m !! p.1). Qed.

#[export] Instance peek_proper : Proper (same_mem ==> eq ==> eq ==> eq) peek.
Proof. intros m1 m2 H b ? <- i ? <-. apply H. Qed.

#[export] Instance valid_proper : Proper (same_mem ==> eq ==> eq ==> eq) valid.
Proof.
  intros m1 m2 H p ? <- n ? <-. rewrite !valid_bsize. by destruct (H p.1) as [-> _].
Qed.

#[export] Instance bytes_proper : Proper (same_mem ==> eq ==> eq ==> eq) bytes.
Proof. intros m1 m2 H p ? <- n ? <-. apply slice_ext. intros. by rewrite H. Qed.

(** The same blocks with the same sizes, whatever they contain. *)
Definition same_alloc (m m' : mem) : Prop :=
  forall b, bsize <$> (m' !! b) = bsize <$> (m !! b).

Lemma same_alloc_valid m m' p n : same_alloc m m' -> valid m' p n = valid m p n.
Proof. intros H. by rewrite !valid_bsize, H. Qed.

#[export] Instance same_alloc_preorder : PreOrder same_alloc.
Proof. split; [by intros m b|]. intros m1 m2 m3 H1 H2 b. by rewrite H2, H1. Qed.

(** ** What a write does *)

Section write.
Implicit Types (m : mem) (p q : ptr) (f : Z -> Z).

Lemma write_is_Some m p n f : valid m p n = true -> is_Some (write m p n f).
Proof.
  unfold write. intros Hv. rewrite Hv. unfold valid in Hv.
  destruct (m !! p.1); naive_solver.
Qed.

Lemma write_None m p n f : write m p n f = None <-> valid m p n = false.
Proof.
  unfold write, valid. destruct (m !! p.1); [|done].
  destruct (_ && _); naive_solver.
Qed.

Lemma write_valid m m' p n f : write m p n f = Some m' -> valid m p n = true.
Proof. unfold write. by destruct (valid m p n). Qed.

Lemma write_alloc m m' p n f : write m p n f = Some m' -> same_alloc m m'.
Proof.
  intros H b. revert H. unfold write. destruct (valid m p n); [|done].
  destruct (m !! p.1) as [k|] eqn:E; intros [= <-].
  destruct (decide (b = p.1)) as [->|Hne].
  - by rewrite lookup_insert_eq, E.
  - by rewrite lookup_insert_ne.
Qed.

Lemma write_peek m m' p n f b i :
  write m p n f = Some m' ->
  peek m' b i =
  if (b =? p.1) && (p.2 <=? i) && (i <? p.2 + n) then f (i - p.2) else peek m b i.
Proof.
  unfold write, peek. destruct (valid m p n); [|done].
  destruct (m !! p.1) as [k|] eqn:E; intros [= <-].
  destruct (Z.eqb_spec b p.1) as [->|Hne]; simpl.
  - by rewrite lookup_insert_eq, E.
  - by rewrite lookup_insert_ne.
Qed.

Lemma write_preserves_valid m m' p n f q k :
  write m p n f = Some m' -> valid m' q k = valid m q k.
Proof.
  intros H. by eapply same_alloc_valid, write_alloc.
Qed.

Lemma write_frame m m' p n f b i :
  write m p n f = Some m' ->
  b <> p.1 \/ i < p.2 \/ p.2 + n <= i -> peek m' b i = peek m b i.
Proof.
  intros H Hout. rewrite (write_peek _ _ _ _ _ _ _ H).
  zify_bool; simpl; try done; lia.
Qed.

Lemma write_inside m m' p n f i :
  write m p n f = Some m' -> p.2 <= i < p.2 + n -> peek m' p.1 i = f (i - p.2).
Proof.
  intros H Hin. rewrite (write_peek _ _ _ _ _ _ _ H), Z.eqb_refl.
  zify_bool; simpl; try done; lia.
Qed.

(** Reading back what was written. *)
Lemma bytes_write_same m m' p n f :
  write m p n f = Some m' -> bytes m' p n = slice f 0 n.
Proof.
  intros H. unfold bytes.
  rewrite slice_from0. apply slice_ext. intros i Hi.
  rewrite (write_inside _ _ _ _ _ _ H) by lia. f_equal. lia.
Qed.

(** Bytes outside the range written are unchanged. *)
Lemma bytes_write_frame m m' p n f q k :
  write m p n f = Some m' ->
  q.1 <> p.1 \/ q.2 + k <= p.2 \/ p.2 + n <= q.2 ->
  bytes m' q k = bytes m q k.
Proof.
  intros H Hout. apply slice_ext. intros i Hi.
  apply (write_frame _ _ _ _ _ _ _ H). destruct (decide (q.1 = p.1)); [right|by left]. lia.
Qed.

(** Equivalent memories stay equivalent under the same write. *)
Lemma write_same_mem m1 m2 p n f g m1' :
  m1 ≃ m2 -> (forall i, 0 <= i < n -> f i = g i) -> write m1 p n f = Some m1' ->
  exists m2', write m2 p n g = Some m2' /\ m1' ≃ m2'.
Proof.
  intros Hm Hfg H. pose proof (write_valid _ _ _ _ _ H) as Hv.
  rewrite Hm in Hv. destruct (write_is_Some _ _ _ g Hv) as [m2' H2].
  exists m2'. split; [done|]. intros b.
  rewrite (write_alloc _ _ _ _ _ H b), (write_alloc _ _ _ _ _ H2 b).
  split; [apply Hm|]. intros i.
  rewrite (write_peek _ _ _ _ _ _ _ H), (write_peek _ _ _ _ _ _ _ H2), Hm.
  destruct (_ && _) eqn:E; [|done]. apply Hfg. zify_bool; naive_solver lia.
Qed.
End write.

(** ** memcpy *)

Section memcpy.
Implicit Types (m : mem) (dst src p : ptr).

Lemma memcpy_write m m' dst src n :
  memcpy m dst src n = Some m' ->
  write m dst n (fun i => peek m src.1 (src.2 + i)) = Some m' /\
  valid m src n = true /\ overlap dst src n = false.
Proof.
  unfold memcpy. destruct (valid m src n), (overlap dst src n); naive_solver.
Qed.

(** Between different blocks [memcpy] is defined as soon as both ranges are
    inside their blocks. *)
Lemma memcpy_ok m dst src n :
  dst.1 <> src.1 -> valid m dst n = true -> valid m src n = true ->
  exists m', memcpy m dst src n = Some m'.
Proof.
  intros Hne Hd Hs. unfold memcpy, overlap. rewrite Hs.
  destruct (Z.eqb_spec dst.1 src.1); [done|]. simpl.
  destruct (write_is_Some _ _ _ (fun i => peek m src.1 (src.2 + i)) Hd); eauto.
Qed.

Lemma memcpy_oob m dst src n :
  valid m dst n = false \/ valid m src n = false -> memcpy m dst src n = None.
Proof.
  unfold memcpy. intros [Hv|Hv]; [|by rewrite Hv].
  destruct (_ && _); [|done]. by apply write_None.
Qed.

Lemma bytes_memcpy m m' dst src n :
  memcpy m dst src n = Some m' -> bytes m' dst n = bytes m src n.
Proof.
  intros (H & _ & _)%memcpy_write. rewrite (bytes_write_same _ _ _ _ _ H).
  unfold bytes. by rewrite (slice_from0 _ src.2).
Qed.
End memcpy.

(** [memset] of a whole new block. *)
Lemma memset_new m p n f c :
  0 <= n ->
  memset (<[p := Block n f]> m) (p, 0) c n =
  Some (<[p := put (Block n f) 0 n (fun _ => u8 c)]> m).
Proof.
  intros. unfold memset, write, valid; simpl. rewrite lookup_insert_eq; simpl.
  zify_bool; try lia. simpl. f_equal. apply insert_insert_eq.
Qed.

(** ** User space

    [copy_to_user] and [copy_from_user] return how many of the [n] bytes they
    could not copy, [left]; that number is decided outside the module.  What
    copy_from_user could not copy it fills with zeros. *)

Definition copy_to_user (m : mem) (src : ptr) (n left : Z) : option (list Z) :=
  if valid m src (n - left) then Some (bytes m src (n - left)) else None.

Definition copy_from_user (m : mem) (dst : ptr) (ubuf : list Z) (n left : Z) : option mem :=
  write m dst n (fun i => if i <? n - left then nth (Z.to_nat i) ubuf 0 else 0).

Lemma slice_nth (l : list Z) n :
  0 <= n <= Z.of_nat (length l) ->
  slice (fun i => nth (Z.to_nat i) l 0) 0 n = take (Z.to_nat n) l.
Proof.
  intros Hn. apply list_eq. intros i.
  destruct (decide (Z.of_nat i < n)) as [Hi|Hi].
  - rewrite lookup_slice by lia. rewrite lookup_take_lt by lia.
    rewrite Z.add_0_l, Nat2Z.id. symmetry. destruct (lookup_lt_is_Some_2 l i) as [x Hx]; [lia|].
    by rewrite Hx, (nth_lookup_Some _ _ _ _ Hx).
  - rewrite !lookup_ge_None_2; [done|rewrite length_take; lia|rewrite length_slice; lia].
Qed.

Lemma bytes_copy_from_user m m' dst ubuf n left k :
  copy_from_user m dst ubuf n left = Some m' -> 0 <= k <= n - left -> 0 <= left ->
  k <= Z.of_nat (length ubuf) -> bytes m' dst k = take (Z.to_nat k) ubuf.
Proof.
  intros H Hk Hl Hlen. unfold bytes. rewrite slice_from0, <- slice_nth by lia.
  apply slice_ext. intros i Hi. rewrite (write_inside _ _ _ _ _ _ H) by lia.
  replace (dst.2 + i - dst.2) with i by lia. zify_bool; [done|lia].
Qed.

Lemma copy_to_user_ok m src n left :
  valid m src (n - left) = true -> copy_to_user m src n left = Some (bytes m src (n - left)).
Proof. unfold copy_to_user. by intros ->. Qed.

Create HintDb cmem.
#[export] Hint Resolve memcpy_ok : cmem.
