(* ===== verification/Words.v ===== *)
(** * Machine words

    Bit fields of integers, and the words that the little-endian stores of
    [CMem] leave in memory. *)

From S2P Require Import Prelude CMem.

(** ** Bit fields *)

(** Bits [lo .. lo + n - 1] of [x]. *)
Definition field (x lo n : Z) : Z := Z.land (Z.shiftr x lo) (Z.ones n).

Section fields.
Implicit Types x lo n w k : Z.

Lemma field_lor x y lo n : field (Z.lor x y) lo n = Z.lor (field x lo n) (field y lo n).
Proof. unfold field. by rewrite Z.shiftr_lor, Z.land_lor_distr_l. Qed.

Lemma field_spec x lo n i :
  0 <= lo -> 0 <= n -> 0 <= i -> Z.testbit (field x lo n) i = Z.testbit x (i + lo) && (i <? n).
Proof.
  intros. unfold field. rewrite Z.land_spec, Z.shiftr_spec by lia. f_equal.
  destruct (Z.ltb_spec i n); [apply Z.ones_spec_low|apply Z.ones_spec_high]; lia.
Qed.

Lemma field_u64 x lo n : 0 <= lo -> 0 <= n -> lo + n <= 64 -> field (u64 x) lo n = field x lo n.
Proof.
  intros. apply Z.bits_inj'. intros i Hi. rewrite !field_spec by lia.
  destruct (Z.ltb_spec i n); rewrite ?andb_false_r; [|done]. f_equal.
  unfold u64, wrap. apply Z.mod_pow2_bits_low. lia.
Qed.

Lemma field_above x k lo n :
  0 <= lo -> 0 <= n -> lo + n <= k -> field (Z.shiftl x k) lo n = 0.
Proof.
  intros. apply Z.bits_inj'. intros i Hi. rewrite field_spec, Z.bits_0 by lia.
  destruct (Z.ltb_spec i n); rewrite ?andb_false_r; [|done].
  by rewrite Z.shiftl_spec_low by lia.
Qed.

Lemma testbit_small x w i : 0 <= x < 2 ^ w -> 0 <= w -> w <= i -> Z.testbit x i = false.
Proof.
  intros Hx Hw Hi. rewrite <- (Z.mod_small x (2 ^ w)) by lia.
  apply Z.mod_pow2_bits_high. lia.
Qed.

Lemma field_below x k w lo n :
  0 <= x < 2 ^ w -> 0 <= w -> 0 <= k -> 0 <= lo -> 0 <= n -> k + w <= lo ->
  field (Z.shiftl x k) lo n = 0.
Proof.
  intros Hx ? ? ? ? ?. apply Z.bits_inj'. intros i Hi. rewrite field_spec, Z.bits_0 by lia.
  rewrite Z.shiftl_spec, (testbit_small x w) by lia. done.
Qed.

Lemma field_at x lo n : 0 <= x < 2 ^ n -> 0 <= lo -> 0 <= n -> field (Z.shiftl x lo) lo n = x.
Proof.
  intros Hx ? ?. apply Z.bits_inj'. intros i Hi. rewrite field_spec by lia.
  rewrite Z.shiftl_spec by lia. replace (i + lo - lo) with i by lia.
  destruct (Z.ltb_spec i n); [by rewrite andb_true_r|].
  by rewrite (testbit_small x n) by lia.
Qed.

(** Masking a field leaves it where it is. *)
Lemma land_mask x k n :
  0 <= k -> 0 <= n -> Z.land x (Z.shiftl (Z.ones n) k) = Z.shiftl (field x k n) k.
Proof.
  intros Hk Hn. apply Z.bits_inj'. intros i Hi. rewrite Z.land_spec, !Z.shiftl_spec by lia.
  destruct (Z.ltb_spec i k) as [Hlt|Hge].
  - rewrite !(Z.testbit_neg_r _ (i - k)) by lia. by rewrite andb_false_r.
  - rewrite field_spec by lia. replace (i - k + k) with i by lia. f_equal.
    destruct (Z.ltb_spec (i - k) n); [apply Z.ones_spec_low|apply Z.ones_spec_high]; lia.
Qed.

Lemma land_ones_bound x n m : 0 <= n -> m = Z.ones n -> 0 <= Z.land x m < 2 ^ n.
Proof. intros Hn ->. rewrite Z.land_ones by done. apply Z.mod_pos_bound. by apply Z.pow_pos_nonneg. Qed.
End fields.

(** ** Words in memory *)

Lemma join_fields v a n k :
  0 <= a -> 0 <= n -> 0 <= k ->
  Z.lor (Z.shiftl (field v a n) a) (Z.shiftl (field v (a + n) k) (a + n)) =
  Z.shiftl (field v a (n + k)) a.
Proof.
  intros. rewrite <- !land_mask, <- Z.land_lor_distr_r by lia. f_equal.
  apply Z.bits_inj'. intros i Hi. rewrite Z.lor_spec, !Z.shiftl_spec by lia.
  destruct (Z.ltb_spec i a); [by rewrite !(Z.testbit_neg_r _ (i - _)) by lia|].
  destruct (Z.ltb_spec (i - a) n).
  - rewrite !(Z.ones_spec_low _ (i - a)) by lia. done.
  - rewrite (Z.ones_spec_high n) by lia. simpl.
    destruct (Z.ltb_spec (i - a) (n + k)).
    + rewrite !Z.ones_spec_low by lia. done.
    + rewrite !Z.ones_spec_high by lia. done.
Qed.

Lemma le_bytes_join v k w :
  foldr (fun j acc => Z.lor (Z.shiftl (le_byte v (Z.of_nat j)) (8 * Z.of_nat j)) acc) 0 (seq k w)
  = Z.shiftl (field v (8 * Z.of_nat k) (8 * Z.of_nat w)) (8 * Z.of_nat k).
Proof.
  revert k. induction w as [|w IH]; intros k; simpl.
  { unfold field. by rewrite Z.land_0_r, Z.shiftl_0_l. }
  rewrite IH. change (le_byte v (Z.of_nat k)) with (field v (8 * Z.of_nat k) 8).
  replace (8 * Z.of_nat (S k)) with (8 * Z.of_nat k + 8) by lia.
  rewrite join_fields by lia. do 2 f_equal. lia.
Qed.

(** A word whose bytes are those of [v]. *)
Lemma peek_le_bytes w m b i v :
  (forall j, (j < w)%nat -> peek m b (i + Z.of_nat j) = le_byte v (Z.of_nat j)) ->
  peek_le w m b i = v mod 2 ^ (8 * Z.of_nat w).
Proof.
  intros Hj. transitivity (field v 0 (8 * Z.of_nat w)).
  2: { unfold field. by rewrite Z.shiftr_0_r, Z.land_ones by lia. }
  pose proof (le_bytes_join v 0 w) as E. change (8 * Z.of_nat 0) with 0 in E.
  rewrite Z.shiftl_0_r in E. rewrite <- E. clear E. unfold peek_le.
  assert (forall j, j ∈ seq 0 w -> (j < w)%nat) as Hin by (intros j ?%elem_of_seq; lia).
  induction (seq 0 w) as [|j l IH]; simpl; [done|].
  rewrite Hj by (apply Hin; left). rewrite IH; [done|]. intros k Hk. apply Hin. by right.
Qed.

(** What a store of a word leaves in memory is read back. *)
Lemma peek_store_le w m p v m' :
  store_le (Z.of_nat w) m p v = Some m' ->
  peek_le w m' p.1 p.2 = v mod 2 ^ (8 * Z.of_nat w).
Proof.
  intros E. apply peek_le_bytes. intros j Hj.
  rewrite (write_inside _ _ _ _ _ (p.2 + Z.of_nat j) E) by lia. f_equal. lia.
Qed.

Lemma peek_le_ext w m m' b i :
  (forall j, (j < w)%nat -> peek m b (i + Z.of_nat j) = peek m' b (i + Z.of_nat j)) ->
  peek_le w m b i = peek_le w m' b i.
Proof.
  intros Hj. unfold peek_le.
  assert (forall j, j ∈ seq 0 w -> (j < w)%nat) as Hin by (intros j ?%elem_of_seq; lia).
  induction (seq 0 w) as [|j l IH]; simpl; [done|].
  rewrite Hj by (apply Hin; left). rewrite IH; [done|]. intros k Hk. apply Hin. by right.
Qed.
