(* ===== verification/Kernel.v ===== *)
(** * Calls into the kernel

    The labs are loadable modules: everything outside their own files (slab,
    vmalloc, block layer, character devices, IRQs ...) is the kernel, which is
    not part of the repository.  A call is an event [kcall] with its
    arguments; what the kernel answers is a parameter of every model, an
    environment [kenv] that sees the whole history of calls.  Module code runs
    in the state, environment and failure monad [M]: the state is the module's
    own globals, failure is a kernel oops (a NULL or wild pointer is used). *)

From S2P Require Import Prelude.

(** The kernel functions the modules call.  Pointers and device numbers are
    integers, 0 is NULL. *)
Inductive kcall :=
  (* memory *)
  | kmalloc (size : Z) | kzalloc (size : Z) | kfree (p : Z)
  | vmalloc (size : Z) | vfree (p : Z)
  | alloc_pages (order : Z) | free_pages (p order : Z) | kmap (p : Z) | kunmap (p : Z)
  | SetPageReserved (p : Z) | ClearPageReserved (p : Z)
  | kmem_cache_create (name : string) (size : Z) | kmem_cache_destroy (c : Z)
  | kmem_cache_alloc (c : Z) | kmem_cache_free (c p : Z)
  | ioremap (phys size : Z) | iounmap (p : Z) | release_mem_region (phys size : Z)
  (* block devices *)
  | register_blkdev (major : Z) (name : string) | unregister_blkdev (major : Z) (name : string)
  | alloc_disk (minors : Z) | put_disk (gd : Z) | add_disk (gd : Z) | del_gendisk (gd : Z)
  | set_capacity (gd sectors : Z)
  | blk_init_queue (lock : Z) | blk_alloc_queue | blk_cleanup_queue (q : Z)
  | blk_queue_make_request (q : Z) | blk_set_stacking_limits (q : Z)
  | spin_lock_init (lock : Z)
  (* character devices, the driver model *)
  | alloc_chrdev_region (count : Z) (name : string)
  | unregister_chrdev_region (dev count : Z)
  | cdev_alloc | cdev_init (c : Z) | cdev_add (c dev count : Z) | cdev_del (c : Z)
  | class_create (name : string) | class_destroy (c : Z)
  | device_create (c dev : Z) (name : string) | device_destroy (c dev : Z)
  | misc_register (name : string) | misc_deregister (name : string)
  (* notifiers, probes, sysfs *)
  | register_module_notifier (nb : Z) | unregister_module_notifier (nb : Z)
  | kallsyms_lookup_name (name : string)
  | register_kprobe (name : string) | unregister_kprobe (name : string)
  | kobject_create_and_add (name : string) (parent : Z)
  | kset_create_and_add (name : string) (parent : Z)
  | kobject_init_and_add (k parent : Z) (name : string)
  | sysfs_create_file (k : Z) | sysfs_remove_file (k : Z)
  | kset_unregister (k : Z) | kobject_del (k : Z) | kobject_uevent (k action : Z)
  (* deferred work, timers, threads, interrupts *)
  | kthread_run (name : string) | kthread_stop (t : Z)
  | request_irq (irq : Z) | free_irq (irq : Z) | synchronize_irq (irq : Z)
  | tasklet_init | tasklet_schedule | tasklet_kill
  | INIT_WORK | schedule_work
  | timer_setup (t : Z) | add_timer (t expires : Z)
  | del_timer (t : Z) | del_timer_sync (t : Z)
  | hrtimer_init | hrtimer_start (ns : Z) | hrtimer_cancel
  | read_jiffies
  (* output *)
  | printk (fmt : string) (args : list Z).

(** An event is a call with its return value and its out-parameter (0 when
    the function has none).  Traces are newest first. *)
Abbreviation trace := (list (kcall * (Z * Z))).

Definition kenv : Type := trace -> kcall -> Z * Z.

(** ** The monad *)

Definition M (S A : Type) : Type := kenv -> S -> trace -> option A * S * trace.

#[export] Instance M_ret S : MRet (M S) := fun A a _ s tr => (Some a, s, tr).

#[export] Instance M_bind S : MBind (M S) := fun A B k c env s tr =>
  match c env s tr with
  | (Some a, s', tr') => k a env s' tr'
  | (None, s', tr') => (None, s', tr')
  end.

Definition oops {S A} : M S A := fun _ s tr => (None, s, tr).
Definition get {S} : M S S := fun _ s tr => (Some s, s, tr).
Definition gets {S A} (f : S -> A) : M S A := fun _ s tr => (Some (f s), s, tr).
Definition modify {S} (f : S -> S) : M S () := fun _ s tr => (Some (), f s, tr).

(** A call that also returns a value through a pointer argument. *)
Definition call2 {S} (c : kcall) : M S (Z * Z) := fun env s tr =>
  let r := env tr c in (Some r, s, (c, r) :: tr).

Definition call {S} (c : kcall) : M S Z := fun env s tr =>
  let r := env tr c in (Some r.1, s, (c, r) :: tr).

(** [for (i = lo; i < lo + n; i++) body(i)], where the body may return from
    the enclosing function with a value. *)
Fixpoint for_loop {S R} (lo : Z) (n : nat) (body : Z -> M S (option R)) : M S (option R) :=
  match n with
  | O => mret None
  | Datatypes.S n' =>
      r ← body lo;
      match r with
      | Some v => mret (Some v)
      | None => for_loop (lo + 1) n' body
      end
  end.

(** ** Error pointers (include/linux/err.h) *)

Definition IS_ERR (p : Z) : bool := (2 ^ 64 - 4095 <=? p) && (p <? 2 ^ 64).
Definition PTR_ERR (p : Z) : Z := s64 p.

(** ** Resources held by a module

    What the kernel documents a successful call to hand out, and which call
    gives it back.  [audit] replays a trace: [None] as soon as something is
    given back that is not held (double free, or free of what was never
    obtained), otherwise the resources still held. *)

Inductive res :=
  | RMem (p : Z) | RVmem (p : Z) | RPage (p : Z) | RKmap (p : Z) | RReserved (p : Z)
  | RCache (c : Z) | RObj (c p : Z) | RIomap (p : Z)
  | RBlkdev (major : Z) | RDisk (gd : Z) | RDiskLive (gd : Z) | RQueue (q : Z)
  | RRegion (dev : Z) | RCdev (c : Z) | RCdevMem (c : Z) | RClass (c : Z) | RDevice (c dev : Z)
  | RMisc (name : string) | RNotifier (nb : Z) | RKprobe (name : string)
  | RThread (t : Z) | RIrq (irq : Z) | RTimer (t : Z) | RMemRegion (phys : Z).

#[export] Instance res_eq_dec : EqDecision res.
Proof. solve_decision. Defined.

(** Resources a successful call hands out; [r] is what it returned, [o] its
    out-parameter.  cdev_alloc makes a cdev that frees itself with its last
    reference, which cdev_del drops; cdev_init clears the structure and makes
    it one whose memory ([RCdevMem]) is the caller's to free.  A memory region
    would come from request_mem_region, which no module calls. *)
Definition acquired (c : kcall) (r o : Z) : option res :=
  let nonnull x := if r =? 0 then None else Some x in
  let zero x := if r =? 0 then Some x else None in
  match c with
  | kmalloc _ | kzalloc _ => nonnull (RMem r)
  | vmalloc _ => nonnull (RVmem r)
  | alloc_pages _ => nonnull (RPage r)
  | kmap p => Some (RKmap p)
  | SetPageReserved p => Some (RReserved p)
  | kmem_cache_create _ _ => nonnull (RCache r)
  | kmem_cache_alloc c => nonnull (RObj c r)
  | ioremap _ _ => nonnull (RIomap r)
  | register_blkdev m _ =>
      if r <? 0 then None else Some (RBlkdev (if m =? 0 then r else m))
  | alloc_disk _ => nonnull (RDisk r)
  | add_disk gd => Some (RDiskLive gd)
  | blk_init_queue _ | blk_alloc_queue => nonnull (RQueue r)
  | alloc_chrdev_region _ _ => zero (RRegion o)
  | cdev_alloc => nonnull (RCdev r)
  | cdev_init c => Some (RCdevMem c)
  | class_create _ => if IS_ERR r then None else Some (RClass r)
  | device_create c d _ => if IS_ERR r then None else Some (RDevice c d)
  | misc_register n => zero (RMisc n)
  | register_module_notifier nb => zero (RNotifier nb)
  | register_kprobe n => zero (RKprobe n)
  | kthread_run _ => if IS_ERR r then None else Some (RThread r)
  | request_irq i => zero (RIrq i)
  | add_timer t _ => Some (RTimer t)
  | _ => None
  end.

(** What stays behind of a cdev from cdev_alloc that went through cdev_init and
    cdev_del. *)
Definition lost_cdev (c : Z) : list res := if c =? 0 then [] else [RCdevMem c].

Definition released (c : kcall) : option res :=
  let nonnull p x := if p =? 0 then None else Some x in
  match c with
  | kfree p => nonnull p (RMem p)
  | vfree p => nonnull p (RVmem p)
  | free_pages p _ => nonnull p (RPage p)
  | kunmap p => Some (RKmap p)
  | ClearPageReserved p => Some (RReserved p)
  | kmem_cache_destroy c => nonnull c (RCache c)
  | kmem_cache_free c p => Some (RObj c p)
  | iounmap p => Some (RIomap p)
  | unregister_blkdev m _ => Some (RBlkdev m)
  | put_disk gd => Some (RDisk gd)
  | del_gendisk gd => Some (RDiskLive gd)
  | blk_cleanup_queue q => Some (RQueue q)
  | unregister_chrdev_region d _ => Some (RRegion d)
  | cdev_del c => Some (RCdev c)
  | release_mem_region p _ => Some (RMemRegion p)
  | class_destroy c => Some (RClass c)
  | device_destroy c d => Some (RDevice c d)
  | misc_deregister n => Some (RMisc n)
  | unregister_module_notifier nb => Some (RNotifier nb)
  | unregister_kprobe n => Some (RKprobe n)
  | kthread_stop t => Some (RThread t)
  | free_irq i => Some (RIrq i)
  | _ => None
  end.

(** [del_timer] on a timer that is not pending does nothing and is allowed. *)
Definition drop_timer (c : kcall) (h : list res) : list res :=
  match c with
  | del_timer t | del_timer_sync t => default h (take_one (RTimer t) h)
  | _ => h
  end.

Definition account (c : kcall) (r o : Z) (h : list res) : option (list res) :=
  match acquired c r o with
  | Some x => Some (x :: h)
  | None =>
      match released c with
      | Some x => take_one x h
      | None => Some (drop_timer c h)
      end
  end.

Fixpoint audit (tr : trace) : option (list res) :=
  match tr with
  | [] => Some []
  | (c, (r, o)) :: tr' => h ← audit tr'; account c r o h
  end.

(** What a run leaves behind: the resources still held at its end. *)
Definition leaves {A S} (out : option A * S * trace) : option (list res) := audit out.2.

(** ** Running and simplifying *)

Definition returns {A S} (out : option A * S * trace) : option A := out.1.1.
Definition final {A S} (out : option A * S * trace) : S := out.1.2.

Ltac munfold :=
  unfold mbind, M_bind, mret, M_ret, call, call2, get, gets, modify, oops in *.

(** ** Weakest preconditions

    [wp c env s tr Q]: running [c] from state [s] and history [tr] ends in a
    result, state and history that satisfy [Q]; [None] is an oops.  [wstep]
    runs the code symbolically, one kernel answer at a time. *)

Definition wp {S A} (c : M S A) (env : kenv) (s : S) (tr : trace)
    (Q : option A -> S -> trace -> Prop) : Prop :=
  Q (c env s tr).1.1 (c env s tr).1.2 (c env s tr).2.

Section wp.
Context {S : Type}.
Implicit Types (env : kenv) (s : S) (tr : trace).

Lemma wp_run {A} (c : M S A) env s tr Q a s' tr' :
  wp c env s tr Q -> c env s tr = (a, s', tr') -> Q a s' tr'.
Proof. unfold wp. intros H E. by rewrite E in H. Qed.

Lemma wp_mono {A} (c : M S A) env s tr (P Q : option A -> S -> trace -> Prop) :
  wp c env s tr P -> (forall a s' tr', P a s' tr' -> Q a s' tr') -> wp c env s tr Q.
Proof. unfold wp. auto. Qed.

Lemma wp_bind {A B} (c : M S A) (k : A -> M S B) env s tr Q :
  wp c env s tr (fun a s' tr' =>
    match a with Some a => wp (k a) env s' tr' Q | None => Q None s' tr' end) ->
  wp (c ≫= k) env s tr Q.
Proof. unfold wp, mbind, M_bind. by destruct (c env s tr) as [[[] ?] ?]. Qed.

(** The rules [wstep] applies, for a primitive followed by [k]. *)
Lemma wp_assoc {A B C} (c : M S A) (k1 : A -> M S B) (k2 : B -> M S C) env s tr Q :
  wp (c ≫= fun a => k1 a ≫= k2) env s tr Q -> wp ((c ≫= k1) ≫= k2) env s tr Q.
Proof. unfold wp, mbind, M_bind. by destruct (c env s tr) as [[[] ?] ?]. Qed.

Lemma wp_bind_call {B} c (k : Z -> M S B) env s tr Q :
  (forall r o, env tr c = (r, o) -> wp (k r) env s ((c, (r, o)) :: tr) Q) ->
  wp (call c ≫= k) env s tr Q.
Proof.
  intros H. destruct (env tr c) as [r o] eqn:E. specialize (H r o eq_refl).
  unfold wp, mbind, M_bind, call in *. by rewrite E.
Qed.

Lemma wp_bind_call2 {B} c (k : Z * Z -> M S B) env s tr Q :
  (forall r o, env tr c = (r, o) -> wp (k (r, o)) env s ((c, (r, o)) :: tr) Q) ->
  wp (call2 c ≫= k) env s tr Q.
Proof.
  intros H. destruct (env tr c) as [r o] eqn:E. specialize (H r o eq_refl).
  unfold wp, mbind, M_bind, call2 in *. by rewrite E.
Qed.

Lemma wp_bind_ret {A B} (a : A) (k : A -> M S B) env s tr Q :
  wp (k a) env s tr Q -> wp (mret a ≫= k) env s tr Q.
Proof. done. Qed.

Lemma wp_bind_get {B} (k : S -> M S B) env s tr Q :
  wp (k s) env s tr Q -> wp (get ≫= k) env s tr Q.
Proof. done. Qed.

Lemma wp_bind_modify {B} f (k : () -> M S B) env s tr Q :
  wp (k ()) env (f s) tr Q -> wp (modify f ≫= k) env s tr Q.
Proof. done. Qed.

Lemma wp_bind_oops {A B} (k : A -> M S B) env s tr (Q : option B -> S -> trace -> Prop) :
  Q None s tr -> wp (oops ≫= k) env s tr Q.
Proof. done. Qed.

Lemma wp_ret {A} (a : A) env s tr (Q : option A -> S -> trace -> Prop) :
  Q (Some a) s tr -> wp (mret a) env s tr Q.
Proof. done. Qed.

Lemma wp_oops {A} env s tr (Q : option A -> S -> trace -> Prop) :
  Q None s tr -> wp oops env s tr Q.
Proof. done. Qed.

Lemma wp_modify f env s tr (Q : option () -> S -> trace -> Prop) :
  Q (Some ()) (f s) tr -> wp (modify f) env s tr Q.
Proof. done. Qed.

Lemma wp_call c env s tr (Q : option Z -> S -> trace -> Prop) :
  (forall r o, env tr c = (r, o) -> Q (Some r) s ((c, (r, o)) :: tr)) ->
  wp (call c) env s tr Q.
Proof.
  intros H. unfold wp, call; simpl. destruct (env tr c) as [r o] eqn:E. by apply H.
Qed.
End wp.

Ltac wstep :=
  lazymatch goal with
  | |- wp (mbind _ (mbind _ _)) _ _ _ _ => apply wp_assoc
  | |- wp (mbind _ (call _)) _ _ _ _ => apply wp_bind_call; intros
  | |- wp (mbind _ (call2 _)) _ _ _ _ => apply wp_bind_call2; intros
  | |- wp (mbind _ (mret _)) _ _ _ _ => apply wp_bind_ret
  | |- wp (mbind _ get) _ _ _ _ => apply wp_bind_get
  | |- wp (mbind _ (modify _)) _ _ _ _ => apply wp_bind_modify
  | |- wp (mbind _ oops) _ _ _ _ => apply wp_bind_oops
  | |- wp (mbind _ (if ?b then _ else _)) _ _ _ _ => destruct b eqn:?
  | |- wp (mbind _ (match ?x with Some _ => _ | None => _ end)) _ _ _ _ => destruct x eqn:?
  | |- wp (if ?b then _ else _) _ _ _ _ => destruct b eqn:?
  | |- wp (match ?x with Some _ => _ | None => _ end) _ _ _ _ => destruct x eqn:?
  | |- wp (mret _) _ _ _ _ => apply wp_ret
  | |- wp (modify _) _ _ _ _ => apply wp_modify
  | |- wp (call _) _ _ _ _ => apply wp_call; intros
  | |- wp oops _ _ _ _ => apply wp_oops
  end; cbv beta.

(** A loop whose body always goes on, by an invariant indexed by the counter. *)
Lemma wp_for_loop {S R} (lo : Z) (n : nat) (body : Z -> M S (option R)) env s tr
    (I : Z -> S -> trace -> Prop) (Q : option (option R) -> S -> trace -> Prop) :
  I lo s tr ->
  (forall i s tr, lo <= i < lo + Z.of_nat n -> I i s tr ->
    wp (body i) env s tr (fun a s' tr' =>
      match a with
      | Some None => I (i + 1) s' tr'
      | Some (Some v) => Q (Some (Some v)) s' tr'
      | None => Q None s' tr'
      end)) ->
  (forall s tr, I (lo + Z.of_nat n) s tr -> Q (Some None) s tr) ->
  wp (for_loop lo n body) env s tr Q.
Proof.
  revert lo s tr. induction n as [|n IH]; intros lo s tr HI Hb Hq; simpl.
  { apply wp_ret, Hq. by rewrite Z.add_0_r. }
  apply wp_bind. eapply wp_mono; [apply Hb; [lia|done]|].
  intros [[v|]|] s' tr' H; [by apply wp_ret| |done].
  apply IH; [done| |].
  - intros. apply Hb; [lia|done].
  - intros s'' tr'' H'. apply Hq. by replace (lo + Z.of_nat (Datatypes.S n))
      with (lo + 1 + Z.of_nat n) by lia.
Qed.

Lemma audit_cons c r o tr :
  audit ((c, (r, o)) :: tr) = (h ← audit tr; account c r o h).
Proof. done. Qed.

Create Rewrite HintDb kaudit.
#[export] Hint Rewrite @take_one_head : kaudit.

(** ** Kernels that hand out fresh resources *)

(** Calls that allocate an object and return its address. *)
Definition alloc_call (c : kcall) : bool :=
  match c with
  | kmalloc _ | kzalloc _ | vmalloc _ | alloc_pages _ | alloc_disk _
  | blk_init_queue _ | blk_alloc_queue | cdev_alloc | kmem_cache_create _ _
  | kmem_cache_alloc _ => true
  | _ => false
  end.

(** An allocation never returns an object that is still allocated. *)
Definition fresh_env (env : kenv) : Prop := forall tr c h x,
  alloc_call c = true -> audit tr = Some h ->
  acquired c (env tr c).1 (env tr c).2 = Some x -> x ∉ h.

(** A kernel where every call succeeds: allocations return an address above
    every earlier answer, status results are 0. *)
Definition next_addr (tr : trace) : Z := 1 + foldr (fun e n => Z.max (e.2).1 n) 4095 tr.

Lemma next_addr_pos tr : 4096 <= next_addr tr.
Proof. unfold next_addr. induction tr; simpl in *; lia. Qed.

Definition nice_env : kenv := fun tr c =>
  if alloc_call c then (next_addr tr, 0)
  else match c with
       | register_blkdev _ _ => (240, 0)
       | alloc_chrdev_region _ _ => (0, 250)
       | class_create _ | device_create _ _ _ | kthread_run _ => (4096, 0)
       | _ => (0, 0)
       end.

(** The address in a resource that came from an allocation. *)
Definition alloc_addr (x : res) : option Z :=
  match x with
  | RMem p | RVmem p | RPage p | RDisk p | RQueue p | RCdev p | RCache p | RObj _ p => Some p
  | _ => None
  end.

Lemma take_one_In {A} `{!EqDecision A} (x y : A) l l' :
  take_one x l = Some l' -> y ∈ l' -> y ∈ l.
Proof. intros E%take_one_perm Hy. rewrite E. by constructor. Qed.

Lemma held_addr tr h x p :
  audit tr = Some h -> x ∈ h -> alloc_addr x = Some p ->
  p <= foldr (fun e n => Z.max (e.2).1 n) 4095 tr.
Proof.
  revert h. induction tr as [|[c [r o]] tr IH]; intros h; simpl.
  { intros [= <-] []%not_elem_of_nil. }
  destruct (audit tr) as [h0|]; [|done]. simpl. unfold account.
  destruct (acquired c r o) as [y|] eqn:Ea.
  - intros [= <-] [->|Hx]%elem_of_cons Hp; [|specialize (IH _ eq_refl Hx Hp); lia].
    assert (p = r); [|lia].
    destruct c; simpl in Ea; repeat case_match; simplify_eq/=; done.
  - intros E Hx Hp. assert (x ∈ h0); [|specialize (IH _ eq_refl H Hp); lia].
    destruct (released c); [by eapply take_one_In|].
    simplify_eq. unfold drop_timer in Hx. destruct c; try done.
    all: destruct (take_one _ h0) eqn:?; [by eapply take_one_In|done].
Qed.

Lemma nice_env_fresh : fresh_env nice_env.
Proof.
  intros tr c h x Hc Ha Hx Hin. unfold nice_env in Hx. rewrite Hc in Hx. simpl in Hx.
  assert (alloc_addr x = Some (next_addr tr)) as Hp.
  { destruct c; try done; simpl in *; repeat case_match; simplify_eq/=; done. }
  pose proof (held_addr _ _ _ _ Ha Hin Hp). unfold next_addr in *. lia.
Qed.

(** The address an allocation returns differs from those of the resources
    held. *)
Lemma fresh_not_held env tr c h x r o :
  fresh_env env -> env tr c = (r, o) -> alloc_call c = true -> audit tr = Some h ->
  acquired c r o = Some x -> x ∉ h.
Proof. intros Hf E Hc Ha Hx. eapply Hf; [done..|]. by rewrite E. Qed.

(** A kernel that serves every request of a module: fresh, non-NULL objects,
    and a major number for every block device. *)
Definition good_env (env : kenv) : Prop :=
  fresh_env env /\
  (forall tr c, alloc_call c = true -> (env tr c).1 <> 0) /\
  (forall tr n, 0 <= (env tr (register_blkdev 0 n)).1).

Lemma nice_env_good : good_env nice_env.
Proof.
  split_and!; [apply nice_env_fresh| |done].
  intros tr c Hc. unfold nice_env. rewrite Hc. simpl.
  pose proof (next_addr_pos tr). lia.
Qed.

(** The calls that register a device report with 0 or a negative error code. *)
Definition errno_call (c : kcall) : bool :=
  match c with alloc_chrdev_region _ _ | cdev_add _ _ _ => true | _ => false end.

Definition errno_env (env : kenv) : Prop := forall tr c, errno_call c = true -> (env tr c).1 <= 0.

(** An error a module returns: negative as far as the kernel's codes are. *)
Definition failure (env : kenv) (e : Z) : Prop := e <> 0 /\ (errno_env env -> e < 0).

Lemma failure_answer env tr c r o :
  env tr c = (r, o) -> errno_call c = true -> r <> 0 -> failure env r.
Proof.
  intros E Hc Hr. split; [done|]. intros He. specialize (He tr c Hc). rewrite E in He. simpl in He. lia.
Qed.

Lemma failure_const env e : e < 0 -> failure env e.
Proof. split; lia. Qed.

(** What an allocation of a good kernel is worth: its address is not NULL and
    the resource is new. *)
Lemma good_alloc env tr c r o h x :
  good_env env -> env tr c = (r, o) -> alloc_call c = true -> audit tr = Some h ->
  (r <> 0 -> acquired c r o = Some x) ->
  r <> 0 /\ (x ∉ h) /\ audit ((c, (r, o)) :: tr) = Some (x :: h).
Proof.
  intros (Hf & Hn & _) E Hc Ha Hx. specialize (Hn tr c Hc). rewrite E in Hn.
  specialize (Hx Hn). split; [done|]. split; [by eapply fresh_not_held|].
  simpl. rewrite Ha; simpl. unfold account. by rewrite Hx.
Qed.

(** Calls that hand out and give back nothing. *)
Lemma audit_silent tr c r o h :
  audit tr = Some h -> acquired c r o = None -> released c = None ->
  drop_timer c h = h -> audit ((c, (r, o)) :: tr) = Some h.
Proof. intros Ha H1 H2 H3. simpl. rewrite Ha; simpl. unfold account. by rewrite H1, H2, H3. Qed.

Lemma audit_acquire tr c r o h x :
  audit tr = Some h -> acquired c r o = Some x -> audit ((c, (r, o)) :: tr) = Some (x :: h).
Proof. intros Ha H1. simpl. rewrite Ha; simpl. unfold account. by rewrite H1. Qed.

(** Deleting the timer that was added last. *)
Lemma audit_del_timer tr t r o h :
  audit tr = Some (RTimer t :: h) -> audit ((del_timer_sync t, (r, o)) :: tr) = Some h.
Proof. intros Ha. cbn [audit]. rewrite Ha. cbn. by rewrite decide_True. Qed.

(** A resource is given back wherever it is in the list. *)
Lemma audit_release tr c r o h x h' :
  audit tr = Some h -> acquired c r o = None -> released c = Some x -> h ≡ₚ (x :: h') ->
  exists h'', audit ((c, (r, o)) :: tr) = Some h'' /\ h'' ≡ₚ h'.
Proof.
  intros Ha H1 H2 Hp. simpl. rewrite Ha; simpl. unfold account. rewrite H1, H2.
  assert (x ∈ h) as Hin by (rewrite Hp; left).
  destruct (take_one_is_Some _ _ Hin) as [k Hk]. exists k. split; [done|]. apply take_one_perm in Hk.
  rewrite Hk in Hp. by apply Permutation_cons_inv in Hp.
Qed.

(** ** Rules that keep the account along a symbolic run *)

Section accounting.
Context {S B : Type}.
Implicit Types (env : kenv) (s : S) (tr : trace) (h : list res).

Lemma wp_bind_alloc (mk : Z -> res) h c (k : Z -> M S B) env s tr Q :
  good_env env -> alloc_call c = true -> audit tr = Some h ->
  (forall r o, r <> 0 -> acquired c r o = Some (mk r)) ->
  (forall r o, r <> 0 -> mk r ∉ h -> audit ((c, (r, o)) :: tr) = Some (mk r :: h) ->
    wp (k r) env s ((c, (r, o)) :: tr) Q) ->
  wp (call c ≫= k) env s tr Q.
Proof.
  intros HG Hc Ha Hx Hk. apply wp_bind_call. intros r o E.
  destruct (good_alloc env tr c r o h (mk r) HG E Hc Ha) as (? & ? & ?); auto.
Qed.

Lemma wp_bind_acquire x h c (k : Z -> M S B) env s tr Q :
  audit tr = Some h -> (forall r o, acquired c r o = Some x) ->
  (forall r o, audit ((c, (r, o)) :: tr) = Some (x :: h) ->
    wp (k r) env s ((c, (r, o)) :: tr) Q) ->
  wp (call c ≫= k) env s tr Q.
Proof. intros Ha Hx Hk. apply wp_bind_call. intros r o E. by apply Hk, audit_acquire. Qed.

Lemma wp_bind_silent h c (k : Z -> M S B) env s tr Q :
  audit tr = Some h -> (forall r o, acquired c r o = None) -> released c = None ->
  drop_timer c h = h ->
  (forall r o, audit ((c, (r, o)) :: tr) = Some h -> wp (k r) env s ((c, (r, o)) :: tr) Q) ->
  wp (call c ≫= k) env s tr Q.
Proof.
  intros Ha H1 H2 H3 Hk. apply wp_bind_call. intros r o E. by apply Hk, audit_silent.
Qed.

(** The newest resource is given back. *)
Lemma wp_bind_pop x h c (k : Z -> M S B) env s tr Q :
  audit tr = Some (x :: h) -> (forall r o, acquired c r o = None) -> released c = Some x ->
  (forall r o, audit ((c, (r, o)) :: tr) = Some h -> wp (k r) env s ((c, (r, o)) :: tr) Q) ->
  wp (call c ≫= k) env s tr Q.
Proof.
  intros Ha H1 H2 Hk. apply wp_bind_call. intros r o E. apply Hk.
  simpl. rewrite Ha; simpl. unfold account. rewrite H1, H2. apply take_one_head.
Qed.

(** The resources held, in any order. *)
Definition held tr (l : list res) : Prop := exists h, audit tr = Some h /\ h ≡ₚ l.

Lemma held_nil tr : held tr [] -> audit tr = Some [].
Proof. intros (h & Ha & ->%Permutation_nil_r). done. Qed.

Lemma held_one tr x : held tr [x] -> audit tr = Some [x].
Proof. intros (h & Ha & ->%Permutation_singleton_r). done. Qed.

Lemma held_lost tr c : c <> 0 -> held tr [RCdevMem c] -> audit tr = Some (lost_cdev c).
Proof. intros Hc ->%held_one. unfold lost_cdev. by rewrite (proj2 (Z.eqb_neq c 0)). Qed.

Lemma audit_held tr h : audit tr = Some h -> held tr h.
Proof. by exists h. Qed.

Lemma wp_bind_release x l l' c (k : Z -> M S B) env s tr Q :
  held tr l -> (forall r o, acquired c r o = None) -> released c = Some x ->
  l ≡ₚ (x :: l') ->
  (forall r o, held ((c, (r, o)) :: tr) l' -> wp (k r) env s ((c, (r, o)) :: tr) Q) ->
  wp (call c ≫= k) env s tr Q.
Proof.
  intros (h & Ha & Hh) H1 H2 Hp Hk. apply wp_bind_call. intros r o E. apply Hk.
  rewrite Hp in Hh. by eapply audit_release.
Qed.
End accounting.

(** Steps that involve no kernel answer. *)
Ltac wpure :=
  repeat (lazymatch goal with
  | |- wp (mbind _ (mbind _ _)) _ _ _ _ => apply wp_assoc
  | |- wp (mbind _ (mret _)) _ _ _ _ => apply wp_bind_ret
  | |- wp (mbind _ get) _ _ _ _ => apply wp_bind_get
  | |- wp (mbind _ (modify _)) _ _ _ _ => apply wp_bind_modify
  | |- wp (mret _) _ _ _ _ => apply wp_ret
  end; cbv beta).

Lemma if_null {A} (p : Z) (x y : A) : p <> 0 -> (if p =? 0 then x else y) = y.
Proof. intros. by rewrite (proj2 (Z.eqb_neq _ _)). Qed.

Lemma if_nonnull {A} (p : Z) (x y : A) : p <> 0 -> (if negb (p =? 0) then x else y) = x.
Proof. intros. by rewrite (proj2 (Z.eqb_neq _ _)). Qed.

(** What is known of every answer to [c] is known of this one. *)
Lemma answer_is (env : kenv) tr c r (P : Z -> Prop) o :
  (forall tr, P (env tr c).1) -> env tr c = (r, o) -> P r.
Proof. intros H E. specialize (H tr). by rewrite E in H. Qed.

(** Proves the side condition of [wp_bind_alloc] for a given call. *)
Ltac acq := intros; simpl; by rewrite if_null.

(** One kernel call of a symbolic run, with the account [A] before it. *)
Ltac walloc mk A :=
  eapply (wp_bind_alloc mk); [eassumption|reflexivity|exact A|acq|].
Ltac wsilent A :=
  eapply wp_bind_silent; [exact A|reflexivity|reflexivity|reflexivity|].
Ltac wacquire x A := eapply (wp_bind_acquire x); [exact A|reflexivity|].

(** Takes [x] out of an explicit list. *)
Ltac pick :=
  lazymatch goal with
  | |- (?y :: _) ≡ₚ (?x :: _) =>
      first [ unify y x; reflexivity
            | apply take_later; pick ]
  end.

Ltac wfree H :=
  eapply wp_bind_release;
    [exact H|reflexivity|first [reflexivity|simpl; by rewrite if_null]|pick|];
  clear H; intros ? ? H.

Ltac wpop A :=
  eapply wp_bind_pop;
    [exact A|reflexivity|first [reflexivity|simpl; by rewrite if_null]|];
  clear A; intros ? ? A.
