(* ===== verification/PhysMem.v ===== *)
(** * Physical memory and user mappings

    The mmap labs hand physical pages to processes.  Physical memory is a
    function from addresses to bytes; a process sees it through its page
    table.  Page tables belong to the kernel: any type with the operations of
    [Remap] that obeys [RemapSpec], the documented behaviour of
    remap_pfn_range; an instance is given. *)

From S2P Require Import Prelude.

Abbreviation pmem := (Z -> Z).

Definition pset (m : pmem) (a v : Z) : pmem := fun x => if x =? a then v else m x.

(** strcpy of the string [s] (without its NUL) to address [a]. *)
Definition strcpy (m : pmem) (a : Z) (s : list Z) : pmem := fun x =>
  if (a <=? x) && (x <=? a + Z.of_nat (length s)) then nth (Z.to_nat (x - a)) s 0 else m x.

(** The string at [a]; [None] when there is no NUL in the [n] bytes from
    there on. *)
Fixpoint strz (n : nat) (m : pmem) (a : Z) : option (list Z) :=
  match n with
  | O => None
  | S n' => if m a =? 0 then Some [] else (m a ::.) <$> strz n' m (a + 1)
  end.

(** The bytes of [s] are at address [a]. *)
Definition has (m : pmem) (a : Z) (s : list Z) : Prop :=
  forall i c, s !! i = Some c -> m (a + Z.of_nat i) = c.

Lemma has_nil m a : has m a [].
Proof. intros i c H. by rewrite lookup_nil in H. Qed.

Lemma has_cons m a c s : has m a (c :: s) <-> m a = c /\ has m (a + 1) s.
Proof.
  split.
  - intros H. split; [rewrite <- (Z.add_0_r a); by apply (H O)|].
    intros i d Hd. replace (a + 1 + Z.of_nat i) with (a + Z.of_nat (S i)) by lia. by apply (H (S i)).
  - intros [<- H] [|i] d Hd; simpl in Hd; [simplify_eq; f_equal; lia|].
    replace (a + Z.of_nat (S i)) with (a + 1 + Z.of_nat i) by lia. by apply H.
Qed.

Lemma has_app m a s t : has m a (s ++ t) <-> has m a s /\ has m (a + Z.of_nat (length s)) t.
Proof.
  revert a. induction s as [|c s IH]; intros a; simpl.
  - rewrite Z.add_0_r. split; [split; [apply has_nil|done]|by intros []].
  - rewrite !has_cons, IH. replace (a + 1 + Z.of_nat (length s)) with (a + Z.pos (Pos.of_succ_nat (length s))) by lia.
    tauto.
Qed.

Lemma strcpy_has m a s : has (strcpy m a s) a (s ++ [0]).
Proof.
  intros i c Hi. unfold strcpy. assert (i < length (s ++ [0%Z]))%nat as Hl by by eapply lookup_lt_Some.
  rewrite length_app in Hl; simpl in Hl.
  rewrite (proj2 (Z.leb_le _ _)), (proj2 (Z.leb_le _ _)) by lia. simpl.
  replace (Z.to_nat (a + Z.of_nat i - a)) with i by lia.
  apply lookup_app_Some in Hi as [Hi|[Hge Hi]].
  - by apply nth_lookup_Some.
  - assert (i = length s) as -> by lia. rewrite Nat.sub_diag in Hi. simplify_eq/=.
    by apply nth_overflow.
Qed.

Lemma strcpy_frame m a s x :
  x < a \/ a + Z.of_nat (length s) < x -> strcpy m a s x = m x.
Proof. intros. unfold strcpy. zify_bool; simpl; try done; lia. Qed.

(** The string printed from [a] is the one stored there with its NUL. *)
Lemma strz_has n m a s :
  has m a (s ++ [0]) -> Forall (fun c => c <> 0) s -> (length s < n)%nat -> strz n m a = Some s.
Proof.
  intros H Hs. revert n a H. induction Hs as [|c s Hc Hs IH]; intros [|n] a H Hn; simpl in *; try lia.
  - apply has_cons in H as [-> _]. done.
  - apply has_cons in H as [Hm H]. rewrite Hm, (proj2 (Z.eqb_neq c 0)) by done.
    by rewrite (IH n) by (done || lia).
Qed.

(** ** Page tables *)

Definition PAGE_SIZE : Z := 4096.

Record vma := Vma { vm_start : Z; vm_end : Z; vm_pgoff : Z; vm_page_prot : Z }.

Class Remap (pt : Type) := {
  (** The new page table and the return value. *)
  remap_pfn_range : pt -> vma -> Z -> Z -> Z -> Z -> pt * Z;
  (** The physical address behind a user address, if there is one. *)
  translate : pt -> Z -> option Z
}.

Class RemapSpec (pt : Type) `{!Remap pt} := {
  (** On success the range is mapped to consecutive pages from [pfn] on. *)
  remap_ok : forall t v addr pfn size prot t',
    addr mod PAGE_SIZE = 0 -> 0 <= size ->
    remap_pfn_range t v addr pfn size prot = (t', 0) ->
    forall i, 0 <= i < size -> translate t' (addr + i) = Some (pfn * PAGE_SIZE + i);
  (** The rest of the address space stays as it is. *)
  remap_frame : forall t v addr pfn size prot t' r x,
    addr mod PAGE_SIZE = 0 -> size mod PAGE_SIZE = 0 ->
    remap_pfn_range t v addr pfn size prot = (t', r) ->
    ~ addr <= x < addr + size -> translate t' x = translate t x
}.

(** Page tables as functions, with every request granted. *)
#[export] Instance fun_remap : Remap (Z -> option Z) := {|
  remap_pfn_range t _ addr pfn size _ :=
    (fun x => if (addr <=? x) && (x <? addr + size) then Some (pfn * PAGE_SIZE + (x - addr)) else t x, 0);
  translate t x := t x
|}.

#[export] Instance fun_remap_spec : RemapSpec (Z -> option Z).
Proof.
  split.
  - intros t v addr pfn size prot t' _ _ [= <-] i Hi. simpl. zify_bool; simpl; try lia. f_equal. lia.
  - intros t v addr pfn size prot t' r x _ _ [= <- <-] Hx. simpl. zify_bool; simpl; try done; lia.
Qed.

(** Loads and stores of a process; [None] is a fault. *)
Definition uload `{Remap pt} (t : pt) (m : pmem) (va : Z) : option Z :=
  m <$> translate t va.

Definition ustore `{Remap pt} (t : pt) (m : pmem) (va v : Z) : option pmem :=
  (fun a => pset m a v) <$> translate t va.

(** [va] up to [va + n] is mapped to the [n] bytes from [pa] on. *)
Definition maps `{Remap pt} (t : pt) (va pa n : Z) : Prop :=
  forall i, 0 <= i < n -> translate t (va + i) = Some (pa + i).

Section access.
Context `{Remap pt}.
Context (t : pt) (va pa n : Z) (HM : maps t va pa n).

Lemma uload_maps m i : 0 <= i < n -> uload t m (va + i) = Some (m (pa + i)).
Proof. intros Hi. unfold uload. by rewrite HM. Qed.

Lemma ustore_maps m i v : 0 <= i < n -> ustore t m (va + i) v = Some (pset m (pa + i) v).
Proof. intros Hi. unfold ustore. by rewrite HM. Qed.
End access.

Lemma pset_eq m a v : pset m a v a = v.
Proof. unfold pset. by rewrite Z.eqb_refl. Qed.

Lemma pset_ne m a v x : x <> a -> pset m a v x = m x.
Proof. intros. unfold pset. by rewrite (proj2 (Z.eqb_neq x a)). Qed.

(** Stores to consecutive elements: [a[count++] = v0; a[count++] = v1; ...] *)
Fixpoint stores (st : pmem -> Z -> Z -> option pmem) (m : pmem) (count : Z) (vs : list Z)
    : option pmem :=
  match vs with
  | [] => Some m
  | v :: vs' => m' ← st m count v; stores st m' (count + 1) vs'
  end.

(** Element [i] is at address [loc i]. *)
Lemma stores_ok (st : pmem -> Z -> Z -> option pmem) (loc : Z -> Z) m k vs :
  (forall m i v, k <= i < k + Z.of_nat (length vs) -> st m i v = Some (pset m (loc i) v)) ->
  (forall i j, loc i = loc j -> i = j) ->
  exists m', stores st m k vs = Some m' /\
    (forall i v, vs !! i = Some v -> m' (loc (k + Z.of_nat i)) = v) /\
    (forall x, (forall i, k <= i < k + Z.of_nat (length vs) -> x <> loc i) -> m' x = m x).
Proof.
  intros Hst Hinj. revert m k Hst. induction vs as [|v vs IH]; intros m k Hst; simpl in *.
  { exists m. split_and!; [done| |done]. intros i w H. by rewrite lookup_nil in H. }
  rewrite Hst by lia. simpl.
  destruct (IH (pset m (loc k) v) (k + 1)) as (m' & -> & Hin & Hout); [intros; apply Hst; lia|].
  exists m'. split_and!; [done| |].
  - intros [|i] w Hw; simpl in Hw.
    + simplify_eq. rewrite Z.add_0_r, Hout; [apply pset_eq|]. intros i Hi E%Hinj. lia.
    + replace (k + Z.of_nat (S i)) with (k + 1 + Z.of_nat i) by lia. by apply Hin.
  - intros x Hx. rewrite Hout by (intros; apply Hx; lia). apply pset_ne, Hx. lia.
Qed.
