(* ===== verification/MmapRoot.v ===== *)
(** * mmap-root: mmap-root.c, kmalloc.c, jeff-mmap.c, mmap-get-root.c

    A character device that maps any physical memory a process asks for, a
    module that keeps a string in kernel memory, and two user programs that
    map physical memory and scan it: one rewrites the string of the module,
    the other the credentials of its own process. *)

From S2P Require Import Prelude Kernel PhysMem.

(** ** mmap-root.c *)
Module Cve.

Record st := St { pcdev : Z; ndev : Z }.
Definition st0 : st := St 0 0.

Definition dev_open : Z := 0.

Definition simple_mmap `{Remap pt} (t : pt) (v : vma) : pt * Z :=
  let '(t', r) := remap_pfn_range t v (vm_start v) (vm_pgoff v)
                    (u64 (vm_end v - vm_start v)) (vm_page_prot v) in
  if negb (r =? 0) then (t', - EAGAIN) else (t', 0).

(** [private_data] of the file being released. *)
Definition dev_release (private_data : Z) : M st Z :=
  call (kfree private_data);; mret 0.

Definition cdev_err (err : Z) : M st Z := mret err.
Definition region_err (err : Z) : M st Z :=
  s ← get; call (cdev_del (pcdev s));; cdev_err err.
Definition add_err (err : Z) : M st Z :=
  s ← get; call (unregister_chrdev_region (ndev s) 1);; region_err err.

Definition cve_mmap_init : M st Z :=
  c ← call cdev_alloc;
  modify (fun s => St c (ndev s));;
  if c =? 0 then cdev_err (- ENOMEM)
  else
    call (cdev_init c);;
    '(err, d) ← call2 (alloc_chrdev_region 1 "mmap_dev");
    (if err =? 0 then modify (fun s => St (pcdev s) d) else mret ());;
    if negb (err =? 0) then region_err err
    else
      s ← get;
      err ← call (cdev_add (pcdev s) (ndev s) 1);
      if negb (err =? 0) then add_err err else mret 0.

Definition cve_mmap_exit : M st () :=
  s ← get;
  call (cdev_del (pcdev s));;
  call (unregister_chrdev_region (ndev s) 1);;
  mret ().

End Cve.

(** ** kmalloc.c *)
Module Kstr.

Record st := St { p : Z; phys : pmem }.

Section module.
Context (virt_to_phys : Z -> Z).

Definition text : list Z := bytes_of "jeffnice+20".

Definition init_kmalloc : M st Z :=
  r ← call (kmalloc 20);
  modify (fun s => St r (phys s));;
  if r =? 0 then mret (-1)
  else
    modify (fun s => St (p s) (strcpy (phys s) (virt_to_phys (p s)) text));;
    mret 0.

(** The result is the string printed, [None] when it runs off the object. *)
Definition exit_kmalloc : M st (option (list Z)) :=
  s ← get;
  let out := strz 20 (phys s) (virt_to_phys (p s)) in
  call (kfree (p s));;
  mret out.
End module.

End Kstr.

(** ** The user programs *)

Definition MAP_FAILED : Z := 2 ^ 64 - 1.
Definition mmapStart : Z := 0x57575000.

(** A chain [addr[count++] == c0 && addr[count++] == c1 && ...]: whether all hold, and [count] after the last comparison made. *)
Fixpoint chain (ld : Z -> option Z) (count : Z) (pat : list Z) : option (bool * Z) :=
  match pat with
  | [] => Some (true, count)
  | c :: pat' =>
      v ← ld count;
      if v =? c then chain ld (count + 1) pat' else Some (false, count + 1)
  end.

Module Jeff.

Definition size : Z := 0xf0000000.
Definition pattern : list Z := bytes_of "jeffnice".
Definition patch : list Z := bytes_of "-19".

Section program.
Context `{Remap pt}.
Context (t : pt).

(** The while loop; [addr] counts bytes. *)
Fixpoint scan (fuel : nat) (m : pmem) (addr : Z) : outcome pmem :=
  match fuel with
  | O => NoFuel
  | S fuel' =>
      if addr <? u64 (mmapStart + size) then
        match chain (fun i => uload t m (addr + i)) 0 pattern with
        | None => Wild
        | Some (found, count) =>
            match (if found then stores (fun m i => ustore t m (addr + i)) m count patch
                   else Some m) with
            | None => Wild
            | Some m' => scan fuel' m' (addr + 1)
            end
        end
      else Done m
  end.

(** [fd] and [addr] are what open and mmap return. *)
Definition main (fuel : nat) (fd addr : Z) (m : pmem) : outcome (pmem * Z) :=
  if fd <? 0 then Done (m, -1)
  else if addr =? MAP_FAILED then Done (m, -1)
  else match scan fuel m addr with
       | Done m' => Done (m', 0)
       | Wild => Wild
       | NoFuel => NoFuel
       end.
End program.

(** The area mmap creates for it when it grants the address asked for. *)
Definition area : vma := Vma mmapStart (mmapStart + size) 0 3.

End Jeff.

Module GetRoot.

Definition size : Z := 0xf00000000.

(** How the program ends: root with a shell, after a shell that could not be
    started, or with a return value. *)
Inductive exit_kind := Shell | ExeclFailed | Returned (v : Z).

Section program.
Context `{Remap pt}.
(** Memory holds a 32-bit word at every address that is a multiple of 4.
    [getuid m] is the answer of the kernel, which looks into the same memory,
    [execl] whether the shell starts. *)
Context (t : pt) (getuid : pmem -> Z) (execl : bool).

Fixpoint scan (fuel : nat) (uid : Z) (m : pmem) (addr : Z) : outcome (pmem * exit_kind) :=
  match fuel with
  | O => NoFuel
  | S fuel' =>
      if addr <? u64 (mmapStart + size) then
        match chain (fun i => uload t m (addr + 4 * i)) 0 (replicate 8 (u32 uid)) with
        | None => Wild
        | Some (false, _) => scan fuel' uid m (addr + 4)
        | Some (true, _) =>
            match stores (fun m i => ustore t m (addr + 4 * i)) m 0 (replicate 8 0) with
            | None => Wild
            | Some m1 =>
                if getuid m1 =? 0 then
                  Done (m1, if execl then Shell else ExeclFailed)
                else
                  match stores (fun m i => ustore t m (addr + 4 * i)) m1 0 (replicate 8 (u32 uid)) with
                  | None => Wild
                  | Some m2 => scan fuel' uid m2 (addr + 4)
                  end
            end
        end
      else Done (m, Returned 0)
  end.

Definition main (fuel : nat) (fd addr : Z) (m : pmem) : outcome (pmem * exit_kind) :=
  let uid := getuid m in
  if fd <? 0 then Done (m, Returned (-1))
  else if addr =? MAP_FAILED then Done (m, Returned (-1))
  else scan fuel uid m addr.
End program.

End GetRoot.

(** ** Comparisons and stores inside the mapping *)

Lemma chain_ok (ld : Z -> option Z) (f : Z -> Z) k pat :
  (forall i, k <= i < k + Z.of_nat (length pat) -> ld i = Some (f i)) ->
  exists b c, chain ld k pat = Some (b, c) /\ (b = true <-> has f k pat) /\
    (b = true -> c = k + Z.of_nat (length pat)).
Proof.
  revert k. induction pat as [|c pat IH]; intros k Hld; simpl in *.
  { exists true, k. split_and!; [done| |lia]. split; [|done]. intros _. apply has_nil. }
  rewrite Hld by lia. simpl. destruct (Z.eqb_spec (f k) c) as [Hc|Hc].
  - destruct (IH (k + 1)) as (b & n & -> & Hb & Hn); [intros; apply Hld; lia|].
    exists b, n. split_and!; [done| |intros; rewrite Hn by done; lia].
    rewrite has_cons. tauto.
  - exists false, (k + 1). split_and!; [done| |done]. rewrite has_cons. split; [done|tauto].
Qed.

Lemma chain_first (ld : Z -> option Z) k c pat v :
  ld k = Some v -> v <> c -> chain ld k (c :: pat) = Some (false, k + 1).
Proof. intros Hl Hv. simpl. rewrite Hl. simpl. by rewrite (proj2 (Z.eqb_neq v c)). Qed.

(** ** The scan of jeff-mmap.c *)

Section jeff.
Import Jeff.
Context `{Remap pt}.
Context (t : pt) (HM : maps t mmapStart 0 size).
Context (m0 : pmem).
(** The scan is followed up to address [e]; before it the last bytes mapped
    hold no first letter of the pattern. *)
Context (e : Z) (He : e <= size).
Context (Htail : forall i, size - 10 <= i < e -> m0 i <> 106).

(** No match begins where its patch would reach [p]. *)
Definition isolated (m : pmem) (p : Z) : Prop :=
  forall q, 0 <= q -> p - 10 <= q <= p - 8 -> ~ has m q pattern.

Definition patched (m : pmem) (i : Z) : Prop := m i = 45 \/ m i = 49 \/ m i = 57.

(** Before address [x]: memory is as it was except behind the matches passed,
    and those are patched. *)
Definition unchanged (x : Z) (m : pmem) : Prop := forall i,
  m i = m0 i \/ (patched m i /\ exists q, 0 <= q < x /\ has m0 q pattern /\ q + 8 <= i <= q + 10).

Definition rewritten (x : Z) (m : pmem) : Prop := forall p,
  0 <= p < x -> has m0 p pattern -> isolated m0 p -> has m p (pattern ++ patch).

Lemma pattern_bytes : pattern = [106; 101; 102; 102; 110; 105; 99; 101].
Proof. reflexivity. Qed.

Lemma pattern_letter i c : pattern !! i = Some c -> c <> 45 /\ c <> 49 /\ c <> 57.
Proof. rewrite pattern_bytes. do 8 (destruct i as [|i]; [intros [= <-]; lia|]). by destruct i. Qed.

Lemma pattern_head i c : pattern !! i = Some c -> c = 106 -> i = 0%nat.
Proof. rewrite pattern_bytes. do 8 (destruct i as [|i]; [intros [= <-]; lia|]). by destruct i. Qed.

Lemma pattern_at m q i : has m q pattern -> 0 <= i < 8 ->
  exists c, pattern !! Z.to_nat i = Some c /\ m (q + i) = c.
Proof.
  intros Hh Hi. destruct (lookup_lt_is_Some_2 pattern (Z.to_nat i)) as [c Hc]; [simpl; lia|].
  exists c. split; [done|]. rewrite <- (Hh _ _ Hc). f_equal. lia.
Qed.

Lemma matches_apart m p q : has m p pattern -> has m q pattern -> p < q -> p + 8 <= q.
Proof.
  intros Hp Hq Hlt. destruct (decide (p + 8 <= q)) as [|Hn]; [done|exfalso].
  destruct (pattern_at m q 0 Hq ltac:(lia)) as (c & Hc & Hc'). injection Hc as <-.
  destruct (pattern_at m p (q - p) Hp ltac:(lia)) as (d & Hd & Hd').
  replace (p + (q - p)) with (q + 0) in Hd' by lia. rewrite Hc' in Hd'.
  apply pattern_head in Hd; [lia|done].
Qed.

Lemma match_old x m q : unchanged x m -> has m q pattern -> has m0 q pattern.
Proof.
  intros HU Hq i c Hi. destruct (HU (q + Z.of_nat i)) as [E|[Hp _]]; [rewrite <- E; auto|].
  specialize (Hq _ _ Hi). apply pattern_letter in Hi. unfold patched in Hp. lia.
Qed.

Lemma match_kept x m : unchanged x m -> has m0 x pattern -> isolated m0 x -> has m x pattern.
Proof.
  intros HU Hx HI i c Hi. assert (i < 8)%nat by by apply lookup_lt_Some in Hi.
  destruct (HU (x + Z.of_nat i)) as [->|(_ & q & Hq & Hh & Hw)]; [auto|exfalso].
  pose proof (matches_apart _ _ _ Hh Hx ltac:(lia)). apply (HI q); [lia..|done].
Qed.

(** Memory after the patch of a match at [x]. *)
Lemma patch_step x m m' :
  has m x pattern -> 0 <= x -> unchanged x m -> rewritten x m ->
  (forall i v, patch !! i = Some v -> m' (x + 8 + Z.of_nat i) = v) ->
  (forall y, ~ x + 8 <= y <= x + 10 -> m' y = m y) ->
  unchanged (x + 1) m' /\ rewritten (x + 1) m'.
Proof.
  intros Hh Hx HU HR Hin Hout. pose proof (match_old _ _ _ HU Hh) as H0.
  assert (has m' x (pattern ++ patch)) as Hnew.
  { apply has_app. split; [|exact Hin]. intros i c Hi. rewrite Hout; [auto|].
    apply lookup_lt_Some in Hi. simpl in Hi. lia. }
  split.
  - intros i. destruct (decide (x + 8 <= i <= x + 10)) as [Hi|Hi].
    + right. split; [|by exists x; split_and!; try lia].
      assert (i = x + 8 \/ i = x + 9 \/ i = x + 10) as [->|[->| ->]] by lia; unfold patched.
      * left. rewrite <- (Z.add_0_r (x + 8)). by apply (Hin 0%nat).
      * right; left. replace (x + 9) with (x + 8 + 1) by lia. by apply (Hin 1%nat).
      * right; right. replace (x + 10) with (x + 8 + 2) by lia. by apply (Hin 2%nat).
    + unfold patched. rewrite Hout by done. destruct (HU i) as [?|[? (q & ? & ?)]]; [by left|].
      right. split; [done|]. exists q. split; [lia|done].
  - intros p Hp Hhp HIp. destruct (decide (p = x)) as [->|]; [done|].
    pose proof (matches_apart _ _ _ Hhp H0 ltac:(lia)). intros i c Hi. rewrite Hout.
    { eapply HR; [lia|done..]. }
    apply lookup_lt_Some in Hi. simpl in Hi. lia.
Qed.

Lemma skip_step x m :
  ~ has m x pattern -> unchanged x m -> rewritten x m ->
  unchanged (x + 1) m /\ rewritten (x + 1) m.
Proof.
  intros Hh HU HR. split.
  - intros i. destruct (HU i) as [?|[? (q & ? & ?)]]; [by left|]. right.
    split; [done|]. exists q. split; [lia|done].
  - intros p Hp Hhp HIp. destruct (decide (p = x)) as [->|]; [|apply HR; [lia|done..]].
    destruct Hh. by eapply match_kept.
Qed.

Lemma scan_to k m x :
  0 <= x -> x + Z.of_nat k = e -> unchanged x m -> rewritten x m ->
  exists m', unchanged e m' /\ rewritten e m' /\
    forall fuel, scan t (k + fuel) m (mmapStart + x) = scan t fuel m' (mmapStart + e).
Proof.
  revert m x. induction k as [|k IH]; intros m x Hx Hk HU HR.
  { replace x with e in * by lia. eauto. }
  cut (exists m1, unchanged (x + 1) m1 /\ rewritten (x + 1) m1 /\
    forall fuel, scan t (S k + fuel) m (mmapStart + x) = scan t (k + fuel) m1 (mmapStart + (x + 1))).
  { intros (m1 & HU1 & HR1 & E1). destruct (IH m1 (x + 1)) as (m' & HU' & HR' & E'); [lia..|done|done|].
    exists m'. split_and!; [done..|]. intros fuel. by rewrite E1, E'. }
  cbn [scan Nat.add]. change (u64 (mmapStart + size)) with (mmapStart + size).
  rewrite (proj2 (Z.ltb_lt (mmapStart + x) (mmapStart + size))) by lia.
  assert (forall i, 0 <= i -> x + i < size ->
    uload t m (mmapStart + x + i) = Some (m (x + i))) as Hld.
  { intros i H0 H1. rewrite <- Z.add_assoc. rewrite (uload_maps _ _ _ _ HM) by lia. done. }
  destruct (decide (x < size - 10)) as [Hin|Hlast].
  - destruct (chain_ok (fun i => uload t m (mmapStart + x + i)) (fun i => m (x + i)) 0 pattern)
      as (b & c & -> & Hb & Hc); [intros; apply Hld; simpl in *; lia|].
    assert (has (fun i => m (x + i)) 0 pattern <-> has m x pattern) as Hshift by done.
    destruct b.
    + rewrite Hc by done. destruct (stores_ok (fun m i => ustore t m (mmapStart + x + i))
        (fun i => x + i) m (0 + Z.of_nat (length pattern)) patch) as (m' & -> & H1 & H2).
      { intros m1 i v Hi. simpl in Hi. rewrite <- Z.add_assoc.
        rewrite (ustore_maps _ _ _ _ HM) by lia. done. }
      { lia. }
      destruct (patch_step x m m') as [HU' HR']; [tauto|lia|done|done| | |].
      { intros i v Hi. rewrite <- (H1 _ _ Hi). f_equal. simpl. lia. }
      { intros y Hy. apply H2. simpl. lia. }
      exists m'. split_and!; [done..|]. intros. by rewrite <- Z.add_assoc.
    + destruct (skip_step x m) as [HU' HR']; [intros Hh; apply Hshift, Hb in Hh; done|done..|].
      exists m. split_and!; [done..|]. intros. by rewrite <- Z.add_assoc.
  - assert (m x <> 106) as Hj.
    { destruct (HU x) as [->|[Hp _]]; [apply Htail; lia|unfold patched in Hp; lia]. }
    assert (chain (fun i => uload t m (mmapStart + x + i)) 0 pattern = Some (false, 1)) as ->.
    { apply (chain_first _ 0 106 (tl pattern) (m (x + 0))); [apply Hld; lia|by rewrite Z.add_0_r]. }
    destruct (skip_step x m) as [HU' HR']; [|done..|].
    { intros Hh. apply Hj. rewrite <- (Z.add_0_r x). by apply (Hh 0%nat). }
    exists m. split_and!; [done..|]. intros. by rewrite <- Z.add_assoc.
Qed.

Lemma scan_prefix : 0 <= e ->
  exists m', unchanged e m' /\ rewritten e m' /\
    forall fuel, scan t (Z.to_nat e + fuel) m0 mmapStart = scan t fuel m' (mmapStart + e).
Proof.
  intros H0. apply (scan_to (Z.to_nat e) m0 0); [lia..| |]; [by left|intros p ?; lia].
Qed.
End jeff.

(** A mapping that simple_mmap granted covers the area asked for. *)
Lemma simple_mmap_maps `{RemapSpec pt} (t t' : pt) v :
  vm_start v mod PAGE_SIZE = 0 -> 0 <= vm_end v - vm_start v < 2 ^ 64 ->
  Cve.simple_mmap t v = (t', 0) ->
  maps t' (vm_start v) (vm_pgoff v * PAGE_SIZE) (vm_end v - vm_start v).
Proof.
  intros Ha Hs. unfold Cve.simple_mmap. rewrite u64_id by exact Hs.
  destruct (remap_pfn_range _ _ _ _ _ _) as [t1 r] eqn:E. destruct (Z.eqb_spec r 0) as [->|]; simpl; [|done].
  intros [= <-] i Hi. eapply remap_ok; [exact Ha|apply Hs|exact E|exact Hi].
Qed.

Lemma jeff_maps `{RemapSpec pt} (t t' : pt) :
  Cve.simple_mmap t Jeff.area = (t', 0) -> maps t' mmapStart 0 Jeff.size.
Proof. intros E. apply (simple_mmap_maps t t' Jeff.area); [done|by vm_compute|done]. Qed.

(** A successful load of kmalloc.c holds one object with the string in it. *)
Lemma kstr_loaded virt_to_phys env s0 s tr :
  Kstr.init_kmalloc virt_to_phys env s0 [] = (Some 0, s, tr) ->
  has (Kstr.phys s) (virt_to_phys (Kstr.p s)) (Kstr.text ++ [0]) /\ Kstr.p s <> 0 /\
  audit tr = Some [RMem (Kstr.p s)].
Proof.
  unfold Kstr.init_kmalloc. munfold. simpl.
  destruct (env [] (kmalloc 20)) as [r o]. simpl. destruct (Z.eqb_spec r 0) as [|Hr]; [done|].
  intros [= <- <-]. simpl. split_and!; [apply strcpy_has|done|].
  unfold account. simpl. by rewrite if_null.
Qed.

Section jeff_results.
Import Jeff.
Context `{RemapSpec pt} (t t' : pt) (fd : Z) (fuel : nat) (m0 : pmem).
Context (Hmap : Cve.simple_mmap t area = (t', 0)) (Hfd : 0 <= fd).
Context (Hfuel : (Z.to_nat size < fuel)%nat).

(** No letter j in the last ten bytes mapped. *)
Definition quiet_tail (m : pmem) : Prop := forall i, size - 10 <= i < size -> m i <> 106.

Lemma jeff_main_ok : quiet_tail m0 ->
  exists m', main t' fuel fd mmapStart m0 = Done (m', 0) /\
    unchanged m0 size m' /\ rewritten m0 size m'.
Proof.
  intros Ht. destruct (scan_prefix t' (jeff_maps _ _ Hmap) m0 size) as (m' & HU & HR & E);
    [lia|done|done|]. exists m'. split_and!; [|done..].
  unfold main. rewrite (proj2 (Z.ltb_ge fd 0)) by done. change (mmapStart =? MAP_FAILED) with false.
  cbv iota. replace fuel with (Z.to_nat size + S (fuel - S (Z.to_nat size)))%nat by lia.
  rewrite E. cbn [scan]. change (u64 (mmapStart + size)) with (mmapStart + size).
  by rewrite Z.ltb_irrefl.
Qed.

(** C16.  The string kmalloc.c keeps in kernel memory can be changed from user
    space: after jeff-mmap.c has run, unloading the module prints
    "jeffnice-19" where the load stored "jeffnice+20". *)
Theorem jeff_rewrites_kstr (virt_to_phys : Z -> Z) env s0 s tr :
  Kstr.init_kmalloc virt_to_phys env s0 [] = (Some 0, s, tr) -> Kstr.phys s = m0 ->
  0 <= virt_to_phys (Kstr.p s) <= size - 12 -> isolated m0 (virt_to_phys (Kstr.p s)) ->
  quiet_tail m0 ->
  exists m', main t' fuel fd mmapStart m0 = Done (m', 0) /\
    let out := Kstr.exit_kmalloc virt_to_phys env (Kstr.St (Kstr.p s) m') tr in
    returns out = Some (Some (bytes_of "jeffnice-19")) /\ leaves out = Some [].
Proof.
  intros Hi Hs Ha Hiso Ht. destruct (jeff_main_ok Ht) as (m' & E & HU & HR). exists m'. split; [done|].
  set (a := virt_to_phys (Kstr.p s)) in *.
  destruct (kstr_loaded _ _ _ _ _ Hi) as (Htext & Hp & Htr). fold a in Htext. rewrite Hs in Htext.
  change (Kstr.text ++ [0]) with (pattern ++ bytes_of "+20" ++ [0]) in Htext.
  apply has_app in Htext as [Hh Htext]. apply has_app in Htext as [_ Hnul].
  pose proof (HR a ltac:(lia) Hh Hiso) as Hnew.
  assert (has m' a (bytes_of "jeffnice-19" ++ [0])) as Hz.
  { apply has_app. split; [exact Hnew|]. intros i c Hc. rewrite <- (Hnul i c Hc).
    apply lookup_lt_Some in Hc as Hl. simpl in Hl. assert (i = 0%nat) as -> by lia.
    change (m' (a + 11 + 0) = m0 (a + 8 + 3 + 0)). replace (a + 8 + 3 + 0) with (a + 11 + 0) by lia.
    destruct (HU (a + 11 + 0)) as [|(_ & q & Hq & Hhq & Hw)]; [done|].
    pose proof (matches_apart _ _ _ Hh Hhq ltac:(lia)). lia. }
  assert (strz 20 m' a = Some (bytes_of "jeffnice-19")) as Hstr.
  { apply strz_has; [done| |simpl; lia]. by repeat constructor. }
  unfold returns, leaves, Kstr.exit_kmalloc. munfold. cbn [fst snd Kstr.phys Kstr.p]. fold a. split.
  - by rewrite Hstr.
  - destruct (env tr (kfree (Kstr.p s))) as [r o]. simpl. rewrite Htr. simpl.
    unfold account. simpl. rewrite if_null by done. by rewrite decide_True.
Qed.

(** The scan reads past its mapping when a jeffnice could begin in the
    last bytes: with a j in the last byte and nothing mapped behind it the
    program faults. *)
Lemma jeff_overread :
  translate t' (mmapStart + size) = None -> m0 (size - 1) = 106 ->
  (forall i, size - 11 <= i < size - 1 -> m0 i <> 106) ->
  main t' fuel fd mmapStart m0 = Wild.
Proof.
  intros Hend Hj Ht. destruct (scan_prefix t' (jeff_maps _ _ Hmap) m0 (size - 1)) as (m' & HU & _ & E);
    [unfold size; lia|intros; apply Ht; lia|unfold size; lia|].
  unfold main. rewrite (proj2 (Z.ltb_ge fd 0)) by done. change (mmapStart =? MAP_FAILED) with false.
  cbv iota. replace fuel with (Z.to_nat (size - 1) + S (fuel - S (Z.to_nat (size - 1))))%nat by lia.
  rewrite E. cbn [scan]. change (u64 (mmapStart + size)) with (mmapStart + size).
  rewrite (proj2 (Z.ltb_lt _ _)) by lia.
  assert (m' (size - 1) = 106) as Hj'.
  { destruct (HU (size - 1)) as [->|(_ & q & Hq & Hh & Hw)]; [done|].
    destruct (pattern_at _ _ 0 Hh ltac:(lia)) as (c & Hc & Hm). injection Hc as <-.
    rewrite Z.add_0_r in Hm. destruct (Ht q); [lia|done]. }
  assert (chain (fun i => uload t' m' (mmapStart + (size - 1) + i)) 0 pattern = None) as ->; [|done].
  rewrite pattern_bytes. cbn [chain].
  assert (uload t' m' (mmapStart + (size - 1) + 0) = Some 106) as ->.
  { rewrite Z.add_0_r, (uload_maps _ _ _ _ (jeff_maps _ _ Hmap)) by (unfold size; lia).
    by rewrite Z.add_0_l, Hj'. }
  cbn [mbind option_bind]. rewrite Z.eqb_refl.
  assert (uload t' m' (mmapStart + (size - 1) + (0 + 1)) = None) as ->; [|done].
  unfold uload. replace (mmapStart + (size - 1) + (0 + 1)) with (mmapStart + size) by lia. by rewrite Hend.
Qed.

(** C32.  jeff-mmap.c maps physical memory through mmap-root.c and scans it.
    When no letter j is in the last ten bytes mapped, it ends, returns 0 and has
    written -19 behind every jeffnice in the memory mapped that is not itself
    hit by the patch of one before it; nothing but the three bytes behind a
    jeffnice is changed.  The condition is needed: the comparisons look up to
    eight bytes ahead, and with a j in the last byte and nothing mapped behind
    it the program faults. *)
Theorem jeff_scan_spec :
  (quiet_tail m0 ->
   exists m', main t' fuel fd mmapStart m0 = Done (m', 0) /\
    (forall p, 0 <= p < size -> has m0 p pattern -> isolated m0 p ->
      has m' p (bytes_of "jeffnice-19")) /\
    (forall i, m' i = m0 i \/ exists q, 0 <= q < size /\ has m0 q pattern /\ q + 8 <= i <= q + 10)) /\
  (translate t' (mmapStart + size) = None -> m0 (size - 1) = 106 ->
   (forall i, size - 11 <= i < size - 1 -> m0 i <> 106) ->
   main t' fuel fd mmapStart m0 = Wild).
Proof.
  split; [|by apply jeff_overread].
  intros Ht. destruct (jeff_main_ok Ht) as (m' & E & HU & HR). exists m'. split_and!; [done|exact HR|].
  intros i. destruct (HU i) as [|[_ ?]]; eauto.
Qed.
End jeff_results.

(** ** The scan of mmap-get-root.c *)

Section getroot.
Import GetRoot.
Context `{Remap pt}.
Context (t : pt) (HM : maps t mmapStart 0 size).
Context (getuid : pmem -> Z) (execl : bool) (uid : Z) (m0 : pmem).

Definition same (m m' : pmem) : Prop := forall x, m x = m' x.

(** The eight words from word [x] on are [v], the others as in [m]. *)
Definition words (x v : Z) (m m' : pmem) : Prop :=
  (forall i, 0 <= i < 8 -> m' (4 * (x + i)) = v) /\
  (forall y, (forall i, 0 <= i < 8 -> y <> 4 * (x + i)) -> m' y = m y).

Lemma load_word m x i : 0 <= x + i -> 4 * (x + i) < size ->
  uload t m (mmapStart + 4 * x + 4 * i) = Some (m (4 * (x + i))).
Proof.
  intros H0 H1. replace (mmapStart + 4 * x + 4 * i) with (mmapStart + 4 * (x + i)) by lia.
  by rewrite (uload_maps _ _ _ _ HM) by lia.
Qed.

Lemma store_words m x v : 0 <= x -> 4 * x + 32 <= size ->
  exists m', stores (fun m i => ustore t m (mmapStart + 4 * x + 4 * i)) m 0 (replicate 8 v) = Some m' /\
    words x v m m'.
Proof.
  intros H0 H1. destruct (stores_ok (fun m i => ustore t m (mmapStart + 4 * x + 4 * i))
    (fun i => 4 * (x + i)) m 0 (replicate 8 v)) as (m' & E & Hin & Hout).
  - intros m1 i w Hi. rewrite length_replicate in Hi. simpl in Hi.
    replace (mmapStart + 4 * x + 4 * i) with (mmapStart + 4 * (x + i)) by lia.
    by rewrite (ustore_maps _ _ _ _ HM) by lia.
  - lia.
  - exists m'. split; [done|]. split.
    + intros i Hi. rewrite <- (Hin (Z.to_nat i) v); [f_equal; lia|].
      apply lookup_replicate_2. lia.
    + intros y Hy. apply Hout. intros i Hi. apply Hy. rewrite length_replicate in Hi. simpl in Hi. lia.
Qed.

Lemma words_match m x : has (fun i => m (4 * (x + i))) 0 (replicate 8 (u32 uid)) <->
  forall i, 0 <= i < 8 -> m (4 * (x + i)) = u32 uid.
Proof.
  split.
  - intros Hh i Hi. rewrite <- (Hh (Z.to_nat i) (u32 uid)); [do 2 f_equal; lia|].
    apply lookup_replicate_2. lia.
  - intros Hw i c [-> Hi]%lookup_replicate. apply Hw. lia.
Qed.

Lemma words_restore x m m1 m2 :
  (forall i, 0 <= i < 8 -> m (4 * (x + i)) = u32 uid) -> same m m0 ->
  words x 0 m m1 -> words x (u32 uid) m1 m2 -> same m2 m0.
Proof.
  intros Hw Hs [_ H1] [H2 H3] y. rewrite <- Hs.
  destruct (decide (y mod 4 = 0 /\ 0 <= y / 4 - x < 8)) as [Hy|Hy].
  - assert (y = 4 * (x + (y / 4 - x))) as -> by mlia. rewrite H2, Hw; [done|mlia..].
  - rewrite H3, H1; [done|intros i Hi ->; apply Hy; split; mlia..].
Qed.

(** One round of the loop, where eight words are mapped: it goes on with
    memory as it was, or has found eight words that hold the user id, and
    whose change made the process root. *)
Lemma root_step f m x :
  0 <= x -> 4 * x + 32 <= size -> same m m0 ->
  (exists m2, same m2 m0 /\
    scan t getuid execl (S f) uid m (mmapStart + 4 * x) =
      scan t getuid execl f uid m2 (mmapStart + 4 * (x + 1)) /\
    ((forall i, 0 <= i < 8 -> m0 (4 * (x + i)) = u32 uid) ->
      exists m1, words x 0 m m1 /\ getuid m1 <> 0)) \/
  (exists m1, words x 0 m m1 /\ getuid m1 = 0 /\
    scan t getuid execl (S f) uid m (mmapStart + 4 * x) =
      Done (m1, if execl then Shell else ExeclFailed)).
Proof.
  intros H0 H1 Hs. cbn [scan]. change (u64 (mmapStart + size)) with (mmapStart + size).
  rewrite (proj2 (Z.ltb_lt _ _)) by lia.
  replace (mmapStart + 4 * (x + 1)) with (mmapStart + 4 * x + 4) by lia.
  destruct (chain_ok (fun i => uload t m (mmapStart + 4 * x + 4 * i)) (fun i => m (4 * (x + i))) 0
    (replicate 8 (u32 uid))) as (b & c & -> & Hb & _).
  { intros i Hi. rewrite length_replicate in Hi. apply load_word; lia. }
  rewrite words_match in Hb. destruct b.
  2: { left. exists m. split_and!; [done..|]. intros Hw. discriminate (proj2 Hb).
       intros i Hi. rewrite Hs. auto. }
  destruct (store_words m x 0) as (m1 & -> & W1); [done..|].
  destruct (Z.eqb_spec (getuid m1) 0) as [Hr|Hr]; [right; eauto|].
  destruct (store_words m1 x (u32 uid)) as (m2 & -> & W2); [done..|].
  left. exists m2. split_and!; [|done|eauto]. eapply words_restore; [by apply Hb|done..].
Qed.

(** The credentials of the process are found. *)
Lemma root_reached c k f m x :
  0 <= x -> x + Z.of_nat k = c -> 4 * c + 32 <= size -> same m m0 ->
  (forall i, 0 <= i < 8 -> m0 (4 * (c + i)) = u32 uid) ->
  u32 uid <> 0 -> (forall m, getuid m = m (4 * c)) ->
  exists m', scan t getuid execl (S k + f) uid m (mmapStart + 4 * x) =
      Done (m', if execl then Shell else ExeclFailed) /\ getuid m' = 0.
Proof.
  intros Hx Hk Hc Hs Hw Hu Hg. revert m x Hx Hk Hs. induction k as [|k IH]; intros m x Hx Hk Hs.
  - replace x with c in * by lia. change (1 + f)%nat with (S f).
    destruct (root_step f m c) as [(m2 & _ & _ & Hn)|(m1 & _ & H1 & ->)]; [lia..|done| |eauto].
    destruct (Hn Hw) as (m1 & [W _] & []). rewrite Hg, <- (Z.add_0_r c). apply W. lia.
  - change (S (S k) + f)%nat with (S (S k + f)). destruct (root_step (S k + f) m x) as [(m2 & Hs2 & E & _)|(m1 & _ & H1 & ->)]; [lia..|done| |eauto].
    rewrite E. apply IH; [lia|lia|done].
Qed.

(** Without success the scan leaves memory as it was. *)
Lemma root_restored k f m x :
  0 <= x -> 4 * (x + Z.of_nat k) = size -> same m m0 -> (forall m, getuid m <> 0) ->
  (forall i, size - 28 <= i < size -> m0 i <> u32 uid) ->
  exists m', scan t getuid execl (k + S f) uid m (mmapStart + 4 * x) = Done (m', Returned 0) /\ same m' m0.
Proof.
  intros Hx Hk Hs Hg Ht. revert m x Hx Hk Hs. induction k as [|k IH]; intros m x Hx Hk Hs.
  { cbn [Nat.add scan]. change (u64 (mmapStart + size)) with (mmapStart + size).
    rewrite (proj2 (Z.ltb_ge _ _)) by lia. eauto. }
  destruct (decide (4 * x + 32 <= size)) as [Hin|Hlast].
  - change (S k + S f)%nat with (S (k + S f)). destruct (root_step (k + S f) m x) as [(m2 & Hs2 & E & _)|(m1 & _ & H1 & _)];
      [lia..|done| |by destruct (Hg m1)].
    rewrite E. apply IH; [lia|lia|done].
  - cbn [Nat.add scan]. change (u64 (mmapStart + size)) with (mmapStart + size).
    rewrite (proj2 (Z.ltb_lt _ _)) by lia. cbn [replicate].
    rewrite (chain_first _ _ _ _ (m (4 * (x + 0)))); [|apply load_word; lia|rewrite Hs; apply Ht; lia].
    replace (mmapStart + 4 * x + 4) with (mmapStart + 4 * (x + 1)) by lia. apply IH; [lia|lia|done].
Qed.
End getroot.

Section getroot_results.
Import GetRoot.
Context `{RemapSpec pt} (t t' : pt) (fd : Z) (fuel : nat) (m0 : pmem).
Context (getuid : pmem -> Z) (execl : bool).

(** The area mmap creates when it grants the address asked for. *)
Definition root_area : vma := Vma mmapStart (mmapStart + size) 0 3.

Context (Hmap : Cve.simple_mmap t root_area = (t', 0)) (Hfd : 0 <= fd).

Lemma root_maps : maps t' mmapStart 0 size.
Proof. apply (simple_mmap_maps t t' root_area); [done|by vm_compute|done]. Qed.

Lemma root_main : main t' getuid execl fuel fd mmapStart m0 = scan t' getuid execl fuel (getuid m0) m0 mmapStart.
Proof. unfold main. by rewrite (proj2 (Z.ltb_ge fd 0)) by done. Qed.


(** A scan that does not make the process root changes nothing: every run
    of eight words it overwrites is put back, and the program returns 0. *)
Theorem getroot_restores :
  (forall m, getuid m <> 0) ->
  (forall i, size - 28 <= i < size -> m0 i <> u32 (getuid m0)) ->
  (Z.to_nat (size / 4) < fuel)%nat ->
  exists m', main t' getuid execl fuel fd mmapStart m0 = Done (m', Returned 0) /\
    forall x, m' x = m0 x.
Proof.
  intros Hg Ht Hf. rewrite root_main.
  replace fuel with (Z.to_nat (size / 4) + S (fuel - S (Z.to_nat (size / 4))))%nat by lia.
  replace mmapStart with (mmapStart + 4 * 0) by lia.
  apply (root_restored t' root_maps getuid execl (getuid m0) m0);
    [lia|rewrite Z2Nat.id; done|done|done|done].
Qed.
End getroot_results.

(** ** Loading and unloading mmap-root.c *)

Section cve_load.
Import Cve.
Context (env : kenv).

Definition cve_post (r : option Z) (s : st) (tr : trace) : Prop :=
  (exists e, r = Some e /\ failure env e /\ audit tr = Some (lost_cdev (pcdev s))) \/
  (r = Some 0 /\ pcdev s <> 0 /\
    audit tr = Some [RRegion (ndev s); RCdevMem (pcdev s); RCdev (pcdev s)]).

Lemma cve_init_wp : wp cve_mmap_init env st0 [] cve_post.
Proof.
  unfold cve_mmap_init, add_err, region_err, cdev_err.
  assert (audit [] = Some []) as A by done.
  apply wp_bind_call. intros c o _. wpure. destruct (Z.eqb_spec c 0) as [->|Hc].
  { wpure. left. by exists (- ENOMEM). }
  apply (audit_acquire _ cdev_alloc c o _ (RCdev c)) in A; [|acq].
  wacquire (RCdevMem c) A. clear A. intros ? ? A. apply wp_bind_call2. intros e d Ee. wpure.
  destruct (Z.eqb_spec e 0) as [->|He]; simpl.
  - apply (audit_acquire _ (alloc_chrdev_region 1 "mmap_dev") 0 d _ (RRegion d)) in A; [|done].
    wpure. apply wp_bind_call. intros e oe Ec.
    apply (audit_silent _ (cdev_add c d 1) e oe) in A; [|done..].
    destruct (Z.eqb_spec e 0) as [->|He]; simpl.
    + wpure. right. done.
    + wpure. wpop A. wpure. apply audit_held in A. wfree A. wpure. left. exists e.
      apply failure_answer in Ec; [|done..]. split_and!; [done..|]. by apply held_lost.
  - apply (audit_silent _ (alloc_chrdev_region 1 "mmap_dev") e d) in A; [|by simpl; rewrite if_null|done..].
    wpure. apply audit_held in A. wfree A. wpure. left. exists e.
    apply failure_answer in Ee; [|done..]. split_and!; [done..|]. by apply held_lost.
Qed.

Lemma cve_exit_wp s tr :
  audit tr = Some [RRegion (ndev s); RCdevMem (pcdev s); RCdev (pcdev s)] ->
  wp cve_mmap_exit env s tr (fun r _ tr => r = Some () /\ audit tr = Some [RCdevMem (pcdev s)]).
Proof.
  intros A%audit_held. unfold cve_mmap_exit. wpure. wfree A. wfree A. wpure.
  split; [done|by apply held_one].
Qed.

(** Whatever the kernel answers, loading mmap-root.c reports an error with
    everything given back, or 0 with the device registered, and then unloading
    gives everything back; but for the memory of the cdev once cdev_init has
    seen it, which nothing frees. *)
Theorem cve_load_unload :
  let '(r, s, tr) := cve_mmap_init env st0 [] in
  (exists e, r = Some e /\ e <> 0 /\ audit tr = Some (lost_cdev (pcdev s))) \/
  (r = Some 0 /\ leaves (cve_mmap_exit env s tr) = Some [RCdevMem (pcdev s)]).
Proof.
  pose proof cve_init_wp as W. unfold wp in W.
  destruct (cve_mmap_init env st0 []) as [[r s] tr]. simpl in W.
  destruct W as [(e & ? & [? _] & ?)|(-> & _ & A)]; [left; eauto|]. right. split; [done|].
  by apply cve_exit_wp in A as [_ A].
Qed.
End cve_load.

(** ** Examples *)

Section examples.
Definition no_pages : Z -> option Z := fun _ => None.
Lemma ex_mapped v : Cve.simple_mmap no_pages v = ((Cve.simple_mmap no_pages v).1, 0).
Proof. reflexivity. Defined.

Definition ex_text : pmem := strcpy (fun _ => 0) 8192 Kstr.text.

Lemma ex_text_elsewhere x : x < 8192 \/ 8203 < x -> ex_text x = 0.
Proof. intros. unfold ex_text. by rewrite strcpy_frame. Qed.

Lemma ex_quiet : quiet_tail ex_text.
Proof. intros i Hi. unfold Jeff.size in Hi. rewrite ex_text_elsewhere by lia. done. Qed.

Lemma ex_isolated : isolated ex_text 8192.
Proof.
  intros q _ Hq Hh. specialize (Hh 0%nat 106 eq_refl). rewrite ex_text_elsewhere in Hh by lia. done.
Qed.

Lemma ex_has : has ex_text 8192 Jeff.pattern.
Proof. apply (has_app _ _ Jeff.pattern (bytes_of "+20" ++ [0])), strcpy_has. Qed.

Definition ex_kstr : Kstr.st :=
  final (Kstr.init_kmalloc (fun a => a + 4096) nice_env (Kstr.St 0 (fun _ => 0)) []).

Lemma jeff_rewrites_kstr_witness : exists m' tr,
  Jeff.main (Cve.simple_mmap no_pages Jeff.area).1 (S (Z.to_nat Jeff.size)) 3 mmapStart
    (Kstr.phys ex_kstr) = Done (m', 0) /\
  returns (Kstr.exit_kmalloc (fun a => a + 4096) nice_env (Kstr.St (Kstr.p ex_kstr) m') tr) =
    Some (Some (bytes_of "jeffnice-19")).
Proof.
  destruct (jeff_rewrites_kstr no_pages (Cve.simple_mmap no_pages Jeff.area).1 3
    (S (Z.to_nat Jeff.size)) ex_text (ex_mapped _) ltac:(lia) (Nat.lt_succ_diag_r _)
    (fun a => a + 4096) nice_env (Kstr.St 0 (fun _ => 0)) ex_kstr _ eq_refl eq_refl)
    as (m' & E & Hr & _); [change (Kstr.p ex_kstr) with 4096; unfold Jeff.size; lia|exact ex_isolated|exact ex_quiet|].
  exists m'. eexists. split; [exact E|exact Hr].
Defined.

Definition ex_lone_j : pmem := pset (fun _ => 0) (Jeff.size - 1) 106.

Lemma jeff_scan_spec_witness :
  (exists m', Jeff.main (Cve.simple_mmap no_pages Jeff.area).1 (S (Z.to_nat Jeff.size)) 3 mmapStart ex_text
    = Done (m', 0) /\ has m' 8192 (bytes_of "jeffnice-19")) /\
  Jeff.main (Cve.simple_mmap no_pages Jeff.area).1 (S (Z.to_nat Jeff.size)) 3 mmapStart ex_lone_j = Wild.
Proof.
  split.
  - destruct (proj1 (jeff_scan_spec no_pages (Cve.simple_mmap no_pages Jeff.area).1 3
      (S (Z.to_nat Jeff.size)) ex_text (ex_mapped _) ltac:(lia) (Nat.lt_succ_diag_r _)) ex_quiet) as (m' & E & Hp & _).
    exists m'. split; [exact E|]. apply Hp; [unfold Jeff.size; lia|exact ex_has|exact ex_isolated].
  - apply (proj2 (jeff_scan_spec no_pages (Cve.simple_mmap no_pages Jeff.area).1 3
      (S (Z.to_nat Jeff.size)) ex_lone_j (ex_mapped _) ltac:(lia) (Nat.lt_succ_diag_r _)));
      [reflexivity|apply pset_eq|].
    intros i Hi. unfold ex_lone_j. rewrite pset_ne by lia. lia.
Defined.

(** A process of user 1000 whose ids are at 8192. *)
Definition ex_ids : pmem := fun x => if (8192 <=? x) && (x <? 8224) then 1000 else 0.


Lemma getroot_restores_witness : exists m',
  GetRoot.main (Cve.simple_mmap no_pages root_area).1 (fun m => 1000) true
    (S (Z.to_nat (GetRoot.size / 4))) 3 mmapStart ex_ids = Done (m', GetRoot.Returned 0) /\
  forall x, m' x = ex_ids x.
Proof.
  apply (getroot_restores no_pages _ 3 (S (Z.to_nat (GetRoot.size / 4))) ex_ids (fun _ => 1000) true
    (ex_mapped _) ltac:(lia)); [lia| |apply Nat.lt_succ_diag_r].
  intros i Hi. unfold GetRoot.size in Hi. unfold ex_ids. change (u32 1000) with 1000. zify_bool; simpl; lia.
Defined.
End examples.
