(* ===== verification/MmapLab.v ===== *)
(** * mmap-labs: mmap.c, main.c

    A module that keeps a string in a page, maps pages into processes and
    prints the string every ten seconds from a timer, and the program that
    maps the page and changes the string. *)

From S2P Require Import Prelude Kernel PhysMem.

Definition KSTR_DEF : list Z := bytes_of "Hello world from kernel virtual space".

Record st := St {
  pcdev : Z; ndev : Z; pg : Z;
  ptr : Z; expires : Z;  (* my_data *)
  phys : pmem            (* physical memory *)
}.

Definition set_pcdev c s := St c (ndev s) (pg s) (ptr s) (expires s) (phys s).
Definition set_ndev d s := St (pcdev s) d (pg s) (ptr s) (expires s) (phys s).
Definition set_pg p s := St (pcdev s) (ndev s) p (ptr s) (expires s) (phys s).
Definition set_ptr p s := St (pcdev s) (ndev s) (pg s) p (expires s) (phys s).
Definition set_expires e s := St (pcdev s) (ndev s) (pg s) (ptr s) e (phys s).
Definition set_phys m s := St (pcdev s) (ndev s) (pg s) (ptr s) (expires s) m.

(** The address of [my_data.timer]. *)
Definition my_timer : Z := 1.

Definition demo_open : Z := 0.
Definition demo_release : Z := 0.

Definition demo_mmap `{Remap pt} (t : pt) (v : vma) : pt * Z :=
  let start := vm_start v in
  let size := u64 (vm_end v - vm_start v) in
  remap_pfn_range t v start (vm_pgoff v) size (vm_page_prot v).

Section module.
(** Ticks per second, and the physical address behind a kernel address. *)
Context (HZ : Z) (kva : Z -> Z).

Definition cdev_err (err : Z) : M st Z :=
  s ← get;
  call (kunmap (pg s));;
  call (ClearPageReserved (pg s));;
  call (free_pages (pg s) 0);;
  mret err.

Definition region_err (err : Z) : M st Z :=
  s ← get; call (cdev_del (pcdev s));; cdev_err err.

Definition add_err (err : Z) : M st Z :=
  s ← get; call (unregister_chrdev_region (ndev s) 1);; region_err err.

Definition demo_map_init : M st Z :=
  p ← call (alloc_pages 0);
  modify (set_pg p);;
  if p =? 0 then mret (- ENOMEM)
  else
    call (SetPageReserved p);;
    kstr ← call (kmap p);
    modify (fun s => set_phys (strcpy (phys s) (kva kstr) KSTR_DEF) s);;
    c ← call cdev_alloc;
    modify (set_pcdev c);;
    if c =? 0 then cdev_err (- ENOMEM)
    else
      call (cdev_init c);;
      '(err, d) ← call2 (alloc_chrdev_region 1 "mmap_dev");
      (if err =? 0 then modify (set_ndev d) else mret ());;
      if negb (err =? 0) then region_err err
      else
        s ← get;
        err ← call (cdev_add (pcdev s) (ndev s) 1);
        if negb (err =? 0) then add_err err
        else
          call (timer_setup my_timer);;
          modify (set_ptr kstr);;
          jiffies ← call read_jiffies;
          modify (set_expires (u64 (jiffies + HZ * 10)));;
          s ← get;
          call (add_timer my_timer (expires s));;
          mret err.

Definition demo_map_exit : M st () :=
  call (del_timer_sync my_timer);;
  s ← get;
  call (cdev_del (pcdev s));;
  call (unregister_chrdev_region (ndev s) 1);;
  call (kunmap (pg s));;
  call (ClearPageReserved (pg s));;
  call (free_pages (pg s) 0);;
  mret ().

(** ** The timer

    The module while it is loaded: ticks since the machine started, when the
    timer is due if it is pending, memory, and what timer_func printed, newest
    first, with the time; a string that runs off its page is [None]. *)
Record world := World {
  now : Z; pending : option Z; wphys : pmem; printed : list (Z * option (list Z))
}.

Definition jiffies (w : world) : Z := u64 (now w).

Definition timer_func (s : st) (w : world) : world :=
  let text := strz (Z.to_nat PAGE_SIZE) (wphys w) (kva (ptr s)) in
  World (now w) (Some (u64 (jiffies w + HZ * 10))) (wphys w) ((now w, text) :: printed w).

(** The kernel takes a pending timer off its list and runs it once its time
    has come; processes may write to the page at any time. *)
Inductive step (s : st) : world -> world -> Prop :=
  | tick w : step s w (World (now w + 1) (pending w) (wphys w) (printed w))
  | fire w e :
      pending w = Some e -> 0 <= s64 (jiffies w - e) ->
      step s w (timer_func s (World (now w) None (wphys w) (printed w)))
  | user_write w a v :
      step s w (World (now w) (pending w) (pset (wphys w) a v) (printed w)).

End module.

(** ** main.c *)

Definition USTR_DEF : list Z := bytes_of "String changed from the User Space".
Definition MAP_SIZE : Z := 4096.

Section user.
Context `{Remap pt}.
Context (t : pt).

(** printf of the string at a user address. *)
Fixpoint ustrz (n : nat) (m : pmem) (va : Z) : option (list Z) :=
  match n with
  | O => None
  | S n' =>
      c ← uload t m va;
      if c =? 0 then Some [] else (c ::.) <$> ustrz n' m (va + 1)
  end.

(** [fd] and [pdata] are what open and mmap return.  The result is memory,
    the string printed and the return value; with one argument only, strtoul
    reads through argv[2], which is NULL. *)
Definition main (argc fd pdata : Z) (m : pmem) : option (pmem * list Z * Z) :=
  if argc <=? 1 then Some (m, [], -1)
  else if 0 <=? fd then
    if argc =? 2 then None else
    out ← ustrz (Z.to_nat MAP_SIZE) m pdata;
    m' ← stores (fun m i => ustore t m (pdata + i)) m 0 (USTR_DEF ++ [0]);
    Some (m', out, 0)
  else Some (m, [], 0).
End user.

(** ** Load and unload *)

Section load.
Context (HZ : Z) (kva page_to_phys : Z -> Z) (env : kenv).
(** kmap makes the page visible at the address it returns. *)
Definition kmap_window : Prop := forall tr p, kva (env tr (kmap p)).1 = page_to_phys p.

Definition st0 (m : pmem) : st := St 0 0 0 0 0 m.

(** After a load: the resources held and the string in the page. *)
Definition loaded (m : pmem) (s : st) (tr : trace) : Prop :=
  pg s <> 0 /\ pcdev s <> 0 /\
  audit tr = Some [RTimer my_timer; RRegion (ndev s); RCdevMem (pcdev s); RCdev (pcdev s);
    RKmap (pg s); RReserved (pg s); RPage (pg s)] /\
  phys s = strcpy m (kva (ptr s)) KSTR_DEF /\
  (kmap_window -> kva (ptr s) = page_to_phys (pg s)).

Definition init_post (m : pmem) (r : option Z) (s : st) (tr : trace) : Prop :=
  (exists e, r = Some e /\ failure env e /\ audit tr = Some (lost_cdev (pcdev s))) \/
  (r = Some 0 /\ loaded m s tr).

Lemma demo_init_wp m : wp (demo_map_init HZ kva) env (st0 m) [] (init_post m).
Proof.
  unfold demo_map_init, add_err, region_err, cdev_err.
  assert (audit [] = Some []) as A by done.
  apply wp_bind_call. intros p o _. wpure. destruct (Z.eqb_spec p 0) as [->|Hp].
  { wpure. left. by exists (- ENOMEM). }
  apply (audit_acquire _ (alloc_pages 0) p o _ (RPage p)) in A; [|acq].
  wacquire (RReserved p) A. clear A. intros ? ? A.
  apply wp_bind_call. intros kstr ok Ek.
  apply (audit_acquire _ (kmap p) kstr ok _ (RKmap p)) in A; [|done]. wpure.
  apply wp_bind_call. intros c oc _. wpure. destruct (Z.eqb_spec c 0) as [->|Hc].
  { apply (audit_silent _ cdev_alloc 0 oc) in A; [|done..]. wpure. wpop A. wpop A. wpop A. wpure.
    left. by exists (- ENOMEM). }
  apply (audit_acquire _ cdev_alloc c oc _ (RCdev c)) in A; [|acq].
  wacquire (RCdevMem c) A. clear A. intros ? ? A. apply wp_bind_call2. intros e d Ee. wpure.
  destruct (Z.eqb_spec e 0) as [->|He]; simpl.
  2: { apply (audit_silent _ (alloc_chrdev_region 1 "mmap_dev") e d) in A; [|by simpl; rewrite if_null|done..].
       wpure. apply audit_held in A. wfree A. wpure. do 3 wfree A. wpure. left. exists e.
       apply failure_answer in Ee; [|done..]. split_and!; [done..|]. by apply held_lost. }
  apply (audit_acquire _ (alloc_chrdev_region 1 "mmap_dev") 0 d _ (RRegion d)) in A; [|done].
  wpure. apply wp_bind_call. intros e oe Ea.
  apply (audit_silent _ (cdev_add c d 1) e oe) in A; [|done..].
  destruct (Z.eqb_spec e 0) as [->|He]; simpl.
  2: { wpure. wpop A. wpure. apply audit_held in A. wfree A. wpure. do 3 wfree A. wpure. left. exists e.
       apply failure_answer in Ea; [|done..]. split_and!; [done..|]. by apply held_lost. }
  wsilent A. clear A. intros ? ? A. wpure. wsilent A. clear A. intros j ? A. wpure.
  wacquire (RTimer my_timer) A. clear A. intros ? ? A. wpure.
  right. split; [done|]. unfold loaded; simpl. split_and!; [done|done|exact A|done|].
  intros Hw. by apply (answer_is env _ (kmap p) kstr (fun r => kva r = page_to_phys p) ok (fun tr => Hw tr p) Ek).
Qed.

Lemma demo_loaded m s tr :
  demo_map_init HZ kva env (st0 m) [] = (Some 0, s, tr) -> loaded m s tr.
Proof. intros E. destruct (wp_run _ _ _ _ _ _ _ _ (demo_init_wp m) E) as [(e & [= <-] & [? _] & _)|[_ ?]]; done. Qed.

Lemma demo_exit_wp m s tr :
  loaded m s tr -> wp demo_map_exit env s tr (fun r _ tr => r = Some () /\ audit tr = Some [RCdevMem (pcdev s)]).
Proof.
  intros (Hp & _ & A & _). unfold demo_map_exit. apply wp_bind_call. intros r o _.
  apply (audit_del_timer _ _ r o) in A. apply audit_held in A. wpure.
  wfree A. wfree A. wfree A. wfree A. wfree A. wpure. split; [done|by apply held_one].
Qed.


(** ** The page shared with user space *)

Lemma demo_mmap_maps `{RemapSpec pt} (t t' : pt) v :
  vm_start v mod PAGE_SIZE = 0 -> 0 <= vm_end v - vm_start v < 2 ^ 64 ->
  demo_mmap t v = (t', 0) ->
  maps t' (vm_start v) (vm_pgoff v * PAGE_SIZE) (vm_end v - vm_start v).
Proof.
  intros Ha Hs. unfold demo_mmap. rewrite u64_id by exact Hs. intros E i Hi.
  eapply remap_ok; [exact Ha|apply Hs|exact E|exact Hi].
Qed.

Lemma ustrz_maps `{Remap pt} (t : pt) va pa len m n k :
  maps t va pa len -> 0 <= k -> k + Z.of_nat n <= len ->
  ustrz t n m (va + k) = strz n m (pa + k).
Proof.
  intros HM. revert k. induction n as [|n IH]; intros k H0 Hn; [done|]. simpl.
  rewrite (uload_maps _ _ _ _ HM) by lia. simpl. destruct (_ =? 0); [done|].
  rewrite <- !Z.add_assoc, IH by lia. done.
Qed.

(** C20.  Kernel and process share the page: a program that is given the device
    and the address of the page, and maps it through demo_mmap, reads the string the load stored there, and what it writes is
    what the timer prints next. *)
Theorem mmap_lab_shared `{RemapSpec pt} (t t' : pt) v m s tr argc fd now :
  demo_map_init HZ kva env (st0 m) [] = (Some 0, s, tr) -> kmap_window ->
  vm_start v mod PAGE_SIZE = 0 -> vm_end v = vm_start v + MAP_SIZE ->
  vm_pgoff v * PAGE_SIZE = page_to_phys (pg s) ->
  demo_mmap t v = (t', 0) -> 2 < argc -> 0 <= fd ->
  exists m', main t' argc fd (vm_start v) (phys s) = Some (m', KSTR_DEF, 0) /\
    printed (timer_func HZ kva s (World now None m' [])) = [(now, Some USTR_DEF)].
Proof.
  intros (_ & _ & _ & Hphys & Hwin)%demo_loaded Hk Ha Hend Hpg Hmap Hargc Hfd.
  assert (maps t' (vm_start v) (kva (ptr s)) MAP_SIZE) as HM.
  { rewrite (Hwin Hk), <- Hpg. replace MAP_SIZE with (vm_end v - vm_start v) by lia.
    apply (demo_mmap_maps t); [done|rewrite Hend; unfold MAP_SIZE; lia|done]. }
  destruct (stores_ok (fun m i => ustore t' m (vm_start v + i)) (fun i => kva (ptr s) + i)
    (phys s) 0 (USTR_DEF ++ [0])) as (m' & E & Hin & _).
  { intros m1 i c Hi. rewrite (ustore_maps _ _ _ _ HM); [done|]. unfold MAP_SIZE.
    change (length (USTR_DEF ++ [0%Z])) with 35%nat in Hi. lia. }
  { lia. }
  exists m'. split.
  - unfold main. rewrite (proj2 (Z.leb_gt argc 1)), (proj2 (Z.leb_le 0 fd)), (proj2 (Z.eqb_neq argc 2)) by lia.
    rewrite <- (Z.add_0_r (vm_start v)) at 1. rewrite (ustrz_maps t' _ _ _ _ _ _ HM) by (unfold MAP_SIZE; lia).
    rewrite Z.add_0_r, Hphys, (strz_has _ _ _ KSTR_DEF), <- Hphys;
      [|apply strcpy_has|by repeat constructor|unfold MAP_SIZE; change (length KSTR_DEF) with 37%nat; lia].
    cbn [mbind option_bind]. rewrite E. done.
  - unfold timer_func. cbn [printed wphys MmapLab.now]. do 2 f_equal.
    apply strz_has; [|by repeat constructor|unfold PAGE_SIZE; change (length USTR_DEF) with 34%nat; lia].
    intros i c Hi. by rewrite <- (Hin i c Hi).
Qed.
End load.

(** ** The rhythm of the timer *)

Section timer.
Context (HZ : Z) (kva : Z -> Z) (s : st).
Context (HZ_range : 0 < HZ * 10 <= 2 ^ 63).

(** Times at least ten seconds apart, newest first, the last one [t0] or
    later by ten seconds. *)
Fixpoint spaced (t0 : Z) (l : list Z) : Prop :=
  match l with
  | [] => True
  | t :: l' => default t0 (head l') + HZ * 10 <= t /\ spaced t0 l'
  end.

Definition last_time (t0 : Z) (w : world) : Z := default t0 (head (printed w).*1).

(** The timer is pending for ten seconds after it was last set. *)
Definition timer_inv (t0 : Z) (w : world) : Prop :=
  last_time t0 w <= now w /\ pending w = Some (u64 (u64 (last_time t0 w) + HZ * 10)) /\
  spaced t0 (printed w).*1.

Lemma not_due a n : a <= n -> 0 <= s64 (u64 n - u64 (u64 a + HZ * 10)) -> a + HZ * 10 <= n.
Proof.
  intros Ha Hd. change (2 ^ 63) with 9223372036854775808 in HZ_range. generalize dependent (HZ * 10).
  intros d Hd' Hs. blia.
Qed.

Lemma timer_step t0 w w' : step HZ kva s w w' -> timer_inv t0 w -> timer_inv t0 w'.
Proof.
  intros Hst (Hn & Hp & Hs). destruct Hst as [w|w e He Hd|w a v]; unfold timer_inv, last_time in *; simpl in *.
  - split_and!; [lia|done..].
  - rewrite Hp in He. injection He as <-. apply not_due in Hd; [|done].
    split_and!; [lia|done|done|done].
  - done.
Qed.

(** C19.  While mmap.c is loaded its timer never dies out and never hurries: in
    every interleaving of ticks, expiries and writes of user space it is
    pending, consecutive lines are at least ten seconds apart, and no more
    lines are printed than the time since the load has room for. *)
Theorem demo_timer_rhythm t0 m w :
  rtc (step HZ kva s) (World t0 (Some (u64 (u64 t0 + HZ * 10))) m []) w ->
  pending w <> None /\ spaced t0 (printed w).*1 /\
  Z.of_nat (length (printed w)) * (HZ * 10) <= now w - t0.
Proof.
  intros Hr. assert (timer_inv t0 w) as (Hn & Hp & Hs).
  { assert (timer_inv t0 (World t0 (Some (u64 (u64 t0 + HZ * 10))) m [])) as H0.
    { unfold timer_inv, last_time. simpl. split_and!; [lia|done..]. }
    eapply rtc_preserves; [|exact Hr|exact H0]. intros a b. apply timer_step. }
  split_and!; [by rewrite Hp|done|]. unfold last_time in Hn. rewrite <- (length_fmap fst).
  revert Hn Hs. generalize (printed w).*1 (now w). induction l as [|t l IH]; intros n Hn Hs; simpl in *; [lia|].
  destruct Hs as [Ht Hs]. specialize (IH (t - HZ * 10) ltac:(lia) Hs).
  rewrite Nat2Z.inj_succ, Z.mul_succ_l. lia.
Qed.
End timer.

Section examples.
Definition no_pages : Z -> option Z := fun _ => None.

(** Pages are at their own addresses and kmap returns them. *)
Definition ex_env : kenv := fun tr c =>
  match c with kmap p => (p, 0) | _ => nice_env tr c end.

Definition ex_area : vma := Vma 0x400000 0x401000 1 3.
Definition ex_run := demo_map_init 250 (fun a => a) ex_env (st0 (fun _ => 0)) [].

Lemma mmap_lab_shared_witness : exists m',
  main (demo_mmap no_pages ex_area).1 3 3 0x400000 (phys (final ex_run)) = Some (m', KSTR_DEF, 0) /\
  printed (timer_func 250 (fun a => a) (final ex_run) (World 9 None m' [])) = [(9, Some USTR_DEF)].
Proof.
  apply (mmap_lab_shared 250 (fun a => a) (fun a => a) ex_env no_pages (demo_mmap no_pages ex_area).1
    ex_area (fun _ => 0) (final ex_run) ex_run.2 3 3 9);
    [reflexivity|intros tr p; reflexivity|reflexivity..|lia|lia].
Defined.

Definition ex_world (n : Z) (l : list (Z * option (list Z))) (e : Z) : world :=
  World n (Some e) (fun _ => 0) l.

Lemma ex_ticks k n e l :
  rtc (step 1 (fun a => a) (st0 (fun _ => 0))) (ex_world n l e) (ex_world (n + Z.of_nat k) l e).
Proof.
  revert n. induction k as [|k IH]; intros n; [rewrite Z.add_0_r; apply rtc_refl|].
  eapply rtc_l; [apply tick|]. replace (n + Z.of_nat (S k)) with (n + 1 + Z.of_nat k) by lia. apply IH.
Defined.

Lemma demo_timer_rhythm_witness :
  let w := ex_world 10 [(10, Some [])] 20 in
  pending w <> None /\ spaced 1 0 (printed w).*1 /\
  Z.of_nat (length (printed w)) * (1 * 10) <= now w - 0.
Proof.
  apply (demo_timer_rhythm 1 (fun a => a) (st0 (fun _ => 0)) ltac:(lia) 0 (fun _ => 0)).
  etrans; [apply (ex_ticks 10 0 10 [])|].
  apply rtc_once. apply (fire 1 (fun a => a) (st0 (fun _ => 0)) (ex_world 10 [] 10) 10); [reflexivity|].
  vm_compute. discriminate.
Defined.
End examples.
