(* ===== verification/BlockSpec.v ===== *)
(** * What a block driver promises

    The abstract side of the three ram-disk drivers: an I/O is a direction, a
    start sector and a list of memory segments; a write replaces the bytes of
    the disk from the start sector on by the bytes gathered from the segments,
    a read scatters the bytes of the disk over the segments.  The class
    [BlockDriver] is the interface; its laws are proved for each driver in the
    driver's file, and the theorems about any such driver (write then read,
    independence of disjoint I/Os) are proved here against the class. *)

From S2P Require Import Prelude CMem.

Definition READ : Z := 0.
Definition WRITE : Z := 1.
Definition SECTOR : Z := 512.

(** A segment: where its bytes are and how many. *)
Definition seg : Type := ptr * Z.

Definition segs_len (l : list seg) : Z := foldr (fun v n => v.2 + n) 0 l.

(** The bytes of the segments, in order. *)
Definition gather (m : mem) (l : list seg) : list Z :=
  concat (map (fun v => bytes m v.1 v.2) l).

(** Segments are inside their blocks and none is in the disk's block. *)
Definition seg_ok (m : mem) (dev : Z) (v : seg) : Prop :=
  valid m v.1 v.2 = true /\ 0 <= v.2 /\ v.1.1 <> dev.

Definition seg_disj (v w : seg) : Prop :=
  v.1.1 <> w.1.1 \/ v.1.2 + v.2 <= w.1.2 \/ w.1.2 + w.2 <= v.1.2.

Fixpoint segs_disj (l : list seg) : Prop :=
  match l with
  | [] => True
  | v :: l' => Forall (seg_disj v) l' /\ segs_disj l'
  end.

(** Byte [i] of block [b] belongs to segment [v]. *)
Definition in_seg (b i : Z) (v : seg) : Prop :=
  b = v.1.1 /\ v.1.2 <= i < v.1.2 + v.2.

(** Segment by segment copy between the disk, from [dev] on, and memory. *)
Fixpoint copy_segs (wr : bool) (m : mem) (dev : ptr) (l : list seg) : option mem :=
  match l with
  | [] => Some m
  | v :: l' =>
      m' ← (if wr then memcpy m dev v.1 v.2 else memcpy m v.1 dev v.2);
      copy_segs wr m' (padd dev v.2) l'
  end.

(** ** Lemmas on segments *)

Lemma segs_len_nonneg m dev l : Forall (seg_ok m dev) l -> 0 <= segs_len l.
Proof. induction 1 as [|v l (? & ? & ?) _ IH]; simpl; lia. Qed.

Lemma bytes_app m p n1 n2 :
  0 <= n1 -> 0 <= n2 -> bytes m p (n1 + n2) = bytes m p n1 ++ bytes m (padd p n1) n2.
Proof. intros. by apply slice_app. Qed.

Lemma valid_split m p n1 n2 :
  0 <= n1 -> 0 <= n2 ->
  valid m p (n1 + n2) = true -> valid m p n1 = true /\ valid m (padd p n1) n2 = true.
Proof.
  intros. unfold valid, padd in *; simpl. destruct (m !! p.1); [|done].
  revert H1; zify_bool; simpl; naive_solver lia.
Qed.

(** Memory that has the same validity and the same bytes in the segments. *)
Lemma seg_ok_valid m m' dev l :
  same_alloc m m' -> Forall (seg_ok m dev) l -> Forall (seg_ok m' dev) l.
Proof.
  intros Hv H. eapply Forall_impl; [exact H|]. intros v (? & ? & ?).
  unfold seg_ok. by rewrite (same_alloc_valid _ _ _ _ Hv).
Qed.

Lemma gather_ext m m' l :
  Forall (fun v => bytes m' v.1 v.2 = bytes m v.1 v.2) l -> gather m' l = gather m l.
Proof. unfold gather. induction 1; simpl; congruence. Qed.

Lemma length_gather m dev l :
  Forall (seg_ok m dev) l -> Z.of_nat (length (gather m l)) = segs_len l.
Proof.
  induction 1 as [|v l (? & ? & ?) _ IH]; [done|].
  unfold gather in *; simpl. rewrite length_app, Nat2Z.inj_add, IH.
  unfold bytes. rewrite length_slice. lia.
Qed.

(** ** Writing gathers *)

Lemma copy_segs_write m d l :
  Forall (seg_ok m d.1) l -> valid m d (segs_len l) = true ->
  exists m', copy_segs true m d l = Some m' /\
    bytes m' d (segs_len l) = gather m l /\
    same_alloc m m' /\
    (forall b i, b <> d.1 \/ i < d.2 \/ d.2 + segs_len l <= i ->
       peek m' b i = peek m b i).
Proof.
  revert m d. induction l as [|v l IH]; intros m d Hok Hv; simpl in *.
  { exists m. split_and!; done. }
  apply Forall_cons in Hok as [(Hvs & Hn & Hne) Hok].
  pose proof (segs_len_nonneg _ _ _ Hok).
  apply valid_split in Hv as [Hv1 Hv2]; [|done..].
  destruct (memcpy_ok m d v.1 v.2) as [m1 E]; [auto..|]. rewrite E; simpl.
  pose proof (bytes_memcpy _ _ _ _ _ E) as Eb.
  apply memcpy_write in E as (Ew & _ & _).
  pose proof (write_alloc _ _ _ _ _ Ew) as Hal.
  destruct (IH m1 (padd d v.2)) as (m2 & E2 & B2 & V2 & F2).
  { by eapply seg_ok_valid. } { by rewrite (same_alloc_valid _ _ _ _ Hal). }
  exists m2. rewrite bytes_app by done. split_and!; [done| | |].
  - rewrite B2. unfold gather; simpl. f_equal.
    + rewrite <- Eb. apply slice_ext. intros i Hi. apply F2. right; left. simpl. lia.
    + apply gather_ext. eapply Forall_impl; [exact Hok|]. intros w (_ & _ & ?).
      apply (bytes_write_frame _ _ _ _ _ _ _ Ew). by left.
  - by transitivity m1.
  - intros b i Hbi. rewrite F2 by (simpl; destruct Hbi; [by left|right; lia]).
    apply (write_frame _ _ _ _ _ _ _ Ew). destruct Hbi; [by left|right; lia].
Qed.

(** ** Reading scatters *)

Lemma not_in_seg_frame b i v : ~ in_seg b i v -> b <> v.1.1 \/ i < v.1.2 \/ v.1.2 + v.2 <= i.
Proof. unfold in_seg. destruct (decide (b = v.1.1)); [right; lia|by left]. Qed.

Lemma copy_segs_read m d l :
  Forall (seg_ok m d.1) l -> segs_disj l -> valid m d (segs_len l) = true ->
  exists m', copy_segs false m d l = Some m' /\
    gather m' l = bytes m d (segs_len l) /\
    same_alloc m m' /\
    (forall b i, Forall (fun v => ~ in_seg b i v) l -> peek m' b i = peek m b i).
Proof.
  revert m d. induction l as [|v l IH]; intros m d Hok Hd Hv; simpl in *.
  { exists m. split_and!; done. }
  apply Forall_cons in Hok as [(Hvs & Hn & Hne) Hok]. destruct Hd as [Hd1 Hd2].
  pose proof (segs_len_nonneg _ _ _ Hok).
  apply valid_split in Hv as [Hv1 Hv2]; [|done..].
  destruct (memcpy_ok m v.1 d v.2) as [m1 E]; [auto..|]. rewrite E; simpl.
  pose proof (bytes_memcpy _ _ _ _ _ E) as Eb.
  apply memcpy_write in E as (Ew & _ & _).
  pose proof (write_alloc _ _ _ _ _ Ew) as Hal.
  destruct (IH m1 (padd d v.2)) as (m2 & E2 & B2 & V2 & F2); [|done| |].
  { by eapply seg_ok_valid. } { by rewrite (same_alloc_valid _ _ _ _ Hal). }
  exists m2. rewrite bytes_app by done. split_and!; [done| | |].
  - unfold gather in *; simpl. rewrite B2. f_equal.
    + rewrite <- Eb. apply slice_ext. intros i Hi. apply F2.
      eapply Forall_impl; [exact Hd1|]. intros w Hvw [? ?].
      destruct Hvw; [done|lia].
    + apply (bytes_write_frame _ _ _ _ _ _ _ Ew). by left.
  - by transitivity m1.
  - intros b i [Hbi Hrest]%Forall_cons. rewrite F2 by done.
    apply (write_frame _ _ _ _ _ _ _ Ew). by apply not_in_seg_frame.
Qed.

(** ** The interface *)

Record io := Io { io_dir : Z; io_sector : Z; io_segs : list seg }.

Class BlockDriver (D : Type) := {
  drv_mem : D -> mem;                    (* all of memory, the disk included *)
  drv_disk : D -> Z;                     (* the block that holds the disk *)
  drv_sectors : Z;                       (* its capacity *)
  submit : D -> io -> option (D * Z)     (* the state after, the status reported *)
}.

Definition io_off (i : io) : Z := io_sector i * SECTOR.
Definition io_len (i : io) : Z := segs_len (io_segs i).

(** What the block layer guarantees of an I/O it hands to a driver: it lies
    inside the capacity, its segments are whole sectors of memory that is not
    the disk, and no two segments overlap. *)
Definition whole_sectors (v : seg) : Prop := 0 < v.2 /\ v.2 mod SECTOR = 0.

Definition io_ok `{BlockDriver D} (s : D) (i : io) : Prop :=
  Forall (seg_ok (drv_mem s) (drv_disk s)) (io_segs i) /\
  Forall whole_sectors (io_segs i) /\ segs_disj (io_segs i) /\ io_segs i <> [] /\
  0 <= io_sector i /\ io_off i + io_len i <= drv_sectors * SECTOR /\
  (io_dir i = READ \/ io_dir i = WRITE).

(** States between two I/Os: same disk, same allocations. *)
Definition same_layout `{BlockDriver D} (s s' : D) : Prop :=
  drv_disk s' = drv_disk s /\
  same_alloc (drv_mem s) (drv_mem s').

Definition disk_at `{BlockDriver D} (s : D) (off : Z) : ptr := (drv_disk s, off).

Definition wrote `{BlockDriver D} (s s' : D) (i : io) : Prop :=
  bytes (drv_mem s') (disk_at s (io_off i)) (io_len i) = gather (drv_mem s) (io_segs i) /\
  forall b j, b <> drv_disk s \/ j < io_off i \/ io_off i + io_len i <= j ->
    peek (drv_mem s') b j = peek (drv_mem s) b j.

Definition read `{BlockDriver D} (s s' : D) (i : io) : Prop :=
  gather (drv_mem s') (io_segs i) = bytes (drv_mem s) (disk_at s (io_off i)) (io_len i) /\
  forall b j, Forall (fun v => ~ in_seg b j v) (io_segs i) ->
    peek (drv_mem s') b j = peek (drv_mem s) b j.

Class BlockDriverSpec (D : Type) `{BlockDriver D} := {
  drv_wf : D -> Prop;
  submit_write s i :
    drv_wf s -> io_ok s i -> io_dir i = WRITE ->
    exists s', submit s i = Some (s', 0) /\ drv_wf s' /\ same_layout s s' /\ wrote s s' i;
  submit_read s i :
    drv_wf s -> io_ok s i -> io_dir i = READ ->
    exists s', submit s i = Some (s', 0) /\ drv_wf s' /\ same_layout s s' /\ read s s' i
}.

Section any_driver.
Context {D : Type} `{BlockDriverSpec D}.
Implicit Types (s : D) (i : io).

Lemma io_ok_layout s s' i : same_layout s s' -> io_ok s i -> io_ok s' i.
Proof.
  intros [Hd Hv] (? & ?). split; [|done]. rewrite Hd. by eapply seg_ok_valid.
Qed.

(** Reading does not change the disk: no segment is in the disk's block. *)
Lemma read_keeps_disk s s' i j :
  io_ok s i -> read s s' i ->
  peek (drv_mem s') (drv_disk s) j = peek (drv_mem s) (drv_disk s) j.
Proof.
  intros (Hok & _) [_ F]. apply F. eapply Forall_impl; [exact Hok|].
  intros v (_ & _ & ?) [? _]. congruence.
Qed.

(** A read of the sectors a write just covered returns the data written,
    whatever way the two I/Os cut it into segments. *)
Lemma write_read s i1 i2 :
  drv_wf s -> io_ok s i1 -> io_ok s i2 -> io_dir i1 = WRITE -> io_dir i2 = READ ->
  io_sector i1 = io_sector i2 -> io_len i1 = io_len i2 ->
  exists s1 s2, submit s i1 = Some (s1, 0) /\ submit s1 i2 = Some (s2, 0) /\
    gather (drv_mem s2) (io_segs i2) = gather (drv_mem s) (io_segs i1).
Proof.
  intros Hs H1 H2 Hw Hr Hsec Hlen.
  destruct (submit_write s i1) as (s1 & E1 & W1 & L1 & [B1 _]); [done..|].
  destruct (submit_read s1 i2) as (s2 & E2 & _ & _ & [B2 _]);
    [done|by eapply io_ok_layout|done|].
  exists s1, s2. split_and!; [done..|]. rewrite B2, <- B1.
  unfold disk_at, io_off. destruct L1 as [-> _]. by rewrite Hsec, Hlen.
Qed.

(** A write leaves every sector outside its range readable as before. *)
Lemma write_elsewhere s i1 i2 :
  drv_wf s -> io_ok s i1 -> io_ok s i2 -> io_dir i1 = WRITE -> io_dir i2 = READ ->
  io_off i1 + io_len i1 <= io_off i2 \/ io_off i2 + io_len i2 <= io_off i1 ->
  exists s1 s2, submit s i1 = Some (s1, 0) /\ submit s1 i2 = Some (s2, 0) /\
    gather (drv_mem s2) (io_segs i2) =
    bytes (drv_mem s) (disk_at s (io_off i2)) (io_len i2).
Proof.
  intros Hs H1 H2 Hw Hr Hdis.
  destruct (submit_write s i1) as (s1 & E1 & W1 & L1 & [_ F1]); [done..|].
  destruct (submit_read s1 i2) as (s2 & E2 & _ & _ & [B2 _]);
    [done|by eapply io_ok_layout|done|].
  exists s1, s2. split_and!; [done..|]. rewrite B2.
  unfold disk_at. destruct L1 as [-> _]. apply slice_ext; simpl.
  intros j Hj. apply F1. right. lia.
Qed.

(** Two writes of disjoint ranges commute: both orders end with the same
    disk. *)
Lemma writes_commute s i1 i2 :
  drv_wf s -> io_ok s i1 -> io_ok s i2 -> io_dir i1 = WRITE -> io_dir i2 = WRITE ->
  io_off i1 + io_len i1 <= io_off i2 \/ io_off i2 + io_len i2 <= io_off i1 ->
  exists s1 s12 s2 s21,
    submit s i1 = Some (s1, 0) /\ submit s1 i2 = Some (s12, 0) /\
    submit s i2 = Some (s2, 0) /\ submit s2 i1 = Some (s21, 0) /\
    forall b j, peek (drv_mem s12) b j = peek (drv_mem s21) b j.
Proof.
  intros Hs H1 H2 Hw1 Hw2 Hdis.
  destruct (submit_write s i1) as (s1 & E1 & W1 & L1 & [B1 F1]); [done..|].
  destruct (submit_write s1 i2) as (s12 & E12 & _ & _ & [B12 F12]);
    [done|by eapply io_ok_layout|done|].
  destruct (submit_write s i2) as (s2 & E2 & W2 & L2 & [B2 F2]); [done..|].
  destruct (submit_write s2 i1) as (s21 & E21 & _ & _ & [B21 F21]);
    [done|by eapply io_ok_layout|done|].
  exists s1, s12, s2, s21. split_and!; [done..|].
  destruct L1 as [D1 _], L2 as [D2 _]. unfold disk_at in *. rewrite D1, D2 in *.
  assert (gather (drv_mem s1) (io_segs i2) = gather (drv_mem s) (io_segs i2)) as G1.
  { apply gather_ext. eapply Forall_impl; [exact (proj1 H2)|]. intros v (_ & _ & ?).
    apply slice_ext. intros. apply F1. by left. }
  assert (gather (drv_mem s2) (io_segs i1) = gather (drv_mem s) (io_segs i1)) as G2.
  { apply gather_ext. eapply Forall_impl; [exact (proj1 H1)|]. intros v (_ & _ & ?).
    apply slice_ext. intros. apply F2. by left. }
  rewrite G1 in B12. rewrite G2 in B21. rewrite <- B2 in B12. rewrite <- B1 in B21.
  unfold bytes in B12, B21; simpl in B12, B21.
  intros b j. destruct (decide (b = drv_disk s)) as [->|]; cycle 1.
  { rewrite F12, F21, F1, F2 by auto. done. }
  destruct (decide (io_off i1 <= j < io_off i1 + io_len i1)).
  { rewrite F12, (slice_inj _ _ _ _ B21) by lia. done. }
  destruct (decide (io_off i2 <= j < io_off i2 + io_len i2)).
  { rewrite F21, (slice_inj _ _ _ _ B12) by lia. done. }
  rewrite F12, F21, F1, F2 by lia. done.
Qed.
End any_driver.

(** Closes the concrete well-formedness goals of the examples. *)
Ltac solve_io :=
  repeat match goal with
    | |- _ /\ _ => split
    | |- Forall _ _ => constructor
    | |- io_ok _ _ => unfold io_ok; simpl
    | |- seg_ok _ _ _ => unfold seg_ok; simpl
    | |- whole_sectors _ => unfold whole_sectors; simpl
    | |- seg_disj _ _ => unfold seg_disj; simpl
    | |- segs_disj _ => simpl
    end;
  first [reflexivity | exact I | lia | discriminate | (vm_compute; congruence)
        | (vm_compute; tauto) | (left; vm_compute; congruence)
        | (right; vm_compute; congruence)].
