(* ===== verification/BlockLayer.v ===== *)
(** * The block layer as the drivers see it

    The structures of the kernel's block layer with the fields the drivers
    use, and the interface [BlkQueue] of its request queues.  The block layer
    itself is not in the repository: a queue is any type with the operations
    below that obeys the laws of [BlkQueueSpec], which state the documented
    behaviour of [blk_fetch_request], [__blk_end_request_cur] and
    [blk_end_request_all].  A first-in first-out queue is given as an
    instance, which shows that the laws can be met. *)

From S2P Require Import Prelude CMem BlockSpec.

(** struct gendisk: what the drivers store in it. *)
Record gendisk := Gendisk {
  major : Z; first_minor : Z; disk_name : string;
  gd_queue : Z; private_data : Z; gd_flags : Z
}.

Definition gendisk0 : gendisk := Gendisk 0 0 "" 0 0 0.

(** struct bio_vec and struct bio. *)
Record bio_vec := BioVec { bv_page : Z; bv_offset : Z; bv_len : Z }.

Record bio := Bio {
  bi_disk : Z;                   (* bio->bi_bdev->bd_disk *)
  bi_sector : Z; bi_size : Z; bi_rw : Z; bi_io_vec : list bio_vec
}.

(** bio_data_dir, rq_data_dir: bit 0 of the flags. *)
Definition bio_data_dir (b : bio) : Z := Z.land (bi_rw b) 1.

(** struct hd_geometry (include/uapi/linux/hdreg.h), and the ioctl number. *)
Record hd_geometry := HdGeometry { heads : Z; sectors : Z; cylinders : Z; start : Z }.
Definition HDIO_GETGEO : Z := 0x0301.

(** ** Request queues *)

(** A request in its abstract form: the disk it is for, its first sector, its
    direction and its remaining segments.  The driver only sees the accessor
    functions of the class. *)
Record request := Request {
  r_disk : Z; r_pos : Z; r_dir : Z; r_segs : list seg
}.

Definition r_rest (r : request) : request :=
  match r_segs r with
  | [] => r
  | v :: l => Request (r_disk r) (r_pos r + v.2 / SECTOR) (r_dir r) l
  end.

Class BlkQueue (Q : Type) := {
  blk_fetch_request : Q -> option Z * Q;
  rq_disk : Q -> Z -> Z;
  blk_rq_pos : Q -> Z -> Z;
  blk_rq_bytes : Q -> Z -> Z;
  blk_rq_cur_bytes : Q -> Z -> Z;
  rq_data_dir : Q -> Z -> Z;
  rq_buffer : Q -> Z -> ptr;
  rq_segments : Q -> Z -> list seg;            (* rq_for_each_segment, mapped *)
  blk_end_request_cur : Q -> Z -> Z -> bool * Q;
  blk_end_request_all : Q -> Z -> Z -> Q
}.

(** The laws: [pending q] are the requests not yet fetched, [current q] is the
    request being served with its id, [done q] the statuses reported so far. *)
Class BlkQueueSpec (Q : Type) `{BlkQueue Q} := {
  pending : Q -> list request;
  current : Q -> option (Z * request);
  done_with : Q -> list (request * Z);
  fetch_empty q :
    pending q = [] -> current q = None -> blk_fetch_request q = (None, q);
  fetch_next q r rs :
    pending q = r :: rs -> current q = None ->
    exists id q', blk_fetch_request q = (Some id, q') /\ pending q' = rs /\
      current q' = Some (id, r) /\ done_with q' = done_with q;
  accessors q id r :
    current q = Some (id, r) ->
    rq_disk q id = r_disk r /\ blk_rq_pos q id = r_pos r /\ rq_data_dir q id = r_dir r /\
    blk_rq_bytes q id = segs_len (r_segs r) /\ rq_segments q id = r_segs r;
  accessors_cur q id r v l :
    current q = Some (id, r) -> r_segs r = v :: l ->
    blk_rq_cur_bytes q id = v.2 /\ rq_buffer q id = v.1;
  end_cur_more q id r v w l err :
    current q = Some (id, r) -> r_segs r = v :: w :: l ->
    exists q', blk_end_request_cur q id err = (true, q') /\
      pending q' = pending q /\ current q' = Some (id, r_rest r) /\
      done_with q' = done_with q;
  end_cur_last q id r v err :
    current q = Some (id, r) -> r_segs r = [v] ->
    exists q', blk_end_request_cur q id err = (false, q') /\
      pending q' = pending q /\ current q' = None /\
      done_with q' = done_with q ++ [(r, err)];
  end_all q id r err :
    current q = Some (id, r) ->
    let q' := blk_end_request_all q id err in
    pending q' = pending q /\ current q' = None /\
    done_with q' = done_with q ++ [(r, err)]
}.

(** ** A first-in first-out queue *)

Record fifo := Fifo {
  f_pending : list request; f_cur : option request; f_done : list (request * Z)
}.

Definition f_req (q : fifo) : request := default (Request 0 0 0 []) (f_cur q).

#[export] Instance fifo_queue : BlkQueue fifo := {
  blk_fetch_request q :=
    match f_cur q, f_pending q with
    | None, r :: rs => (Some 1, Fifo rs (Some r) (f_done q))
    | _, _ => (None, q)
    end;
  rq_disk q _ := r_disk (f_req q);
  blk_rq_pos q _ := r_pos (f_req q);
  blk_rq_bytes q _ := segs_len (r_segs (f_req q));
  blk_rq_cur_bytes q _ := match r_segs (f_req q) with [] => 0 | v :: _ => v.2 end;
  rq_data_dir q _ := r_dir (f_req q);
  rq_buffer q _ := match r_segs (f_req q) with [] => (0, 0) | v :: _ => v.1 end;
  rq_segments q _ := r_segs (f_req q);
  blk_end_request_cur q _ err :=
    match r_segs (f_req q) with
    | _ :: _ :: _ => (true, Fifo (f_pending q) (Some (r_rest (f_req q))) (f_done q))
    | _ => (false, Fifo (f_pending q) None (f_done q ++ [(f_req q, err)]))
    end;
  blk_end_request_all q _ err :=
    Fifo (f_pending q) None (f_done q ++ [(f_req q, err)])
}.

#[export] Instance fifo_spec : BlkQueueSpec fifo.
Proof.
  refine {| pending := f_pending; done_with := f_done;
            current q := (fun r => (1, r)) <$> f_cur q |}; simpl.
  - by intros [[] [] ?].
  - intros [p [c|] d] r rs ? ?; simplify_eq/=. eauto 10.
  - intros [p [c|] d] id r ?; simplify_eq/=. done.
  - intros [p [c|] d] id r v l ? E; simplify_eq/=; unfold f_req; simpl; by rewrite E.
  - intros [p [c|] d] id r v w l err ? E; simplify_eq/=; unfold f_req; simpl; rewrite E; eauto 10.
  - intros [p [c|] d] id r v err ? E; simplify_eq/=; unfold f_req; simpl; rewrite E; eauto 10.
  - intros [p [c|] d] id r err ?; simplify_eq/=. done.
Defined.
