(* ===== verification/RamhdMkreq.v ===== *)
(** * ramdisk-lab/ramhd_mkreq.c

    Two 8 MB ram disks served through a make_request function: the
    whole module, from load to unload, and the theorems about the data path
    ([ramhd_make_request]), the ioctl and the resources. *)

From S2P Require Import Prelude CMem Kernel BlockSpec BlockLayer.

Definition RAMHD_MAX_DEVICE : Z := 2.
Definition RAMHD_MAX_PARTITIONS : Z := 4.
Definition RAMHD_SECTOR_SIZE : Z := 512.
Definition RAMHD_SECTORS : Z := 16.
Definition RAMHD_HEADS : Z := 4.
Definition RAMHD_CYLINDERS : Z := 256.
Definition RAMHD_SECTOR_TOTAL : Z := RAMHD_SECTORS * RAMHD_HEADS * RAMHD_CYLINDERS.
Definition RAMHD_SIZE : Z := RAMHD_SECTOR_SIZE * RAMHD_SECTOR_TOTAL.
Definition GENHD_FL_SUPPRESS_PARTITION_INFO : Z := 32.

Record RAMHD_DEV := RamhdDev { data : Z; queue : Z; gd : Z }.
Definition sizeof_RAMHD_DEV : Z := 24.

(** The module's globals, the structures its pointers lead to, and memory.
    A vmalloc'ed area is the block whose number is its address. *)
Record st := St {
  sdisk : list Z; rdev : list Z; ramhd_major : Z;
  devs : gmap Z RAMHD_DEV; gds : gmap Z gendisk; smem : mem
}.

(** [static char *sdisk[] = {NULL,}] and the like, at load time. *)
Definition st0 (m : mem) : st := St [0; 0] [0; 0] 0 ∅ ∅ m.

Definition set_sdisk (i p : Z) (s : st) : st :=
  St (<[Z.to_nat i := p]> (sdisk s)) (rdev s) (ramhd_major s) (devs s) (gds s) (smem s).
Definition set_rdev (i p : Z) (s : st) : st :=
  St (sdisk s) (<[Z.to_nat i := p]> (rdev s)) (ramhd_major s) (devs s) (gds s) (smem s).
Definition set_major (x : Z) (s : st) : st :=
  St (sdisk s) (rdev s) x (devs s) (gds s) (smem s).
Definition set_devs (d : gmap Z RAMHD_DEV) (s : st) : st :=
  St (sdisk s) (rdev s) (ramhd_major s) d (gds s) (smem s).
Definition set_gds (g : gmap Z gendisk) (s : st) : st :=
  St (sdisk s) (rdev s) (ramhd_major s) (devs s) g (smem s).
Definition set_smem (m : mem) (s : st) : st :=
  St (sdisk s) (rdev s) (ramhd_major s) (devs s) (gds s) m.

(** Array elements, and updates of a structure through a pointer: a NULL or
    wild pointer oopses. *)
Definition nth_ptr (l : list Z) (i : Z) : Z := default 0 (l !! Z.to_nat i).

Definition upd_dev (p : Z) (f : RAMHD_DEV -> RAMHD_DEV) : M st () :=
  s ← get;
  match devs s !! p with
  | Some d => modify (set_devs (<[p := f d]> (devs s)))
  | None => oops
  end.

Definition upd_gd (p : Z) (f : gendisk -> gendisk) : M st () :=
  s ← get;
  match gds s !! p with
  | Some g => modify (set_gds (<[p := f g]> (gds s)))
  | None => oops
  end.

Definition dev_of (p : Z) : M st RAMHD_DEV :=
  s ← get; match devs s !! p with Some d => mret d | None => oops end.

Section ramhd.
(** Bytes of freshly vmalloc'ed memory: anything. *)
Context (junk : Z -> Z).
(** Where kmap maps a page. *)
Context (kmap_addr : Z -> Z).

Definition ramhd_space_init : M st Z :=
  err ← for_loop 0 (Z.to_nat RAMHD_MAX_DEVICE) (fun i =>
    p ← call (vmalloc RAMHD_SIZE);
    modify (set_sdisk i p);;
    if p =? 0 then mret (Some (- ENOMEM))
    else
      s ← get;
      match memset (<[p := Block RAMHD_SIZE junk]> (smem s)) (p, 0) 0 RAMHD_SIZE with
      | Some m => modify (set_smem m);; mret None
      | None => oops
      end);
  mret (default 0 err).

Definition ramhd_space_clean : M st () :=
  for_loop (R := Empty_set) 0 (Z.to_nat RAMHD_MAX_DEVICE) (fun i =>
    s ← get;
    call (vfree (nth_ptr (sdisk s) i));; mret None);;
  mret ().

Definition ramhd_open : Z := 0.
Definition ramhd_release : Z := 0.

(** [ok] is access_ok, [left] what copy_to_user could not copy, [start]
    get_start_sect.  The result is the return value and the geometry user
    space received. *)
Definition ramhd_ioctl (ok : bool) (left start : Z) (cmd : Z) : Z * option hd_geometry :=
  if cmd =? HDIO_GETGEO then
    if negb ok then (- EFAULT, None)
    else
      let geo := HdGeometry (u8 RAMHD_HEADS) (u8 RAMHD_SECTORS) (u16 RAMHD_CYLINDERS) start in
      if negb (left =? 0) then (- EFAULT, None) else (0, Some geo)
  else (- ENOTTY, None).

(** The [bio_for_each_segment] loop; [pRHdata] moves along the disk. *)
Fixpoint ramhd_segments (m : mem) (pRHdata : ptr) (dir : Z) (l : list bio_vec) : option mem :=
  match l with
  | [] => Some m
  | bvec :: l' =>
      let pBuffer := (kmap_addr (bv_page bvec), bv_offset bvec) in
      if dir =? READ then
        m' ← memcpy m pBuffer pRHdata (bv_len bvec);
        ramhd_segments m' (padd pRHdata (bv_len bvec)) dir l'
      else if dir =? WRITE then
        m' ← memcpy m pRHdata pBuffer (bv_len bvec);
        ramhd_segments m' (padd pRHdata (bv_len bvec)) dir l'
      else Some m
  end.

(** The state after, and the status given to bio_endio; the function itself
    always returns 0.  [None] is a wild access. *)
Definition ramhd_make_request (s : st) (b : bio) : option (st * Z) :=
  g ← gds s !! bi_disk b;
  pdev ← devs s !! private_data g;
  let off := u64 (bi_sector b * RAMHD_SECTOR_SIZE) in
  if RAMHD_SIZE <? u64 (off + bi_size b) then Some (s, - EIO)
  else
    m ← ramhd_segments (smem s) (data pdev, off) (bio_data_dir b) (bi_io_vec b);
    Some (set_smem m s, 0).

(** [size] is sizeof(RAMHD_DEV). *)
Definition alloc_ramdev (size : Z) : M st Z :=
  err ← for_loop 0 (Z.to_nat RAMHD_MAX_DEVICE) (fun i =>
    p ← call (kzalloc size);
    modify (set_rdev i p);;
    if p =? 0 then mret (Some (- ENOMEM))
    else
      modify (fun s => set_devs (<[p := RamhdDev 0 0 0]> (devs s)) s);; mret None);
  mret (default 0 err).

Definition clean_ramdev : M st () :=
  for_loop (R := Empty_set) 0 (Z.to_nat RAMHD_MAX_DEVICE) (fun i =>
    s ← get;
    let p := nth_ptr (rdev s) i in
    (if negb (p =? 0) then call (kfree p);; mret () else mret ());; mret None);;
  mret ().

(** Body of the loop over the devices in ramhd_init; blk_queue_make_request
    writes to the queue it is given. *)
Definition ramhd_init_dev (i : Z) : M st (option Z) :=
  s ← get;
  let p := nth_ptr (rdev s) i in
  upd_dev p (fun d => RamhdDev (nth_ptr (sdisk s) i) (queue d) (gd d));;
  q ← call blk_alloc_queue;
  upd_dev p (fun d => RamhdDev (data d) q (gd d));;
  (if q =? 0 then oops else call (blk_queue_make_request q);; mret ());;
  g ← call (alloc_disk RAMHD_MAX_PARTITIONS);
  (if g =? 0 then mret () else modify (fun s => set_gds (<[g := gendisk0]> (gds s)) s));;
  upd_dev p (fun d => RamhdDev (data d) (queue d) g);;
  upd_gd g (fun g0 => Gendisk (ramhd_major s) (i * RAMHD_MAX_PARTITIONS)
    ("ramhd" +:+ String (Ascii.ascii_of_nat (97 + Z.to_nat i)) "") q p
    (Z.lor (gd_flags g0) GENHD_FL_SUPPRESS_PARTITION_INFO));;
  call (set_capacity g RAMHD_SECTOR_TOTAL);;
  call (add_disk g);;
  mret None.

Definition ramhd_init : M st Z :=
  err ← ramhd_space_init;
  if negb (err =? 0) then mret err
  else
    alloc_ramdev sizeof_RAMHD_DEV;;
    maj ← call (register_blkdev 0 "ramhd");
    modify (set_major maj);;
    for_loop 0 (Z.to_nat RAMHD_MAX_DEVICE) ramhd_init_dev;;
    mret 0.

Definition ramhd_exit : M st () :=
  for_loop (R := Empty_set) 0 (Z.to_nat RAMHD_MAX_DEVICE) (fun i =>
    s ← get;
    d ← dev_of (nth_ptr (rdev s) i);
    call (del_gendisk (gd d));;
    call (put_disk (gd d));;
    call (blk_cleanup_queue (queue d));;
    mret None);;
  clean_ramdev;;
  ramhd_space_clean;;
  s ← get;
  call (unregister_blkdev (ramhd_major s) "ramhd");;
  mret ().
End ramhd.

(** ** The data path *)

Section data_path.
Context (kmap_addr : Z -> Z).
Implicit Types (s : st) (b : bio).

Definition to_seg (v : bio_vec) : seg :=
  ((kmap_addr (bv_page v), bv_offset v), bv_len v).
Definition bio_segs (b : bio) : list seg := to_seg <$> bi_io_vec b.

Lemma ramhd_segments_copy m d dir l :
  dir = READ \/ dir = WRITE ->
  ramhd_segments kmap_addr m d dir l = copy_segs (dir =? WRITE) m d (to_seg <$> l).
Proof.
  intros Hd. revert m d. induction l as [|v l IH]; intros m d; [done|].
  simpl. destruct Hd as [-> | ->]; simpl.
  - by destruct (memcpy _ _ _ _); simpl.
  - by destruct (memcpy _ _ _ _); simpl.
Qed.

Lemma bio_data_dir_01 b : bio_data_dir b = READ \/ bio_data_dir b = WRITE.
Proof.
  unfold bio_data_dir, READ, WRITE.
  pose proof (Z.land_ones (bi_rw b) 1) as E.
  change (Z.ones 1) with 1 in E. change (2 ^ 1) with 2 in E. rewrite E by lia. mlia.
Qed.

(** The disk of bio [b] is set up and [pdev] is its device. *)
Definition disk_ready s b (pdev : RAMHD_DEV) : Prop :=
  (exists g, gds s !! bi_disk b = Some g /\ devs s !! private_data g = Some pdev) /\
  bsize <$> smem s !! data pdev = Some RAMHD_SIZE.

(** What the block layer guarantees of a bio: bi_size is the sum of the
    segments, segments are mapped memory outside the disk. *)
Definition bio_ok s b (pdev : RAMHD_DEV) : Prop :=
  bi_size b = segs_len (bio_segs b) /\
  Forall (seg_ok (smem s) (data pdev)) (bio_segs b) /\ segs_disj (bio_segs b).

Lemma disk_range s b pdev o n :
  disk_ready s b pdev -> 0 <= o -> 0 <= n -> o + n <= RAMHD_SIZE ->
  valid (smem s) (data pdev, o) n = true.
Proof.
  intros [_ Hv] ? ? ?. unfold valid in *; simpl in *.
  destruct (smem s !! data pdev) as [k|]; simplify_eq/=. rewrite Hv.
  zify_bool; simpl; lia.
Qed.

Lemma make_request_unfold s b pdev :
  disk_ready s b pdev ->
  ramhd_make_request kmap_addr s b =
  let off := u64 (bi_sector b * RAMHD_SECTOR_SIZE) in
  if RAMHD_SIZE <? u64 (off + bi_size b) then Some (s, - EIO)
  else
    m ← copy_segs (bio_data_dir b =? WRITE) (smem s) (data pdev, off) (bio_segs b);
    Some (set_smem m s, 0).
Proof.
  intros [(g & Eg & Ed) _]. unfold ramhd_make_request. rewrite Eg; simpl.
  rewrite Ed; simpl. by rewrite ramhd_segments_copy by apply bio_data_dir_01.
Qed.

(** Inside the disk, the wrap-around of the guard plays no role. *)
Lemma make_request_inside s b pdev :
  disk_ready s b pdev -> 0 <= bi_sector b -> 0 <= bi_size b ->
  bi_sector b * RAMHD_SECTOR_SIZE + bi_size b < 2 ^ 64 ->
  ramhd_make_request kmap_addr s b =
  let off := bi_sector b * RAMHD_SECTOR_SIZE in
  if RAMHD_SIZE <? off + bi_size b then Some (s, - EIO)
  else
    m ← copy_segs (bio_data_dir b =? WRITE) (smem s) (data pdev, off) (bio_segs b);
    Some (set_smem m s, 0).
Proof.
  intros Hr ? ? Hw. rewrite (make_request_unfold _ _ _ Hr).
  change (2 ^ 64) with 18446744073709551616 in Hw. unfold RAMHD_SECTOR_SIZE in *.
  cbv zeta. by rewrite (u64_id (bi_sector b * 512)), u64_id by lia.
Qed.

(** The bytes of the bio are at byte [off] of the disk, or the other way
    round, and nothing else has changed. *)
Definition wrote_at s b (pdev : RAMHD_DEV) (off : Z) (m : mem) : Prop :=
  bytes m (data pdev, off) (bi_size b) = gather (smem s) (bio_segs b) /\
  forall c j, c <> data pdev \/ j < off \/ off + bi_size b <= j ->
    peek m c j = peek (smem s) c j.

Definition read_at s b (pdev : RAMHD_DEV) (off : Z) (m : mem) : Prop :=
  gather m (bio_segs b) = bytes (smem s) (data pdev, off) (bi_size b) /\
  forall c j, Forall (fun v => ~ in_seg c j v) (bio_segs b) ->
    peek m c j = peek (smem s) c j.

Definition served_at s b (pdev : RAMHD_DEV) (off : Z) : Prop :=
  exists m, ramhd_make_request kmap_addr s b = Some (set_smem m s, 0) /\
    same_alloc (smem s) m /\
    (bio_data_dir b = WRITE -> wrote_at s b pdev off m) /\
    (bio_data_dir b = READ -> read_at s b pdev off m).

Definition wrote_bio s b pdev : mem -> Prop := wrote_at s b pdev (bi_sector b * RAMHD_SECTOR_SIZE).
Definition read_bio s b pdev : mem -> Prop := read_at s b pdev (bi_sector b * RAMHD_SECTOR_SIZE).

(** A request past the guard whose bytes are on the disk. *)
Lemma make_request_served s b pdev :
  let off := u64 (bi_sector b * RAMHD_SECTOR_SIZE) in
  disk_ready s b pdev -> bio_ok s b pdev -> off + bi_size b <= RAMHD_SIZE -> served_at s b pdev off.
Proof.
  intros off Hr (Hsz & Hok & Hd) Hin. pose proof (segs_len_nonneg _ _ _ Hok) as Hlen.
  assert (0 <= off) as Ho by apply u64_range.
  unfold served_at. rewrite (make_request_unfold _ _ _ Hr). fold off. cbv zeta.
  rewrite (u64_id (off + _)) by (rewrite Hsz in *; change RAMHD_SIZE with 8388608 in *; lia).
  rewrite (proj2 (Z.ltb_ge _ _)) by lia. unfold wrote_at, read_at. rewrite Hsz in *.
  assert (valid (smem s) (data pdev, off) (segs_len (bio_segs b)) = true) as Hv
    by (eapply disk_range; done).
  destruct (bio_data_dir_01 b) as [E|E]; rewrite E; simpl.
  - destruct (copy_segs_read (smem s) (data pdev, off) _ Hok Hd Hv) as (m & -> & ? & ? & ?).
    exists m. split_and!; done.
  - destruct (copy_segs_write (smem s) (data pdev, off) _ Hok Hv) as (m & -> & ? & ? & ?).
    exists m. split_and!; done.
Qed.

(** A copy that starts behind the disk. *)
Lemma copy_segs_past m p wr off l :
  bsize <$> m !! p = Some RAMHD_SIZE -> RAMHD_SIZE < off -> 0 < segs_len l ->
  copy_segs wr m (p, off) l = None.
Proof.
  intros Hb Ho Hl. destruct l as [|v l]; [done|].
  assert (valid m (p, off) v.2 = false) as Hv.
  { unfold valid; simpl. destruct (m !! p); simplify_eq/=. rewrite Hb. zify_bool; lia. }
  simpl. destruct wr; rewrite memcpy_oob; auto.
Qed.

Lemma make_request_ok s b pdev :
  disk_ready s b pdev -> bio_ok s b pdev -> 0 <= bi_sector b ->
  bi_sector b * RAMHD_SECTOR_SIZE + bi_size b <= RAMHD_SIZE ->
  served_at s b pdev (bi_sector b * RAMHD_SECTOR_SIZE).
Proof.
  intros Hr Hok Hs Hin. pose proof Hok as (Hsz & Hsegs & _).
  pose proof (segs_len_nonneg _ _ _ Hsegs). pose proof (make_request_served s b pdev Hr Hok) as H0.
  rewrite u64_id in H0 by (change RAMHD_SIZE with 8388608 in *; unfold RAMHD_SECTOR_SIZE in *; lia).
  by apply H0.
Qed.

(** C2.  ramhd_make_request on any bio.  When sector and size add up in 64 bits,
    the bio is completed with -EIO, and nothing copied, exactly when it runs
    past the end of the 8 MB disk; otherwise it is completed with 0, a write
    puts the bytes of its segments on the disk at its sector and changes
    nothing else, and a read fills its segments with the bytes of the disk and
    changes nothing else.  When they do not, guard and position are computed
    modulo 2^64: the bio is refused, or served at the wrapped position when it
    fits there, or passes the guard although it is far behind the disk, and the
    copy is a wild access. *)
Theorem ramhd_make_request_spec s b pdev :
  disk_ready s b pdev -> bio_ok s b pdev -> 0 <= bi_sector b -> bi_size b < 2 ^ 32 ->
  let pos := bi_sector b * RAMHD_SECTOR_SIZE in
  let off := u64 pos in
  if pos + bi_size b <? 2 ^ 64
  then if RAMHD_SIZE <? pos + bi_size b
       then ramhd_make_request kmap_addr s b = Some (s, - EIO)
       else served_at s b pdev pos
  else if RAMHD_SIZE <? u64 (off + bi_size b)
       then ramhd_make_request kmap_addr s b = Some (s, - EIO)
       else if off + bi_size b <=? RAMHD_SIZE then served_at s b pdev off
       else ramhd_make_request kmap_addr s b = None.
Proof.
  intros Hr Hok Hs H32 pos off. pose proof Hok as (Hsz & Hsegs & _).
  pose proof (segs_len_nonneg _ _ _ Hsegs) as Hlen.
  destruct (Z.ltb_spec (pos + bi_size b) (2 ^ 64)) as [Hw|Hw].
  - destruct (Z.ltb_spec RAMHD_SIZE (pos + bi_size b)) as [Hlt|]; [|by apply make_request_ok].
    rewrite (make_request_inside _ _ _ Hr) by (unfold pos in *; lia). cbv zeta.
    fold pos. by rewrite (proj2 (Z.ltb_lt _ _) Hlt).
  - destruct (RAMHD_SIZE <? u64 (off + bi_size b)) eqn:Hg.
    { rewrite (make_request_unfold _ _ _ Hr). cbv zeta. by fold pos; fold off; rewrite Hg. }
    destruct (Z.leb_spec (off + bi_size b) RAMHD_SIZE) as [|Hp]; [by apply make_request_served|].
    rewrite (make_request_unfold _ _ _ Hr). cbv zeta. fold pos; fold off. rewrite Hg.
    destruct Hr as [_ Hb]. pose proof (u64_range pos) as Ho. fold off in Ho.
    apply Z.ltb_ge in Hg. change RAMHD_SIZE with 8388608 in *. rewrite Hsz in *.
    assert (2 ^ 64 <= off + segs_len (bio_segs b)).
    { destruct (decide (2 ^ 64 <= off + segs_len (bio_segs b))); [done|]. rewrite u64_id in Hg; lia. }
    by rewrite copy_segs_past by (done || change RAMHD_SIZE with 8388608; lia).
Qed.

(** The end-of-disk guard is computed modulo 2^64: a bio of two sectors
    at sector 2^55 - 1 passes it and its copy leaves the disk. *)
Theorem ramhd_guard_wraps s b pdev :
  disk_ready s b pdev -> bi_sector b = 2 ^ 55 - 1 -> bi_size b = 1024 ->
  length (bio_segs b) = 1%nat -> bi_size b = segs_len (bio_segs b) ->
  ramhd_make_request kmap_addr s b = None.
Proof.
  intros Hr Hs Hz Hl Hlen. pose proof (proj2 Hr) as Hsz. rewrite (make_request_unfold _ _ _ Hr), Hs, Hz.
  destruct (bio_segs b) as [|v []] eqn:E; try done.
  assert (v.2 = 1024) as Hv by (simpl in Hlen; lia).
  change (u64 (u64 ((2 ^ 55 - 1) * RAMHD_SECTOR_SIZE) + 1024)) with 512.
  change (u64 ((2 ^ 55 - 1) * RAMHD_SECTOR_SIZE)) with (2 ^ 64 - 512).
  simpl. rewrite Hv.
  destruct (smem s !! data pdev) as [k|] eqn:Ek; simplify_eq/=.
  assert (valid (smem s) (data pdev, 18446744073709551104) 1024 = false) as Hbad.
  { unfold valid; simpl. by rewrite Ek, Hsz. }
  destruct (bio_data_dir b =? WRITE); rewrite memcpy_oob; auto.
Qed.
End data_path.

(** ** The driver as a [BlockDriver] *)

Section driver.
(** [page_of] is the page mapped at an address; [g] is the disk's gendisk. *)
Context (kmap_addr page_of : Z -> Z) (kmap_page : forall a, kmap_addr (page_of a) = a).
Context (g : Z).

Definition bio_of (i : io) : bio :=
  Bio g (io_sector i) (io_len i) (io_dir i)
    ((fun v : seg => BioVec (page_of v.1.1) v.1.2 v.2) <$> io_segs i).

Definition pdev_of (s : st) : RAMHD_DEV :=
  default (RamhdDev 0 0 0) (x ← gds s !! g; devs s !! private_data x).

#[local] Instance mkreq_driver : BlockDriver st := {
  drv_mem := smem;
  drv_disk s := data (pdev_of s);
  drv_sectors := RAMHD_SECTOR_TOTAL;
  submit s i := ramhd_make_request kmap_addr s (bio_of i)
}.

Definition mkreq_wf (s : st) : Prop :=
  exists x pdev, gds s !! g = Some x /\ devs s !! private_data x = Some pdev /\
    bsize <$> smem s !! data pdev = Some RAMHD_SIZE.

Lemma bio_of_segs i : bio_segs kmap_addr (bio_of i) = io_segs i.
Proof.
  unfold bio_segs, bio_of; simpl. induction (io_segs i) as [|[[a o] n] l IH]; [done|].
  rewrite !fmap_cons, IH. unfold to_seg; simpl. by rewrite kmap_page.
Qed.

Lemma wf_ready s : mkreq_wf s -> forall i, disk_ready s (bio_of i) (pdev_of s).
Proof.
  intros (x & pdev & E1 & E2 & E3) i. unfold disk_ready, pdev_of; simpl.
  rewrite E1; simpl. rewrite E2; simpl. eauto.
Qed.

Lemma submit_common s i :
  mkreq_wf s -> io_ok s i ->
  exists m, submit s i = Some (set_smem m s, 0) /\ mkreq_wf (set_smem m s) /\
    same_layout s (set_smem m s) /\
    (io_dir i = WRITE -> wrote s (set_smem m s) i) /\
    (io_dir i = READ -> read s (set_smem m s) i).
Proof.
  intros Hwf (Hok & _ & Hd & _ & Hs & Hin & Hdir).
  pose proof (wf_ready _ Hwf i) as Hr.
  destruct (make_request_ok kmap_addr s (bio_of i) (pdev_of s)) as (m & E & V & W & R);
    [done| |done|exact Hin|].
  { unfold bio_ok. rewrite bio_of_segs. done. }
  unfold wrote_at, read_at in W, R. rewrite bio_of_segs in W, R.
  assert (bio_data_dir (bio_of i) = io_dir i) as Ed
    by (unfold bio_data_dir; simpl; destruct Hdir as [-> | ->]; done).
  rewrite Ed in W, R.
  exists m. split_and!; [done| | |done..].
  - destruct Hr as [(x & ? & ?) Hsz]. exists x, (pdev_of s). simpl. by rewrite V.
  - done.
Qed.

#[local] Instance mkreq_driver_spec : BlockDriverSpec st.
Proof.
  refine {| drv_wf := mkreq_wf |}; intros s i Hwf Hok Hd;
    destruct (submit_common s i Hwf Hok) as (m & ? & ? & ? & ? & ?); eauto 10.
Defined.

(** C1.  Data written by a bio is what a later bio for the same sectors
    reads back, however the two bios are cut into segments. *)
Theorem ramhd_write_read s i1 i2 :
  mkreq_wf s -> io_ok s i1 -> io_ok s i2 -> io_dir i1 = WRITE -> io_dir i2 = READ ->
  io_sector i1 = io_sector i2 -> io_len i1 = io_len i2 ->
  exists s1 s2,
    ramhd_make_request kmap_addr s (bio_of i1) = Some (s1, 0) /\
    ramhd_make_request kmap_addr s1 (bio_of i2) = Some (s2, 0) /\
    gather (smem s2) (io_segs i2) = gather (smem s) (io_segs i1).
Proof. exact (write_read s i1 i2). Qed.

(** Writes of disjoint sector ranges commute: in either order both
    complete and leave the same disk and memory contents. *)
Theorem ramhd_writes_commute s i1 i2 :
  mkreq_wf s -> io_ok s i1 -> io_ok s i2 -> io_dir i1 = WRITE -> io_dir i2 = WRITE ->
  io_off i1 + io_len i1 <= io_off i2 \/ io_off i2 + io_len i2 <= io_off i1 ->
  exists s1 s12 s2 s21,
    ramhd_make_request kmap_addr s (bio_of i1) = Some (s1, 0) /\
    ramhd_make_request kmap_addr s1 (bio_of i2) = Some (s12, 0) /\
    ramhd_make_request kmap_addr s (bio_of i2) = Some (s2, 0) /\
    ramhd_make_request kmap_addr s2 (bio_of i1) = Some (s21, 0) /\
    forall c j, peek (smem s12) c j = peek (smem s21) c j.
Proof. exact (writes_commute s i1 i2). Qed.
End driver.

(** ** Load and unload *)

Section load.
Context (junk : Z -> Z) (env : kenv) (HG : good_env env).

Definition zeroed : block := put (Block RAMHD_SIZE junk) 0 RAMHD_SIZE (fun _ => u8 0).

(** The state after ramhd_space_init and after alloc_ramdev. *)
Definition space_st (m : mem) (p0 p1 : Z) : st :=
  St [p0; p1] [0; 0] 0 ∅ ∅ (<[p1 := zeroed]> (<[p0 := zeroed]> m)).

Definition ramdev_st (s : st) (k0 k1 : Z) : st :=
  St (sdisk s) [k0; k1] (ramhd_major s)
    (<[k1 := RamhdDev 0 0 0]> (<[k0 := RamhdDev 0 0 0]> (devs s))) (gds s) (smem s).

Lemma space_init_wp m :
  wp (ramhd_space_init junk) env (st0 m) [] (fun a s tr => exists p0 p1,
    a = Some 0 /\ s = space_st m p0 p1 /\ p0 <> 0 /\ p1 <> 0 /\ p0 <> p1 /\
    audit tr = Some [RVmem p1; RVmem p0]).
Proof.
  unfold ramhd_space_init. change (Z.to_nat RAMHD_MAX_DEVICE) with 2%nat. cbn [for_loop].
  wpure. walloc RVmem (eq_refl : audit [] = Some []). intros p0 o0 Hp0 _ A0.
  wpure. rewrite if_null by done. wpure. rewrite memset_new by done. wpure.
  walloc RVmem A0. intros p1 o1 Hp1 Hn A1.
  wpure. rewrite if_null by done. wpure. rewrite memset_new by done. wpure.
  exists p0, p1. split_and!; [done..|set_solver|done].
Qed.

Lemma alloc_ramdev_wp size s tr h :
  audit tr = Some h -> rdev s = [0; 0] ->
  wp (alloc_ramdev size) env s tr (fun a s' tr' => exists k0 k1,
    a = Some 0 /\ s' = ramdev_st s k0 k1 /\ k0 <> 0 /\ k1 <> 0 /\ k0 <> k1 /\
    audit tr' = Some (RMem k1 :: RMem k0 :: h)).
Proof.
  intros Ha Hr. unfold alloc_ramdev. change (Z.to_nat RAMHD_MAX_DEVICE) with 2%nat.
  cbn [for_loop].
  wpure. walloc RMem Ha. intros k0 o0 Hk0 _ A0.
  wpure. rewrite if_null by done. wpure.
  walloc RMem A0. intros k1 o1 Hk1 Hn A1.
  wpure. rewrite if_null by done. wpure.
  exists k0, k1. split_and!; [done| |done|done|set_solver|done].
  destruct s; simpl in *; subst. done.
Qed.

Definition dev_gendisk (maj i q p : Z) : gendisk :=
  Gendisk maj (i * RAMHD_MAX_PARTITIONS)
    ("ramhd" +:+ String (Ascii.ascii_of_nat (97 + Z.to_nat i)) "") q p
    GENHD_FL_SUPPRESS_PARTITION_INFO.

Definition dev_st (s : st) (i q g : Z) : st :=
  let p := nth_ptr (rdev s) i in
  St (sdisk s) (rdev s) (ramhd_major s)
    (<[p := RamhdDev (nth_ptr (sdisk s) i) q g]> (devs s))
    (<[g := dev_gendisk (ramhd_major s) i q p]> (gds s)) (smem s).

Lemma init_dev_wp i s tr h :
  audit tr = Some h -> is_Some (devs s !! nth_ptr (rdev s) i) ->
  wp (ramhd_init_dev i) env s tr (fun a s' tr' => exists q g,
    a = Some None /\ s' = dev_st s i q g /\ q <> 0 /\ g <> 0 /\
    (RQueue q ∉ h) /\ (RDisk g ∉ h) /\
    audit tr' = Some (RDiskLive g :: RDisk g :: RQueue q :: h)).
Proof.
  intros Ha [d Hd]. unfold ramhd_init_dev, upd_dev, upd_gd.
  wpure. rewrite Hd. wpure.
  walloc RQueue Ha. intros q oq Hq Hqn A1.
  wpure. simpl. rewrite lookup_insert_eq. wpure.
  rewrite if_null by done. wpure. wsilent A1. intros ? ? A2.
  wpure. walloc RDisk A2.
  intros g og Hg Hgn A3. rewrite if_null by done.
  wpure. simpl. rewrite lookup_insert_eq. wpure. simpl. rewrite lookup_insert_eq. wpure.
  wsilent A3. intros ? ? A4.
  wacquire (RDiskLive g) A4. intros ? ? A5.
  wpure. exists q, g. split_and!; [done| |done|done|done|set_solver|done].
  unfold dev_st, set_gds, set_devs; simpl. by rewrite !insert_insert_eq.
Qed.

(** The state of a loaded module, by the addresses the kernel returned. *)
Record addrs := Addrs {
  a_p0 : Z; a_p1 : Z; a_k0 : Z; a_k1 : Z; a_q0 : Z; a_q1 : Z; a_g0 : Z; a_g1 : Z; a_maj : Z
}.

Definition loaded_st (m : mem) (a : addrs) : st :=
  dev_st (dev_st (set_major (a_maj a)
    (ramdev_st (space_st m (a_p0 a) (a_p1 a)) (a_k0 a) (a_k1 a)))
    0 (a_q0 a) (a_g0 a)) 1 (a_q1 a) (a_g1 a).

Definition loaded_res (a : addrs) : list res :=
  [RDiskLive (a_g1 a); RDisk (a_g1 a); RQueue (a_q1 a);
   RDiskLive (a_g0 a); RDisk (a_g0 a); RQueue (a_q0 a); RBlkdev (a_maj a);
   RMem (a_k1 a); RMem (a_k0 a); RVmem (a_p1 a); RVmem (a_p0 a)].

Definition addrs_ok (a : addrs) : Prop :=
  a_p0 a <> 0 /\ a_p1 a <> 0 /\ a_p0 a <> a_p1 a /\
  a_k0 a <> 0 /\ a_k1 a <> 0 /\ a_k0 a <> a_k1 a /\ a_g0 a <> a_g1 a.

Lemma init_wp m :
  wp (ramhd_init junk) env (st0 m) [] (fun r s tr => exists a,
    r = Some 0 /\ s = loaded_st m a /\ addrs_ok a /\ audit tr = Some (loaded_res a)).
Proof.
  unfold ramhd_init. apply wp_bind. eapply wp_mono; [apply space_init_wp|].
  intros ? ? tr1 (p0 & p1 & -> & -> & Hp0 & Hp1 & Hp & A1). simpl.
  apply wp_bind. eapply wp_mono; [by apply alloc_ramdev_wp|].
  intros ? ? tr2 (k0 & k1 & -> & -> & Hk0 & Hk1 & Hk & A2).
  eapply wp_bind_call. intros maj o E.
  assert (0 <= maj) as Hmaj.
  { destruct HG as (_ & _ & Hm). specialize (Hm tr2 "ramhd"). by rewrite E in Hm. }
  apply (audit_acquire _ (register_blkdev 0 "ramhd") maj o _ (RBlkdev maj)) in A2;
    [|unfold acquired; by rewrite (proj2 (Z.ltb_ge maj 0) Hmaj)].
  wpure. change (Z.to_nat RAMHD_MAX_DEVICE) with 2%nat. cbn [for_loop]. wpure.
  apply wp_bind. eapply wp_mono; [apply (init_dev_wp 0 _ _ _ A2)|].
  { simpl. rewrite lookup_insert_ne, lookup_insert_eq by done. eauto. }
  intros ? ? tr3 (q0 & g0 & -> & -> & _ & _ & _ & _ & A3). wpure.
  apply wp_bind. eapply wp_mono; [apply (init_dev_wp 1 _ _ _ A3)|].
  { simpl. rewrite lookup_insert_ne, lookup_insert_eq by done. eauto. }
  intros ? ? tr4 (q1 & g1 & -> & -> & _ & _ & _ & Hg & A4). wpure.
  exists (Addrs p0 p1 k0 k1 q0 q1 g0 g1 maj). unfold addrs_ok; simpl.
  split_and!; [done..|set_solver|done].
Qed.

Lemma pdev_of_eq g s x d :
  gds s !! g = Some x -> devs s !! private_data x = Some d -> pdev_of g s = d.
Proof. intros E1 E2. unfold pdev_of. rewrite E1; simpl. by rewrite E2. Qed.

Lemma peek_zeroed m p i : m !! p = Some zeroed -> 0 <= i < RAMHD_SIZE -> peek m p i = 0.
Proof.
  intros E Hi. unfold peek. rewrite E. unfold zeroed; simpl. zify_bool; simpl; try done; lia.
Qed.

(** Both disks of a loaded module are set up and blank. *)
Lemma loaded_disks m a :
  addrs_ok a ->
  mkreq_wf (a_g0 a) (loaded_st m a) /\ mkreq_wf (a_g1 a) (loaded_st m a) /\
  data (pdev_of (a_g0 a) (loaded_st m a)) = a_p0 a /\
  data (pdev_of (a_g1 a) (loaded_st m a)) = a_p1 a /\
  forall p i, p = a_p0 a \/ p = a_p1 a -> 0 <= i < RAMHD_SIZE ->
    peek (smem (loaded_st m a)) p i = 0.
Proof.
  intros (_ & _ & Hp & _ & _ & Hk & Hg).
  assert (gds (loaded_st m a) !! a_g0 a =
    Some (dev_gendisk (a_maj a) 0 (a_q0 a) (a_k0 a))) as G0
    by (simpl; by rewrite lookup_insert_ne, lookup_insert_eq).
  assert (gds (loaded_st m a) !! a_g1 a =
    Some (dev_gendisk (a_maj a) 1 (a_q1 a) (a_k1 a))) as G1
    by (simpl; by rewrite lookup_insert_eq).
  assert (devs (loaded_st m a) !! a_k0 a = Some (RamhdDev (a_p0 a) (a_q0 a) (a_g0 a))) as D0
    by (simpl; by rewrite lookup_insert_ne, lookup_insert_eq).
  assert (devs (loaded_st m a) !! a_k1 a = Some (RamhdDev (a_p1 a) (a_q1 a) (a_g1 a))) as D1
    by (simpl; by rewrite lookup_insert_eq).
  assert (forall p, p = a_p0 a \/ p = a_p1 a -> smem (loaded_st m a) !! p = Some zeroed) as Hz.
  { intros p [-> | ->]; simpl; [by rewrite lookup_insert_ne, lookup_insert_eq|].
    by rewrite lookup_insert_eq. }
  rewrite (pdev_of_eq _ _ _ _ G0 D0), (pdev_of_eq _ _ _ _ G1 D1).
  split_and!; [eexists _, _; split_and!; [exact G0|exact D0|exact (f_equal (fmap bsize) (Hz (a_p0 a) (or_introl eq_refl)))]
    |eexists _, _; split_and!; [exact G1|exact D1|exact (f_equal (fmap bsize) (Hz (a_p1 a) (or_intror eq_refl)))]|done..|].
  intros p i Hp'. apply peek_zeroed, Hz, Hp'.
Qed.

(** Loading the module succeeds when the kernel serves its requests:
    both disks are registered, point to their own data, and read as zeros. *)
Theorem ramhd_init_ready m :
  exists s tr g0 g1, ramhd_init junk env (st0 m) [] = (Some 0, s, tr) /\ g0 <> g1 /\
    mkreq_wf g0 s /\ mkreq_wf g1 s /\ data (pdev_of g0 s) <> data (pdev_of g1 s) /\
    forall g i, g = g0 \/ g = g1 -> 0 <= i < RAMHD_SIZE ->
      peek (smem s) (data (pdev_of g s)) i = 0.
Proof.
  pose proof (init_wp m) as W. unfold wp in W.
  destruct (ramhd_init junk env (st0 m) []) as [[r s] tr] eqn:E.
  destruct W as (a & Hr & Hs & Ha & A). simpl in Hr, Hs. subst.
  destruct (loaded_disks m a Ha) as (W0 & W1 & P0 & P1 & Hz).
  exists (loaded_st m a), tr, (a_g0 a), (a_g1 a).
  destruct Ha as (_ & _ & Hp & _ & _ & _ & Hg).
  split_and!; [done..|by rewrite P0, P1|].
  intros g i Hg'. apply Hz. destruct Hg' as [-> | ->]; auto.
Qed.

(** Loading and then unloading gives every resource back exactly once:
    the unload runs to its end and nothing is held afterwards. *)
Theorem ramhd_load_unload m :
  exists s tr s' tr', ramhd_init junk env (st0 m) [] = (Some 0, s, tr) /\
    ramhd_exit env s tr = (Some (), s', tr') /\ audit tr' = Some [].
Proof.
  pose proof (init_wp m) as W. unfold wp in W.
  destruct (ramhd_init junk env (st0 m) []) as [[r s] tr] eqn:E.
  destruct W as (a & Hr & Hs & Ha & A). simpl in Hr, Hs, A. subst.
  enough (wp ramhd_exit env (loaded_st m a) tr (fun r s' tr' => r = Some () /\ audit tr' = Some []))
    as W by (unfold wp in W; destruct (ramhd_exit _ _ _) as [[? s'] tr'] eqn:E';
             simpl in W; destruct W as [-> ?]; eauto 10).
  apply audit_held in A. destruct a as [p0 p1 k0 k1 q0 q1 g0 g1 maj].
  destruct Ha as (Hp0 & Hp1 & _ & Hk0 & Hk1 & Hk & _). unfold loaded_res in A; simpl in *.
  unfold ramhd_exit, dev_of, clean_ramdev, ramhd_space_clean.
  change (Z.to_nat RAMHD_MAX_DEVICE) with 2%nat. cbn [for_loop].
  wpure. simpl. rewrite lookup_insert_ne, lookup_insert_eq by done. wpure. simpl.
  do 3 (wfree A; wpure). simpl. rewrite lookup_insert_eq. wpure. simpl.
  do 3 (wfree A; wpure). simpl. rewrite if_nonnull by done. wpure.
  wfree A. wpure. simpl. rewrite if_nonnull by done. wpure.
  wfree A. wpure. wfree A. wpure. wfree A. wpure. wfree A. wpure.
  split; [done|by apply held_nil].
Qed.
End load.

(** ** Load when memory runs out *)

Section failures.
Context (junk : Z -> Z) (env : kenv).

(** When the second disk cannot be allocated the load fails with
    -ENOMEM and the first disk's 8 MB stay allocated: ramhd_space_init
    returns without freeing them, and a module that failed to load is never
    unloaded. *)
Theorem ramhd_init_leaks m p o o' :
  env [] (vmalloc RAMHD_SIZE) = (p, o) -> p <> 0 ->
  env [(vmalloc RAMHD_SIZE, (p, o))] (vmalloc RAMHD_SIZE) = (0, o') ->
  exists s tr, ramhd_init junk env (st0 m) [] = (Some (- ENOMEM), s, tr) /\
    audit tr = Some [RVmem p].
Proof.
  intros E1 Hp E2.
  enough (wp (ramhd_init junk) env (st0 m) [] (fun r s tr =>
    r = Some (- ENOMEM) /\ audit tr = Some [RVmem p])) as W
    by (unfold wp in W; destruct (ramhd_init _ _ _ _) as [[? ?] ?]; simpl in W;
        destruct W as [-> ?]; eauto).
  unfold ramhd_init, ramhd_space_init. change (Z.to_nat RAMHD_MAX_DEVICE) with 2%nat.
  cbn [for_loop]. wpure. apply wp_bind_call. intros r1 o1 E.
  rewrite E1 in E. simplify_eq.
  wpure. rewrite if_null by done. wpure. rewrite memset_new by done. wpure.
  apply wp_bind_call. intros r2 o2 E. rewrite E2 in E. simplify_eq. wpure. simpl. wpure.
  split; [done|]. apply audit_silent; [|done..]. apply audit_acquire; [done|acq].
Qed.

(** alloc_ramdev's result is ignored: when a device structure cannot be
    allocated the load goes on and dereferences the NULL pointer. *)
Theorem ramhd_init_oops m :
  (forall tr, (env tr (vmalloc RAMHD_SIZE)).1 <> 0) ->
  (forall tr, (env tr (kzalloc sizeof_RAMHD_DEV)).1 = 0) ->
  returns (ramhd_init junk env (st0 m) []) = None.
Proof.
  intros Hv Hk.
  enough (wp (ramhd_init junk) env (st0 m) [] (fun r s tr => r = None)) as W by exact W.
  unfold ramhd_init, ramhd_space_init, alloc_ramdev, ramhd_init_dev, upd_dev.
  change (Z.to_nat RAMHD_MAX_DEVICE) with 2%nat. cbn [for_loop].
  do 2 (wpure; apply wp_bind_call; intros ? ? ?%(answer_is _ _ _ _ (fun z => z <> 0) _ Hv);
    wpure; rewrite if_null by done; wpure; rewrite memset_new by done; wpure).
  simpl. wpure. apply wp_bind_call. intros r1 o1 E.
  apply (answer_is _ _ _ _ (fun z => z = 0) _ Hk) in E as ->.
  wpure. simpl. wpure. apply wp_bind_call. intros. wpure. simpl. wpure. done.
Qed.
End failures.

(** ** Examples: one disk (block 3) and two pages (blocks 10 and 11) *)

Section examples.
Definition ex_mem : mem :=
  {[ 3 := Block RAMHD_SIZE (fun _ => 0); 10 := Block 4096 (fun i => i mod 251);
     11 := Block 4096 (fun _ => 0) ]}.
Definition ex_st : st :=
  St [3; 0] [2; 0] 240 {[ 2 := RamhdDev 3 5 1 ]}
    {[ 1 := Gendisk 240 0 "ramhda" 5 2 32 ]} ex_mem.
Definition ex_write : io := Io WRITE 5 [((10, 0), 512); ((10, 512), 512)].
Definition ex_write2 : io := Io WRITE 9 [((10, 1024), 512)].
Definition ex_read : io := Io READ 5 [((11, 0), 1024)].

Lemma ex_wf : mkreq_wf 1 ex_st.
Proof. eexists _, _. split_and!; reflexivity. Defined.

Lemma ramhd_write_read_witness :
  exists s1 s2,
    ramhd_make_request id ex_st (bio_of id 1 ex_write) = Some (s1, 0) /\
    ramhd_make_request id s1 (bio_of id 1 ex_read) = Some (s2, 0) /\
    gather (smem s2) (io_segs ex_read) = gather (smem ex_st) (io_segs ex_write).
Proof.
  apply (ramhd_write_read id id (fun _ => eq_refl) 1 ex_st ex_write ex_read);
    [exact ex_wf|solve_io..].
Defined.

Lemma ramhd_writes_commute_witness :
  exists s1 s12 s2 s21,
    ramhd_make_request id ex_st (bio_of id 1 ex_write) = Some (s1, 0) /\
    ramhd_make_request id s1 (bio_of id 1 ex_write2) = Some (s12, 0) /\
    ramhd_make_request id ex_st (bio_of id 1 ex_write2) = Some (s2, 0) /\
    ramhd_make_request id s2 (bio_of id 1 ex_write) = Some (s21, 0) /\
    forall c j, peek (smem s12) c j = peek (smem s21) c j.
Proof.
  apply (ramhd_writes_commute id id (fun _ => eq_refl) 1 ex_st ex_write ex_write2);
    [exact ex_wf|solve_io..].
Defined.

Definition ex_dev : RAMHD_DEV := RamhdDev 3 5 1.
Definition ex_bio : bio := bio_of id 1 ex_write.
Definition ex_bad : bio := Bio 1 (2 ^ 55 - 1) 1024 WRITE [BioVec 10 0 1024].

Lemma ex_ready b : bi_disk b = 1 -> disk_ready ex_st b ex_dev.
Proof. intros E. split; [|reflexivity]. rewrite E. eexists. split; reflexivity. Defined.

Lemma ramhd_make_request_spec_witness :
  exists m, ramhd_make_request id ex_st ex_bio = Some (set_smem m ex_st, 0) /\
    same_alloc (smem ex_st) m /\
    (bio_data_dir ex_bio = WRITE -> wrote_bio id ex_st ex_bio ex_dev m) /\
    (bio_data_dir ex_bio = READ -> read_bio id ex_st ex_bio ex_dev m).
Proof.
  apply (ramhd_make_request_spec id ex_st ex_bio ex_dev);
    [apply ex_ready; reflexivity|unfold bio_ok; solve_io|discriminate|reflexivity].
Defined.

Lemma ramhd_guard_wraps_witness : ramhd_make_request id ex_st ex_bad = None.
Proof.
  apply (ramhd_guard_wraps id ex_st ex_bad ex_dev);
    [apply ex_ready; reflexivity|reflexivity..].
Defined.

Lemma ramhd_init_ready_witness :
  exists s tr g0 g1, ramhd_init id nice_env (st0 ∅) [] = (Some 0, s, tr) /\ g0 <> g1 /\
    mkreq_wf g0 s /\ mkreq_wf g1 s /\ data (pdev_of g0 s) <> data (pdev_of g1 s) /\
    forall g i, g = g0 \/ g = g1 -> 0 <= i < RAMHD_SIZE ->
      peek (smem s) (data (pdev_of g s)) i = 0.
Proof. apply (ramhd_init_ready id nice_env nice_env_good ∅). Defined.

Lemma ramhd_load_unload_witness :
  exists s tr s' tr', ramhd_init id nice_env (st0 ∅) [] = (Some 0, s, tr) /\
    ramhd_exit nice_env s tr = (Some (), s', tr') /\ audit tr' = Some [].
Proof. apply (ramhd_load_unload id nice_env nice_env_good ∅). Defined.

(** Only the first allocation succeeds; no device structure can be allocated. *)
Definition env_one : kenv := fun tr _ => match tr with [] => (4096, 0) | _ => (0, 0) end.
Definition env_no_dev : kenv := fun tr c =>
  match c with vmalloc _ => (next_addr tr, 0) | _ => (0, 0) end.

Lemma ramhd_init_leaks_witness :
  exists s tr, ramhd_init id env_one (st0 ∅) [] = (Some (- ENOMEM), s, tr) /\
    audit tr = Some [RVmem 4096].
Proof. apply (ramhd_init_leaks id env_one ∅ 4096 0 0); [reflexivity|lia|reflexivity]. Defined.

Lemma ramhd_init_oops_witness : returns (ramhd_init id env_no_dev (st0 ∅) []) = None.
Proof.
  apply (ramhd_init_oops id env_no_dev ∅); [|reflexivity].
  intros tr. unfold env_no_dev; simpl. pose proof (next_addr_pos tr). lia.
Defined.
End examples.
