(* ===== verification/RamhdReq.v ===== *)
(** * ramdisk-lab/ramhd_req.c

    The same two ram disks as ramhd_mkreq.c, served through a request queue:
    [ramhd_req_func] fetches requests and copies them buffer by buffer.  The
    data path is verified against the interface of the request queue. *)

From S2P Require Import Prelude CMem Kernel BlockSpec BlockLayer.
From S2P Require Import RamhdMkreq.

(** The constants, the two arrays and the allocation helpers are the same text
    as in ramhd_mkreq.c; the device structure has a spinlock more, between queue
    and gd, which the driver only hands to the block layer by address. *)
Definition RAMHD_MAX_DEVICE : Z := 2.
Definition RAMHD_MAX_PARTITIONS : Z := 4.
Definition RAMHD_SECTOR_SIZE : Z := 512.
Definition RAMHD_SECTORS : Z := 16.
Definition RAMHD_HEADS : Z := 4.
Definition RAMHD_CYLINDERS : Z := 256.
Definition RAMHD_SECTOR_TOTAL : Z := RAMHD_SECTORS * RAMHD_HEADS * RAMHD_CYLINDERS.
Definition RAMHD_SIZE : Z := RAMHD_SECTOR_SIZE * RAMHD_SECTOR_TOTAL.

Definition RAMHD_DEV : Type := RamhdMkreq.RAMHD_DEV.
Definition sizeof_RAMHD_DEV : Z := 32.
Definition lock_of (p : Z) : Z := p + 16.

Definition ramhd_space_init := RamhdMkreq.ramhd_space_init.
Definition ramhd_space_clean := RamhdMkreq.ramhd_space_clean.
Definition alloc_ramdev := RamhdMkreq.alloc_ramdev.
Definition clean_ramdev := RamhdMkreq.clean_ramdev.
Definition ramhd_open : Z := 0.
Definition ramhd_release : Z := 0.
Definition ramhd_ioctl := RamhdMkreq.ramhd_ioctl.

(** Body of the loop over the devices in ramhd_init. *)
Definition ramhd_init_dev (i : Z) : M st (option Z) :=
  s ← get;
  let p := nth_ptr (rdev s) i in
  upd_dev p (fun d => RamhdDev (nth_ptr (sdisk s) i) (queue d) (gd d));;
  g ← call (alloc_disk RAMHD_MAX_PARTITIONS);
  (if g =? 0 then mret () else modify (fun s => set_gds (<[g := gendisk0]> (gds s)) s));;
  upd_dev p (fun d => RamhdDev (data d) (queue d) g);;
  call (spin_lock_init (lock_of p));;
  q ← call (blk_init_queue (lock_of p));
  upd_dev p (fun d => RamhdDev (data d) q (gd d));;
  upd_gd g (fun g0 => Gendisk (ramhd_major s) (i * RAMHD_MAX_PARTITIONS)
    ("ramsd" +:+ String (Ascii.ascii_of_nat (97 + Z.to_nat i)) "") q p (gd_flags g0));;
  call (set_capacity g RAMHD_SECTOR_TOTAL);;
  call (add_disk g);;
  mret None.

Definition ramhd_init (junk : Z -> Z) : M st Z :=
  ramhd_space_init junk;;
  alloc_ramdev sizeof_RAMHD_DEV;;
  maj ← call (register_blkdev 0 "ramsd");
  modify (set_major maj);;
  for_loop 0 (Z.to_nat RAMHD_MAX_DEVICE) ramhd_init_dev;;
  mret 0.

Definition ramhd_exit : M st () :=
  for_loop (R := Empty_set) 0 (Z.to_nat RAMHD_MAX_DEVICE) (fun i =>
    s ← get;
    d ← dev_of (nth_ptr (rdev s) i);
    call (del_gendisk (gd d));;
    call (put_disk (gd d));;
    call (blk_cleanup_queue (queue d));;
    mret None);;
  s ← get;
  call (unregister_blkdev (ramhd_major s) "ramsd");;
  clean_ramdev;;
  ramhd_space_clean.

(** ** The request function *)

(** [((RAMHD_DEV * )req->rq_disk->private_data)->data] *)
Definition rq_data (s : st) (disk : Z) : option Z :=
  g ← gds s !! disk;
  d ← devs s !! private_data g;
  Some (data d).

(** The [while (req)] loop.  An iteration copies the current buffer of [req],
    ends it, and fetches the next request when [req] is complete. *)
Fixpoint ramhd_req_loop `{BlkQueue Q} (s : st) (fuel : nat) (m : mem) (q : Q) (req : option Z)
    : outcome (mem * Q) :=
  match fuel with
  | O => NoFuel
  | S fuel' =>
      match req with
      | None => Done (m, q)
      | Some id =>
          let start := blk_rq_pos q id in
          match rq_data s (rq_disk q id) with
          | None => Wild
          | Some pData =>
              let addr := (pData, u64 (start * RAMHD_SECTOR_SIZE)) in
              let size := blk_rq_cur_bytes q id in
              let copied :=
                if rq_data_dir q id =? READ
                then memcpy m (rq_buffer q id) addr size
                else memcpy m addr (rq_buffer q id) size in
              match copied with
              | None => Wild
              | Some m' =>
                  let '(more, q') := blk_end_request_cur q id 0 in
                  if negb more then
                    let '(req', q'') := blk_fetch_request q' in
                    ramhd_req_loop s fuel' m' q'' req'
                  else ramhd_req_loop s fuel' m' q' (Some id)
              end
          end
      end
  end.

Definition ramhd_req_func `{BlkQueue Q} (s : st) (fuel : nat) (q : Q) : outcome (mem * Q) :=
  let '(req, q') := blk_fetch_request q in ramhd_req_loop s fuel (smem s) q' req.

(** ** What serving a request means *)

Definition serve (s : st) (m : mem) (r : request) : option mem :=
  d ← rq_data s (r_disk r);
  copy_segs (negb (r_dir r =? READ)) m (d, r_pos r * RAMHD_SECTOR_SIZE) (r_segs r).

Fixpoint serve_all (s : st) (m : mem) (rs : list request) : option mem :=
  match rs with
  | [] => Some m
  | r :: rs' => m' ← serve s m r; serve_all s m' rs'
  end.

(** What the block layer guarantees of a request: whole sectors, inside the
    capacity of a disk that is set up, segments in memory outside that disk. *)
Definition request_ok (s : st) (r : request) : Prop :=
  r_segs r <> [] /\ Forall whole_sectors (r_segs r) /\ segs_disj (r_segs r) /\
  0 <= r_pos r /\ r_pos r * RAMHD_SECTOR_SIZE + segs_len (r_segs r) <= RAMHD_SIZE /\
  exists d, rq_data s (r_disk r) = Some d /\
    bsize <$> smem s !! d = Some RAMHD_SIZE /\ Forall (seg_ok (smem s) d) (r_segs r).

Lemma serve_total s m r :
  same_alloc (smem s) m -> request_ok s r ->
  exists m', serve s m r = Some m' /\ same_alloc (smem s) m'.
Proof.
  intros Hal (_ & _ & Hd & Hpos & Hcap & d & Ed & Hsz & Hok).
  unfold serve. rewrite Ed; simpl. set (off := r_pos r * RAMHD_SECTOR_SIZE) in *.
  pose proof (segs_len_nonneg _ _ _ Hok).
  assert (Forall (seg_ok m d) (r_segs r)) as Hok' by by eapply seg_ok_valid.
  assert (valid m (d, off) (segs_len (r_segs r)) = true) as Hv.
  { rewrite (same_alloc_valid _ _ _ _ Hal), valid_bsize; simpl. rewrite Hsz.
    subst off. unfold RAMHD_SECTOR_SIZE in *. zify_bool; simpl; lia. }
  destruct (r_dir r =? READ); simpl.
  - destruct (copy_segs_read m (d, off) _ Hok' Hd Hv) as (m' & ? & _ & ? & _).
    exists m'. split; [done|by transitivity m].
  - destruct (copy_segs_write m (d, off) _ Hok' Hv) as (m' & ? & _ & ? & _).
    exists m'. split; [done|by transitivity m].
Qed.

Section refinement.
Context `{BlkQueueSpec Q} (s : st).
Implicit Types (q : Q) (m : mem) (r : request).

(** One request: the loop needs one iteration per segment and then fetches. *)
Lemma loop_one_request l m m' q id r d fuel :
  current q = Some (id, r) -> r_segs r = l -> l <> [] -> Forall whole_sectors l ->
  rq_data s (r_disk r) = Some d ->
  0 <= r_pos r -> r_pos r * RAMHD_SECTOR_SIZE + segs_len l <= RAMHD_SIZE ->
  copy_segs (negb (r_dir r =? READ)) m (d, r_pos r * RAMHD_SECTOR_SIZE) l = Some m' ->
  exists q' r', pending q' = pending q /\ current q' = None /\
    done_with q' = done_with q ++ [(r', 0)] /\
    ramhd_req_loop s (length l + fuel) m q (Some id) =
    let '(req, q'') := blk_fetch_request q' in ramhd_req_loop s fuel m' q'' req.
Proof.
  revert m q r. induction l as [|v l IH]; [done|].
  intros m q r Hc Hl _ Hw Hd Hpos Hcap Hcopy.
  apply Forall_cons in Hw as [[Hv0 Hv512] Hw].
  assert (0 <= segs_len l) as Hll.
  { clear -Hw. induction Hw as [|? ? [? _] _ IH]; simpl; lia. }
  simpl in Hcap, Hcopy |- *.
  destruct (accessors q id r Hc) as (-> & -> & -> & _ & _).
  destruct (accessors_cur q id r v l Hc Hl) as (-> & ->). rewrite Hd.
  unfold RAMHD_SIZE, RAMHD_SECTOR_TOTAL, RAMHD_SECTORS, RAMHD_HEADS, RAMHD_CYLINDERS,
    RAMHD_SECTOR_SIZE in *.
  rewrite u64_id by lia.
  assert (exists m1, (if r_dir r =? READ then memcpy m v.1 (d, r_pos r * 512) v.2
      else memcpy m (d, r_pos r * 512) v.1 v.2) = Some m1 /\
    copy_segs (negb (r_dir r =? READ)) m1 (padd (d, r_pos r * 512) v.2) l = Some m')
    as (m1 & -> & Hrest).
  { destruct (r_dir r =? READ); simpl in *; destruct (memcpy _ _ _ _); naive_solver. }
  destruct l as [|w l].
  - simpl in Hrest. simplify_eq.
    destruct (end_cur_last q id r v 0 Hc Hl) as (q' & -> & ? & ? & ?). simpl. eauto 10.
  - destruct (end_cur_more q id r v w l 0 Hc Hl) as (q' & -> & Hp & Hc' & Hdn). simpl.
    assert (r_rest r = Request (r_disk r) (r_pos r + v.2 / SECTOR) (r_dir r) (w :: l)) as Er
      by (unfold r_rest; by rewrite Hl).
    rewrite Er in Hc'.
    assert ((r_pos r + v.2 / SECTOR) * 512 = r_pos r * 512 + v.2) as Eoff
      by (unfold SECTOR in *; mlia).
    destruct (IH m1 q' _ Hc' eq_refl) as (q2 & r2 & Hp2 & Hc2 & Hdn2 & Hloop).
    + done.
    + done.
    + done.
    + simpl. unfold SECTOR in *. mlia.
    + simpl in *. rewrite Eoff. lia.
    + simpl in *. rewrite Eoff. exact Hrest.
    + exists q2, r2. rewrite <- Hp, <- Hdn. simpl in Hloop. by rewrite Hloop.
Qed.

Definition total_segs (rs : list request) : nat :=
  foldr (fun r n => (length (r_segs r) + n)%nat) 0%nat rs.

Lemma loop_all_requests rs m q fuel :
  pending q = rs -> current q = None -> Forall (request_ok s) rs -> same_alloc (smem s) m ->
  (total_segs rs < fuel)%nat ->
  exists m' q', serve_all s m rs = Some m' /\
    (let '(req, q1) := blk_fetch_request q in ramhd_req_loop s fuel m q1 req) = Done (m', q') /\
    pending q' = [] /\ current q' = None /\
    (done_with q').*2 = (done_with q).*2 ++ replicate (length rs) 0.
Proof.
  revert m q fuel. induction rs as [|r rs IH]; intros m q fuel Hp Hc Hok Hal Hfuel.
  - rewrite (fetch_empty q Hp Hc). destruct fuel as [|fuel]; [simpl in *; lia|].
    exists m, q. simpl. by rewrite app_nil_r.
  - destruct (fetch_next q r rs Hp Hc) as (id & q1 & -> & Hp1 & Hc1 & Hd1).
    apply Forall_cons in Hok as [Hr Hok].
    destruct (serve_total s m r Hal Hr) as (m1 & Hs1 & Hal1).
    pose proof Hs1 as Hcopy. unfold serve in Hcopy.
    destruct Hr as (Hne & Hw & _ & Hpos & Hcap & d & Ed & _ & _). rewrite Ed in Hcopy.
    simpl in Hcopy, Hfuel.
    replace fuel with (length (r_segs r) + (fuel - length (r_segs r)))%nat by lia.
    destruct (loop_one_request (r_segs r) m m1 q1 id r d (fuel - length (r_segs r))
      Hc1 eq_refl Hne Hw Ed Hpos Hcap Hcopy) as (q2 & r' & Hp2 & Hc2 & Hd2 & ->).
    destruct (IH m1 q2 (fuel - length (r_segs r))%nat) as (m' & q' & Hs' & -> & ? & ? & Hd');
      [by rewrite Hp2|done|done|done|lia|].
    exists m', q'. simpl. rewrite Hs1; simpl. split_and!; [done..|].
    rewrite Hd', Hd2, Hd1, fmap_app, <- app_assoc. done.
Qed.

(** C14.  ramhd_req_func serves the queue to the end: with one unit of fuel per
    buffer (plus one) it returns, every request is completed with status 0 in
    queue order, and memory and disks are those obtained by serving the
    requests one after the other. *)
Theorem ramhd_req_func_refines rs q fuel :
  pending q = rs -> current q = None -> Forall (request_ok s) rs ->
  (total_segs rs < fuel)%nat ->
  exists m' q', serve_all s (smem s) rs = Some m' /\
    ramhd_req_func s fuel q = Done (m', q') /\ pending q' = [] /\ current q' = None /\
    (done_with q').*2 = (done_with q).*2 ++ replicate (length rs) 0.
Proof. intros. by apply loop_all_requests. Qed.
End refinement.

(** ** The driver as a [BlockDriver] *)

Section driver.
(** [g] is the disk's gendisk; an I/O is a request queued alone. *)
Context (g : Z).

Definition request_of (i : io) : request := Request g (io_sector i) (io_dir i) (io_segs i).

Definition disk_of (s : st) : Z := default 0 (rq_data s g).

(** Submits one I/O and runs the request function on the queue. *)
Definition req_submit (s : st) (i : io) : option (st * Z) :=
  match ramhd_req_func s (S (length (io_segs i))) (Fifo [request_of i] None []) with
  | Done (m, q) => Some (set_smem m s, default 1 (head (f_done q).*2))
  | _ => None
  end.

#[local] Instance req_driver : BlockDriver st := {
  drv_mem := smem;
  drv_disk := disk_of;
  drv_sectors := RAMHD_SECTOR_TOTAL;
  submit := req_submit
}.

Definition req_wf (s : st) : Prop :=
  exists d, rq_data s g = Some d /\ bsize <$> smem s !! d = Some RAMHD_SIZE.

Lemma req_submit_serve s i :
  req_wf s -> io_ok s i ->
  exists m, serve s (smem s) (request_of i) = Some m /\ submit s i = Some (set_smem m s, 0).
Proof.
  intros (d & Ed & Hsz) (Hok & Hw & Hd & Hne & Hs & Hcap & _).
  assert (disk_of s = d) as Edisk by (unfold disk_of; by rewrite Ed).
  assert (request_ok s (request_of i)) as Hr.
  { split_and!; try done. exists d. simpl in Hok. rewrite Edisk in Hok. done. }
  destruct (loop_all_requests s [request_of i] (smem s) (Fifo [request_of i] None [])
    (S (length (io_segs i)))) as (m & q & Hserve & Hrun & _ & _ & Hdone);
    [done|done|by constructor|done|simpl; lia|].
  exists m. split; [simpl in Hserve; by destruct (serve s (smem s) (request_of i))|].
  change (req_submit s i = Some (set_smem m s, 0)). unfold req_submit, ramhd_req_func.
  rewrite Hrun. simpl in Hdone. by rewrite Hdone.
Qed.

Lemma req_submit_common s i :
  req_wf s -> io_ok s i ->
  exists s', submit s i = Some (s', 0) /\ req_wf s' /\ same_layout s s' /\
    (io_dir i = WRITE -> wrote s s' i) /\ (io_dir i = READ -> read s s' i).
Proof.
  intros Hwf Hio. destruct (req_submit_serve s i Hwf Hio) as (m & Hserve & Hsub).
  destruct Hwf as (d & Ed & Hsz). destruct Hio as (Hok & _ & Hd & _ & Hs & Hcap & Hdir).
  assert (disk_of s = d) as Edisk by (unfold disk_of; by rewrite Ed).
  unfold serve in Hserve. simpl in Hserve. rewrite Ed in Hserve. simpl in *.
  rewrite Edisk in Hok.
  assert (valid (smem s) (d, io_off i) (io_len i) = true) as Hv.
  { rewrite valid_bsize; simpl. rewrite Hsz. pose proof (segs_len_nonneg _ _ _ Hok).
    unfold io_off, io_len, SECTOR, RAMHD_SIZE, RAMHD_SECTOR_SIZE in *. zify_bool; simpl; lia. }
  assert (same_alloc (smem s) m -> req_wf (set_smem m s)) as Hwf'.
  { intros Hal. exists d. split; [done|]. simpl. by rewrite Hal. }
  exists (set_smem m s). unfold same_layout, wrote, read, disk_at; simpl.
  change (disk_of (set_smem m s)) with (disk_of s). rewrite Edisk.
  destruct Hdir as [Edir|Edir]; rewrite Edir in *; simpl in Hserve.
  - destruct (copy_segs_read (smem s) (d, io_off i) _ Hok Hd Hv) as (m' & E & ? & ? & ?).
    unfold io_off, SECTOR, RAMHD_SECTOR_SIZE in *. simplify_eq. split_and!; auto; done.
  - destruct (copy_segs_write (smem s) (d, io_off i) _ Hok Hv) as (m' & E & ? & ? & ?).
    unfold io_off, SECTOR, RAMHD_SECTOR_SIZE in *. simplify_eq. split_and!; auto; done.
Qed.

#[local] Instance req_driver_spec : BlockDriverSpec st.
Proof.
  refine {| drv_wf := req_wf |}; intros s i Hwf Hok Hd;
    destruct (req_submit_common s i Hwf Hok) as (s' & ? & ? & ? & ? & ?); eauto 10.
Defined.

(** Data written through the request queue is what a later request for
    the same sectors reads back. *)
Theorem ramhd_req_write_read s i1 i2 :
  req_wf s -> io_ok s i1 -> io_ok s i2 -> io_dir i1 = WRITE -> io_dir i2 = READ ->
  io_sector i1 = io_sector i2 -> io_len i1 = io_len i2 ->
  exists s1 s2, req_submit s i1 = Some (s1, 0) /\ req_submit s1 i2 = Some (s2, 0) /\
    gather (smem s2) (io_segs i2) = gather (smem s) (io_segs i1).
Proof. exact (write_read s i1 i2). Qed.
End driver.

(** ** Load and unload *)

Section load.
Context (junk : Z -> Z) (env : kenv).

Definition req_gendisk (maj i q p : Z) : gendisk :=
  Gendisk maj (i * RAMHD_MAX_PARTITIONS)
    ("ramsd" +:+ String (Ascii.ascii_of_nat (97 + Z.to_nat i)) "") q p 0.

Definition req_dev_st (s : st) (i q g : Z) : st :=
  let p := nth_ptr (rdev s) i in
  St (sdisk s) (rdev s) (ramhd_major s)
    (<[p := RamhdDev (nth_ptr (sdisk s) i) q g]> (devs s))
    (<[g := req_gendisk (ramhd_major s) i q p]> (gds s)) (smem s).

Lemma req_init_dev_wp i s tr h :
  good_env env -> audit tr = Some h -> is_Some (devs s !! nth_ptr (rdev s) i) ->
  wp (ramhd_init_dev i) env s tr (fun a s' tr' => exists q g,
    a = Some None /\ s' = req_dev_st s i q g /\ (RDisk g ∉ h) /\
    audit tr' = Some (RDiskLive g :: RQueue q :: RDisk g :: h)).
Proof.
  intros HG Ha [d Hd]. unfold ramhd_init_dev, upd_dev, upd_gd.
  wpure. rewrite Hd. wpure. walloc RDisk Ha. intros g og Hg Hgn A1.
  rewrite if_null by done. wpure. simpl. rewrite lookup_insert_eq. wpure.
  wsilent A1. intros ? ? A2. wpure. walloc RQueue A2. intros q oq Hq Hqn A3.
  wpure. simpl. rewrite lookup_insert_eq. wpure. simpl. rewrite lookup_insert_eq. wpure.
  wsilent A3. intros ? ? A4. wacquire (RDiskLive g) A4. intros ? ? A5.
  wpure. exists q, g. split_and!; [done| |done|done].
  unfold req_dev_st, set_gds, set_devs; simpl. by rewrite !insert_insert_eq.
Qed.

(** The state of a loaded module, by the addresses the kernel returned. *)
Definition req_loaded_st (m : mem) (a : addrs) : st :=
  req_dev_st (req_dev_st (set_major (a_maj a)
    (ramdev_st (space_st junk m (a_p0 a) (a_p1 a)) (a_k0 a) (a_k1 a)))
    0 (a_q0 a) (a_g0 a)) 1 (a_q1 a) (a_g1 a).

Definition req_loaded_res (a : addrs) : list res :=
  [RDiskLive (a_g1 a); RQueue (a_q1 a); RDisk (a_g1 a);
   RDiskLive (a_g0 a); RQueue (a_q0 a); RDisk (a_g0 a); RBlkdev (a_maj a);
   RMem (a_k1 a); RMem (a_k0 a); RVmem (a_p1 a); RVmem (a_p0 a)].

Lemma req_init_wp m :
  good_env env ->
  wp (ramhd_init junk) env (st0 m) [] (fun r s tr => exists a,
    r = Some 0 /\ s = req_loaded_st m a /\ addrs_ok a /\ audit tr = Some (req_loaded_res a)).
Proof.
  intros HG. unfold ramhd_init. apply wp_bind. eapply wp_mono; [by apply space_init_wp|].
  intros ? ? tr1 (p0 & p1 & -> & -> & Hp0 & Hp1 & Hp & A1).
  apply wp_bind. eapply wp_mono; [by apply alloc_ramdev_wp|].
  intros ? ? tr2 (k0 & k1 & -> & -> & Hk0 & Hk1 & Hk & A2).
  eapply wp_bind_call. intros maj o E.
  apply (answer_is _ _ _ _ (fun z => 0 <= z) _ (fun tr => proj2 (proj2 HG) tr "ramsd")) in E as Hmaj.
  apply (audit_acquire _ (register_blkdev 0 "ramsd") maj o _ (RBlkdev maj)) in A2;
    [|unfold acquired; by rewrite (proj2 (Z.ltb_ge maj 0) Hmaj)].
  wpure. change (Z.to_nat RAMHD_MAX_DEVICE) with 2%nat. cbn [for_loop]. wpure.
  apply wp_bind. eapply wp_mono; [apply (req_init_dev_wp 0 _ _ _ HG A2)|].
  { simpl. rewrite lookup_insert_ne, lookup_insert_eq by done. eauto. }
  intros ? ? tr3 (q0 & g0 & -> & -> & _ & A3). wpure.
  apply wp_bind. eapply wp_mono; [apply (req_init_dev_wp 1 _ _ _ HG A3)|].
  { simpl. rewrite lookup_insert_ne, lookup_insert_eq by done. eauto. }
  intros ? ? tr4 (q1 & g1 & -> & -> & Hg & A). wpure.
  exists (Addrs p0 p1 k0 k1 q0 q1 g0 g1 maj). unfold addrs_ok; simpl.
  split_and!; [done..|set_solver|done].
Qed.

(** Both disks of a loaded module are set up and blank. *)
Lemma req_loaded_disks m a :
  addrs_ok a ->
  let s := req_loaded_st m a in
  rq_data s (a_g0 a) = Some (a_p0 a) /\ rq_data s (a_g1 a) = Some (a_p1 a) /\
  forall p, p = a_p0 a \/ p = a_p1 a -> smem s !! p = Some (zeroed junk).
Proof.
  intros (_ & _ & Hp & _ & _ & Hk & Hg). unfold rq_data; simpl. split_and!.
  - rewrite lookup_insert_ne, lookup_insert_eq by done; simpl.
    by rewrite lookup_insert_ne, lookup_insert_eq.
  - rewrite lookup_insert_eq; simpl. by rewrite lookup_insert_eq.
  - intros p [-> | ->]; [by rewrite lookup_insert_ne, lookup_insert_eq|].
    by rewrite lookup_insert_eq.
Qed.

(** Loading and then unloading ramhd_req gives every resource back
    exactly once. *)
Theorem ramhd_req_load_unload m :
  good_env env ->
  exists s tr s' tr', ramhd_init junk env (st0 m) [] = (Some 0, s, tr) /\
    ramhd_exit env s tr = (Some (), s', tr') /\ audit tr' = Some [].
Proof.
  intros HG. pose proof (req_init_wp m HG) as W. unfold wp in W.
  destruct (ramhd_init junk env (st0 m) []) as [[r s] tr] eqn:E.
  destruct W as (a & Hr & Hs & Ha & A). simpl in Hr, Hs, A. subst.
  enough (wp ramhd_exit env (req_loaded_st m a) tr
    (fun r s' tr' => r = Some () /\ audit tr' = Some [])) as W
    by (unfold wp in W; destruct (ramhd_exit _ _ _) as [[? s'] tr'] eqn:E';
        simpl in W; destruct W as [-> ?]; eauto 10).
  apply audit_held in A. destruct a as [p0 p1 k0 k1 q0 q1 g0 g1 maj].
  destruct Ha as (Hp0 & Hp1 & _ & Hk0 & Hk1 & Hk & _). unfold req_loaded_res in A; simpl in *.
  unfold ramhd_exit, dev_of, clean_ramdev, ramhd_space_clean, RamhdMkreq.clean_ramdev,
    RamhdMkreq.ramhd_space_clean.
  change (Z.to_nat RAMHD_MAX_DEVICE) with 2%nat.
  change (Z.to_nat RamhdMkreq.RAMHD_MAX_DEVICE) with 2%nat. cbn [for_loop].
  wpure. simpl. rewrite lookup_insert_ne, lookup_insert_eq by done. wpure. simpl.
  do 3 (wfree A; wpure). simpl. rewrite lookup_insert_eq. wpure. simpl.
  do 3 (wfree A; wpure). wfree A. wpure. simpl. rewrite if_nonnull by done. wpure.
  wfree A. wpure. simpl. rewrite if_nonnull by done. wpure.
  wfree A. wpure. wfree A. wpure. wfree A. wpure.
  split; [done|by apply held_nil].
Qed.

(** A disk whose data pointer is NULL cannot serve any request. *)
Lemma null_disk_wild g s i :
  rq_data s g = Some 0 -> smem s !! 0 = None -> io_segs i <> [] -> req_submit g s i = None.
Proof.
  intros Ed Hm Hne. unfold req_submit, ramhd_req_func, request_of. simpl.
  destruct (io_segs i) as [|v l]; [done|]. simpl. rewrite Ed.
  assert (forall o n, valid (smem s) (0, o) n = false) as Hv
    by (intros; unfold valid; simpl; by rewrite Hm).
  destruct (io_dir i =? READ); by rewrite memcpy_oob by auto.
Qed.

(** Initialising a device publishes its disk, whatever its data pointer is. *)
Lemma init_dev_publishes i s tr :
  (forall tr, (env tr (alloc_disk RAMHD_MAX_PARTITIONS)).1 <> 0) ->
  is_Some (devs s !! nth_ptr (rdev s) i) ->
  wp (ramhd_init_dev i) env s tr (fun a s' tr' => exists q g r,
    a = Some None /\ s' = req_dev_st s i q g /\ (add_disk g, r) ∈ tr').
Proof.
  intros Hd [d Ed]. unfold ramhd_init_dev, upd_dev, upd_gd. wpure. rewrite Ed. wpure.
  apply wp_bind_call. intros g ? Hg%(answer_is _ _ _ _ (fun z => z <> 0) _ Hd).
  rewrite if_null by done. wpure. simpl. rewrite lookup_insert_eq. wpure.
  apply wp_bind_call. intros ? ? _. wpure. apply wp_bind_call. intros q ? _.
  wpure. simpl. rewrite lookup_insert_eq. wpure. simpl. rewrite lookup_insert_eq. wpure.
  apply wp_bind_call. intros ? ? _. apply wp_bind_call. intros r' o' _. wpure.
  exists q, g, (r', o'). split_and!; [done| |apply elem_of_cons; by left].
  unfold req_dev_st, set_gds, set_devs; simpl. by rewrite !insert_insert_eq.
Qed.

(** ramhd_init ignores the result of ramhd_space_init: when no memory can
    be allocated for the disks the load still succeeds and publishes a disk
    whose data pointer is NULL, and the first request for it accesses memory
    through that pointer. *)
Theorem ramhd_req_null_disk m :
  m !! 0 = None ->
  (forall tr, (env tr (vmalloc RamhdMkreq.RAMHD_SIZE)).1 = 0) ->
  (forall tr, (env tr (kzalloc sizeof_RAMHD_DEV)).1 <> 0) ->
  (forall tr, (env tr (alloc_disk RAMHD_MAX_PARTITIONS)).1 <> 0) ->
  exists s tr g r, ramhd_init junk env (st0 m) [] = (Some 0, s, tr) /\
    (add_disk g, r) ∈ tr /\ rq_data s g = Some 0 /\
    forall i, io_segs i <> [] -> req_submit g s i = None.
Proof.
  intros Hm Hv Hk Hd.
  enough (wp (ramhd_init junk) env (st0 m) [] (fun a s tr => exists g r,
    a = Some 0 /\ (add_disk g, r) ∈ tr /\ rq_data s g = Some 0 /\ smem s = m)) as W.
  { unfold wp in W. destruct (ramhd_init junk env (st0 m) []) as [[a s] tr]. simpl in W.
    destruct W as (g & r & -> & ? & ? & <-). exists s, tr, g, r.
    split_and!; try done. intros. by apply null_disk_wild. }
  unfold ramhd_init, ramhd_space_init, RamhdMkreq.ramhd_space_init, alloc_ramdev,
    RamhdMkreq.alloc_ramdev.
  change (Z.to_nat RAMHD_MAX_DEVICE) with 2%nat.
  change (Z.to_nat RamhdMkreq.RAMHD_MAX_DEVICE) with 2%nat. cbn [for_loop].
  wpure. apply wp_bind_call. intros p o ->%(answer_is _ _ _ _ (fun z => z = 0) _ Hv).
  wpure. simpl. wpure.
  apply wp_bind_call. intros k0 ? Hk0%(answer_is _ _ _ _ (fun z => z <> 0) _ Hk).
  wpure. rewrite if_null by done. wpure.
  apply wp_bind_call. intros k1 ? Hk1%(answer_is _ _ _ _ (fun z => z <> 0) _ Hk).
  wpure. rewrite if_null by done. wpure. apply wp_bind_call. intros maj ? _. wpure.
  wpure. apply wp_bind. eapply wp_mono; [apply (init_dev_publishes 0 _ _ Hd)|].
  { simpl. destruct (decide (k1 = k0)) as [->|]; [rewrite lookup_insert_eq; eauto|].
    rewrite lookup_insert_ne, lookup_insert_eq by done. eauto. }
  intros ? ? tr3 (q0 & g0 & r0 & -> & -> & _). wpure.
  apply wp_bind. eapply wp_mono; [apply (init_dev_publishes 1 _ _ Hd)|].
  { simpl. destruct (decide (k0 = k1)) as [->|]; [rewrite lookup_insert_eq; eauto|].
    rewrite lookup_insert_ne, lookup_insert_eq by done. eauto. }
  intros ? ? tr4 (q1 & g1 & r1 & -> & -> & ?). wpure.
  exists g1, r1. split_and!; [done|done| |done].
  unfold rq_data; simpl. rewrite lookup_insert_eq; simpl. by rewrite lookup_insert_eq.
Qed.
End load.

(** ** Examples *)

Section examples.
Definition ex_request : request := Request 1 5 WRITE [((10, 0), 512); ((10, 512), 512)].
Definition ex_requests : list request := [ex_request; Request 1 7 READ [((11, 0), 512)]].

Lemma ex_requests_ok : Forall (request_ok ex_st) ex_requests.
Proof.
  repeat constructor; try discriminate; try solve [vm_compute; congruence];
    try (exists 3); solve_io.
Defined.

Lemma ramhd_req_func_refines_witness :
  exists m' q', serve_all ex_st (smem ex_st) ex_requests = Some m' /\
    ramhd_req_func ex_st 4 (Fifo ex_requests None []) = Done (m', q') /\ pending q' = [] /\
    current q' = None /\ (done_with q').*2 =
      (done_with (Fifo ex_requests None [])).*2 ++ replicate (length ex_requests) 0.
Proof.
  apply (ramhd_req_func_refines ex_st ex_requests (Fifo ex_requests None []) 4);
    [reflexivity|reflexivity|exact ex_requests_ok|simpl; lia].
Defined.

Lemma ramhd_req_write_read_witness :
  exists s1 s2, req_submit 1 ex_st ex_write = Some (s1, 0) /\
    req_submit 1 s1 ex_read = Some (s2, 0) /\
    gather (smem s2) (io_segs ex_read) = gather (smem ex_st) (io_segs ex_write).
Proof.
  apply (ramhd_req_write_read 1 ex_st ex_write ex_read);
    [exists 3; split; reflexivity|solve_io..].
Defined.

Lemma ramhd_req_load_unload_witness :
  exists s tr s' tr', ramhd_init id nice_env (st0 ∅) [] = (Some 0, s, tr) /\
    ramhd_exit nice_env s tr = (Some (), s', tr') /\ audit tr' = Some [].
Proof. apply (ramhd_req_load_unload id nice_env ∅ nice_env_good). Defined.

(** Nothing can be vmalloc'ed. *)
Definition env_no_vmem : kenv := fun tr c =>
  match c with vmalloc _ => (0, 0) | _ => (next_addr tr, 0) end.

Lemma ramhd_req_null_disk_witness :
  exists s tr g r, ramhd_init id env_no_vmem (st0 ∅) [] = (Some 0, s, tr) /\
    (add_disk g, r) ∈ tr /\ rq_data s g = Some 0 /\
    forall i, io_segs i <> [] -> req_submit g s i = None.
Proof.
  apply (ramhd_req_null_disk id env_no_vmem ∅); [reflexivity|reflexivity| |];
    intros tr; simpl; pose proof (next_addr_pos tr); lia.
Defined.
End examples.
