(* ===== verification/SampleBlk.v ===== *)
(** * ramdisk-lab/sample_blk.c

    One 50 MB ram disk on a request queue: request function, allocation with
    its unwinding, load and unload. *)

From S2P Require Import Prelude CMem Kernel BlockSpec BlockLayer.

Definition SAMPLEBLK_MINOR : Z := 1.
Definition sampleblk_sect_size : Z := 512.
Definition sampleblk_nsects : Z := 100 * 1024.

(** struct sampleblk_dev; its spinlock is only handed to the block layer. *)
Record sampleblk := SampleblkDev {
  minor : Z; queue : Z; disk : Z; size : Z; data : Z
}.
Definition sizeof_sampleblk_dev : Z := 48.

(** The globals [sampleblk_major] and [sampleblk_dev], the structures
    allocated, and memory. *)
Record st := St {
  sampleblk_major : Z; sampleblk_dev : Z;
  devs : gmap Z sampleblk; gds : gmap Z gendisk; smem : mem
}.

Definition st0 (m : mem) : st := St 0 0 ∅ ∅ m.

Definition set_major (x : Z) (s : st) : st := St x (sampleblk_dev s) (devs s) (gds s) (smem s).
Definition set_dev (p : Z) (s : st) : st := St (sampleblk_major s) p (devs s) (gds s) (smem s).
Definition set_devs (d : gmap Z sampleblk) (s : st) : st :=
  St (sampleblk_major s) (sampleblk_dev s) d (gds s) (smem s).
Definition set_gds (g : gmap Z gendisk) (s : st) : st :=
  St (sampleblk_major s) (sampleblk_dev s) (devs s) g (smem s).
Definition set_smem (m : mem) (s : st) : st :=
  St (sampleblk_major s) (sampleblk_dev s) (devs s) (gds s) m.

(** Access to a structure through a pointer: a pointer that is NULL, or whose
    structure was freed, oopses. *)
Definition upd_dev (p : Z) (f : sampleblk -> sampleblk) : M st () :=
  s ← get;
  match devs s !! p with
  | Some d => modify (set_devs (<[p := f d]> (devs s)))
  | None => oops
  end.

Definition dev_of (p : Z) : M st sampleblk :=
  s ← get; match devs s !! p with Some d => mret d | None => oops end.

(** ** The request function *)

(** The memory after, and the return value, always 0. *)
Definition sampleblk_handle_io (m : mem) (dev : sampleblk) (pos size : Z) (buffer : ptr)
    (write : bool) : option (mem * Z) :=
  m' ← (if write then memcpy m (data dev, pos) buffer size
        else memcpy m buffer (data dev, pos) size);
  Some (m', 0).

(** The [rq_for_each_segment] loop: a negative result leaves it. *)
Fixpoint sampleblk_segments (m : mem) (dev : sampleblk) (pos rv : Z) (write : bool)
    (l : list seg) : option (mem * Z) :=
  match l with
  | [] => Some (m, rv)
  | bvec :: l' =>
      '(m', rv') ← sampleblk_handle_io m dev pos bvec.2 bvec.1 write;
      if rv' <? 0 then Some (m', rv')
      else sampleblk_segments m' dev (u64 (pos + bvec.2)) rv' write l'
  end.

(** The [while] loop: [rv] lives across iterations. *)
Fixpoint sampleblk_loop `{BlkQueue Q} (s : st) (dev : sampleblk) (fuel : nat)
    (m : mem) (q : Q) (rv : Z) : outcome (mem * Q) :=
  match fuel with
  | O => NoFuel
  | S fuel' =>
      match blk_fetch_request q with
      | (None, q1) => Done (m, q1)
      | (Some rq, q1) =>
          match gds s !! rq_disk q1 rq with
          | None => Wild
          | Some g =>
              if negb (sampleblk_dev s =? private_data g) then Wild
              else
                let pos := u64 (blk_rq_pos q1 rq * sampleblk_sect_size) in
                let sz := blk_rq_bytes q1 rq in
                if u64 (size dev) <? u64 (pos + sz) then
                  sampleblk_loop s dev fuel' m (blk_end_request_all q1 rq (- EIO)) (- EIO)
                else
                  match sampleblk_segments m dev pos rv (negb (rq_data_dir q1 rq =? 0))
                          (rq_segments q1 rq) with
                  | None => Wild
                  | Some (m', rv') =>
                      sampleblk_loop s dev fuel' m' (blk_end_request_all q1 rq rv') rv'
                  end
          end
      end
  end.

Definition sampleblk_request `{BlkQueue Q} (s : st) (fuel : nat) (q : Q) : outcome (mem * Q) :=
  match devs s !! sampleblk_dev s with
  | Some dev => sampleblk_loop s dev fuel (smem s) q 0
  | None => Wild
  end.

Definition sampleblk_ioctl : Z := 0.
Definition sampleblk_open : Z := 0.

(** ** Load and unload *)

(** kfree of the device structure: the pointer dangles from then on. *)
Definition kfree_dev (p : Z) : M st () :=
  call (kfree p);;
  modify (fun s => set_devs (delete p (devs s)) s).

Section alloc.
(** Bytes of freshly vmalloc'ed memory: anything. *)
Context (junk : Z -> Z).

(** The labels of the unwinding, innermost first. *)
Definition fail_dev (rv : Z) : M st Z :=
  s ← get; kfree_dev (sampleblk_dev s);; mret rv.

Definition fail_data (rv : Z) : M st Z :=
  s ← get; d ← dev_of (sampleblk_dev s);
  call (vfree (data d));; fail_dev rv.

Definition fail_queue (rv : Z) : M st Z :=
  s ← get; d ← dev_of (sampleblk_dev s);
  call (blk_cleanup_queue (queue d));; fail_data rv.

Definition sampleblk_alloc (minor : Z) : M st Z :=
  p ← call (kzalloc sizeof_sampleblk_dev);
  modify (set_dev p);;
  if p =? 0 then mret (- ENOMEM)
  else
    modify (fun s => set_devs (<[p := SampleblkDev 0 0 0 0 0]> (devs s)) s);;
    let sz := s32 (sampleblk_sect_size * sampleblk_nsects) in
    upd_dev p (fun d => SampleblkDev 0 0 0 sz 0);;
    v ← call (vmalloc sz);
    upd_dev p (fun d => SampleblkDev 0 0 0 (size d) v);;
    if v =? 0 then fail_dev (- ENOMEM)
    else
      modify (fun s => set_smem (<[v := Block sz junk]> (smem s)) s);;
      upd_dev p (fun d => SampleblkDev minor 0 0 (size d) (data d));;
      call (spin_lock_init p);;
      q ← call (blk_init_queue p);
      upd_dev p (fun d => SampleblkDev minor q 0 (size d) (data d));;
      if q =? 0 then fail_data (- ENOMEM)
      else
        call (blk_set_stacking_limits q);;
        g ← call (alloc_disk minor);
        if g =? 0 then fail_queue (- ENOMEM)
        else
          upd_dev p (fun d => SampleblkDev minor q g (size d) (data d));;
          modify (fun s => set_gds (<[g := Gendisk (sampleblk_major s) minor
            ("sampleblk" +:+ pretty.pretty minor) q p 0]> (gds s)) s);;
          call (set_capacity g sampleblk_nsects);;
          call (add_disk g);;
          mret 0.

Definition sampleblk_free (p : Z) : M st () :=
  d ← dev_of p;
  call (del_gendisk (disk d));;
  call (blk_cleanup_queue (queue d));;
  call (put_disk (disk d));;
  call (vfree (data d));;
  kfree_dev p.

Definition sampleblk_init : M st Z :=
  maj ← call (register_blkdev 0 "sampleblk");
  modify (set_major maj);;
  if maj <? 0 then mret maj
  else
    rv ← sampleblk_alloc SAMPLEBLK_MINOR;
    mret 0.

Definition sampleblk_exit : M st () :=
  s ← get;
  sampleblk_free (sampleblk_dev s);;
  s ← get;
  call (unregister_blkdev (sampleblk_major s) "sampleblk");;
  mret ().
End alloc.

(** ** The data path *)

Definition r_off (r : request) : Z := r_pos r * sampleblk_sect_size.
Definition in_range (dev : sampleblk) (r : request) : bool :=
  r_off r + segs_len (r_segs r) <=? size dev.
Definition status (dev : sampleblk) (r : request) : Z :=
  if in_range dev r then 0 else - EIO.

(** Serving one request, and a queue of them. *)
Definition serve (dev : sampleblk) (m : mem) (r : request) : option mem :=
  if in_range dev r
  then copy_segs (negb (r_dir r =? 0)) m (data dev, r_off r) (r_segs r)
  else Some m.

Fixpoint serve_all (dev : sampleblk) (m : mem) (rs : list request) : option mem :=
  match rs with
  | [] => Some m
  | r :: rs' => m' ← serve dev m r; serve_all dev m' rs'
  end.

(** The disk is set up: [dev] is its structure and [data dev] its memory. *)
Definition disk_ready (s : st) (dev : sampleblk) : Prop :=
  devs s !! sampleblk_dev s = Some dev /\ bsize <$> smem s !! data dev = Some (size dev) /\
  0 <= size dev < 2 ^ 63.

(** What the block layer guarantees of a request; it may run past the end. *)
Definition request_ok (s : st) (dev : sampleblk) (r : request) : Prop :=
  (exists g, gds s !! r_disk r = Some g /\ private_data g = sampleblk_dev s) /\
  r_segs r <> [] /\ segs_disj (r_segs r) /\ Forall (seg_ok (smem s) (data dev)) (r_segs r) /\
  0 <= r_pos r /\ r_off r + segs_len (r_segs r) < 2 ^ 64.

Lemma segments_copy m dev pos rv wr l :
  0 <= pos -> Forall (fun v : seg => 0 <= v.2) l -> pos + segs_len l < 2 ^ 64 ->
  sampleblk_segments m dev pos rv wr l =
  (m' ← copy_segs wr m (data dev, pos) l; Some (m', if l is [] then rv else 0)).
Proof.
  intros Hpos Hl. revert m pos rv Hpos. induction Hl as [|v l Hv Hl IH]; intros m pos rv Hpos Hlen.
  { done. }
  simpl in Hlen |- *. unfold sampleblk_handle_io.
  assert (0 <= segs_len l) by (clear -Hl; induction Hl; simpl; lia).
  change (2 ^ 64) with 18446744073709551616 in *.
  assert (forall m0, sampleblk_segments m0 dev (u64 (pos + v.2)) 0 wr l =
    (m' ← copy_segs wr m0 (data dev, pos + v.2) l; Some (m', 0))) as Hstep.
  { intros m0. rewrite u64_id by lia. rewrite IH by lia. by destruct l. }
  destruct wr; simpl; destruct (memcpy _ _ _ _) as [m1|]; simpl; try done; by rewrite Hstep.
Qed.

Lemma sb_serve_total s dev m r :
  disk_ready s dev -> same_alloc (smem s) m -> request_ok s dev r ->
  exists m', serve dev m r = Some m' /\ same_alloc (smem s) m'.
Proof.
  intros (_ & Hsz & _) Hal (_ & _ & Hd & Hok & Hpos & _). unfold serve, in_range.
  destruct (Z.leb_spec (r_off r + segs_len (r_segs r)) (size dev)) as [Hin|]; [|eauto].
  pose proof (segs_len_nonneg _ _ _ Hok).
  assert (Forall (seg_ok m (data dev)) (r_segs r)) as Hok' by by eapply seg_ok_valid.
  assert (valid m (data dev, r_off r) (segs_len (r_segs r)) = true) as Hv.
  { rewrite (same_alloc_valid _ _ _ _ Hal), valid_bsize; simpl. rewrite Hsz.
    unfold r_off, sampleblk_sect_size in *. zify_bool; simpl; lia. }
  destruct (r_dir r =? 0); simpl.
  - destruct (copy_segs_read m (data dev, r_off r) _ Hok' Hd Hv) as (m' & ? & _ & ? & _).
    exists m'. split; [done|by transitivity m].
  - destruct (copy_segs_write m (data dev, r_off r) _ Hok' Hv) as (m' & ? & _ & ? & _).
    exists m'. split; [done|by transitivity m].
Qed.

Section refinement.
Context `{BlkQueueSpec Q} (s : st) (dev : sampleblk).

Lemma loop_step m q rv r rs m' fuel :
  disk_ready s dev -> same_alloc (smem s) m -> request_ok s dev r ->
  pending q = r :: rs -> current q = None -> serve dev m r = Some m' ->
  exists q', sampleblk_loop s dev (S fuel) m q rv =
      sampleblk_loop s dev fuel m' q' (status dev r) /\
    pending q' = rs /\ current q' = None /\ done_with q' = done_with q ++ [(r, status dev r)].
Proof.
  intros (_ & _ & Hsz) Hal (Hg & Hne & _ & Hok & Hpos & Hmax) Hp Hc Hs.
  destruct Hg as (g & Eg & Epd). simpl.
  destruct (fetch_next q r rs Hp Hc) as (rq & q1 & -> & Hp1 & Hc1 & Hd1).
  destruct (accessors q1 rq r Hc1) as (-> & -> & -> & -> & ->).
  rewrite Eg, Epd, Z.eqb_refl. simpl. fold (r_off r).
  pose proof (segs_len_nonneg _ _ _ Hok) as Hlen.
  change (2 ^ 64) with 18446744073709551616 in *.
  change (2 ^ 63) with 9223372036854775808 in *.
  assert (0 <= r_off r) by (unfold r_off, sampleblk_sect_size; lia).
  rewrite (u64_id (r_off r)), (u64_id (r_off r + _)), (u64_id (size dev)) by lia.
  unfold serve, status, in_range in *.
  rewrite Z.leb_antisym in *. destruct (Z.ltb_spec (size dev) (r_off r + segs_len (r_segs r))); simpl in *.
  - simplify_eq. destruct (end_all q1 rq r (- EIO) Hc1) as (? & ? & E).
    eexists. split; [reflexivity|]. split_and!; congruence.
  - rewrite segments_copy; [|lia| |change (2 ^ 64) with 18446744073709551616; lia].
    2: { eapply Forall_impl; [exact Hok|]. by intros v (_ & ? & _). }
    rewrite Hs; simpl. destruct (r_segs r) eqn:El; [done|].
    destruct (end_all q1 rq r 0 Hc1) as (? & ? & E).
    eexists. split; [reflexivity|]. split_and!; congruence.
Qed.

Lemma loop_all rs m q rv fuel :
  disk_ready s dev -> same_alloc (smem s) m -> Forall (request_ok s dev) rs ->
  pending q = rs -> current q = None -> (length rs < fuel)%nat ->
  exists m' q', serve_all dev m rs = Some m' /\
    sampleblk_loop s dev fuel m q rv = Done (m', q') /\
    pending q' = [] /\ current q' = None /\
    done_with q' = done_with q ++ ((fun r => (r, status dev r)) <$> rs).
Proof.
  intros Hr. revert m q rv fuel. induction rs as [|r rs IH]; intros m q rv fuel Hal Hok Hp Hc Hf.
  - destruct fuel; [simpl in *; lia|]. simpl. rewrite (fetch_empty q Hp Hc).
    exists m, q. by rewrite app_nil_r.
  - destruct fuel as [|fuel]; [simpl in *; lia|]. apply Forall_cons in Hok as [Hok1 Hok].
    destruct (sb_serve_total s dev m r Hr Hal Hok1) as (m1 & Hs1 & Hal1).
    destruct (loop_step m q rv r rs m1 fuel Hr Hal Hok1 Hp Hc Hs1)
      as (q1 & -> & Hp1 & Hc1 & Hd1).
    destruct (IH m1 q1 (status dev r) fuel) as (m' & q' & Hs & -> & ? & ? & Hd');
      [done|done|done|done|simpl in *; lia|].
    exists m', q'. simpl. rewrite Hs1; simpl. split_and!; [done..|].
    by rewrite Hd', Hd1, <- app_assoc.
Qed.

(** C13.  sampleblk_request serves the whole queue and returns: each request is
    completed, in order, with -EIO and no effect when it runs past the end of
    the disk and with 0 after its data was copied otherwise. *)
Theorem sampleblk_request_refines rs q fuel :
  disk_ready s dev -> Forall (request_ok s dev) rs -> pending q = rs -> current q = None ->
  (length rs < fuel)%nat ->
  exists m' q', serve_all dev (smem s) rs = Some m' /\
    sampleblk_request s fuel q = Done (m', q') /\ pending q' = [] /\ current q' = None /\
    done_with q' = done_with q ++ ((fun r => (r, status dev r)) <$> rs).
Proof.
  intros Hr Hok Hp Hc Hf. unfold sampleblk_request. destruct Hr as [E Hr].
  rewrite E. by apply loop_all.
Qed.

(** The status of a request without data is whatever the previous request
    left in [rv]: after a request that failed with -EIO an empty request
    inside the disk is reported as failed too, although on a queue of its own
    it is reported as successful. *)
Theorem sampleblk_stale_status q r0 r1 fuel :
  disk_ready s dev -> pending q = [r0; r1] -> current q = None -> (2 < fuel)%nat ->
  request_ok s dev r0 -> in_range dev r0 = false ->
  (exists g, gds s !! r_disk r1 = Some g /\ private_data g = sampleblk_dev s) ->
  r_segs r1 = [] -> 0 <= r_off r1 <= size dev ->
  exists q', sampleblk_request s fuel q = Done (smem s, q') /\
    done_with q' = done_with q ++ [(r0, - EIO); (r1, - EIO)].
Proof.
  intros Hr Hp Hc Hf Hok0 Hout (g & Eg & Epd) Hseg Hoff.
  unfold sampleblk_request. rewrite (proj1 Hr).
  destruct fuel as [|[|[|fuel]]]; try lia.
  destruct (loop_step (smem s) q 0 r0 [r1] (smem s) (S (S fuel)) Hr) as (q1 & -> & Hp1 & Hc1 & Hd1);
    [done|done|done|done|unfold serve; by rewrite Hout|].
  unfold status in *. rewrite Hout in *.
  destruct (fetch_next q1 r1 [] Hp1 Hc1) as (rq & q2 & E2 & Hp2 & Hc2 & Hd2).
  remember (S fuel) as k. simpl. rewrite E2.
  destruct (accessors q2 rq r1 Hc2) as (-> & -> & _ & -> & ->).
  rewrite Eg, Epd, Z.eqb_refl, Hseg. simpl. fold (r_off r1).
  destruct Hr as (_ & _ & Hsz). change (2 ^ 63) with 9223372036854775808 in *.
  rewrite (u64_id (r_off r1)), Z.add_0_r, (u64_id (size dev)), (u64_id (r_off r1)) by lia.
  rewrite (proj2 (Z.ltb_ge _ _)) by lia.
  destruct (end_all q2 rq r1 (- EIO) Hc2) as (Hp3 & Hc3 & Hd3). subst k. simpl.
  rewrite fetch_empty by congruence. eexists. split; [done|].
  rewrite Hd3, Hd2, Hd1, <- app_assoc. done.
Qed.
End refinement.

(** ** Allocation, load and unload *)

Section resources.
Context (junk : Z -> Z) (env : kenv).

Definition disk_bytes : Z := sampleblk_sect_size * sampleblk_nsects.

(** The gendisk as sampleblk_alloc fills it in. *)
Definition new_disk (maj mn q p : Z) : gendisk :=
  Gendisk maj mn ("sampleblk" +:+ pretty.pretty mn) q p 0.

(** The resources of the disk, the newest first. *)
Definition disk_res (p v q g : Z) : list res := [RDiskLive g; RDisk g; RQueue q; RVmem v; RMem p].

(** What sampleblk_alloc leaves: a disk with its resources, or nothing. *)
Definition alloc_post (mn : Z) (s : st) (h : list res) (a : option Z) (s' : st) (tr' : trace)
    : Prop :=
  (exists p v q g, a = Some 0 /\ p <> 0 /\ v <> 0 /\ q <> 0 /\ g <> 0 /\
    sampleblk_dev s' = p /\ sampleblk_major s' = sampleblk_major s /\
    devs s' = <[p := SampleblkDev mn q g disk_bytes v]> (devs s) /\
    smem s' = <[v := Block disk_bytes junk]> (smem s) /\
    gds s' = <[g := new_disk (sampleblk_major s) mn q p]> (gds s) /\
    (exists tr0, (env tr0 (alloc_disk mn)).1 = g) /\
    audit tr' = Some (RDiskLive g :: RDisk g :: RQueue q :: RVmem v :: RMem p :: h)) \/
  (a = Some (- ENOMEM) /\ audit tr' = Some h /\ devs s' !! sampleblk_dev s' = None /\
   sampleblk_major s' = sampleblk_major s).

Lemma sampleblk_alloc_wp mn s tr h :
  audit tr = Some h -> devs s = ∅ ->
  wp (sampleblk_alloc junk mn) env s tr (alloc_post mn s h).
Proof.
  intros A0 Hd. unfold sampleblk_alloc, upd_dev, fail_queue, fail_data, fail_dev, dev_of, kfree_dev.
  apply wp_bind_call. intros p o _. wpure.
  destruct (Z.eqb_spec p 0) as [->|Hp].
  { wpure. right. simpl. rewrite Hd. split_and!; [done| |done|done].
    by apply audit_silent. }
  apply (audit_acquire _ (kzalloc sizeof_sampleblk_dev) p o _ (RMem p)) in A0; [|acq].
  wpure. simpl. rewrite lookup_insert_eq. wpure.
  apply wp_bind_call. intros v ov _. wpure. simpl. rewrite lookup_insert_eq. wpure.
  destruct (Z.eqb_spec v 0) as [->|Hv].
  { wpure. apply (audit_silent _ (vmalloc disk_bytes) 0 ov) in A0; [|done..].
    wpop A0. wpure. right. simpl. by rewrite lookup_delete_eq. }
  apply (audit_acquire _ (vmalloc disk_bytes) v ov _ (RVmem v)) in A0; [|acq].
  wpure. simpl. rewrite lookup_insert_eq. wpure.
  wsilent A0. clear A0. intros ? ? A0. wpure.
  apply wp_bind_call. intros q oq _. wpure. simpl. rewrite lookup_insert_eq. wpure.
  destruct (Z.eqb_spec q 0) as [->|Hq].
  { wpure. apply (audit_silent _ (blk_init_queue p) 0 oq) in A0; [|done..].
    simpl. rewrite lookup_insert_eq. wpure. simpl.
    wpop A0. wpure. wpop A0. wpure. right. simpl. by rewrite lookup_delete_eq. }
  apply (audit_acquire _ (blk_init_queue p) q oq _ (RQueue q)) in A0; [|acq].
  wsilent A0. clear A0. intros ? ? A0.
  apply wp_bind_call. intros g og Eg.
  destruct (Z.eqb_spec g 0) as [->|Hg].
  { apply (audit_silent _ (alloc_disk mn) 0 og) in A0; [|done..]. wpure. simpl.
    rewrite lookup_insert_eq. wpure. simpl. wpop A0. wpure. simpl. rewrite lookup_insert_eq.
    wpure. simpl. wpop A0. wpure. wpop A0. wpure. right. simpl. by rewrite lookup_delete_eq. }
  apply (audit_acquire _ (alloc_disk mn) g og _ (RDisk g)) in A0; [|acq].
  wpure. simpl. rewrite lookup_insert_eq. wpure.
  wsilent A0. clear A0. intros ? ? A0. wacquire (RDiskLive g) A0. clear A0. intros ? ? A0.
  wpure. left. exists p, v, q, g. simpl. rewrite !insert_insert_eq.
  split_and!; try done. eexists. by rewrite Eg.
Qed.

Lemma sampleblk_alloc_no_disk mn s tr h :
  audit tr = Some h -> devs s = ∅ -> (forall tr, (env tr (alloc_disk mn)).1 = 0) ->
  wp (sampleblk_alloc junk mn) env s tr (fun a s' tr' =>
    a = Some (- ENOMEM) /\ audit tr' = Some h /\ devs s' !! sampleblk_dev s' = None).
Proof.
  intros A Hd Hg. eapply wp_mono; [by apply sampleblk_alloc_wp|].
  intros a s' tr' [(p & v & q & g & _ & _ & _ & _ & Hne & _ & _ & _ & _ & _ & (tr0 & E) & _)
    |(-> & ? & ? & _)]; [|done]. by rewrite Hg in E.
Qed.

Lemma sampleblk_alloc_good mn s tr h :
  good_env env -> audit tr = Some h -> devs s = ∅ ->
  wp (sampleblk_alloc junk mn) env s tr (fun a s' tr' => exists p v q g,
    a = Some 0 /\ p <> 0 /\ v <> 0 /\ q <> 0 /\ g <> 0 /\
    sampleblk_dev s' = p /\ sampleblk_major s' = sampleblk_major s /\
    devs s' = <[p := SampleblkDev mn q g disk_bytes v]> (devs s) /\
    smem s' = <[v := Block disk_bytes junk]> (smem s) /\
    (exists x, gds s' = <[g := x]> (gds s) /\ private_data x = p) /\
    audit tr' = Some (RDiskLive g :: RDisk g :: RQueue q :: RVmem v :: RMem p :: h)).
Proof.
  intros HG A Hd. unfold sampleblk_alloc, upd_dev.
  walloc RMem A. clear A. intros p o Hp _ A. wpure. rewrite if_null by done.
  wpure. simpl. rewrite lookup_insert_eq. wpure.
  walloc RVmem A. clear A. intros v ov Hv _ A. wpure. simpl. rewrite lookup_insert_eq. wpure.
  rewrite if_null by done. wpure. simpl. rewrite lookup_insert_eq. wpure.
  wsilent A. clear A. intros ? ? A. wpure.
  walloc RQueue A. clear A. intros q oq Hq _ A. wpure. simpl. rewrite lookup_insert_eq. wpure.
  rewrite if_null by done. wsilent A. clear A. intros ? ? A.
  walloc RDisk A. clear A. intros g og Hg _ A. rewrite if_null by done.
  wpure. simpl. rewrite lookup_insert_eq. wpure.
  wsilent A. clear A. intros ? ? A. wacquire (RDiskLive g) A. clear A. intros ? ? A.
  wpure. exists p, v, q, g. simpl. rewrite !insert_insert_eq.
  split_and!; try done. eexists; split; reflexivity.
Qed.

(** sampleblk_free takes the disk apart. *)
Lemma sampleblk_free_wp p v q g d h s tr :
  p <> 0 -> v <> 0 -> devs s !! p = Some (SampleblkDev d q g disk_bytes v) ->
  held tr (disk_res p v q g ++ h) ->
  wp (sampleblk_free p) env s tr (fun r s' tr' =>
    r = Some () /\ sampleblk_major s' = sampleblk_major s /\ held tr' h).
Proof.
  intros Hp Hv Ed A. unfold disk_res in A; simpl in A. unfold sampleblk_free, dev_of, kfree_dev.
  wpure. rewrite Ed. wpure. simpl. do 4 (wfree A; wpure). wfree A. by apply wp_modify.
Qed.

(** C38.  sampleblk_alloc is all or nothing, whatever the kernel answers, and
    never oopses.  When it returns 0 it holds the device structure, the 50 MB,
    the queue, the disk and its registration, none of them NULL, structure and
    gendisk point to them and to each other, and sampleblk_free gives all five
    back.  Otherwise it returns -ENOMEM, has given back everything it had
    obtained, each once, and no device structure is left. *)
Theorem sampleblk_alloc_unwinds mn m :
  let '(a, s, tr) := sampleblk_alloc junk mn env (st0 m) [] in
  (exists p v q g, a = Some 0 /\ p <> 0 /\ v <> 0 /\ q <> 0 /\ g <> 0 /\ sampleblk_dev s = p /\
    devs s = {[p := SampleblkDev mn q g disk_bytes v]} /\
    gds s = {[g := new_disk 0 mn q p]} /\
    smem s = <[v := Block disk_bytes junk]> m /\
    audit tr = Some (disk_res p v q g) /\ leaves (sampleblk_free p env s tr) = Some []) \/
  (a = Some (- ENOMEM) /\ audit tr = Some [] /\ devs s !! sampleblk_dev s = None).
Proof.
  pose proof (sampleblk_alloc_wp mn (st0 m) [] [] eq_refl eq_refl) as W. unfold wp in W.
  destruct (sampleblk_alloc junk mn env (st0 m) []) as [[a s] tr]. simpl in W.
  destruct W as [(p & v & q & g & -> & Hp & Hv & Hq & Hg & Es & _ & Ed & Em & Eg & _ & A)|(-> & ? & ? & _)];
    [left|by right].
  exists p, v, q, g. split_and!; [done..|].
  assert (devs s !! p = Some (SampleblkDev mn q g disk_bytes v)) as El by (rewrite Ed; apply lookup_insert_eq).
  pose proof (sampleblk_free_wp p v q g mn [] s tr Hp Hv El (audit_held _ _ A)) as W.
  unfold wp in W. destruct (sampleblk_free p env s tr) as [[r s'] tr']. by apply held_nil, W.
Qed.

(** sampleblk_init reports success even when sampleblk_alloc failed: the
    module stays loaded with the major number held and no disk, and unloading
    it uses a pointer that is NULL or already freed. *)
Theorem sampleblk_init_hides_failure m :
  0 <= (env [] (register_blkdev 0 "sampleblk")).1 ->
  (forall tr, (env tr (alloc_disk SAMPLEBLK_MINOR)).1 = 0) ->
  exists s tr maj, sampleblk_init junk env (st0 m) [] = (Some 0, s, tr) /\
    audit tr = Some [RBlkdev maj] /\ returns (sampleblk_exit env s tr) = None.
Proof.
  intros Hmaj Hg.
  enough (wp (sampleblk_init junk) env (st0 m) [] (fun a s tr => exists maj, a = Some 0 /\
    audit tr = Some [RBlkdev maj] /\ returns (sampleblk_exit env s tr) = None)) as W.
  { unfold wp in W. destruct (sampleblk_init junk env (st0 m) []) as [[a s] tr]. simpl in W.
    destruct W as (maj & -> & ? & ?). eauto 10. }
  unfold sampleblk_init. apply wp_bind_call. intros maj o E. rewrite E in Hmaj. simpl in Hmaj.
  wpure. rewrite (proj2 (Z.ltb_ge maj 0) Hmaj).
  assert (audit [(register_blkdev 0 "sampleblk", (maj, o))] = Some [RBlkdev maj]) as A.
  { apply (audit_acquire [] _ _ _ []); [done|]. unfold acquired.
    by rewrite (proj2 (Z.ltb_ge maj 0) Hmaj). }
  apply wp_bind. eapply wp_mono.
  { apply (sampleblk_alloc_no_disk SAMPLEBLK_MINOR _ _ _ A); done. }
  intros a s' tr' (-> & A' & Hdead). wpure. exists maj. split_and!; [done..|].
  enough (wp sampleblk_exit env s' tr' (fun a _ _ => a = None)) as W by exact W.
  unfold sampleblk_exit, sampleblk_free, dev_of. wpure. rewrite Hdead.
  by apply wp_bind_oops.
Qed.

Lemma sampleblk_init_wp m :
  good_env env ->
  wp (sampleblk_init junk) env (st0 m) [] (fun a s tr => exists p v q g maj,
    a = Some 0 /\ p <> 0 /\ v <> 0 /\ sampleblk_dev s = p /\ sampleblk_major s = maj /\
    devs s = {[p := SampleblkDev SAMPLEBLK_MINOR q g disk_bytes v]} /\
    smem s = <[v := Block disk_bytes junk]> m /\
    (exists x, gds s = {[g := x]} /\ private_data x = p) /\
    audit tr = Some [RDiskLive g; RDisk g; RQueue q; RVmem v; RMem p; RBlkdev maj]).
Proof.
  intros HG. unfold sampleblk_init. apply wp_bind_call. intros maj o E.
  apply (answer_is _ _ _ _ (fun z => 0 <= z) _ (fun tr => proj2 (proj2 HG) tr "sampleblk"))
    in E as Hmaj.
  wpure. rewrite (proj2 (Z.ltb_ge maj 0) Hmaj).
  assert (audit [(register_blkdev 0 "sampleblk", (maj, o))] = Some [RBlkdev maj]) as A.
  { apply (audit_acquire [] _ _ _ []); [done|]. unfold acquired.
    by rewrite (proj2 (Z.ltb_ge maj 0) Hmaj). }
  apply wp_bind. eapply wp_mono; [by apply (sampleblk_alloc_good SAMPLEBLK_MINOR _ _ _ HG A)|].
  intros a s' tr' (p & v & q & g & -> & Hp & Hv & _ & _ & Es & Em & Ed & Emem & Eg & A').
  wpure. exists p, v, q, g, maj. simpl in *. split_and!; done.
Qed.

(** Loading sample_blk on a kernel that serves its requests registers one
    disk of 100 * 1024 sectors that is ready for requests; its contents are
    the bytes vmalloc returned, they are not cleared. *)
Theorem sampleblk_init_ready m :
  good_env env ->
  exists s tr dev, sampleblk_init junk env (st0 m) [] = (Some 0, s, tr) /\
    disk_ready s dev /\ size dev = sampleblk_nsects * 512 /\
    forall i, peek (smem s) (data dev) i = junk i.
Proof.
  intros HG. pose proof (sampleblk_init_wp m HG) as W. unfold wp in W.
  destruct (sampleblk_init junk env (st0 m) []) as [[a s] tr]. simpl in W.
  destruct W as (p & v & q & g & maj & -> & _ & _ & Ep & _ & Ed & Em & _ & _).
  exists s, tr, (SampleblkDev SAMPLEBLK_MINOR q g disk_bytes v).
  unfold disk_ready, peek; simpl. rewrite Ep, Ed, Em, lookup_singleton_eq, lookup_insert_eq.
  done.
Qed.

(** Loading and then unloading sample_blk gives every resource back
    exactly once. *)
Theorem sampleblk_load_unload m :
  good_env env ->
  exists s tr s' tr', sampleblk_init junk env (st0 m) [] = (Some 0, s, tr) /\
    sampleblk_exit env s tr = (Some (), s', tr') /\ audit tr' = Some [].
Proof.
  intros HG. pose proof (sampleblk_init_wp m HG) as W. unfold wp in W.
  destruct (sampleblk_init junk env (st0 m) []) as [[a s] tr]. simpl in W.
  destruct W as (p & v & q & g & maj & -> & Hp & Hv & Ep & Emaj & Ed & _ & _ & A).
  enough (wp sampleblk_exit env s tr (fun r' s' tr' => r' = Some () /\ audit tr' = Some [])) as W.
  { unfold wp in W. destruct (sampleblk_exit env s tr) as [[r' s'] tr'] eqn:E'. simpl in W.
    destruct W as [-> ?]. eauto 10. }
  apply (audit_held tr (disk_res p v q g ++ [RBlkdev maj])) in A. unfold sampleblk_exit. wpure.
  rewrite Ep. apply wp_bind. eapply wp_mono; [eapply sampleblk_free_wp; [done|done| |exact A]|].
  { by rewrite Ed, lookup_singleton_eq. }
  intros r' s' tr' (-> & Em' & A'). wpure. rewrite Em', Emaj. wfree A'. wpure.
  split; [done|by apply held_nil].
Qed.
End resources.

(** ** The driver as a [BlockDriver] *)

Section driver.
(** [g] is the disk's gendisk. *)
Context (g : Z).

Definition request_of (i : io) : request := Request g (io_sector i) (io_dir i) (io_segs i).

Definition sdev (s : st) : sampleblk :=
  default (SampleblkDev 0 0 0 0 0) (devs s !! sampleblk_dev s).

Definition sb_submit (s : st) (i : io) : option (st * Z) :=
  match sampleblk_request s 2 (Fifo [request_of i] None []) with
  | Done (m, q) => Some (set_smem m s, default 1 (head (f_done q).*2))
  | _ => None
  end.

#[local] Instance sb_driver : BlockDriver st := {
  drv_mem := smem;
  drv_disk s := data (sdev s);
  drv_sectors := sampleblk_nsects;
  submit := sb_submit
}.

Definition sb_wf (s : st) : Prop :=
  disk_ready s (sdev s) /\ size (sdev s) = disk_bytes /\
  exists x, gds s !! g = Some x /\ private_data x = sampleblk_dev s.

Lemma sb_submit_common s i :
  sb_wf s -> io_ok s i ->
  exists s', submit s i = Some (s', 0) /\ sb_wf s' /\ same_layout s s' /\
    (io_dir i = WRITE -> wrote s s' i) /\ (io_dir i = READ -> read s s' i).
Proof.
  intros (Hr & Hsz & Hg) (Hok & _ & Hd & Hne & Hs & Hcap & Hdir).
  pose proof (segs_len_nonneg _ _ _ Hok) as Hlen. simpl in Hok, Hcap.
  unfold io_off, io_len, SECTOR, sampleblk_nsects in *.
  assert (request_ok s (sdev s) (request_of i)) as Hrok.
  { split_and!; try done. unfold r_off, sampleblk_sect_size; simpl. lia. }
  destruct (loop_all s (sdev s) [request_of i] (smem s) (Fifo [request_of i] None []) 0 2)
    as (m & q & Hserve & Hrun & _ & _ & Hdone); [done|done|by constructor|done|done|simpl; lia|].
  assert (in_range (sdev s) (request_of i) = true) as Hin.
  { unfold in_range, r_off, sampleblk_sect_size; simpl. rewrite Hsz. apply Z.leb_le.
    unfold disk_bytes, sampleblk_sect_size, sampleblk_nsects. lia. }
  assert (submit s i = Some (set_smem m s, 0)) as Hsub.
  { change (sb_submit s i = Some (set_smem m s, 0)). unfold sb_submit, sampleblk_request.
    rewrite (proj1 Hr), Hrun. simpl in Hdone. rewrite Hdone; simpl. unfold status.
    by rewrite Hin. }
  assert (serve (sdev s) (smem s) (request_of i) = Some m) as Hs1
    by (simpl in Hserve; by destruct (serve _ _ _)).
  unfold serve in Hs1. rewrite Hin in Hs1. unfold r_off, sampleblk_sect_size in Hs1. simpl in Hs1.
  destruct Hr as (Edev & Hb & Hmax).
  assert (valid (smem s) (data (sdev s), io_sector i * 512) (segs_len (io_segs i)) = true) as Hv.
  { rewrite valid_bsize; simpl. rewrite Hb, Hsz.
    unfold disk_bytes, sampleblk_sect_size, sampleblk_nsects. zify_bool; simpl; lia. }
  assert (same_alloc (smem s) m -> sb_wf (set_smem m s)) as Hwf'.
  { intros Hal. split_and!; [|done|done]. split_and!; [done| |apply Hmax..].
    simpl. by rewrite Hal. }
  exists (set_smem m s). unfold same_layout, wrote, read, disk_at; simpl.
  change (sdev (set_smem m s)) with (sdev s). unfold io_off, io_len, SECTOR.
  destruct Hdir as [Edir|Edir]; rewrite Edir in *; simpl in Hs1.
  - destruct (copy_segs_read (smem s) (data (sdev s), io_sector i * 512) _ Hok Hd Hv)
      as (m' & E & ? & ? & ?). simplify_eq. split_and!; auto; done.
  - destruct (copy_segs_write (smem s) (data (sdev s), io_sector i * 512) _ Hok Hv)
      as (m' & E & ? & ? & ?). simplify_eq. split_and!; auto; done.
Qed.

#[local] Instance sb_driver_spec : BlockDriverSpec st.
Proof.
  refine {| drv_wf := sb_wf |}; intros s i Hwf Hok Hd;
    destruct (sb_submit_common s i Hwf Hok) as (s' & ? & ? & ? & ? & ?); eauto 10.
Defined.

(** Data written to the sample_blk disk is what a later request for the
    same sectors reads back. *)
Theorem sampleblk_write_read s i1 i2 :
  sb_wf s -> io_ok s i1 -> io_ok s i2 -> io_dir i1 = WRITE -> io_dir i2 = READ ->
  io_sector i1 = io_sector i2 -> io_len i1 = io_len i2 ->
  exists s1 s2, sb_submit s i1 = Some (s1, 0) /\ sb_submit s1 i2 = Some (s2, 0) /\
    gather (smem s2) (io_segs i2) = gather (smem s) (io_segs i1).
Proof. exact (write_read s i1 i2). Qed.
End driver.

(** ** Examples: the disk is block 3, two pages are blocks 10 and 11 *)

Section examples.
Definition ex_mem : mem :=
  {[ 3 := Block disk_bytes (fun _ => 0); 10 := Block 4096 (fun i => i mod 251);
     11 := Block 4096 (fun _ => 0) ]}.
Definition ex_dev : sampleblk := SampleblkDev 1 5 1 disk_bytes 3.
Definition ex_st : st :=
  St 240 2 {[ 2 := ex_dev ]} {[ 1 := Gendisk 240 1 "sampleblk1" 5 2 0 ]} ex_mem.
Definition ex_write : io := Io WRITE 5 [((10, 0), 512); ((10, 512), 512)].
Definition ex_read : io := Io READ 5 [((11, 0), 1024)].
Definition ex_late : request := Request 1 sampleblk_nsects WRITE [((10, 0), 512)].
Definition ex_flush : request := Request 1 0 WRITE [].
Definition ex_requests : list request := [request_of 1 ex_write; ex_late; request_of 1 ex_read].

Lemma ex_sb_ready : disk_ready ex_st ex_dev.
Proof. split_and!; [reflexivity|reflexivity|discriminate|reflexivity]. Defined.

Ltac solve_request :=
  split; [eexists; split; reflexivity|];
  repeat split; try discriminate; simpl; try solve [solve_io]; solve_io.

Lemma ex_sb_requests_ok : Forall (request_ok ex_st ex_dev) ex_requests.
Proof. repeat (apply Forall_cons; split); [solve_request..|constructor]. Defined.

Lemma sampleblk_request_refines_witness :
  exists m' q', serve_all ex_dev (smem ex_st) ex_requests = Some m' /\
    sampleblk_request ex_st 4 (Fifo ex_requests None []) = Done (m', q') /\
    pending q' = [] /\ current q' = None /\
    done_with q' = done_with (Fifo ex_requests None []) ++
      ((fun r => (r, status ex_dev r)) <$> ex_requests).
Proof.
  apply (sampleblk_request_refines ex_st ex_dev ex_requests (Fifo ex_requests None []) 4);
    [exact ex_sb_ready|exact ex_sb_requests_ok|reflexivity|reflexivity|simpl; lia].
Defined.

Lemma sampleblk_stale_status_witness :
  exists q', sampleblk_request ex_st 3 (Fifo [ex_late; ex_flush] None []) = Done (smem ex_st, q') /\
    done_with q' = done_with (Fifo [ex_late; ex_flush] None []) ++
      [(ex_late, - EIO); (ex_flush, - EIO)].
Proof.
  apply (sampleblk_stale_status ex_st ex_dev (Fifo [ex_late; ex_flush] None []) ex_late ex_flush 3);
    [exact ex_sb_ready|reflexivity|reflexivity|lia|solve_request|reflexivity
    |eexists; split; reflexivity|reflexivity|vm_compute; split; discriminate].
Defined.

Lemma sampleblk_write_read_witness :
  exists s1 s2, sb_submit 1 ex_st ex_write = Some (s1, 0) /\
    sb_submit 1 s1 ex_read = Some (s2, 0) /\
    gather (smem s2) (io_segs ex_read) = gather (smem ex_st) (io_segs ex_write).
Proof.
  apply (sampleblk_write_read 1 ex_st ex_write ex_read);
    [split; [exact ex_sb_ready|split; [reflexivity|eexists; split; reflexivity]]|solve_io..].
Defined.

Lemma sampleblk_init_ready_witness :
  exists s tr dev, sampleblk_init id nice_env (st0 ∅) [] = (Some 0, s, tr) /\
    disk_ready s dev /\ size dev = sampleblk_nsects * 512 /\
    forall i, peek (smem s) (data dev) i = i.
Proof. apply (sampleblk_init_ready id nice_env ∅ nice_env_good). Defined.

Lemma sampleblk_load_unload_witness :
  exists s tr s' tr', sampleblk_init id nice_env (st0 ∅) [] = (Some 0, s, tr) /\
    sampleblk_exit nice_env s tr = (Some (), s', tr') /\ audit tr' = Some [].
Proof. apply (sampleblk_load_unload id nice_env ∅ nice_env_good). Defined.

(** No gendisk can be allocated. *)
Definition env_no_disk : kenv := fun tr c =>
  match c with alloc_disk _ => (0, 0) | _ => nice_env tr c end.

Lemma sampleblk_init_hides_failure_witness :
  exists s tr maj, sampleblk_init id env_no_disk (st0 ∅) [] = (Some 0, s, tr) /\
    audit tr = Some [RBlkdev maj] /\ returns (sampleblk_exit env_no_disk s tr) = None.
Proof. apply (sampleblk_init_hides_failure id env_no_disk ∅); [discriminate|reflexivity]. Defined.
End examples.
