(* ===== verification/Disk.v ===== *)
(** * The ram disks are disks

    A disk is an array of bytes.  The I/Os submitted to the disks of a driver,
    in any order, leave a history: each I/O with its status and the data that
    went over.  Replayed on one array per disk, the history fits: every write
    replaces its bytes of its disk and of no other, every read returns what
    the array of its disk holds.  The theorem is proved against the interface
    [Shelf], several disks of one driver, which ramhd_mkreq.c and ramhd_req.c
    fill with two disks and sample_blk.c with one. *)

From S2P Require Import RamhdMkreq RamhdReq SampleBlk.
From S2P Require Import Prelude CMem Kernel BlockSpec BlockLayer.

(** ** The abstract disk *)

Definition overwrite (disk : Z -> Z) (off : Z) (data : list Z) : Z -> Z := fun j =>
  if (off <=? j) && (j <? off + Z.of_nat (length data)) then nth (Z.to_nat (j - off)) data 0
  else disk j.

(** An I/O that completed: its status and the bytes transferred. *)
Record done := Completed { d_io : io; d_status : Z; d_data : list Z }.

Definition effect (disk : Z -> Z) (e : done) : Z -> Z :=
  if io_dir (d_io e) =? WRITE then overwrite disk (io_off (d_io e)) (d_data e) else disk.

Lemma effect_read disk i st d : io_dir i = READ -> effect disk (Completed i st d) = disk.
Proof. intros E. unfold effect; simpl. by rewrite E. Qed.

Lemma effect_write disk i st d :
  io_dir i = WRITE -> effect disk (Completed i st d) = overwrite disk (io_off i) d.
Proof. intros E. unfold effect; simpl. by rewrite E. Qed.

(** The completed I/O fits the disk, and a history does. *)
Definition fits (disk : Z -> Z) (e : done) : Prop :=
  d_status e = 0 /\ Z.of_nat (length (d_data e)) = io_len (d_io e) /\
  (io_dir (d_io e) = READ -> d_data e = slice disk (io_off (d_io e)) (io_len (d_io e))).

Fixpoint replays (disk : Z -> Z) (h : list done) : Prop :=
  match h with
  | [] => True
  | e :: h' => fits disk e /\ replays (effect disk e) h'
  end.

(** The disk after a history. *)
Definition contents (disk : Z -> Z) (h : list done) : Z -> Z := foldl effect disk h.

(** ** One disk *)

Section one_disk.
Context {D : Type} `{BlockDriver D}.
Implicit Types (s : D) (i : io).

(** The bytes the driver keeps for the disk. *)
Definition stored s (j : Z) : Z := peek (drv_mem s) (drv_disk s) j.

Definition on_disk (disk : Z -> Z) s : Prop :=
  forall j, 0 <= j < drv_sectors * SECTOR -> disk j = stored s j.

(** The data of an I/O: a write takes it from the segments before, a read
    leaves it there. *)
Definition transferred s s1 i : list Z :=
  gather (drv_mem (if io_dir i =? WRITE then s else s1)) (io_segs i).

(** What a driver does for an I/O. *)
Definition obeys s s1 i : Prop :=
  (io_dir i = WRITE -> wrote s s1 i) /\ (io_dir i = READ -> read s s1 i).

Lemma io_bounds s i :
  io_ok s i -> 0 <= io_off i /\ 0 <= io_len i /\ io_off i + io_len i <= drv_sectors * SECTOR.
Proof.
  intros (Hok & _ & _ & _ & ? & ? & _). pose proof (segs_len_nonneg _ _ _ Hok).
  unfold io_off, io_len, SECTOR in *. lia.
Qed.

Lemma write_on_disk s s1 i disk :
  io_ok s i -> on_disk disk s -> wrote s s1 i -> drv_disk s1 = drv_disk s ->
  on_disk (overwrite disk (io_off i) (gather (drv_mem s) (io_segs i))) s1.
Proof.
  intros Hio Hon [HB HF] Hd j Hj. destruct (io_bounds s i Hio) as (Ho & Hl & Hc).
  pose proof (length_gather _ _ _ (proj1 Hio)) as Hlen. fold (io_len i) in Hlen.
  unfold stored, overwrite. rewrite Hlen, Hd. destruct (Z.leb_spec (io_off i) j); simpl.
  - destruct (Z.ltb_spec j (io_off i + io_len i)).
    + rewrite <- HB. unfold bytes, disk_at; simpl. apply nth_lookup_Some.
      rewrite lookup_slice by lia. do 2 f_equal. lia.
    + rewrite HF by lia. by apply Hon.
  - rewrite HF by lia. by apply Hon.
Qed.

Lemma read_on_disk s s1 i disk :
  io_ok s i -> on_disk disk s -> read s s1 i -> drv_disk s1 = drv_disk s ->
  on_disk disk s1 /\
  gather (drv_mem s1) (io_segs i) = slice disk (io_off i) (io_len i).
Proof.
  intros Hio Hon [HB HF] Hd. destruct (io_bounds s i Hio) as (Ho & Hl & Hc). split.
  - intros j Hj. unfold stored. rewrite Hd, HF; [by apply Hon|].
    eapply Forall_impl; [exact (proj1 Hio)|]. intros v (_ & _ & ?) [? _]. congruence.
  - rewrite HB. unfold bytes, disk_at; simpl. apply slice_ext. intros j Hj.
    symmetry. apply Hon. lia.
Qed.

(** An I/O fits the disk, and the driver's bytes follow it. *)
Lemma obeys_fits s s1 i disk :
  io_ok s i -> on_disk disk s -> obeys s s1 i -> drv_disk s1 = drv_disk s ->
  fits disk (Completed i 0 (transferred s s1 i)) /\
  on_disk (effect disk (Completed i 0 (transferred s s1 i))) s1.
Proof.
  intros Hi Hon [HW HR] Hd. pose proof Hi as (Hok & _ & _ & _ & _ & _ & [E|E]);
    unfold fits, transferred; simpl; rewrite E; simpl.
  - destruct (read_on_disk s s1 i disk Hi Hon (HR E) Hd) as [Hon1 HG].
    rewrite (effect_read _ _ _ _ E). split_and!; [done| |done|done].
    rewrite HG, length_slice. destruct (io_bounds s i Hi). lia.
  - rewrite (effect_write _ _ _ _ E). split_and!; [done| |done|by apply write_on_disk; auto].
    by apply (length_gather _ (drv_disk s)).
Qed.

(** An I/O leaves every block alone that is neither the disk nor a segment. *)
Lemma obeys_frame s s1 i b j :
  io_ok s i -> obeys s s1 i -> b <> drv_disk s ->
  Forall (seg_ok (drv_mem s) b) (io_segs i) ->
  peek (drv_mem s1) b j = peek (drv_mem s) b j.
Proof.
  intros (_ & _ & _ & _ & _ & _ & Hdir) [HW HR] Hb Hs. destruct Hdir as [E|E].
  - apply (HR E). eapply Forall_impl; [exact Hs|]. intros v (_ & _ & ?) [? _]. congruence.
  - apply (HW E). by left.
Qed.
End one_disk.

(** ** The disks of one driver *)

Class Shelf (K D : Type) := {
  disk_drv : K -> BlockDriver D;
  shelf_mem : D -> mem;
  shelf_wf : D -> Prop;
  shelf_mem_eq k s : @drv_mem D (disk_drv k) s = shelf_mem s;
  shelf_apart k k' s :
    shelf_wf s -> k <> k' -> @drv_disk D (disk_drv k) s <> @drv_disk D (disk_drv k') s;
  shelf_submit k s i :
    shelf_wf s -> @io_ok D (disk_drv k) s i ->
    exists s1, @submit D (disk_drv k) s i = Some (s1, 0) /\ shelf_wf s1 /\
      same_alloc (shelf_mem s) (shelf_mem s1) /\
      (forall k', @drv_disk D (disk_drv k') s1 = @drv_disk D (disk_drv k') s) /\
      @obeys D (disk_drv k) s s1 i
}.

Section shelf.
Context {K D : Type} `{EqDecision K, Shelf K D}.
Implicit Types (s : D) (x : K * io) (h : list (K * done)).

(** An I/O for one disk, with segments in none of the disks. *)
Definition shelf_ok s x : Prop :=
  @io_ok D (disk_drv x.1) s x.2 /\
  forall k, Forall (seg_ok (shelf_mem s) (@drv_disk D (disk_drv k) s)) (io_segs x.2).

(** Submits the I/Os one after the other and records what they did. *)
Fixpoint run_ios s (l : list (K * io)) : option (D * list (K * done)) :=
  match l with
  | [] => Some (s, [])
  | (k, i) :: l' =>
      '(s1, st) ← @submit D (disk_drv k) s i;
      '(s', h) ← run_ios s1 l';
      Some (s', (k, Completed i st (@transferred D (disk_drv k) s s1 i)) :: h)
  end.

Definition of_disk (k : K) h : list done := (filter (fun e => e.1 = k) h).*2.

Definition holds (disks : K -> Z -> Z) s : Prop := forall k, @on_disk D (disk_drv k) (disks k) s.

(** The arrays after one I/O. *)
Definition after (disks : K -> Z -> Z) (k : K) (e : done) (k' : K) : Z -> Z :=
  if decide (k = k') then effect (disks k') e else disks k'.

Lemma shelf_ok_step s s1 x :
  same_alloc (shelf_mem s) (shelf_mem s1) ->
  (forall k, @drv_disk D (disk_drv k) s1 = @drv_disk D (disk_drv k) s) ->
  shelf_ok s x -> shelf_ok s1 x.
Proof.
  intros Ha Hd [Hio Hs]. split.
  - eapply (@io_ok_layout D (disk_drv x.1)); [|exact Hio]. split; [apply Hd|].
    by rewrite !shelf_mem_eq.
  - intros k. rewrite Hd. by eapply seg_ok_valid.
Qed.

Lemma holds_step disks s k i :
  shelf_wf s -> shelf_ok s (k, i) -> holds disks s ->
  exists s1, @submit D (disk_drv k) s i = Some (s1, 0) /\ shelf_wf s1 /\
    (forall x, shelf_ok s x -> shelf_ok s1 x) /\
    let e := Completed i 0 (@transferred D (disk_drv k) s s1 i) in
    fits (disks k) e /\ holds (after disks k e) s1.
Proof.
  intros Hwf [Hio Hs] Hh. simpl in Hio, Hs.
  destruct (shelf_submit k s i Hwf Hio) as (s1 & E & Hwf1 & Ha & Hd & Ho).
  exists s1. split_and!; [done|done|intros; by eapply shelf_ok_step|].
  destruct (@obeys_fits D (disk_drv k) s s1 i (disks k) Hio (Hh k) Ho (Hd k)) as [Hf Hon].
  split; [done|]. intros k'. unfold after. destruct (decide (k = k')) as [<-|Hk]; [done|].
  intros j Hj. unfold stored. rewrite Hd, shelf_mem_eq, <- (shelf_mem_eq k).
  rewrite (@obeys_frame D (disk_drv k) s s1 i); [|done..|by apply not_eq_sym, shelf_apart
    |by rewrite shelf_mem_eq].
  rewrite shelf_mem_eq, <- (shelf_mem_eq k'). by apply Hh.
Qed.

(** Any sequence of I/Os completes, and its history replays on one array per
    disk, which starts as the driver's disk and ends as it. *)
Lemma runs_replay l s disks :
  shelf_wf s -> Forall (shelf_ok s) l -> holds disks s ->
  exists s' h, run_ios s l = Some (s', h) /\ (prod_map id d_io <$> h) = l /\
    (forall k, replays (disks k) (of_disk k h)) /\
    holds (fun k => contents (disks k) (of_disk k h)) s'.
Proof.
  revert s disks. induction l as [|[k i] l IH]; intros s disks Hwf Hl Hon;
    [by exists s, []|].
  apply Forall_cons in Hl as [Hi Hl].
  destruct (holds_step disks s k i Hwf Hi Hon) as (s1 & E & Hwf1 & Hnext & Hf & Hon1).
  destruct (IH s1 _ Hwf1 (Forall_impl _ _ _ Hl Hnext) Hon1) as (s' & h & Er & Eh & Hre & Hc).
  simpl. rewrite E; simpl. rewrite Er; simpl. eexists _, _. split_and!; [done|by rewrite fmap_cons, Eh|..];
    intros k'; specialize (Hre k'); specialize (Hc k'); unfold after in *;
    unfold of_disk in *; rewrite filter_cons; simpl;
    destruct (decide (k = k')) as [<-|]; simpl; done.
Qed.
End shelf.

(** ** ramhd_mkreq.c: two disks *)

Section mkreq.
Context (kmap_addr page_of : Z -> Z) (kmap_page : forall a, kmap_addr (page_of a) = a).
(** The gendisks of the driver. *)
Context {K : Type} (gdk : K -> Z).
Import RamhdMkreq.

Definition mkreq_shelf_wf (s : st) : Prop :=
  (forall k, mkreq_wf (gdk k) s) /\
  forall k k', k <> k' -> data (pdev_of (gdk k) s) <> data (pdev_of (gdk k') s).

#[local] Instance mkreq_shelf : Shelf K st.
Proof.
  refine {| disk_drv k := mkreq_driver kmap_addr page_of (gdk k);
            shelf_mem := smem; shelf_wf := mkreq_shelf_wf |}.
  - done.
  - intros k k' s [_ Hd]. apply Hd.
  - intros k s i [Hwf Hd] Hi.
    destruct (submit_common kmap_addr page_of kmap_page (gdk k) s i (Hwf k) Hi)
      as (m & E & _ & [_ Ha] & HW & HR).
    exists (set_smem m s). split_and!; [done| |done|done|done|done..].
    split; [|done]. intros k'. destruct (Hwf k') as (x & pdev & ? & ? & Hsz).
    exists x, pdev. split_and!; [done..|]. simpl. by rewrite Ha.
Defined.
End mkreq.

(** ** ramhd_req.c: two disks *)

Section req.
Context {K : Type} (gdk : K -> Z).
Import RamhdReq.

Definition req_shelf_wf (s : RamhdMkreq.st) : Prop :=
  (forall k, req_wf (gdk k) s) /\
  forall k k', k <> k' -> disk_of (gdk k) s <> disk_of (gdk k') s.

#[local] Instance req_shelf : Shelf K RamhdMkreq.st.
Proof.
  refine {| disk_drv k := req_driver (gdk k);
            shelf_mem := RamhdMkreq.smem; shelf_wf := req_shelf_wf |}.
  - done.
  - intros k k' s [_ Hd]. apply Hd.
  - intros k s i [Hwf Hd] Hi.
    destruct (req_submit_serve (gdk k) s i (Hwf k) Hi) as (m & _ & E).
    destruct (req_submit_common (gdk k) s i (Hwf k) Hi) as (s1 & E1 & _ & [_ Ha] & HW & HR).
    rewrite E in E1. simplify_eq.
    exists (RamhdMkreq.set_smem m s). split_and!; [done| |done|done|done|done..].
    split; [|done]. intros k'. destruct (Hwf k') as (d & ? & Hsz).
    exists d. split; [done|]. simpl. by rewrite Ha.
Defined.
End req.

(** ** sample_blk.c: one disk *)

Section sample.
Context (gdk : Z).
Import SampleBlk.

#[local] Instance sample_shelf : Shelf () st.
Proof.
  refine {| disk_drv _ := sb_driver gdk; shelf_mem := smem; shelf_wf := sb_wf gdk |}.
  - done.
  - by intros [] [].
  - intros k s i Hwf Hi.
    destruct (sb_submit_common gdk s i Hwf Hi) as (s1 & E & Hwf1 & [Hd Ha] & HW & HR).
    by exists s1.
Defined.
End sample.

(** ** From the load on *)

(** Whatever I/Os are submitted, they complete and replay on [disks]. *)
Definition serves {K D : Type} `{EqDecision K} (S : Shelf K D) (s : D) (disks : K -> Z -> Z)
    : Prop :=
  forall l, Forall (shelf_ok s) l ->
  exists s' h, run_ios s l = Some (s', h) /\ (prod_map id d_io <$> h) = l /\
    (forall k, replays (disks k) (of_disk k h)) /\
    holds (fun k => contents (disks k) (of_disk k h)) s'.

Lemma shelf_serves {K D : Type} `{EqDecision K} (S : Shelf K D) s disks :
  shelf_wf s -> holds disks s -> serves S s disks.
Proof. intros Hwf Hh l Hl. by apply runs_replay. Qed.

(** The gendisks of the first and of the second disk. *)
Definition pick (g0 g1 : Z) (second : bool) : Z := if second then g1 else g0.

Section loaded.
Context (junk : Z -> Z) (env : kenv) (HG : good_env env) (m : mem).

Lemma mkreq_serves kmap_addr page_of (kmap_page : forall a, kmap_addr (page_of a) = a) :
  exists s tr g0 g1, RamhdMkreq.ramhd_init junk env (RamhdMkreq.st0 m) [] = (Some 0, s, tr) /\
    g0 <> g1 /\ serves (mkreq_shelf kmap_addr page_of kmap_page (pick g0 g1)) s (fun _ _ => 0).
Proof.
  destruct (RamhdMkreq.ramhd_init_ready junk env HG m)
    as (s & tr & g0 & g1 & E & Hg & W0 & W1 & Hd & Hz).
  exists s, tr, g0, g1. split_and!; [done|done|]. apply shelf_serves.
  - split; [by intros []|]. by intros [] [] ?; simpl.
  - intros [] j Hj; symmetry; apply Hz; auto.
Qed.

Lemma req_serves :
  exists s tr g0 g1, RamhdReq.ramhd_init junk env (RamhdMkreq.st0 m) [] = (Some 0, s, tr) /\
    g0 <> g1 /\ serves (req_shelf (pick g0 g1)) s (fun _ _ => 0).
Proof.
  pose proof (RamhdReq.req_init_wp junk env m HG) as W. unfold wp in W.
  destruct (RamhdReq.ramhd_init junk env _ []) as [[r s] tr] eqn:E.
  destruct W as (a & Hr & Hs & Ha & _). simpl in Hr, Hs. subst.
  destruct (RamhdReq.req_loaded_disks junk m a Ha) as (D0 & D1 & Hz).
  destruct Ha as (_ & _ & Hp & _ & _ & _ & Hg).
  eexists _, tr, (RamhdMkreq.a_g0 a), (RamhdMkreq.a_g1 a). split_and!; [done|done|].
  apply shelf_serves.
  - split.
    + intros []; [exists (RamhdMkreq.a_p1 a)|exists (RamhdMkreq.a_p0 a)];
        (split; [done|]); rewrite Hz by auto; done.
    + intros [] [] ?; simpl; try done; unfold RamhdReq.disk_of; rewrite D0, D1; done.
  - intros [] j Hj; unfold stored; simpl; unfold RamhdReq.disk_of; rewrite ?D0, ?D1;
      symmetry; apply (RamhdMkreq.peek_zeroed junk); auto.
Qed.

Lemma sample_serves :
  exists s tr g, SampleBlk.sampleblk_init junk env (SampleBlk.st0 m) [] = (Some 0, s, tr) /\
    serves (sample_shelf g) s (fun _ => junk).
Proof.
  pose proof (SampleBlk.sampleblk_init_wp junk env m HG) as W. unfold wp in W.
  destruct (SampleBlk.sampleblk_init junk env _ []) as [[a s] tr].
  destruct W as (p & v & q & g & maj & Ha & _ & _ & Ep & _ & Ed & Em & (x & Eg & Ex) & _).
  simpl in *. subst. exists s, tr, g. split; [done|].
  assert (SampleBlk.sdev s = SampleBlk.SampleblkDev SampleBlk.SAMPLEBLK_MINOR q g
    SampleBlk.disk_bytes v) as Es by (unfold SampleBlk.sdev; by rewrite Ed, lookup_singleton_eq).
  apply shelf_serves.
  - unfold shelf_wf; simpl. unfold SampleBlk.sb_wf, SampleBlk.disk_ready. rewrite Es; simpl.
    rewrite Ed, Em, Eg, lookup_singleton_eq, lookup_insert_eq, lookup_singleton_eq.
    split_and!; try done. by exists x.
  - intros [] j Hj. unfold stored; simpl. rewrite Es; simpl. unfold peek.
    by rewrite Em, lookup_insert_eq.
Qed.

(** C6.  From load on, each ram disk driver implements disks: its load
    succeeds on a kernel that grants its requests, and any sequence of reads and
    writes of its disks that the block layer may submit completes without error, each
    write replacing bytes of its own disk only and each read returning what
    the writes before it left.  The disks of ramhd_mkreq and ramhd_req start
    blank, the disk of sample_blk with whatever the memory held. *)
Theorem ram_disks_replay kmap_addr page_of (kmap_page : forall a, kmap_addr (page_of a) = a) :
  (exists s tr g0 g1, RamhdMkreq.ramhd_init junk env (RamhdMkreq.st0 m) [] = (Some 0, s, tr) /\
    g0 <> g1 /\ serves (mkreq_shelf kmap_addr page_of kmap_page (pick g0 g1)) s (fun _ _ => 0)) /\
  (exists s tr g0 g1, RamhdReq.ramhd_init junk env (RamhdMkreq.st0 m) [] = (Some 0, s, tr) /\
    g0 <> g1 /\ serves (req_shelf (pick g0 g1)) s (fun _ _ => 0)) /\
  (exists s tr g, SampleBlk.sampleblk_init junk env (SampleBlk.st0 m) [] = (Some 0, s, tr) /\
    serves (sample_shelf g) s (fun _ => junk)).
Proof. split_and!; [apply mkreq_serves|exact req_serves|exact sample_serves]. Qed.
End loaded.

(** ** The operations of the block devices *)

(** struct block_device_operations: [bd_owner] is set to THIS_MODULE; an
    operation returns what it reports, the ioctl also the geometry it gave to
    user space ([ok] is access_ok, [left] what copy_to_user could not copy,
    [first] the start of the partition). *)
Record block_device_operations := BdOps {
  bd_owner : bool; bd_open : Z; bd_release : option Z;
  bd_ioctl : forall (ok : bool) (left first cmd : Z), Z * option hd_geometry
}.

Definition mkreq_fops : block_device_operations :=
  BdOps true RamhdMkreq.ramhd_open (Some RamhdMkreq.ramhd_release) RamhdMkreq.ramhd_ioctl.

Definition req_fops : block_device_operations :=
  BdOps true RamhdReq.ramhd_open (Some RamhdReq.ramhd_release) RamhdReq.ramhd_ioctl.

(** The release of sample_blk returns nothing. *)
Definition sampleblk_fops : block_device_operations :=
  BdOps true SampleBlk.sampleblk_open None (fun _ _ _ _ => (SampleBlk.sampleblk_ioctl, None)).

(** The sectors a geometry describes. *)
Definition geometry_sectors (geo : hd_geometry) : Z := heads geo * sectors geo * cylinders geo.

(** The geometry given to user space fits its fields and describes exactly
    the capacity of the disk; other commands are refused.  sample_blk accepts
    every command and gives nothing. *)
Theorem ram_disks_geometry (ok : bool) (left first cmd : Z) :
  Forall (fun fops => bd_open fops = 0 /\
    bd_ioctl fops ok left first cmd =
      if negb (cmd =? HDIO_GETGEO) then (- ENOTTY, None)
      else if negb ok || negb (left =? 0) then (- EFAULT, None)
      else (0, Some (HdGeometry 4 16 256 first))) [mkreq_fops; req_fops] /\
  geometry_sectors (HdGeometry 4 16 256 first) = RamhdMkreq.RAMHD_SECTOR_TOTAL /\
  RamhdReq.RAMHD_SECTOR_TOTAL * SECTOR = RamhdReq.RAMHD_SIZE /\
  bd_ioctl sampleblk_fops ok left first cmd = (0, None).
Proof.
  assert (forall cmd, RamhdMkreq.ramhd_ioctl ok left first cmd =
    if negb (cmd =? HDIO_GETGEO) then (- ENOTTY, None)
    else if negb ok || negb (left =? 0) then (- EFAULT, None)
    else (0, Some (HdGeometry 4 16 256 first))) as E.
  { intros c. unfold RamhdMkreq.ramhd_ioctl. destruct (c =? _), ok, (left =? 0); done. }
  split_and!; [|done..]. repeat constructor; apply E.
Qed.

(** ** Examples: pages are blocks 10 and 11 *)

Definition ex_pages : mem :=
  {[ 10 := Block 4096 (fun i => i mod 251); 11 := Block 4096 (fun _ => 7) ]}.

Lemma ram_disks_replay_witness :
  (exists s tr g0 g1,
    RamhdMkreq.ramhd_init id nice_env (RamhdMkreq.st0 ex_pages) [] = (Some 0, s, tr) /\
    g0 <> g1 /\ serves (mkreq_shelf id id (fun _ => eq_refl) (pick g0 g1)) s (fun _ _ => 0)) /\
  (exists s tr g0 g1,
    RamhdReq.ramhd_init id nice_env (RamhdMkreq.st0 ex_pages) [] = (Some 0, s, tr) /\
    g0 <> g1 /\ serves (req_shelf (pick g0 g1)) s (fun _ _ => 0)) /\
  (exists s tr g,
    SampleBlk.sampleblk_init id nice_env (SampleBlk.st0 ex_pages) [] = (Some 0, s, tr) /\
    serves (sample_shelf g) s (fun _ => id)).
Proof. exact (ram_disks_replay id nice_env nice_env_good ex_pages id id (fun _ => eq_refl)). Defined.

(** Both disks written at the same sectors, then read back. *)
Definition ex_ios : list (bool * io) :=
  [(false, Io WRITE 5 [((10, 0), 512); ((10, 512), 512)]); (true, Io WRITE 5 [((11, 0), 512)]);
   (false, Io READ 6 [((11, 512), 512)]); (true, Io READ 5 [((11, 1024), 1024)])].

Definition ex_history : option (list (list Z)) :=
  let '(_, s, _) := RamhdMkreq.ramhd_init id nice_env (RamhdMkreq.st0 ex_pages) [] in
  let gds := (map_to_list (RamhdMkreq.gds s)).*1 in
  let S := mkreq_shelf id id (fun _ => eq_refl) (pick (nth 0 gds 0) (nth 1 gds 0)) in
  (fun r : RamhdMkreq.st * list (bool * done) => (fun e => d_data e.2) <$> r.2) <$> run_ios (H := S) s ex_ios.

Example ex_history_reads :
  (fun h => (nth 2 h [], nth 3 h [])) <$> ex_history =
  Some ((fun i => (512 + i) mod 251) <$> seqZ 0 512, replicate 512 7 ++ replicate 512 0).
Proof. vm_compute. reflexivity. Qed.
