(* ===== verification/LabMisc.v ===== *)
(** * char-device-labs/lab-misc.c

    A misc device on 64 KiB of kernel memory: read and write with the C
    integer conversions of the source, load and unload, and the sessions of
    several open files on the same device. *)

From S2P Require Import Prelude CMem Kernel.

Definition PAGE_SIZE : Z := 4096.
Definition ramdisk_size : Z := 16 * PAGE_SIZE.

Record st := St { ramdisk : Z; counter : Z; kmem : mem }.

Definition st0 (m : mem) : st := St 0 0 m.
Definition set_ramdisk (p : Z) (s : st) : st := St p (counter s) (kmem s).
Definition set_kmem (m : mem) (s : st) : st := St (ramdisk s) (counter s) m.

(** [counter] is a static variable of the function, never read back. *)
Definition mycdev_generic_open (s : st) : st * Z :=
  (St (ramdisk s) (s32 (counter s + 1)) (kmem s), 0).

Definition mycdev_generic_release (s : st) : st * Z := (s, 0).

(** [maxbytes = ramdisk_size - *ppos;
    bytes_to_do = maxbytes > lbuf ? lbuf : maxbytes], shared by read and write:
    the difference is a size_t stored in an int, the comparison converts that
    int back to size_t. *)
Definition bytes_to_do (lbuf ppos : Z) : Z :=
  let maxbytes := s32 (u64 (ramdisk_size - ppos)) in
  s32 (if lbuf <? u64 maxbytes then lbuf else u64 maxbytes).

(** The bytes user space received, the new position and the return value.
    [left] is copy_to_user: how many of [n] bytes it could not copy. *)
Definition mycdev_generic_read (s : st) (left : Z -> Z) (lbuf ppos : Z)
    : option (list Z * Z * Z) :=
  let todo := bytes_to_do lbuf ppos in
  let n := u64 todo in
  got ← copy_to_user (kmem s) (ramdisk s, ppos) n (left n);
  let nbytes := s32 (u64 (todo - left n)) in
  Some (got, s64 (ppos + nbytes), nbytes).

Definition mycdev_generic_write (s : st) (left : Z -> Z) (buf : list Z) (lbuf ppos : Z)
    : option (st * Z * Z) :=
  let todo := bytes_to_do lbuf ppos in
  let n := u64 todo in
  m ← copy_from_user (kmem s) (ramdisk s, ppos) buf n (left n);
  let nbytes := s32 (u64 (todo - left n)) in
  Some (set_kmem m s, s64 (ppos + nbytes), nbytes).

Section load.
(** Bytes of freshly kmalloc'ed memory: anything. *)
Context (junk : Z -> Z).

Definition my_generic_init : M st Z :=
  p ← call (kmalloc ramdisk_size);
  modify (set_ramdisk p);;
  if p =? 0 then mret (- ENOMEM)
  else
    modify (fun s => set_kmem (<[p := Block ramdisk_size junk]> (kmem s)) s);;
    r ← call (misc_register "mycdev");
    if negb (r =? 0) then mret (- EBUSY) else mret 0.

Definition my_generic_exit : M st () :=
  call (misc_deregister "mycdev");;
  s ← get;
  call (kfree (ramdisk s));;
  mret ().
End load.

(** ** Read and write *)

(** The device is set up. *)
Definition ready (s : st) : Prop := bsize <$> kmem s !! ramdisk s = Some ramdisk_size.

(** copy_to_user and copy_from_user: at most all of the bytes are left. *)
Definition uaccess (left : Z -> Z) : Prop := forall n, 0 <= n -> 0 <= left n <= n.

Definition avail (lbuf ppos : Z) : Z := Z.min lbuf (ramdisk_size - ppos).

Lemma bytes_to_do_in lbuf ppos :
  0 <= lbuf -> 0 <= ppos <= ramdisk_size -> bytes_to_do lbuf ppos = avail lbuf ppos.
Proof.
  unfold bytes_to_do, avail, ramdisk_size, PAGE_SIZE. intros Hl Hp.
  rewrite (u64_id (16 * 4096 - ppos)), (s32_id (16 * 4096 - ppos)), (u64_id (16 * 4096 - ppos)) by lia.
  destruct (Z.ltb_spec lbuf (16 * 4096 - ppos)); rewrite s32_id by lia; lia.
Qed.

(** Past the end the difference turns into a huge size_t: the whole request
    is let through. *)
Lemma bytes_to_do_past lbuf ppos :
  0 <= lbuf < 2 ^ 31 -> ramdisk_size < ppos <= ramdisk_size + 2 ^ 31 ->
  bytes_to_do lbuf ppos = lbuf.
Proof.
  unfold bytes_to_do, ramdisk_size, PAGE_SIZE. intros Hl Hp.
  change (2 ^ 31) with 2147483648 in *.
  assert (s32 (u64 (16 * 4096 - ppos)) = 16 * 4096 - ppos) as -> by blia.
  assert (u64 (16 * 4096 - ppos) = 18446744073709551616 + (16 * 4096 - ppos)) as -> by mlia.
  rewrite (proj2 (Z.ltb_lt _ _)) by lia. apply s32_id. lia.
Qed.

Lemma ready_valid s o n :
  ready s -> 0 <= o -> 0 <= n -> o + n <= ramdisk_size ->
  valid (kmem s) (ramdisk s, o) n = true.
Proof. unfold ready. intros Hr ? ? ?. rewrite valid_bsize; simpl. rewrite Hr. zify_bool; simpl; lia. Qed.

Lemma read_in s left lbuf ppos :
  ready s -> uaccess left -> 0 <= lbuf -> 0 <= ppos <= ramdisk_size ->
  let n := avail lbuf ppos - left (avail lbuf ppos) in
  0 <= n /\ ppos + n <= ramdisk_size /\
  mycdev_generic_read s left lbuf ppos = Some (bytes (kmem s) (ramdisk s, ppos) n, ppos + n, n).
Proof.
  intros Hr Hu Hl Hp. unfold mycdev_generic_read. rewrite bytes_to_do_in by done.
  assert (0 <= avail lbuf ppos <= ramdisk_size - ppos) as Ha by (unfold avail; lia).
  specialize (Hu (avail lbuf ppos) (proj1 Ha)).
  rewrite (u64_id (avail _ _)) by (unfold ramdisk_size, PAGE_SIZE in *; lia).
  split_and!; [lia..|]. rewrite copy_to_user_ok by (apply ready_valid; [done|lia..]). simpl.
  unfold ramdisk_size, PAGE_SIZE in *.
  rewrite (u64_id (_ - _)), s32_id, s64_id by lia. done.
Qed.

Lemma write_in s left buf lbuf ppos :
  ready s -> uaccess left -> 0 <= lbuf <= Z.of_nat (length buf) -> 0 <= ppos <= ramdisk_size ->
  let n := avail lbuf ppos - left (avail lbuf ppos) in
  exists m, mycdev_generic_write s left buf lbuf ppos = Some (set_kmem m s, ppos + n, n) /\
    0 <= n /\ ppos + n <= ramdisk_size /\
    same_alloc (kmem s) m /\
    bytes m (ramdisk s, ppos) n = take (Z.to_nat n) buf /\
    forall b i, b <> ramdisk s \/ i < ppos \/ ppos + avail lbuf ppos <= i ->
      peek m b i = peek (kmem s) b i.
Proof.
  intros Hr Hu Hl Hp. unfold mycdev_generic_write. rewrite bytes_to_do_in by lia.
  assert (0 <= avail lbuf ppos <= ramdisk_size - ppos) as Ha by (unfold avail; lia).
  assert (avail lbuf ppos <= lbuf) by (unfold avail; lia).
  specialize (Hu (avail lbuf ppos) (proj1 Ha)).
  rewrite (u64_id (avail _ _)) by (unfold ramdisk_size, PAGE_SIZE in *; lia).
  assert (valid (kmem s) (ramdisk s, ppos) (avail lbuf ppos) = true) as Hv
    by (apply ready_valid; [done|lia..]).
  destruct (write_is_Some (kmem s) (ramdisk s, ppos) (avail lbuf ppos)
    (fun i => if i <? avail lbuf ppos - left (avail lbuf ppos) then nth (Z.to_nat i) buf 0 else 0) Hv)
    as [m Hm].
  exists m. unfold copy_from_user. rewrite Hm; simpl.
  split_and!; [|lia|lia|by eapply write_alloc|by eapply bytes_copy_from_user; [done|lia..]|].
  - unfold ramdisk_size, PAGE_SIZE in *. by rewrite (u64_id (_ - _)), s32_id, s64_id by lia.
  - intros b i Hout. by apply (write_frame _ _ _ _ _ _ _ Hm).
Qed.

(** A read at a position inside the device returns the bytes of the
    device from there on, as many as were asked for and are left on the
    device, less what copy_to_user could not copy; the position moves by what
    was read and never leaves the device. *)
Theorem mycdev_read_spec s left lbuf ppos :
  ready s -> uaccess left -> 0 <= lbuf -> 0 <= ppos <= ramdisk_size ->
  exists got n, mycdev_generic_read s left lbuf ppos = Some (got, ppos + n, n) /\
    n = avail lbuf ppos - left (avail lbuf ppos) /\ 0 <= ppos + n <= ramdisk_size /\
    got = bytes (kmem s) (ramdisk s, ppos) n.
Proof.
  intros Hr Hu Hl Hp. destruct (read_in s left lbuf ppos Hr Hu Hl Hp) as (? & ? & E).
  eexists _, _. split; [exact E|]. split_and!; auto; lia.
Qed.

(** C5.  What was written is read back: a write of [buf] at a position inside
    the device followed by a read of the same length at the same position
    delivers the bytes of [buf] that were accepted. *)
Theorem mycdev_write_read s left buf lbuf ppos :
  ready s -> uaccess left -> 0 <= lbuf <= Z.of_nat (length buf) -> 0 <= ppos <= ramdisk_size ->
  exists s' p n, mycdev_generic_write s left buf lbuf ppos = Some (s', p, n) /\
    mycdev_generic_read s' (fun _ => 0) n ppos = Some (take (Z.to_nat n) buf, p, n).
Proof.
  intros Hr Hu Hl Hp. destruct (write_in s left buf lbuf ppos Hr Hu Hl Hp)
    as (m & Hw & Hn & Hend & Hal & Hb & _).
  set (n := avail lbuf ppos - left (avail lbuf ppos)) in *.
  exists (set_kmem m s), (ppos + n), n. split; [done|].
  destruct (read_in (set_kmem m s) (fun _ => 0) n ppos) as (_ & _ & ->);
    [unfold ready; simpl; by rewrite Hal|intros k ?; lia|done|done|].
  assert (avail n ppos = n) as -> by (unfold avail; lia). rewrite Z.sub_0_r.
  simpl. by rewrite Hb.
Qed.

(** Past the end the whole request goes to memory behind the device. *)
Lemma rw_past_end s left buf lbuf ppos :
  ready s -> uaccess left -> ramdisk_size < ppos <= ramdisk_size + 2 ^ 31 ->
  0 < lbuf < 2 ^ 31 -> left lbuf < lbuf ->
  mycdev_generic_read s left lbuf ppos = None /\
  mycdev_generic_write s left buf lbuf ppos = None.
Proof.
  intros Hr Hu Hp Hl Hleft. specialize (Hu lbuf ltac:(lia)).
  unfold mycdev_generic_read, mycdev_generic_write. rewrite bytes_to_do_past by lia.
  rewrite (u64_id lbuf) by (change (2 ^ 31) with 2147483648 in *; lia).
  assert (forall n, 0 < n -> valid (kmem s) (ramdisk s, ppos) n = false) as Hv.
  { intros n ?. rewrite valid_bsize; simpl. unfold ready in Hr. rewrite Hr.
    zify_bool; simpl; try done; lia. }
  unfold copy_to_user, copy_from_user. rewrite Hv by lia. split; [done|].
  by rewrite (proj2 (write_None _ _ _ _)) by (apply Hv; lia).
Qed.

(** C39.  A position past the end is not caught: [maxbytes] is negative, is
    compared as a huge size_t, and the whole request is served from memory
    behind the device; a read discloses it, a write overwrites it. *)
Theorem mycdev_past_end s left buf lbuf ppos :
  ready s -> uaccess left -> ramdisk_size < ppos <= ramdisk_size + 2 ^ 31 ->
  0 < lbuf < 2 ^ 31 -> left lbuf < lbuf ->
  mycdev_generic_read s left lbuf ppos = None /\
  mycdev_generic_write s left buf lbuf ppos = None.
Proof. apply rw_past_end. Qed.

(** Successive reads on one file, none interrupted. *)
Fixpoint reads (s : st) (lbufs : list Z) (ppos : Z) : option (list Z * Z) :=
  match lbufs with
  | [] => Some ([], ppos)
  | lbuf :: l =>
      '(got, p, _) ← mycdev_generic_read s (fun _ => 0) lbuf ppos;
      '(rest, p') ← reads s l p;
      Some (got ++ rest, p')
  end.

Lemma reads_from s lbufs ppos :
  ready s -> Forall (Z.le 0) lbufs -> 0 <= ppos <= ramdisk_size ->
  let n := Z.min (foldr Z.add 0 lbufs) (ramdisk_size - ppos) in
  reads s lbufs ppos = Some (bytes (kmem s) (ramdisk s, ppos) n, ppos + n).
Proof.
  intros Hr Hl. revert ppos. induction Hl as [|lbuf l Hb Hl IH]; intros ppos Hp; simpl.
  { rewrite Z.min_l, Z.add_0_r by lia. done. }
  destruct (read_in s (fun _ => 0) lbuf ppos) as (Hn & He & ->);
    [done|intros k ?; lia|done|done|].
  rewrite Z.sub_0_r in *. simpl. rewrite IH by lia. simpl.
  set (rest := foldr Z.add 0 l). assert (0 <= rest) by (clear -Hl; subst rest; induction Hl; simpl; lia).
  replace (ppos + avail lbuf ppos + _)
    with (ppos + Z.min (lbuf + rest) (ramdisk_size - ppos)) by (unfold avail; lia).
  do 2 f_equal. unfold bytes; simpl. rewrite <- slice_app by (unfold avail in *; lia).
  f_equal. unfold avail. lia.
Qed.

(** Reading the device in pieces of any sizes from position 0 delivers
    its bytes in order, without gaps or repetition, up to the end of the
    device, where every further read delivers nothing. *)
Theorem mycdev_reads_whole s lbufs :
  ready s -> Forall (Z.le 0) lbufs ->
  let n := Z.min (foldr Z.add 0 lbufs) ramdisk_size in
  reads s lbufs 0 = Some (bytes (kmem s) (ramdisk s, 0) n, n).
Proof.
  intros Hr Hl. pose proof (reads_from s lbufs 0 Hr Hl) as E. simpl in E.
  rewrite Z.sub_0_r in E. apply E. unfold ramdisk_size, PAGE_SIZE. lia.
Qed.

(** ** Several open files

    The VFS opens a file at position 0 and keeps one position per open file;
    the device has no llseek of its own. *)

Record world := World { dev : st; pos : gmap Z Z }.

Inductive step : world -> world -> Prop :=
  | step_open w fd :
      pos w !! fd = None ->
      step w (World (mycdev_generic_open (dev w)).1 (<[fd := 0]> (pos w)))
  | step_read w fd p left lbuf got p' n :
      pos w !! fd = Some p -> uaccess left -> 0 <= lbuf ->
      mycdev_generic_read (dev w) left lbuf p = Some (got, p', n) ->
      step w (World (dev w) (<[fd := p']> (pos w)))
  | step_write w fd p left buf lbuf s' p' n :
      pos w !! fd = Some p -> uaccess left -> 0 <= lbuf <= Z.of_nat (length buf) ->
      mycdev_generic_write (dev w) left buf lbuf p = Some (s', p', n) ->
      step w (World s' (<[fd := p']> (pos w)))
  | step_release w fd :
      step w (World (mycdev_generic_release (dev w)).1 (delete fd (pos w))).

Definition world_ok (w : world) : Prop :=
  ready (dev w) /\ map_Forall (fun _ p => 0 <= p <= ramdisk_size) (pos w).

Lemma step_ok w w' : world_ok w -> step w w' -> world_ok w'.
Proof.
  intros [Hr Hp] Hs. inversion Hs; subst; clear Hs; split; simpl in *; try done.
  - apply map_Forall_insert_2; [|done]. unfold ramdisk_size, PAGE_SIZE. lia.
  - apply map_Forall_insert_2; [|done].
    destruct (read_in (dev w) left lbuf p Hr) as (? & ? & E); [done|done|by eapply Hp|].
    rewrite E in *. specialize (Hp _ _ H). simpl in Hp. simplify_eq. lia.
  - destruct (write_in (dev w) left buf lbuf p Hr) as (m & E & _ & _ & Hal & _);
      [done|done|by eapply Hp|].
    rewrite E in *. simplify_eq. unfold ready; simpl. by rewrite Hal.
  - apply map_Forall_insert_2; [|done].
    destruct (write_in (dev w) left buf lbuf p Hr) as (m & E & ? & ? & _);
      [done|done|by eapply Hp|].
    rewrite E in *. specialize (Hp _ _ H). simpl in Hp. simplify_eq. lia.
  - by apply map_Forall_delete.
Qed.

(** However the reads and writes of any number of open files are
    interleaved, no file position leaves the device and no read or write
    accesses memory outside it. *)
Theorem mycdev_sessions_safe s w fd p left buf lbuf :
  ready s -> rtc step (World s ∅) w -> pos w !! fd = Some p ->
  uaccess left -> 0 <= lbuf <= Z.of_nat (length buf) ->
  0 <= p <= ramdisk_size /\ is_Some (mycdev_generic_read (dev w) left lbuf p) /\
  is_Some (mycdev_generic_write (dev w) left buf lbuf p).
Proof.
  intros Hr Hs Hp Hu Hl.
  assert (world_ok w) as [Hr' Hw].
  { refine (rtc_ind_r world_ok (World s ∅) _ _ w Hs); [split; [done|apply map_Forall_empty]|].
    intros w1 w2 _ Hst Hok. by eapply step_ok. }
  specialize (Hw _ _ Hp). simpl in Hw.
  destruct (read_in (dev w) left lbuf p Hr' Hu) as (_ & _ & ->); [lia|done|].
  destruct (write_in (dev w) left buf lbuf p Hr' Hu Hl) as (m & -> & _); [done|].
  eauto.
Qed.

(** ** Load and unload *)

Section load_theorems.
Context (junk : Z -> Z) (env : kenv).

(** A load that succeeds leaves the device ready, and unloading it gives
    the registration and the memory back; a load that fails for lack of memory
    holds nothing. *)
Theorem misc_load_unload m :
  let '(r, s, tr) := my_generic_init junk env (st0 m) [] in
  (r = Some 0 -> ready s /\ (forall i, peek (kmem s) (ramdisk s) i = junk i) /\
    leaves (my_generic_exit env s tr) = Some []) /\
  (r = Some (- ENOMEM) -> audit tr = Some []).
Proof.
  enough (wp (my_generic_init junk) env (st0 m) [] (fun r s tr =>
    (r = Some 0 -> ready s /\ (forall i, peek (kmem s) (ramdisk s) i = junk i) /\
      leaves (my_generic_exit env s tr) = Some []) /\
    (r = Some (- ENOMEM) -> audit tr = Some []))) as W.
  { unfold wp in W. by destruct (my_generic_init junk env (st0 m) []) as [[r s] tr]. }
  unfold my_generic_init. apply wp_bind_call. intros p o _. wpure.
  destruct (Z.eqb_spec p 0) as [->|Hp]; [by wpure|].
  assert (audit [(kmalloc ramdisk_size, (p, o))] = Some [RMem p]) as A
    by (apply (audit_acquire [] _ _ _ []); [done|acq]).
  wpure. apply wp_bind_call. intros r o2 _.
  destruct (Z.eqb_spec r 0) as [->|Hr]; simpl; [|by wpure]. wpure. split; [|done]. intros _.
  unfold ready, peek; simpl. rewrite lookup_insert_eq. split_and!; [done..|].
  apply (audit_acquire _ (misc_register "mycdev") 0 o2 _ (RMisc "mycdev")) in A; [|done].
  enough (wp my_generic_exit env (St p 0 (<[p := Block ramdisk_size junk]> m)) _
    (fun _ _ tr => audit tr = Some [])) as W by exact W.
  unfold my_generic_exit. wpop A. wpure. wpop A. by wpure.
Qed.

(** When the registration fails the load returns -EBUSY and the 64 KiB
    stay allocated. *)
Theorem misc_init_leaks m :
  (forall tr, (env tr (kmalloc ramdisk_size)).1 <> 0) ->
  (forall tr, (env tr (misc_register "mycdev")).1 <> 0) ->
  exists s tr, my_generic_init junk env (st0 m) [] = (Some (- EBUSY), s, tr) /\
    audit tr = Some [RMem (ramdisk s)].
Proof.
  intros H1 H2.
  enough (wp (my_generic_init junk) env (st0 m) [] (fun r s tr =>
    r = Some (- EBUSY) /\ audit tr = Some [RMem (ramdisk s)])) as W.
  { unfold wp in W. destruct (my_generic_init junk env (st0 m) []) as [[r s] tr].
    destruct W as [Hr ?]. simpl in Hr. subst. eauto. }
  unfold my_generic_init. apply wp_bind_call.
  intros p o Hp%(answer_is _ _ _ _ (fun z => z <> 0) _ H1). wpure.
  rewrite if_null by done. wpure. apply wp_bind_call.
  intros r o2 Hr%(answer_is _ _ _ _ (fun z => z <> 0) _ H2). rewrite if_nonnull by done.
  wpure. split; [done|]. apply audit_silent; [|simpl; by rewrite if_null|done..].
  apply audit_acquire; [done|acq].
Qed.
End load_theorems.

(** ** Examples: the device is block 7 *)

Section examples.
Definition ex_st : st := St 7 0 {[ 7 := Block ramdisk_size (fun i => i mod 7) ]}.
Definition ex_buf : list Z := [10; 20; 30; 40].
(** One byte of every copy faults. *)
Definition ex_left : Z -> Z := fun n => Z.min n 1.

Lemma ex_left_ok : uaccess ex_left.
Proof. intros n Hn. unfold ex_left. lia. Defined.

Lemma mycdev_read_spec_witness :
  exists got n, mycdev_generic_read ex_st ex_left 4 (ramdisk_size - 3) = Some (got, ramdisk_size - 3 + n, n) /\
    n = avail 4 (ramdisk_size - 3) - ex_left (avail 4 (ramdisk_size - 3)) /\
    0 <= ramdisk_size - 3 + n <= ramdisk_size /\
    got = bytes (kmem ex_st) (ramdisk ex_st, ramdisk_size - 3) n.
Proof.
  apply (mycdev_read_spec ex_st ex_left 4 (ramdisk_size - 3));
    [reflexivity|exact ex_left_ok|lia|unfold ramdisk_size, PAGE_SIZE; lia].
Defined.

Lemma mycdev_write_read_witness :
  exists s' p n, mycdev_generic_write ex_st ex_left ex_buf 4 100 = Some (s', p, n) /\
    mycdev_generic_read s' (fun _ => 0) n 100 = Some (take (Z.to_nat n) ex_buf, p, n).
Proof.
  apply (mycdev_write_read ex_st ex_left ex_buf 4 100);
    [reflexivity|exact ex_left_ok|simpl; lia|unfold ramdisk_size, PAGE_SIZE; lia].
Defined.

Lemma mycdev_past_end_witness :
  mycdev_generic_read ex_st ex_left 4 (ramdisk_size + 1) = None /\
  mycdev_generic_write ex_st ex_left ex_buf 4 (ramdisk_size + 1) = None.
Proof.
  apply (mycdev_past_end ex_st ex_left ex_buf 4 (ramdisk_size + 1));
    [reflexivity|exact ex_left_ok|lia|lia|reflexivity].
Defined.

Lemma mycdev_reads_whole_witness :
  reads ex_st [3; 0; 5] 0 = Some (bytes (kmem ex_st) (ramdisk ex_st, 0) 8, 8).
Proof.
  apply (mycdev_reads_whole ex_st [3; 0; 5]); [reflexivity|].
  repeat constructor; discriminate.
Defined.

Definition ex_world : world := World (mycdev_generic_open ex_st).1 {[ 0 := 0 ]}.

Lemma mycdev_sessions_safe_witness :
  0 <= 0 <= ramdisk_size /\ is_Some (mycdev_generic_read (dev ex_world) ex_left 4 0) /\
  is_Some (mycdev_generic_write (dev ex_world) ex_left ex_buf 4 0).
Proof.
  apply (mycdev_sessions_safe ex_st ex_world 0 0 ex_left ex_buf 4);
    [reflexivity| |reflexivity|exact ex_left_ok|simpl; lia].
  apply rtc_once. exact (step_open (World ex_st ∅) 0 eq_refl).
Defined.

Lemma misc_load_unload_witness :
  exists s tr, my_generic_init id nice_env (st0 ∅) [] = (Some 0, s, tr) /\
    ready s /\ (forall i, peek (kmem s) (ramdisk s) i = i) /\
    leaves (my_generic_exit nice_env s tr) = Some [].
Proof.
  pose proof (misc_load_unload id nice_env ∅) as H.
  eexists _, _. split; [reflexivity|]. exact (proj1 H eq_refl).
Defined.

Definition env_no_misc : kenv := fun tr c =>
  match c with misc_register _ => (- EBUSY, 0) | _ => nice_env tr c end.

Lemma misc_init_leaks_witness :
  exists s tr, my_generic_init id env_no_misc (st0 ∅) [] = (Some (- EBUSY), s, tr) /\
    audit tr = Some [RMem (ramdisk s)].
Proof.
  apply (misc_init_leaks id env_no_misc ∅); [|discriminate].
  intros tr. apply (proj1 (proj2 nice_env_good)). reflexivity.
Defined.
End examples.
