(* ===== verification/LabChar.v ===== *)
(** * char-device-labs/lab-char.c

    Registration of a character device with its region, cdev, memory, class
    and device node, and its removal.  The file operations of this lab are
    empty. *)

From S2P Require Import Prelude Kernel.

Definition count : Z := 1.
Definition PAGE_SIZE : Z := 4096.
Definition ramdisk_size : Z := 16 * PAGE_SIZE.

Record st := St { first : Z; ramdisk : Z; my_cdev : Z; foo_class : Z }.

Definition st0 : st := St 0 0 0 0.

Definition my_generic_init : M st Z :=
  '(r, dev) ← call2 (alloc_chrdev_region count "mycdev");
  modify (fun s => St dev (ramdisk s) (my_cdev s) (foo_class s));;
  if r <? 0 then mret (-1)
  else
    c ← call cdev_alloc;
    modify (fun s => St (first s) (ramdisk s) c (foo_class s));;
    if c =? 0 then
      call (unregister_chrdev_region dev count);; mret (-1)
    else
      call (cdev_init c);;
      p ← call (kmalloc ramdisk_size);
      modify (fun s => St (first s) p (my_cdev s) (foo_class s));;
      if p =? 0 then mret (- ENOMEM)
      else
        a ← call (cdev_add c dev count);
        if a <? 0 then
          call (cdev_del c);;
          call (unregister_chrdev_region dev count);;
          call (kfree p);;
          mret (-1)
        else
          k ← call (class_create "my_class");
          modify (fun s => St (first s) (ramdisk s) (my_cdev s) k);;
          call (device_create k dev "mycdev");;
          mret 0.

Definition my_generic_exit : M st () :=
  s ← get;
  call (device_destroy (foo_class s) (first s));;
  call (class_destroy (foo_class s));;
  (if negb (my_cdev s =? 0) then call (cdev_del (my_cdev s));; mret () else mret ());;
  call (unregister_chrdev_region (first s) count);;
  call (kfree (ramdisk s));;
  mret ().

Section load.
Context (env : kenv).
(** alloc_chrdev_region returns 0 or an error code. *)
Context (region_status : forall tr, (env tr (alloc_chrdev_region count "mycdev")).1 <= 0).

(** class_create and device_create succeed. *)
Definition class_ok : Prop :=
  (forall tr, IS_ERR (env tr (class_create "my_class")).1 = false) /\
  forall tr k d, IS_ERR (env tr (device_create k d "mycdev")).1 = false.

(** What the module holds after each way my_generic_init returns. *)
Definition init_post (r : option Z) (s : st) (tr : trace) : Prop :=
  (r = Some (-1) /\ audit tr = Some (lost_cdev (my_cdev s))) \/
  (r = Some (- ENOMEM) /\
    audit tr = Some [RCdevMem (my_cdev s); RCdev (my_cdev s); RRegion (first s)]) \/
  (r = Some 0 /\ my_cdev s <> 0 /\ ramdisk s <> 0 /\
    (class_ok -> audit tr = Some [RDevice (foo_class s) (first s); RClass (foo_class s);
       RMem (ramdisk s); RCdevMem (my_cdev s); RCdev (my_cdev s); RRegion (first s)])).

Lemma char_init_wp : wp my_generic_init env st0 [] init_post.
Proof.
  unfold my_generic_init. apply wp_bind_call2. intros r d E.
  assert (r <= 0) as Hr by (specialize (region_status []); rewrite E in region_status; done).
  wpure. destruct (Z.ltb_spec r 0).
  { wpure. left. split; [done|]. apply audit_silent; [done| |done..].
    simpl. by rewrite (proj2 (Z.eqb_neq r 0)) by lia. }
  assert (r = 0) as -> by lia.
  assert (audit [(alloc_chrdev_region count "mycdev", (0, d))] = Some [RRegion d]) as A by done.
  apply wp_bind_call. intros c o _. wpure. destruct (Z.eqb_spec c 0) as [->|Hc].
  { apply (audit_silent _ cdev_alloc 0 o) in A; [|done..]. wpop A. wpure. by left. }
  apply (audit_acquire _ cdev_alloc c o _ (RCdev c)) in A; [|acq].
  wacquire (RCdevMem c) A. clear A. intros ? ? A. apply wp_bind_call. intros p op _. wpure.
  destruct (Z.eqb_spec p 0) as [->|Hp].
  { apply (audit_silent _ (kmalloc ramdisk_size) 0 op) in A; [|done..]. wpure.
    by right; left. }
  apply (audit_acquire _ (kmalloc ramdisk_size) p op _ (RMem p)) in A; [|acq].
  wsilent A. clear A. intros a ? A. destruct (Z.ltb_spec a 0).
  { apply audit_held in A. wfree A. wfree A. wfree A. wpure. left. split; [done|].
    by apply held_lost. }
  apply wp_bind_call. intros k ok Ek. wpure. apply wp_bind_call. intros dv od Ed. wpure.
  right; right. cbn [first ramdisk my_cdev foo_class]. split_and!; [done..|]. intros [Hk Hd].
  apply (answer_is _ _ _ _ (fun z => IS_ERR z = false) _ Hk) in Ek.
  apply (answer_is _ _ _ _ (fun z => IS_ERR z = false) _ (fun tr => Hd tr k d)) in Ed.
  apply audit_acquire; [|unfold acquired; by rewrite Ed].
  apply audit_acquire; [done|unfold acquired; by rewrite Ek].
Qed.

(** my_generic_init has three outcomes: -1 and 0, after which my_generic_exit
    runs, with everything given back but the memory of the cdev, which
    cdev_init made the module's to free; and -ENOMEM, where the region and the
    whole cdev stay allocated: that path misses the unwinding the others
    have. *)
Theorem char_init_outcomes :
  class_ok ->
  let '(r, s, tr) := my_generic_init env st0 [] in
  (r = Some (-1) /\ audit tr = Some (lost_cdev (my_cdev s))) \/
  (r = Some (- ENOMEM) /\
    audit tr = Some [RCdevMem (my_cdev s); RCdev (my_cdev s); RRegion (first s)]) \/
  (r = Some 0 /\ leaves (my_generic_exit env s tr) = Some [RCdevMem (my_cdev s)]).
Proof.
  intros Hok. pose proof char_init_wp as W. unfold wp in W.
  destruct (my_generic_init env st0 []) as [[r s] tr]. simpl in W.
  destruct W as [?|[?|(-> & Hc & Hp & A)]]; auto. right; right. split; [done|].
  specialize (A Hok). apply audit_held in A.
  enough (wp my_generic_exit env s tr (fun _ _ tr => audit tr = Some [RCdevMem (my_cdev s)])) as W by exact W.
  unfold my_generic_exit. wpure. wfree A. wfree A. rewrite if_nonnull by done.
  wpure. wfree A. wpure. wfree A. wfree A. wpure. by apply held_one.
Qed.
End load.

Section examples.
Lemma nice_region tr : (nice_env tr (alloc_chrdev_region count "mycdev")).1 <= 0.
Proof. discriminate. Defined.

Lemma char_init_outcomes_witness :
  let '(r, s, tr) := my_generic_init nice_env st0 [] in
  (r = Some (-1) /\ audit tr = Some (lost_cdev (my_cdev s))) \/
  (r = Some (- ENOMEM) /\
    audit tr = Some [RCdevMem (my_cdev s); RCdev (my_cdev s); RRegion (first s)]) \/
  (r = Some 0 /\ leaves (my_generic_exit nice_env s tr) = Some [RCdevMem (my_cdev s)]).
Proof. apply (char_init_outcomes nice_env nice_region). split; reflexivity. Defined.

(** Each of the outcomes occurs. *)
Definition env_without (f : kcall -> bool) : kenv := fun tr c =>
  if f c then (0, 0) else nice_env tr c.

Example init_ok : returns (my_generic_init nice_env st0 []) = Some 0.
Proof. reflexivity. Qed.

Example init_no_cdev : returns (my_generic_init
  (env_without (fun c => match c with cdev_alloc => true | _ => false end)) st0 []) = Some (-1).
Proof. reflexivity. Qed.

Example init_no_mem : returns (my_generic_init
  (env_without (fun c => match c with kmalloc _ => true | _ => false end)) st0 []) = Some (- ENOMEM).
Proof. reflexivity. Qed.
End examples.
