(* ===== verification/WaitEvent.v ===== *)
(** * wait-event-labs/wait_event.c

    The misc device of lab-misc.c whose readers sleep until a writer has set
    [data_ready].  read and write are cut at the points where other processes
    can run: the wait, the copy, the update of [data_ready] and the wake-up.
    A world is the device with any number of processes, each with its own open
    file; [step] interleaves them. *)

From S2P Require Import Prelude CMem Kernel LabMisc.

Definition PAGE_SIZE : Z := 4096.
Definition ramdisk_size : Z := 16 * PAGE_SIZE.

Record st := St { ramdisk : Z; data_ready : Z; kmem : mem }.

Definition set_ready (v : Z) (s : st) : st := St (ramdisk s) v (kmem s).
Definition set_kmem (m : mem) (s : st) : st := St (ramdisk s) (data_ready s) m.
Definition set_ramdisk (p : Z) (s : st) : st := St p (data_ready s) (kmem s).

Definition mycdev_generic_open : Z := 0.
Definition mycdev_generic_release : Z := 0.

Definition bytes_to_do (lbuf ppos : Z) : Z :=
  let maxbytes := s32 (u64 (ramdisk_size - ppos)) in
  s32 (if lbuf <? u64 maxbytes then lbuf else u64 maxbytes).

(** The part of read after the wait: the bytes delivered, the new position and
    the number of bytes; [left] is copy_to_user. *)
Definition read_copy (s : st) (left : Z -> Z) (lbuf ppos : Z) : option (list Z * Z * Z) :=
  let todo := bytes_to_do lbuf ppos in
  let n := u64 todo in
  got ← copy_to_user (kmem s) (ramdisk s, ppos) n (left n);
  let nbytes := s32 (u64 (todo - left n)) in
  Some (got, s64 (ppos + nbytes), nbytes).

(** The part of write before [data_ready] is set. *)
Definition write_copy (s : st) (left : Z -> Z) (buf : list Z) (lbuf ppos : Z)
    : option (st * Z * Z) :=
  let todo := bytes_to_do lbuf ppos in
  let n := u64 todo in
  m ← copy_from_user (kmem s) (ramdisk s, ppos) buf n (left n);
  let nbytes := s32 (u64 (todo - left n)) in
  Some (set_kmem m s, s64 (ppos + nbytes), nbytes).

(** Where a process is.  [RCheck] and [RAsleep] are inside
    wait_event_interruptible: about to test the condition, and asleep on [wq]
    after a test that failed (the kernel queues the process before the test,
    so test and sleep are one step). *)
Inductive pc :=
  | Idle
  | RCheck (lbuf : Z) | RAsleep (lbuf : Z) | RAwake (lbuf : Z) | RCopied (n : Z)
  | WCopied (n : Z) | WSet (n : Z).

#[export] Instance pc_eq_dec : EqDecision pc.
Proof. solve_decision. Defined.

(** [recv]: all bytes the process has read, newest last; [ret]: what its last
    system call returned. *)
Record proc := Proc { at_ : pc; ppos : Z; sig : bool; recv : list Z; ret : Z }.

Record world := World { dev : st; procs : gmap Z proc }.

Definition goto (l : pc) (p : proc) : proc := Proc l (ppos p) (sig p) (recv p) (ret p).
Definition finish (v : Z) (p : proc) : proc := Proc Idle (ppos p) (sig p) (recv p) v.
Definition set_proc (w : world) (pid : Z) (p : proc) : world :=
  World (dev w) (<[pid := p]> (procs w)).
Definition set_dev (w : world) (s : st) : world := World s (procs w).

(** wake_up_interruptible: every sleeper tests the condition again. *)
Definition wake (p : proc) : proc :=
  match at_ p with RAsleep lbuf => goto (RCheck lbuf) p | _ => p end.

(** A system call that is under way goes on; [copies] says which copy
    functions the kernel may behave as. *)
Inductive inside (copies : (Z -> Z) -> Prop) : world -> world -> Prop :=
  (* mycdev_generic_read *)
  | wait_done w pid p lbuf :
      procs w !! pid = Some p -> at_ p = RCheck lbuf -> data_ready (dev w) <> 0 \/ sig p = true ->
      inside copies w (set_proc w pid (goto (RAwake lbuf) p))
  | wait_sleep w pid p lbuf :
      procs w !! pid = Some p -> at_ p = RCheck lbuf -> data_ready (dev w) = 0 -> sig p = false ->
      inside copies w (set_proc w pid (goto (RAsleep lbuf) p))
  | read_signal w pid p lbuf :
      procs w !! pid = Some p -> at_ p = RAwake lbuf -> sig p = true ->
      inside copies w (set_proc w pid (finish (- ERESTARTSYS) p))
  | read_data w pid p lbuf left got pos n :
      procs w !! pid = Some p -> at_ p = RAwake lbuf -> sig p = false -> copies left ->
      read_copy (dev w) left lbuf (ppos p) = Some (got, pos, n) ->
      inside copies w (set_proc w pid (Proc (RCopied n) pos (sig p) (recv p ++ got) (ret p)))
  | read_clear w pid p n :
      procs w !! pid = Some p -> at_ p = RCopied n ->
      inside copies w (set_dev (set_proc w pid (finish n p)) (set_ready 0 (dev w)))
  (* mycdev_generic_write after its copy *)
  | write_set w pid p n :
      procs w !! pid = Some p -> at_ p = WCopied n ->
      inside copies w (set_dev (set_proc w pid (goto (WSet n) p)) (set_ready 1 (dev w)))
  | write_wake w pid p n :
      procs w !! pid = Some p -> at_ p = WSet n ->
      inside copies w (World (dev w) (wake <$> <[pid := finish n p]> (procs w))).

(** Entering the two calls. *)
Definition enter_read (w : world) (pid : Z) (p : proc) (lbuf : Z) : world :=
  set_proc w pid (goto (RCheck lbuf) p).

Definition enter_write (w : world) (pid : Z) (p : proc) (s : st) (pos n : Z) : world :=
  set_dev (set_proc w pid (Proc (WCopied n) pos (sig p) (recv p) (ret p))) s.

Inductive step : world -> world -> Prop :=
  | read_call w pid p lbuf :
      procs w !! pid = Some p -> at_ p = Idle -> 0 <= lbuf ->
      step w (enter_read w pid p lbuf)
  | write_data w pid p left buf lbuf s pos n :
      procs w !! pid = Some p -> at_ p = Idle -> uaccess left ->
      0 <= lbuf <= Z.of_nat (length buf) ->
      write_copy (dev w) left buf lbuf (ppos p) = Some (s, pos, n) ->
      step w (enter_write w pid p s pos n)
  | goes_on w w' : inside uaccess w w' -> step w w'
  (* signals, which also wake a sleeper, and their delivery on return *)
  | signal_in w pid p :
      procs w !! pid = Some p ->
      step w (set_proc w pid (wake (Proc (at_ p) (ppos p) true (recv p) (ret p))))
  | signal_out w pid p :
      procs w !! pid = Some p -> at_ p = Idle ->
      step w (set_proc w pid (Proc Idle (ppos p) false (recv p) (ret p))).

(** Processes that have just opened the device. *)
Definition new_file : proc := Proc Idle 0 false [] 0.

Definition opened (s : st) (pids : gset Z) : world :=
  World s (set_to_map (fun pid => (pid, new_file)) pids).

Section load.
Context (junk : Z -> Z).

Definition my_generic_init : M st Z :=
  modify (set_ready 0);;
  p ← call (kmalloc ramdisk_size);
  modify (set_ramdisk p);;
  if p =? 0 then mret (- ENOMEM)
  else
    modify (fun s => set_kmem (<[p := Block ramdisk_size junk]> (kmem s)) s);;
    r ← call (misc_register "mycdev");
    if negb (r =? 0) then mret (- EBUSY) else mret 0.

Definition my_generic_exit : M st () :=
  call (misc_deregister "mycdev");;
  s ← get;
  call (kfree (ramdisk s));;
  mret ().
End load.

(** ** The data path is the one of lab-misc.c *)

Definition as_misc (s : st) : LabMisc.st := LabMisc.St (ramdisk s) 0 (kmem s).
Definition ready (s : st) : Prop := LabMisc.ready (as_misc s).

Lemma read_copy_misc s left lbuf pos :
  read_copy s left lbuf pos = mycdev_generic_read (as_misc s) left lbuf pos.
Proof. done. Qed.

Lemma write_copy_misc s left buf lbuf pos :
  write_copy s left buf lbuf pos =
  ('(s', p, n) ← mycdev_generic_write (as_misc s) left buf lbuf pos;
   Some (set_kmem (LabMisc.kmem s') s, p, n)).
Proof.
  unfold write_copy, mycdev_generic_write.
  change (bytes_to_do lbuf pos) with (LabMisc.bytes_to_do lbuf pos). simpl.
  by destruct (copy_from_user _ _ _ _ _).
Qed.

(** ** The invariant of all interleavings *)

Definition asleep (p : proc) : bool := match at_ p with RAsleep _ => true | _ => false end.
Definition waking (p : proc) : bool := match at_ p with WSet _ => true | _ => false end.
Definition lbuf_ok (l : pc) : Prop :=
  match l with RCheck n | RAsleep n | RAwake n => 0 <= n | _ => True end.

(** What holds of each process on its own. *)
Definition proc_ok (p : proc) : Prop :=
  0 <= ppos p <= ramdisk_size /\ lbuf_ok (at_ p) /\ (asleep p -> sig p = false).

Record inv (w : world) : Prop := {
  inv_ready : ready (dev w);
  inv_proc : map_Forall (fun _ => proc_ok) (procs w);
  inv_wake : data_ready (dev w) <> 0 -> forall pid p, procs w !! pid = Some p -> asleep p ->
    exists pid' p', procs w !! pid' = Some p' /\ waking p'
}.

(** A step of one process that is not the wake-up: it may fall asleep only
    while [data_ready] is clear, and a process about to wake the others stays
    so. *)
Lemma inv_local w pid p p' s' :
  inv w -> procs w !! pid = Some p -> ready s' -> proc_ok p' ->
  (data_ready s' <> 0 -> (data_ready (dev w) <> 0 /\ (asleep p' -> asleep p)) \/ waking p') ->
  (waking p -> waking p') ->
  inv (set_dev (set_proc w pid p') s').
Proof.
  intros [Hr Hp Hw] Ep Hr' Hp' Hs Hk. split; simpl; [done|by apply map_Forall_insert_2|].
  intros Hd pid1 p1 E1 Hz.
  destruct (Hs Hd) as [[Hd' Has]|Hwk]; [|exists pid, p'; by rewrite lookup_insert_eq].
  assert (exists pid0 p0, procs w !! pid0 = Some p0 /\ asleep p0) as (pid0 & p0 & E0 & Hz0).
  { destruct (decide (pid1 = pid)) as [->|Hne].
    - rewrite lookup_insert_eq in E1. simplify_eq. eauto.
    - rewrite lookup_insert_ne in E1 by done. eauto. }
  destruct (Hw Hd' pid0 p0 E0 Hz0) as (pid2 & p2 & E2 & Hwk2).
  destruct (decide (pid2 = pid)) as [->|Hne].
  - exists pid, p'. rewrite lookup_insert_eq. split; [done|]. apply Hk. by simplify_eq.
  - exists pid2, p2. by rewrite lookup_insert_ne.
Qed.

Lemma set_proc_dev w pid p : set_proc w pid p = set_dev (set_proc w pid p) (dev w).
Proof. done. Qed.

Lemma wake_ok p : proc_ok p -> proc_ok (wake p) /\ ~ asleep (wake p).
Proof.
  unfold proc_ok, asleep, wake. intros (? & Hl & ?).
  destruct (at_ p) eqn:E; simpl in *; rewrite ?E; simpl; auto.
Qed.

Lemma read_copy_ok s left lbuf pos got pos' n :
  ready s -> uaccess left -> 0 <= lbuf -> 0 <= pos <= ramdisk_size ->
  read_copy s left lbuf pos = Some (got, pos', n) -> 0 <= pos' <= ramdisk_size.
Proof.
  intros Hr Hu Hl Hp E. rewrite read_copy_misc in E.
  destruct (read_in (as_misc s) left lbuf pos Hr Hu Hl Hp) as (? & ? & E').
  rewrite E' in E. simplify_eq. change ramdisk_size with LabMisc.ramdisk_size in *. lia.
Qed.

Lemma write_copy_total s left buf lbuf pos :
  ready s -> uaccess left -> 0 <= lbuf <= Z.of_nat (length buf) -> 0 <= pos <= ramdisk_size ->
  exists s' pos' n, write_copy s left buf lbuf pos = Some (s', pos', n) /\ ready s' /\
    data_ready s' = data_ready s /\ 0 <= pos' <= ramdisk_size.
Proof.
  intros Hr Hu Hl Hp. rewrite write_copy_misc.
  destruct (write_in (as_misc s) left buf lbuf pos Hr Hu Hl Hp) as (m & E & ? & ? & Hal & _).
  rewrite E; simpl. eexists _, _, _. split; [done|].
  split_and!; [|done|change ramdisk_size with LabMisc.ramdisk_size in *; lia..].
  unfold ready, LabMisc.ready in *; simpl in *. by rewrite Hal.
Qed.

Lemma write_copy_ok s left buf lbuf pos s' pos' n :
  ready s -> uaccess left -> 0 <= lbuf <= Z.of_nat (length buf) -> 0 <= pos <= ramdisk_size ->
  write_copy s left buf lbuf pos = Some (s', pos', n) ->
  ready s' /\ data_ready s' = data_ready s /\ 0 <= pos' <= ramdisk_size.
Proof.
  intros Hr Hu Hl Hp E. destruct (write_copy_total s left buf lbuf pos Hr Hu Hl Hp)
    as (? & ? & ? & E' & ?). rewrite E' in E. by simplify_eq.
Qed.

(** The side conditions of [inv_local] for a given program point. *)
Ltac proc_side :=
  unfold proc_ok, asleep, waking, goto, finish in *; simpl in *;
  repeat match goal with E : at_ _ = _ |- _ => rewrite E in *; clear E end; simpl in *;
  intuition (auto || lia).

Lemma inside_inv w w' : inv w -> inside uaccess w w' -> inv w'.
Proof.
  intros HI Hs. pose proof (inv_ready _ HI) as Hr. pose proof (inv_proc _ HI) as Hp.
  destruct Hs as [w pid p lbuf E|w pid p lbuf E|w pid p lbuf E
    |w pid p lbuf left got pos n E Ea Esig Hu Ec|w pid p n E|w pid p n E|w pid p n E];
    pose proof (Hp _ _ E) as Hpp.
  1-3: rewrite set_proc_dev; eapply inv_local; try done; proc_side.
  - assert (0 <= pos <= ramdisk_size)
      by (eapply read_copy_ok; [exact Hr|exact Hu| |apply Hpp|exact Ec];
          destruct Hpp as (_ & Hpl & _); by rewrite Ea in Hpl).
    rewrite set_proc_dev; eapply inv_local; try done; proc_side.
  - eapply inv_local; try done; proc_side.
  - eapply inv_local; try done; proc_side.
  - split; simpl; [done| |].
    + apply map_Forall_fmap. apply map_Forall_insert_2; [|eapply map_Forall_impl; [exact Hp|]].
      * apply wake_ok. proc_side.
      * intros ? ? ?. by apply wake_ok.
    + intros _ pid1 p1 E1 Hz. rewrite lookup_fmap in E1.
      destruct (<[pid:=finish n p]> (procs w) !! pid1) as [q|] eqn:Eq; simplify_eq/=.
      assert (proc_ok q) as Hq
        by (apply lookup_insert_Some in Eq as [[_ <-]|[_ Eq]]; [proc_side|by eapply Hp]).
      by destruct (wake_ok q Hq).
Qed.

Lemma wait_step_inv w w' : inv w -> step w w' -> inv w'.
Proof.
  intros HI Hs. pose proof (inv_ready _ HI) as Hr. pose proof (inv_proc _ HI) as Hp.
  destruct Hs as [w pid p lbuf E|w pid p left buf lbuf s pos n E Ea Hu Hl Ec|w w' Hi|w pid p E|w pid p E];
    [| |by eapply inside_inv|..]; pose proof (Hp _ _ E) as Hpp.
  - unfold enter_read. rewrite set_proc_dev; eapply inv_local; try done; proc_side.
  - destruct (write_copy_ok _ _ _ _ _ _ _ _ Hr Hu Hl (proj1 Hpp) Ec) as (? & Ed & ?).
    unfold enter_write. eapply inv_local; try done; rewrite ?Ed; proc_side.
  - rewrite set_proc_dev. eapply inv_local; try done.
    all: destruct (at_ p) eqn:Ep; unfold wake; simpl; proc_side.
  - rewrite set_proc_dev; eapply inv_local; try done; proc_side.
Qed.

Lemma opened_inv s pids : ready s -> inv (opened s pids).
Proof.
  intros Hr. assert (forall pid p, procs (opened s pids) !! pid = Some p -> p = Proc Idle 0 false [] 0)
    as Hall.
  { intros pid p. simpl. rewrite lookup_set_to_map by done.
    intros (? & _ & [= _ <-]). done. }
  split; [done| |].
  - intros pid p ->%Hall. unfold proc_ok; simpl. split_and!; try done.
  - intros _ pid p ->%Hall. done.
Qed.

Lemma wait_reachable_inv s pids w : ready s -> rtc step (opened s pids) w -> inv w.
Proof.
  intros Hr Hs. refine (rtc_ind_r inv (opened s pids) _ _ w Hs); [by apply opened_inv|].
  intros w1 w2 _ Hst Hi. by eapply wait_step_inv.
Qed.

(** A reader past its wait can always copy, and so can a writer. *)
Lemma read_copy_total w pid p left lbuf :
  inv w -> procs w !! pid = Some p -> uaccess left -> at_ p = RAwake lbuf ->
  is_Some (read_copy (dev w) left lbuf (ppos p)).
Proof.
  intros HI Hp Hu E. destruct (inv_proc _ HI _ _ Hp) as (Hpos & Hl & _). rewrite E in Hl.
  rewrite read_copy_misc.
  destruct (read_in (as_misc (dev w)) left lbuf (ppos p) (inv_ready _ HI) Hu Hl Hpos)
    as (_ & _ & ->). eauto.
Qed.

Lemma write_copies w pid p left buf lbuf :
  inv w -> procs w !! pid = Some p -> uaccess left -> 0 <= lbuf <= Z.of_nat (length buf) ->
  is_Some (write_copy (dev w) left buf lbuf (ppos p)).
Proof.
  intros HI Hp Hu Hb. destruct (inv_proc _ HI _ _ Hp) as (Hpos & _ & _).
  destruct (write_copy_total (dev w) left buf lbuf (ppos p)) as (? & ? & ? & -> & _);
    [apply HI|done..|eauto].
Qed.

(** ** A notification that is lost *)

(** One byte is read, and written, at a position of the device. *)
Lemma read_byte s pos :
  ready s -> 0 <= pos < ramdisk_size ->
  read_copy s (fun _ => 0) 1 pos = Some ([peek (kmem s) (ramdisk s) pos], pos + 1, 1).
Proof.
  intros Hr Hp. rewrite read_copy_misc.
  change ramdisk_size with LabMisc.ramdisk_size in *.
  destruct (read_in (as_misc s) (fun _ => 0) 1 pos) as (_ & _ & ->);
    [done|intros ? ?; lia|lia|lia|].
  assert (avail 1 pos = 1) as -> by (unfold avail; lia). done.
Qed.

Lemma write_byte s pos v :
  ready s -> 0 <= pos < ramdisk_size ->
  exists m, write_copy s (fun _ => 0) [v] 1 pos = Some (set_kmem m s, pos + 1, 1) /\
    ready (set_kmem m s) /\ peek m (ramdisk s) pos = v.
Proof.
  intros Hr Hp. change ramdisk_size with LabMisc.ramdisk_size in *. rewrite write_copy_misc.
  destruct (write_in (as_misc s) (fun _ => 0) [v] 1 pos) as (m & -> & _ & _ & Hal & Hb & _);
    [done|intros ? ?; lia|simpl; lia|lia|].
  assert (avail 1 pos = 1) as E by (unfold avail; lia). rewrite E in *. simpl in *.
  exists m. split_and!; [done| |by injection Hb].
  unfold ready, LabMisc.ready in *; simpl in *. by rewrite Hal.
Qed.

(** Processes 1 (the reader) and 2 (the writer). *)
Definition duo (s : st) (r q : proc) : world := World s (<[1 := r]> {[2 := q]}).

Lemma duo_opened s : opened s {[1; 2]} = duo s (Proc Idle 0 false [] 0) (Proc Idle 0 false [] 0).
Proof. done. Qed.

Lemma duo_reader s r q r' : set_proc (duo s r q) 1 r' = duo s r' q.
Proof. unfold set_proc, duo; simpl. by rewrite insert_insert_eq. Qed.

Lemma duo_writer s r q q' : set_proc (duo s r q) 2 q' = duo s r q'.
Proof.
  unfold set_proc, duo; simpl. by rewrite insert_insert_ne, insert_singleton_eq by done.
Qed.

Lemma duo_lookup1 s r q : procs (duo s r q) !! 1 = Some r.
Proof. apply lookup_insert_eq. Qed.

Lemma duo_lookup2 s r q : procs (duo s r q) !! 2 = Some q.
Proof. simpl. rewrite lookup_insert_ne by done. apply lookup_singleton_eq. Qed.

Lemma duo_wake s r q q' :
  World s (wake <$> <[2 := q']> (procs (duo s r q))) = duo s (wake r) (wake q').
Proof.
  unfold duo; simpl. rewrite insert_insert_ne, insert_singleton_eq by done.
  by rewrite fmap_insert, map_fmap_singleton.
Qed.

(** A whole write of one byte by the writer, while the reader does not sleep. *)
Lemma duo_write s r q v :
  ready s -> at_ q = Idle -> 0 <= ppos q < ramdisk_size -> wake r = r ->
  exists m, rtc step (duo s r q)
      (duo (set_ready 1 (set_kmem m s)) r (Proc Idle (ppos q + 1) (sig q) (recv q) 1)) /\
    ready (set_kmem m s) /\ peek m (ramdisk s) (ppos q) = v.
Proof.
  intros Hr Hq Hp Hw. destruct (write_byte s (ppos q) v Hr Hp) as (m & E & Hr' & Hv).
  exists m. split; [|done].
  eapply rtc_l.
  { eapply (write_data _ 2 q (fun _ => 0) [v] 1);
      [apply duo_lookup2|done|intros ? ?; lia|simpl; lia|exact E]. }
  unfold enter_write. rewrite duo_writer. change (set_dev (duo ?x ?a ?b) ?y) with (duo y a b).
  eapply rtc_l; [apply goes_on; eapply (write_set _ _ 2); [apply duo_lookup2|reflexivity]|].
  unfold enter_write. rewrite duo_writer. change (set_dev (duo ?x ?a ?b) ?y) with (duo y a b).
  eapply rtc_l; [apply goes_on; eapply (write_wake _ _ 2); [apply duo_lookup2|reflexivity]|].
  change (dev (duo ?x ?a ?b)) with x. rewrite (duo_wake _ r), Hw. done.
Qed.

(** The reader starts a read, passes the wait and copies one byte. *)
Lemma duo_read s r q :
  ready s -> at_ r = Idle -> sig r = false -> 0 <= ppos r < ramdisk_size -> data_ready s <> 0 ->
  rtc step (duo s r q) (duo s (Proc (RCopied 1) (ppos r + 1) false
    (recv r ++ [peek (kmem s) (ramdisk s) (ppos r)]) (ret r)) q).
Proof.
  intros Hr Ha Hsig Hp Hd.
  eapply rtc_l; [eapply (read_call _ 1 _ 1); [apply duo_lookup1|done|lia]|]. unfold enter_read. rewrite duo_reader.
  eapply rtc_l; [apply goes_on; eapply (wait_done _ _ 1); [apply duo_lookup1|reflexivity|by left]|].
  rewrite duo_reader.
  eapply rtc_l; [apply goes_on; eapply (read_data _ _ 1 _ 1 (fun _ => 0)); [apply duo_lookup1|done|done
    |intros ? ?; lia|by apply read_byte]|].
  rewrite duo_reader. simpl. by rewrite Hsig.
Qed.

(** The reader clears [data_ready], returns, and goes to sleep in its next read. *)
Lemma duo_sleep s r q :
  at_ r = RCopied 1 -> sig r = false ->
  rtc step (duo s r q) (duo (set_ready 0 s) (Proc (RAsleep 1) (ppos r) false (recv r) 1) q).
Proof.
  intros Ha Hsig.
  eapply rtc_l; [apply goes_on; eapply (read_clear _ _ 1); [apply duo_lookup1|done]|].
  rewrite duo_reader. change (set_dev (duo ?x ?a ?b) ?y) with (duo y a b).
  eapply rtc_l; [eapply (read_call _ 1 _ 1); [apply duo_lookup1|done|lia]|]. unfold enter_read. rewrite duo_reader.
  eapply rtc_l; [apply goes_on; eapply (wait_sleep _ _ 1); [apply duo_lookup1|reflexivity|done|done]|].
  rewrite duo_reader. unfold goto, finish; simpl. by rewrite Hsig.
Qed.


(** ** Load and unload *)

(** A load that succeeds leaves the device ready with [data_ready] clear,
    and unloading it gives back the registration and the memory. *)
Theorem wait_load_unload junk env s0 :
  let '(r, s, tr) := my_generic_init junk env s0 [] in
  r = Some 0 ->
  ready s /\ data_ready s = 0 /\ leaves (my_generic_exit env s tr) = Some [].
Proof.
  enough (wp (my_generic_init junk) env s0 [] (fun r s tr => r = Some 0 ->
    ready s /\ data_ready s = 0 /\ leaves (my_generic_exit env s tr) = Some [])) as W.
  { unfold wp in W. by destruct (my_generic_init junk env s0 []) as [[r s] tr]. }
  unfold my_generic_init. wpure. apply wp_bind_call. intros p o _. wpure.
  destruct (Z.eqb_spec p 0) as [->|Hp]; [by wpure|].
  assert (audit [(kmalloc ramdisk_size, (p, o))] = Some [RMem p]) as A
    by (apply (audit_acquire [] _ _ _ []); [done|acq]).
  wpure. apply wp_bind_call. intros r o2 _.
  destruct (Z.eqb_spec r 0) as [->|Hr]; simpl; [|by wpure]. wpure. intros _.
  unfold ready, LabMisc.ready; simpl. rewrite lookup_insert_eq. split_and!; [done..|].
  apply (audit_acquire _ (misc_register "mycdev") 0 o2 _ (RMisc "mycdev")) in A; [|done].
  match goal with |- leaves (my_generic_exit _ ?s _) = _ =>
    enough (wp my_generic_exit env s _ (fun _ _ tr => audit tr = Some [])) as W by exact W end.
  unfold my_generic_exit. wpop A. wpure. wpop A. by wpure.
Qed.

Section examples.
Definition ex_st : st := St 7 0 {[ 7 := Block ramdisk_size (fun _ => 0) ]}.

Lemma ex_wait_ready : ready ex_st.
Proof. reflexivity. Defined.

(** Process 1 sleeps in a read of 4 bytes. *)
Definition ex_sleeper : proc := Proc (RAsleep 4) 0 false [] 0.
Definition ex_world : world := World ex_st {[ 1 := ex_sleeper ]}.

Lemma ex_reach : rtc step (opened ex_st {[1]}) ex_world.
Proof.
  eapply rtc_l; [apply (read_call (opened ex_st {[1]}) 1 (Proc Idle 0 false [] 0) 4);
    [reflexivity|reflexivity|lia]|].
  eapply rtc_l; [apply goes_on; eapply (wait_sleep _ _ 1 (Proc (RCheck 4) 0 false [] 0) 4); reflexivity|].
  apply rtc_refl.
Defined.


Lemma wait_load_unload_witness :
  exists s tr, my_generic_init id nice_env (St 0 5 ∅) [] = (Some 0, s, tr) /\
    ready s /\ data_ready s = 0 /\ leaves (my_generic_exit nice_env s tr) = Some [].
Proof.
  pose proof (wait_load_unload id nice_env (St 0 5 ∅)) as H.
  eexists _, _. split; [reflexivity|]. exact (H eq_refl).
Defined.
End examples.
