(* ===== verification/WaitFile.v ===== *)
(** * wait-event-labs/wait_event.c behind its device

    [WaitEvent] has the calls of the driver on files that are open; here
    processes open and close the device, and the module is unloaded.  The
    table of operations names the module as its owner, which keeps it loaded
    while a file is open: no reader sleeps in code that is gone.  And since
    signals end every wait, it can always be unloaded in the end. *)

From S2P Require Import Prelude CMem Kernel LabMisc WaitEvent.

(** The members of struct file_operations the driver sets.  read and write
    are entered and then go on in steps of their own ([inside]): the member
    is what happens before another process can run. *)
Record file_operations := FileOps {
  owner : bool;
  fo_open : option Z;
  fo_read : option (world -> Z -> proc -> Z -> world);
  fo_write : option (st -> (Z -> Z) -> list Z -> Z -> Z -> option (st * Z * Z));
  fo_release : option Z
}.

Record miscdevice := Misc { minor : Z; name : string; misc_fops : file_operations }.

Definition MISC_DYNAMIC_MINOR : Z := 255.

Definition mycdev_fops : file_operations := {|
  owner := true;
  fo_open := Some mycdev_generic_open;
  fo_read := Some enter_read;
  fo_write := Some write_copy;
  fo_release := Some mycdev_generic_release
|}.

Definition my_misc_device : miscdevice := {|
  minor := MISC_DYNAMIC_MINOR; name := "mycdev"; misc_fops := mycdev_fops
|}.

(** ** Files that come and go *)

(** The processes in [users] are those with an open file. *)
Record device := Device { users : world; loaded : bool }.

Definition drop (w : world) (pid : Z) : world := World (dev w) (delete pid (procs w)).

(** my_generic_exit gives the memory back. *)
Definition freed (s : st) : st := set_kmem (delete (ramdisk s) (kmem s)) s.

(** A file is opened when open answers 0, and not at all without the module;
    the module is unloaded when nobody has a file open, or when its table does
    not say whose it is. *)
Inductive dev_step (m : miscdevice) : device -> device -> Prop :=
  | dev_open w pid :
      procs w !! pid = None -> default 0 (fo_open (misc_fops m)) = 0 ->
      dev_step m (Device w true) (Device (set_proc w pid new_file) true)
  | dev_read w pid p lbuf op b :
      procs w !! pid = Some p -> at_ p = Idle -> 0 <= lbuf -> fo_read (misc_fops m) = Some op ->
      dev_step m (Device w b) (Device (op w pid p lbuf) b)
  | dev_write w pid p left buf lbuf op s pos n b :
      procs w !! pid = Some p -> at_ p = Idle -> uaccess left ->
      0 <= lbuf <= Z.of_nat (length buf) -> fo_write (misc_fops m) = Some op ->
      op (dev w) left buf lbuf (ppos p) = Some (s, pos, n) ->
      dev_step m (Device w b) (Device (enter_write w pid p s pos n) b)
  | dev_inside w w' b : inside uaccess w w' -> dev_step m (Device w b) (Device w' b)
  | dev_signal w pid p b :
      procs w !! pid = Some p ->
      dev_step m (Device w b)
        (Device (set_proc w pid (wake (Proc (at_ p) (ppos p) true (recv p) (ret p)))) b)
  | dev_handled w pid p b :
      procs w !! pid = Some p -> at_ p = Idle ->
      dev_step m (Device w b) (Device (set_proc w pid (Proc Idle (ppos p) false (recv p) (ret p))) b)
  | dev_close w pid p b :
      procs w !! pid = Some p -> at_ p = Idle -> dev_step m (Device w b) (Device (drop w pid) b)
  | dev_unload w :
      (owner (misc_fops m) = true -> procs w = ∅) ->
      dev_step m (Device w true) (Device (World (freed (dev w)) (procs w)) false).

(** ** The invariant of the driver is kept *)

Lemma inv_open w pid : inv w -> procs w !! pid = None -> inv (set_proc w pid new_file).
Proof.
  intros [Hr Hp Hw] E. split; simpl; [done| |].
  - apply map_Forall_insert_2; [|done]. unfold proc_ok; simpl. split_and!; try done.
  - intros Hd pid1 p1 E1 Hz. apply lookup_insert_Some in E1 as [[_ <-]|[_ E1]]; [done|].
    destruct (Hw Hd _ _ E1 Hz) as (pid2 & p2 & E2 & Hk). exists pid2, p2.
    rewrite lookup_insert_ne by (intros ->; congruence). done.
Qed.

Lemma inv_close w pid p : inv w -> procs w !! pid = Some p -> at_ p = Idle -> inv (drop w pid).
Proof.
  intros [Hr Hp Hw] E Ha. split; simpl; [done|by apply map_Forall_delete|].
  intros Hd pid1 p1 [_ E1]%lookup_delete_Some Hz.
  destruct (Hw Hd _ _ E1 Hz) as (pid2 & p2 & E2 & Hk). exists pid2, p2.
  rewrite lookup_delete_ne; [done|]. intros ->. simplify_eq. unfold waking in Hk. by rewrite Ha in Hk.
Qed.

Definition dev_ok (d : device) : Prop :=
  if loaded d then inv (users d) else procs (users d) = ∅.

(** Code runs on behalf of a process with an open file. *)
Lemma inside_nobody w w' : procs w = ∅ -> ~ inside uaccess w w'.
Proof. intros E Hs. destruct Hs; rewrite E, lookup_empty in *; done. Qed.

Lemma dev_step_ok d d' : dev_ok d -> dev_step my_misc_device d d' -> dev_ok d'.
Proof.
  unfold dev_ok. intros Hd Hs.
  destruct Hs as [w pid E|w pid p lbuf op b E Ha Hl [= <-]
    |w pid p left buf lbuf op s pos n b E Ha Hu Hl [= <-] Ec|w w' b Hi|w pid p b E|w pid p b E Ha
    |w pid p b E Ha|w He]; simpl in *; try (destruct b; [|by rewrite Hd in E]).
  - by apply inv_open.
  - eapply wait_step_inv; [exact Hd|by apply read_call].
  - eapply wait_step_inv; [exact Hd|by eapply write_data].
  - destruct b; [by eapply inside_inv|by destruct (inside_nobody _ _ Hd Hi)].
  - eapply wait_step_inv; [exact Hd|by apply signal_in].
  - eapply wait_step_inv; [exact Hd|by apply signal_out].
  - by eapply inv_close.
  - by apply He.
Qed.

Lemma dev_reachable_ok s d :
  ready s -> rtc (dev_step my_misc_device) (Device (World s ∅) true) d -> dev_ok d.
Proof.
  intros Hr Hd. eapply (rtc_preserves _ dev_ok); [|exact Hd|exact (opened_inv s ∅ Hr)].
  intros a b Hs Ha. by eapply dev_step_ok.
Qed.

(** ** Every process can be brought back *)

#[local] Notation "d ⟶ d'" := (rtc (dev_step my_misc_device) d d') (at level 70).

(** Steps of a process with a signal pending, until its call has returned. *)
Definition back (w w' : world) (pid : Z) : Prop :=
  Device w true ⟶ Device w' true /\ dom (procs w') = dom (procs w) /\
  exists p, procs w' !! pid = Some p /\ at_ p = Idle.

Lemma back_step w w1 w' pid p :
  dev_step my_misc_device (Device w true) (Device w1 true) -> procs w !! pid = Some p ->
  (exists s p1, w1 = set_dev (set_proc w pid p1) s) -> back w1 w' pid -> back w w' pid.
Proof.
  intros Hs E (s & p1 & ->) (Hr & Hd & Hp). split; [by eapply rtc_l|]. split; [|done].
  rewrite Hd. simpl. by apply dom_insert_lookup_L.
Qed.

Lemma back_idle w pid p : procs w !! pid = Some p -> at_ p = Idle -> back w w pid.
Proof. intros. split; [done|]. eauto. Qed.

Lemma back_wset w pid p n : procs w !! pid = Some p -> at_ p = WSet n -> exists w', back w w' pid.
Proof.
  intros E Ha. eexists. split; [apply rtc_once, dev_inside; by eapply write_wake|]. simpl. split.
  - rewrite dom_fmap_L. by apply dom_insert_lookup_L.
  - rewrite lookup_fmap, lookup_insert_eq. simpl. eauto.
Qed.

Lemma back_awake w pid p l :
  procs w !! pid = Some p -> at_ p = RAwake l -> sig p = true -> exists w', back w w' pid.
Proof.
  intros E Ha Hs. eexists. eapply back_step; [apply dev_inside; by eapply read_signal|done| |].
  - eexists (dev w), _. done.
  - eapply back_idle; [apply lookup_insert_eq|done].
Qed.

Lemma back_call w pid p :
  procs w !! pid = Some p -> sig p = true -> asleep p = false -> exists w', back w w' pid.
Proof.
  intros E Hs Hz. destruct (at_ p) as [|l|l|l|n|n|n] eqn:Ha.
  - exists w. by eapply back_idle.
  - destruct (back_awake (set_proc w pid (goto (RAwake l) p)) pid (goto (RAwake l) p) l) as [w' Hw];
      [apply lookup_insert_eq|done|done|].
    exists w'. eapply back_step; [apply dev_inside; eapply wait_done; eauto|done| |done].
    eexists (dev w), _. done.
  - unfold asleep in Hz. by rewrite Ha in Hz.
  - by eapply back_awake.
  - eexists. eapply back_step; [apply dev_inside; by eapply read_clear|done|by eexists _, _|].
    eapply back_idle; [apply lookup_insert_eq|done].
  - destruct (back_wset (set_dev (set_proc w pid (goto (WSet n) p)) (set_ready 1 (dev w)))
      pid (goto (WSet n) p) n) as [w' Hw]; [apply lookup_insert_eq|done|].
    exists w'. eapply back_step; [apply dev_inside; by eapply write_set|done|by eexists _, _|done].
  - by eapply back_wset.
Qed.

(** A signal to the process comes first, since it may sleep or go to sleep. *)
Lemma back_all w pid p : procs w !! pid = Some p -> exists w', back w w' pid.
Proof.
  intros E. set (p1 := wake (Proc (at_ p) (ppos p) true (recv p) (ret p))).
  destruct (back_call (set_proc w pid p1) pid p1) as [w' Hw].
  - apply lookup_insert_eq.
  - unfold p1, wake; simpl. by destruct (at_ p).
  - unfold p1, wake, asleep; simpl. destruct (at_ p) eqn:Ha; simpl; rewrite ?Ha; done.
  - exists w'. eapply back_step; [by apply dev_signal|done| |done]. by exists (dev w), p1.
Qed.

(** One file after the other is closed, whoever sleeps in it. *)
Lemma all_close w : exists w', Device w true ⟶ Device w' true /\ procs w' = ∅.
Proof.
  remember (size (dom (procs w))) as k eqn:Hk. revert w Hk.
  induction k as [k IH] using (well_founded_induction Nat.lt_wf_0). intros w ->.
  destruct (decide (procs w = ∅)) as [He|(pid & p & E)%map_choose]; [by exists w|].
  destruct (back_all w pid p E) as (w1 & Hr1 & Hd1 & p1 & E1 & Ha1).
  destruct (IH (size (dom (procs (drop w1 pid)))) ltac:(simpl; rewrite dom_delete_L, Hd1;
    apply subset_size; apply elem_of_dom_2 in E; set_solver) (drop w1 pid) eq_refl) as (w2 & Hr2 & He2).
  exists w2. split; [|done]. etrans; [exact Hr1|]. eapply rtc_l; [by eapply dev_close|exact Hr2].
Qed.

Lemma can_unload w : exists w', Device w true ⟶ Device w' false.
Proof.
  destruct (all_close w) as (w1 & Hr & He). eexists. etrans; [exact Hr|].
  apply rtc_once, dev_unload. by intros _.
Qed.

(** C11.  The device of wait_event.c over any sequence of opens, reads, writes,
    signals, closes and attempts to unload the module, by any number of
    processes whose calls interleave at every point.  Once the module is gone
    no process has a file open, so none runs or sleeps in its code; until
    then its memory is there and every copy of read and write stays inside it;
    a reader sleeps only without a signal, and while [data_ready] is set only
    with a writer about to wake it; and from every state reached the module can
    still be unloaded, whoever sleeps. *)
Theorem wait_device_sessions s d :
  ready s -> Device (World s ∅) true ⟶ d ->
  (loaded d = false -> procs (users d) = ∅) /\
  (loaded d = true -> ready (dev (users d)) /\
     forall pid p, procs (users d) !! pid = Some p ->
       (forall left lbuf, uaccess left -> at_ p = RAwake lbuf ->
          is_Some (read_copy (dev (users d)) left lbuf (ppos p))) /\
       (forall left buf lbuf, uaccess left -> 0 <= lbuf <= Z.of_nat (length buf) ->
          is_Some (write_copy (dev (users d)) left buf lbuf (ppos p))) /\
       (asleep p -> sig p = false /\ (data_ready (dev (users d)) <> 0 ->
          exists pid' p', procs (users d) !! pid' = Some p' /\ waking p'))) /\
  exists d', d ⟶ d' /\ loaded d' = false.
Proof.
  intros Hr Hd. pose proof (dev_reachable_ok s d Hr Hd) as Hok. unfold dev_ok in Hok.
  destruct d as [w [|]]; simpl in *.
  - split_and!; [done| |destruct (can_unload w) as [w' Hw]; by exists (Device w' false)].
    intros _. split; [apply Hok|]. intros pid p E. split_and!.
    + intros left lbuf Hu Ha. by eapply read_copy_total.
    + intros left buf lbuf Hu Hl. by eapply write_copies.
    + intros Hz. split; [by apply (inv_proc _ Hok _ _ E)|]. intros Hn. by eapply (inv_wake _ Hok).
  - split_and!; [done|done|by exists (Device w false)].
Qed.

Section examples.
(** Process 1 has opened the device and sleeps in a read of 4 bytes. *)
Definition ex_device : device := Device ex_world true.

Lemma ex_device_reached : Device (World ex_st ∅) true ⟶ ex_device.
Proof.
  eapply rtc_l; [by apply (dev_open my_misc_device (World ex_st ∅) 1)|].
  eapply rtc_l; [by apply (dev_read my_misc_device _ 1 new_file 4 enter_read)|].
  eapply rtc_l; [by apply dev_inside, (wait_sleep _ _ 1 (Proc (RCheck 4) 0 false [] 0) 4)|].
  apply rtc_refl.
Defined.

Lemma wait_device_sessions_witness :
  (loaded ex_device = false -> procs (users ex_device) = ∅) /\
  (loaded ex_device = true -> ready (dev (users ex_device)) /\
     forall pid p, procs (users ex_device) !! pid = Some p ->
       (forall left lbuf, uaccess left -> at_ p = RAwake lbuf ->
          is_Some (read_copy (dev (users ex_device)) left lbuf (ppos p))) /\
       (forall left buf lbuf, uaccess left -> 0 <= lbuf <= Z.of_nat (length buf) ->
          is_Some (write_copy (dev (users ex_device)) left buf lbuf (ppos p))) /\
       (asleep p -> sig p = false /\ (data_ready (dev (users ex_device)) <> 0 ->
          exists pid' p', procs (users ex_device) !! pid' = Some p' /\ waking p'))) /\
  exists d', ex_device ⟶ d' /\ loaded d' = false.
Proof. apply (wait_device_sessions ex_st ex_device ex_wait_ready ex_device_reached). Defined.
End examples.
