(* ===== verification/Testers.v ===== *)
(** * The test programs: char-device-labs/lab_write.c, lab_read.c,
    wait-event-labs/write.c, read.c

    User programs run against the devices they test.  The first two are run on
    the driver of lab-misc.c; for the last two what the system call returns is
    a parameter. *)

From S2P Require Import Prelude CMem Kernel LabMisc.

Definition buffer : list Z := bytes_of "TESTING CHAR DRIVER WITH A WRITE".

(** What printf shows of a char array. *)
Fixpoint until_nul (l : list Z) : list Z :=
  match l with [] => [] | c :: l' => if c =? 0 then [] else c :: until_nul l' end.

(** An array after the system call put [got] at its front, and after the store
    of a NUL at index [rc]: [None] when that is outside. *)
Definition received (arr got : list Z) : list Z := got ++ drop (length got) arr.

Definition terminate (arr : list Z) (rc : Z) : option (list Z) :=
  if (0 <=? rc) && (rc <? Z.of_nat (length arr)) then Some (<[Z.to_nat rc := 0]> arr) else None.

(** What the C library makes of the value a driver returns. *)
Definition libc (v : Z) : Z := if v <? 0 then -1 else s32 v.

(** ** lab_write.c and lab_read.c on lab-misc.c

    [fd] is what open returns, [left] the copy functions of the kernel. *)

(** The device afterwards, the number of bytes reported and the exit code. *)
Definition lab_write (s : st) (left : Z -> Z) (fd : Z) : option (st * Z * Z) :=
  if fd <? 0 then Some (s, 0, -1)
  else
    let s1 := (mycdev_generic_open s).1 in
    '(s2, _, v) ← mycdev_generic_write s1 left buffer (Z.of_nat (length buffer)) 0;
    Some ((mycdev_generic_release s2).1, libc v, 0).

(** [bufread] is the array on the stack before the call.  The device
    afterwards, the string printed and the exit code. *)
Definition lab_read (s : st) (left : Z -> Z) (fd : Z) (bufread : list Z) : option (st * list Z * Z) :=
  if fd <? 0 then Some (s, [], -1)
  else
    let s1 := (mycdev_generic_open s).1 in
    '(got, _, v) ← mycdev_generic_read s1 left (Z.of_nat (length buffer)) 0;
    arr ← terminate (received bufread got) (libc v);
    Some ((mycdev_generic_release s1).1, until_nul arr, 0).

(** ** read.c and write.c

    The driver of wait_event.c can put the caller to sleep; here [v] is what
    the call comes back with and [got] the bytes it delivered. *)

(** [nbytes] is the second argument or 32; [heap] is the malloc'ed array of
    [nbytes + 1] bytes. *)
Definition wait_read (nbytes : Z) (heap got : list Z) (v : Z) : option (list Z) :=
  arr ← terminate (received heap got) (libc v);
  Some (until_nul arr).

(** The number of bytes reported. *)
Definition wait_write (v : Z) : Z := libc v.

(** ** Properties *)

Lemma until_nul_app l k : Forall (fun c => c <> 0) l -> until_nul (l ++ 0 :: k) = l.
Proof. intros Hl. induction Hl as [|c l Hc _ IH]; simpl; [done|]. by rewrite (proj2 (Z.eqb_neq c 0)), IH. Qed.

Lemma until_nul_end l k : until_nul (l ++ 0 :: k) = until_nul l.
Proof. induction l as [|c l IH]; simpl; [done|]. destruct (c =? 0); [done|by rewrite IH]. Qed.

Lemma terminate_received arr got rc :
  rc = Z.of_nat (length got) -> (length got < length arr)%nat ->
  terminate (received arr got) rc = Some (got ++ 0 :: drop (S (length got)) arr).
Proof.
  intros -> Hlt. unfold terminate, received. rewrite length_app, length_drop.
  rewrite (proj2 (Z.leb_le _ _)), (proj2 (Z.ltb_lt _ _)) by lia. simpl. f_equal.
  rewrite Nat2Z.id, <- (Nat.add_0_r (length got)) at 1. rewrite insert_app_r. f_equal.
  destruct (drop (length got) arr) as [|c l] eqn:E.
  - apply (f_equal length) in E. rewrite length_drop in E. simpl in E. lia.
  - simpl. f_equal. by rewrite <- Nat.add_1_r, <- drop_drop, E.
Qed.

(** The test of the character device passes: whatever the device and the
    stack held before, lab_write reports all 32 bytes as written, and lab_read
    run after it prints exactly the text, its NUL inside its array. *)
Theorem lab_test_passes s fd fd' bufread :
  ready s -> 0 <= fd -> 0 <= fd' -> length bufread = 100%nat ->
  exists s1 s2, lab_write s (fun _ => 0) fd = Some (s1, 32, 0) /\
    lab_read s1 (fun _ => 0) fd' bufread = Some (s2, buffer, 0) /\ kmem s2 = kmem s1.
Proof.
  intros Hr Hfd Hfd' Hlen. unfold lab_write, lab_read.
  rewrite (proj2 (Z.ltb_ge fd 0)), (proj2 (Z.ltb_ge fd' 0)) by done.
  assert (uaccess (fun _ => 0)) as Hu by (intros n ?; lia).
  destruct (write_in (mycdev_generic_open s).1 (fun _ => 0) buffer (Z.of_nat (length buffer)) 0)
    as (m & -> & _ & _ & Hal & Hb & _); [exact Hr|done|lia|by vm_compute|].
  change (avail (Z.of_nat (length buffer)) 0 - 0) with 32 in *. cbn [mbind option_bind].
  eexists _, _. split; [reflexivity|]. cbn [mycdev_generic_release fst].
  destruct (read_in (mycdev_generic_open (set_kmem m (mycdev_generic_open s).1)).1 (fun _ => 0)
    (Z.of_nat (length buffer)) 0) as (_ & _ & ->).
  { unfold ready in *. simpl. by rewrite Hal. }
  { done. }
  { lia. }
  { by vm_compute. }
  change (avail (Z.of_nat (length buffer)) 0 - 0) with 32. cbn [mbind option_bind].
  cbn [mycdev_generic_open fst kmem ramdisk set_kmem] in *. rewrite Hb.
  change (take (Z.to_nat 32) buffer) with buffer. change (libc 32) with 32.
  rewrite terminate_received; [|done|rewrite Hlen; simpl; lia]. cbn [mbind option_bind].
  rewrite until_nul_app by (by repeat constructor). done.
Qed.

(** read.c prints the bytes it was given when the call delivers no more
    than asked for, and stores before the start of its array when the call
    fails: a refused open, which it does not check, or a signal during the
    wait. *)
Theorem wait_read_spec nbytes heap got v :
  0 <= nbytes < 2 ^ 31 -> Z.of_nat (length heap) = nbytes + 1 ->
  (v = Z.of_nat (length got) -> v <= nbytes -> Forall (fun c => c <> 0) got ->
    wait_read nbytes heap got v = Some got) /\
  (v < 0 -> wait_read nbytes heap got v = None).
Proof.
  intros Hn Hh. unfold wait_read, libc. split.
  - intros Hv Hle Hg. rewrite (proj2 (Z.ltb_ge v 0)), s32_id by lia.
    rewrite terminate_received by lia. simpl. by rewrite until_nul_app.
  - intros Hv. rewrite (proj2 (Z.ltb_lt v 0)) by done. done.
Qed.

Section examples.
Definition ex_dev : st := St 4096 0 {[ 4096 := Block ramdisk_size (fun i => i) ]}.

Lemma lab_test_passes_witness : exists s1 s2,
  lab_write ex_dev (fun _ => 0) 3 = Some (s1, 32, 0) /\
  lab_read s1 (fun _ => 0) 3 (replicate 100 7) = Some (s2, buffer, 0) /\ kmem s2 = kmem s1.
Proof. apply (lab_test_passes ex_dev 3 3 (replicate 100 7)); [reflexivity|lia|lia|reflexivity]. Defined.

Lemma wait_read_spec_witness :
  wait_read 4 [9; 9; 9; 9; 9] [65; 66] 2 = Some [65; 66] /\
  wait_read 4 [9; 9; 9; 9; 9] [] (- ERESTARTSYS) = None.
Proof.
  split.
  - apply (wait_read_spec 4 [9; 9; 9; 9; 9] [65; 66] 2); [lia|reflexivity|reflexivity|lia|by repeat constructor].
  - apply (wait_read_spec 4 [9; 9; 9; 9; 9] [] (- ERESTARTSYS)); [lia|reflexivity|reflexivity].
Defined.
End examples.
