(* ===== verification/WaitTest.v ===== *)
(** * wait-event-labs as a whole: read.c and write.c on wait_event.c

    The two test programs run as processes 1 and 2 against the driver, in every
    interleaving of their system calls with each other, whether their opens
    succeed or not, and with or without signals, which they do not handle. *)

From S2P Require Import Prelude CMem Kernel LabMisc Testers WaitEvent.

(** The buffers of the two programs are their own memory, which the kernel can
    read and write. *)
Definition all_copied (left : Z -> Z) : Prop := forall n, left n = 0.

(** Where main of read.c and of write.c is: before open, with a file, with the
    -1 of a refused open, in the read or write, after exit with what was
    printed ([None]: it stored outside of its array), or killed by a signal. *)
Inductive rpc := RStart | ROpened | RNoFile | RInRead | RExit (out : option (list Z)) | RKilled.
Inductive wpc := WStart | WOpened | WNoFile | WInWrite | WExit (rc : Z) | WKilled.

Record run := Run { kernel : world; reader : rpc; writer : wpc }.

(** A process is gone and its file closed. *)
Definition gone (w : world) (pid : Z) : world := World (dev w) (delete pid (procs w)).

(** A signal is pending when a process is back from the kernel, or arrives
    before it opened the device. *)
Definition dies (w : world) (pid : Z) : Prop :=
  match procs w !! pid with None => True | Some p => at_ p = Idle /\ sig p = true end.

Definition rdone (rd : rpc) : bool := match rd with RExit _ | RKilled => true | _ => false end.
Definition wdone (wr : wpc) : bool := match wr with WExit _ | WKilled => true | _ => false end.

Section programs.
(** The second argument of read.c and what its malloc'ed array holds; whether
    the two opens succeed, and whether signals may be sent. *)
Context (nbytes : Z) (heap : list Z) (r_opens w_opens signals : bool).

(** A pending signal kills a program before it can run on, and a second signal
    changes nothing. *)
Inductive run_step : run -> run -> Prop :=
  (* read.c *)
  | r_open w wr : r_opens = true -> run_step (Run w RStart wr) (Run (set_proc w 1 new_file) ROpened wr)
  | r_refused w wr : r_opens = false -> run_step (Run w RStart wr) (Run w RNoFile wr)
  | r_read w p wr :
      procs w !! 1 = Some p -> at_ p = Idle -> sig p = false ->
      run_step (Run w ROpened wr) (Run (enter_read w 1 p (u64 nbytes)) RInRead wr)
  | r_return w p wr :
      procs w !! 1 = Some p -> at_ p = Idle -> sig p = false ->
      run_step (Run w RInRead wr) (Run (gone w 1) (RExit (wait_read nbytes heap (recv p) (ret p))) wr)
  | r_badf w wr : run_step (Run w RNoFile wr) (Run w (RExit (wait_read nbytes heap [] (- EBADF))) wr)
  | r_killed w rd wr :
      signals = true -> rdone rd = false -> dies w 1 -> run_step (Run w rd wr) (Run (gone w 1) RKilled wr)
  (* write.c *)
  | w_open w rd : w_opens = true -> run_step (Run w rd WStart) (Run (set_proc w 2 new_file) rd WOpened)
  | w_refused w rd : w_opens = false -> run_step (Run w rd WStart) (Run w rd WNoFile)
  | w_write w p rd left s pos n :
      procs w !! 2 = Some p -> at_ p = Idle -> sig p = false -> all_copied left ->
      write_copy (dev w) left buffer (Z.of_nat (length buffer)) (ppos p) = Some (s, pos, n) ->
      run_step (Run w rd WOpened) (Run (enter_write w 2 p s pos n) rd WInWrite)
  | w_return w p rd :
      procs w !! 2 = Some p -> at_ p = Idle -> sig p = false ->
      run_step (Run w rd WInWrite) (Run (gone w 2) rd (WExit (wait_write (ret p))))
  | w_badf w rd : run_step (Run w rd WNoFile) (Run w rd (WExit (wait_write (- EBADF))))
  | w_killed w rd wr :
      signals = true -> wdone wr = false -> dies w 2 -> run_step (Run w rd wr) (Run (gone w 2) rd WKilled)
  (* the driver, on behalf of either, and signals *)
  | in_kernel w w' rd wr :
      inside all_copied w w' -> run_step (Run w rd wr) (Run w' rd wr)
  | signalled w pid p rd wr :
      signals = true -> procs w !! pid = Some p -> sig p = false ->
      run_step (Run w rd wr)
        (Run (set_proc w pid (wake (Proc (at_ p) (ppos p) true (recv p) (ret p)))) rd wr).

(** The contents of the device. *)
Record on_disk (s : st) (l : list Z) : Prop := OnDisk {
  disk_bytes : bytes (kmem s) (ramdisk s, 0) LabMisc.ramdisk_size = l
}.

(** Both programs are about to start on a device that was just loaded. *)
Definition begun (s : st) : run := Run (World s ∅) RStart WStart.

(** ** Stages

    Every state of a run is one of a few stages of the reader and of the
    writer, each with its pending signal, and the device holds what it held
    or the text in front of it. *)

Inductive rstage :=
  | RsNew | RsNoFile | RsOpen | RsCheck | RsSleep | RsAwake | RsCopied | RsBack | RsIntr
  | RsExit | RsFailed | RsKilled (cleared : bool).
Inductive wstage :=
  | WsNew | WsNoFile | WsOpen | WsCopied | WsSet | WsBack | WsExit | WsFailed | WsKilled (wrote : bool).

(** What the device holds at first. *)
Context (disk : list Z).

(** The number of bytes a read can deliver, and the bytes once the writer has
    copied the text. *)
Definition count : Z := Z.min nbytes LabMisc.ramdisk_size.
Definition text : list Z := take (Z.to_nat count) (buffer ++ drop 32 disk).

Definition rproc (rs : rstage) (g : bool) : option proc :=
  match rs with
  | RsOpen => Some (Proc Idle 0 g [] 0)
  | RsCheck => Some (Proc (RCheck nbytes) 0 g [] 0)
  | RsSleep => Some (Proc (RAsleep nbytes) 0 g [] 0)
  | RsAwake => Some (Proc (RAwake nbytes) 0 g [] 0)
  | RsCopied => Some (Proc (RCopied count) count g text 0)
  | RsBack => Some (Proc Idle count g text count)
  | RsIntr => Some (Proc Idle 0 g [] (- ERESTARTSYS))
  | _ => None
  end.

Definition wproc (ws : wstage) (g : bool) : option proc :=
  match ws with
  | WsOpen => Some (Proc Idle 0 g [] 0)
  | WsCopied => Some (Proc (WCopied 32) 32 g [] 0)
  | WsSet => Some (Proc (WSet 32) 32 g [] 0)
  | WsBack => Some (Proc Idle 32 g [] 32)
  | _ => None
  end.

Definition rpc_of (rs : rstage) : rpc :=
  match rs with
  | RsNew => RStart
  | RsNoFile => RNoFile
  | RsOpen => ROpened
  | RsExit => RExit (Some (until_nul text))
  | RsFailed => RExit None
  | RsKilled _ => RKilled
  | _ => RInRead
  end.

Definition wpc_of (ws : wstage) : wpc :=
  match ws with
  | WsNew => WStart
  | WsNoFile => WNoFile
  | WsOpen => WOpened
  | WsExit => WExit 32
  | WsFailed => WExit (-1)
  | WsKilled _ => WKilled
  | _ => WInWrite
  end.

Definition was_set (ws : wstage) : bool :=
  match ws with WsSet | WsBack | WsExit => true | WsKilled b => b | _ => false end.
Definition was_cleared (rs : rstage) : bool :=
  match rs with RsBack | RsExit => true | RsKilled b => b | _ => false end.
Definition has_text (ws : wstage) : bool :=
  match ws with WsCopied => true | _ => was_set ws end.

(** What the plan of failures and signals allows. *)
Definition planned_r (rs : rstage) (g : bool) : Prop :=
  match rs with
  | RsNew => g = false
  | RsNoFile | RsFailed => r_opens = false /\ g = false
  | RsKilled _ => signals = true
  | RsIntr => r_opens = true /\ g = true
  | RsSleep | RsExit => r_opens = true /\ g = false
  | _ => r_opens = true
  end /\ (g = true -> signals = true).
Definition planned_w (ws : wstage) (g : bool) : Prop :=
  match ws with
  | WsNew => g = false
  | WsNoFile | WsFailed => w_opens = false /\ g = false
  | WsKilled b => signals = true /\ (b = true -> w_opens = true)
  | _ => w_opens = true
  end /\ (g = true -> signals = true).

(** The reader passes its wait only after data_ready was set or a signal came,
    and does not sleep any more once the writer has woken it. *)
Definition legal (rs : rstage) (g : bool) (ws : wstage) : bool :=
  match rs with
  | RsAwake => g || was_set ws
  | RsCopied | RsBack | RsExit => was_set ws
  | RsSleep => match ws with WsBack | WsExit | WsKilled true => false | _ => true end
  | RsKilled b => implb b (was_set ws)
  | _ => true
  end.

Record at_stage (r : run) (rs : rstage) (gr : bool) (ws : wstage) (gw : bool) : Prop := AtStage {
  s_ready : ready (dev (kernel r));
  s_flag : data_ready (dev (kernel r)) = if was_set ws && negb (was_cleared rs) then 1 else 0;
  s_reader : reader r = rpc_of rs;
  s_writer : writer r = wpc_of ws;
  s_p1 : procs (kernel r) !! 1 = rproc rs gr;
  s_p2 : procs (kernel r) !! 2 = wproc ws gw;
  s_other pid : pid <> 1 -> pid <> 2 -> procs (kernel r) !! pid = None;
  s_disk : on_disk (dev (kernel r)) (if has_text ws then buffer ++ drop 32 disk else disk);
  s_legal : legal rs gr ws = true;
  s_planr : planned_r rs gr;
  s_planw : planned_w ws gw
}.

(** Steps left; a signal that can still come counts for two. *)
Definition left_r (rs : rstage) : nat :=
  match rs with
  | RsNew => 10 | RsNoFile => 1 | RsOpen => 6 | RsCheck => 5 | RsSleep => 4 | RsAwake => 3
  | RsCopied => 2 | RsBack | RsIntr => 1 | RsExit | RsFailed | RsKilled _ => 0
  end.
Definition left_w (ws : wstage) : nat :=
  match ws with
  | WsNew => 8 | WsNoFile => 1 | WsOpen => 4 | WsCopied => 3 | WsSet => 2 | WsBack => 1 | _ => 0
  end.
Definition left_s (g : bool) : nat := if g then 0 else 2.
Definition rank (rs : rstage) (gr : bool) (ws : wstage) (gw : bool) : nat :=
  left_r rs + left_s gr + 2 * left_w ws + left_s gw.

Context (Hn : 0 <= nbytes < 2 ^ 31 - 1) (Hheap : Z.of_nat (length heap) = nbytes + 1)
  (Hdisk : Z.of_nat (length disk) = LabMisc.ramdisk_size).

Lemma count_range : 0 <= count <= LabMisc.ramdisk_size /\ count <= nbytes.
Proof. unfold count, LabMisc.ramdisk_size, LabMisc.PAGE_SIZE. lia. Qed.

Lemma length_text : Z.of_nat (length text) = count.
Proof.
  pose proof count_range. unfold text. rewrite length_take, length_app, length_drop.
  change (length buffer) with 32%nat. unfold LabMisc.ramdisk_size, LabMisc.PAGE_SIZE in *. lia.
Qed.

Lemma slice_take {A} (f : Z -> A) k n m :
  0 <= n <= m -> slice f k n = take (Z.to_nat n) (slice f k m).
Proof.
  intros H. replace m with (n + (m - n)) by lia. rewrite slice_app by lia.
  by rewrite take_app_length' by (by rewrite length_slice).
Qed.

(** The copy of the reader delivers what the device holds. *)
Lemma text_copied s left got pos n :
  ready s -> all_copied left ->
  on_disk s (buffer ++ drop 32 disk) ->
  read_copy s left nbytes 0 = Some (got, pos, n) -> got = text /\ pos = count /\ n = count.
Proof.
  intros Hr Hc [Ht] E. rewrite read_copy_misc in E.
  destruct (read_in (as_misc s) left nbytes 0 Hr) as (_ & _ & E').
  { intros k ?. rewrite Hc. lia. }
  { lia. }
  { done. }
  assert (avail nbytes 0 = count) as Ea by (unfold avail, count; f_equal; lia).
  rewrite E', Ea, Hc in E. simpl in E. simplify_eq. split_and!; [|lia..].
  unfold text. rewrite <- Ht. unfold bytes. simpl. rewrite Z.sub_0_r. apply slice_take, count_range.
Qed.

Lemma buffer_written s left s' pos n :
  ready s -> all_copied left -> on_disk s disk ->
  write_copy s left buffer (Z.of_nat (length buffer)) 0 = Some (s', pos, n) ->
  ready s' /\ data_ready s' = data_ready s /\ pos = 32 /\ n = 32 /\
  on_disk s' (buffer ++ drop 32 disk).
Proof.
  intros Hr Hc [Hb0] E. rewrite write_copy_misc in E.
  destruct (write_in (as_misc s) left buffer (Z.of_nat (length buffer)) 0 Hr)
    as (m & E' & _ & _ & Hal & Hb & Hfr).
  { intros k ?. rewrite Hc. lia. }
  { lia. }
  { done. }
  rewrite E' in E. change (avail (Z.of_nat (length buffer)) 0) with 32 in *.
  rewrite Hc in *. cbn [mbind option_bind] in E. injection E as <- <- <-. split_and!; [|done..|].
  - unfold ready, LabMisc.ready in *. simpl. by rewrite Hal.
  - split. change LabMisc.ramdisk_size with (32 + (LabMisc.ramdisk_size - 32)).
    unfold bytes. cbn [fst snd ramdisk kmem set_kmem].
    rewrite slice_app by done. f_equal; [exact Hb|].
    transitivity (slice (peek (kmem s) (ramdisk s)) (0 + 32) (LabMisc.ramdisk_size - 32)).
    + apply slice_ext. intros i Hi. apply Hfr. simpl. lia.
    + rewrite <- Hb0. unfold bytes. cbn [fst snd].
      change LabMisc.ramdisk_size with (32 + (LabMisc.ramdisk_size - 32)) at 2.
      rewrite slice_app by done. by rewrite drop_app_length' by (by rewrite length_slice).
Qed.

Lemma on_disk_same s s' l : kmem s' = kmem s -> ramdisk s' = ramdisk s -> on_disk s l -> on_disk s' l.
Proof. intros Hm Ha [H]. split. by rewrite Hm, Ha. Qed.

Lemma proc_cases r rs gr ws gw pid p :
  at_stage r rs gr ws gw -> procs (kernel r) !! pid = Some p ->
  (pid = 1 /\ rproc rs gr = Some p) \/ (pid = 2 /\ wproc ws gw = Some p).
Proof.
  intros HS E. destruct (decide (pid = 1)) as [->|]; [left; by rewrite <- (s_p1 _ _ _ _ _ HS)|].
  destruct (decide (pid = 2)) as [->|]; [right; by rewrite <- (s_p2 _ _ _ _ _ HS)|].
  by rewrite (s_other _ _ _ _ _ HS) in E.
Qed.

(** A step of the reader, and one of the writer, to another stage. *)
Lemma move_r r rs gr ws gw rs' gr' w' rd :
  at_stage r rs gr ws gw -> rd = rpc_of rs' ->
  procs w' !! 1 = rproc rs' gr' -> (forall pid, pid <> 1 -> procs w' !! pid = procs (kernel r) !! pid) ->
  ready (dev w') -> kmem (dev w') = kmem (dev (kernel r)) -> ramdisk (dev w') = ramdisk (dev (kernel r)) ->
  data_ready (dev w') = (if was_set ws && negb (was_cleared rs') then 1 else 0) ->
  legal rs' gr' ws = true -> planned_r rs' gr' ->
  at_stage (Run w' rd (writer r)) rs' gr' ws gw.
Proof.
  intros [_ _ _ Hw _ H2 Ho Ht _ _ Hpw] -> H1 Hp Hr Hm Ha Hf Hl Hpr. split; simpl; auto.
  - by rewrite Hp.
  - intros pid ? ?. rewrite Hp by done. by apply Ho.
  - by eapply on_disk_same.
Qed.

Lemma move_w r rs gr ws gw ws' gw' w' wr :
  at_stage r rs gr ws gw -> wr = wpc_of ws' ->
  procs w' !! 2 = wproc ws' gw' -> (forall pid, pid <> 2 -> procs w' !! pid = procs (kernel r) !! pid) ->
  ready (dev w') ->
  on_disk (dev w') (if has_text ws' then buffer ++ drop 32 disk else disk) ->
  data_ready (dev w') = (if was_set ws' && negb (was_cleared rs) then 1 else 0) ->
  legal rs gr ws' = true -> planned_w ws' gw' ->
  at_stage (Run w' (reader r) wr) rs gr ws' gw'.
Proof.
  intros [_ _ Hrd _ H1 _ Ho _ _ Hpr _] -> H2 Hp Hr Ht Hf Hl Hpw. split; simpl; auto.
  - by rewrite Hp.
  - intros pid ? ?. rewrite Hp by done. by apply Ho.
Qed.

(** The wake-up: the writer is back, a reader that slept tests again. *)
Definition woken (rs : rstage) : rstage := match rs with RsSleep => RsCheck | _ => rs end.

Lemma move_wake r rs gr gw :
  at_stage r rs gr WsSet gw ->
  at_stage (Run (World (dev (kernel r)) (wake <$> <[2 := Proc Idle 32 gw [] 32]> (procs (kernel r))))
    (reader r) (writer r)) (woken rs) gr WsBack gw.
Proof.
  intros [Hr Hd Hrd Hw H1 H2 Ho Ht Hl Hpr Hpw].
  split; simpl; rewrite ?lookup_fmap; auto.
  - by destruct rs.
  - rewrite Hrd. by destruct rs.
  - rewrite lookup_insert_ne, H1 by done. by destruct rs.
  - by rewrite lookup_insert_eq.
  - intros pid ? ?. rewrite lookup_fmap, lookup_insert_ne, Ho by done. done.
  - by destruct rs.
  - unfold planned_r in *. destruct rs; simpl in *; tauto.
Qed.

(** The sides of a move that are lookups or what is known already. *)
Ltac sides Hd :=
  try exact Hd; try done; try (split; done);
  try (simpl; rewrite ?lookup_insert_eq, ?lookup_delete_eq; done);
  try (intros ? ?; simpl; rewrite ?lookup_insert_ne, ?lookup_delete_ne by done; done).

(** A step of the driver. *)
Lemma inside_stage r rs gr ws gw w' :
  at_stage r rs gr ws gw -> inside all_copied (kernel r) w' ->
  exists rs' gr' ws' gw', at_stage (Run w' (reader r) (writer r)) rs' gr' ws' gw' /\
    (rank rs' gr' ws' gw' < rank rs gr ws gw)%nat.
Proof.
  intros HS Hi. pose proof HS as [Hr Hd Hrd Hwr H1 H2 _ Ht Hl [Hpr Hpg] [Hpw Hpv]].
  inversion Hi as [w pid p lbuf E K C|w pid p lbuf E K C Sg|w pid p lbuf E K Sg
    |w pid p lbuf left got pos n E K Sg Hc Ec|w pid p n E K|w pid p n E K|w pid p n E K]; subst w w';
    (destruct (proc_cases r rs gr ws gw pid p HS E) as [[-> P]|[-> P]];
     [destruct rs; simplify_eq/= | destruct ws; simplify_eq/=]).
  - exists RsAwake, gr, ws, gw. split; [|unfold rank; simpl; lia].
    eapply move_r; eauto; sides Hd. simpl.
    destruct gr; [done|]. destruct C as [C|C]; [|done]. rewrite Hd in C. by destruct (was_set ws).
  - exists RsSleep, false, ws, gw. split; [|unfold rank; simpl; lia].
    eapply move_r; eauto; sides Hd. simpl. rewrite Hd in C. by destruct ws as [| | | | | | | |[]].
  - exists RsIntr, true, ws, gw. split; [|unfold rank; simpl; lia]. eapply move_r; eauto; sides Hd.
  - assert (has_text ws = true) as Hh by (by destruct ws). rewrite Hh in Ht.
    destruct (text_copied _ _ _ _ _ Hr Hc Ht Ec) as (-> & -> & ->).
    exists RsCopied, false, ws, gw. split; [|unfold rank; simpl; lia]. eapply move_r; eauto; sides Hd.
  - exists RsBack, gr, ws, gw. split; [|unfold rank; simpl; lia].
    eapply move_r; eauto; sides Hd. simpl. by rewrite andb_false_r.
  - exists rs, gr, WsSet, gw. split; [|unfold rank; simpl; lia].
    eapply move_w; eauto; sides Hd; [by apply (on_disk_same (dev (kernel r)))|..];
      by destruct rs as [| | | | | | | | | | |[]]; simpl; rewrite ?orb_true_r.
  - exists (woken rs), gr, WsBack, gw. split; [by apply move_wake|]. unfold rank. destruct rs; simpl; lia.
Qed.

(** What read.c prints. *)
Lemma printed : wait_read nbytes heap text count = Some (until_nul text).
Proof.
  pose proof count_range as Hc. pose proof length_text as Ht. unfold wait_read, libc.
  unfold LabMisc.ramdisk_size, LabMisc.PAGE_SIZE in Hc.
  rewrite (proj2 (Z.ltb_ge count 0)), s32_id, terminate_received by lia. simpl.
  by rewrite until_nul_end.
Qed.

(** The programs die of a signal, and a signal comes. *)
Lemma reader_dies r rs gr ws gw :
  at_stage r rs gr ws gw -> signals = true -> rdone (reader r) = false -> dies (kernel r) 1 ->
  exists rs', at_stage (Run (gone (kernel r) 1) RKilled (writer r)) rs' gr ws gw /\
    (rank rs' gr ws gw < rank rs gr ws gw)%nat.
Proof.
  intros HS Hsig Hdn Hdie. pose proof HS as [Hr Hd Hrd Hwr H1 H2 _ Ht Hl [Hpr Hpg] _].
  unfold dies in Hdie. rewrite H1 in Hdie. rewrite Hrd in Hdn.
  exists (RsKilled (was_cleared rs)).
  destruct rs; simpl in Hdn, Hdie; try done; try (by destruct Hdie);
    (split; [|unfold rank; simpl; lia]); eapply move_r; eauto; sides Hd.
Qed.

Lemma writer_dies r rs gr ws gw :
  at_stage r rs gr ws gw -> signals = true -> wdone (writer r) = false -> dies (kernel r) 2 ->
  exists ws', at_stage (Run (gone (kernel r) 2) (reader r) WKilled) rs gr ws' gw /\
    (rank rs gr ws' gw < rank rs gr ws gw)%nat.
Proof.
  intros HS Hsig Hdn Hdie. pose proof HS as [Hr Hd Hrd Hwr H1 H2 _ Ht Hl _ [Hpw Hpg]].
  unfold dies in Hdie. rewrite H2 in Hdie. rewrite Hwr in Hdn.
  exists (WsKilled (was_set ws)).
  destruct ws; simpl in Hdn, Hdie; try done; try (by destruct Hdie);
    (split; [|unfold rank; simpl; lia]); eapply move_w; eauto; sides Hd; by destruct rs.
Qed.

Lemma signal_stage r rs gr ws gw pid p :
  at_stage r rs gr ws gw -> signals = true -> procs (kernel r) !! pid = Some p -> sig p = false ->
  exists rs' gr' ws' gw', at_stage (Run (set_proc (kernel r) pid
      (wake (Proc (at_ p) (ppos p) true (recv p) (ret p)))) (reader r) (writer r)) rs' gr' ws' gw' /\
    (rank rs' gr' ws' gw' < rank rs gr ws gw)%nat.
Proof.
  intros HS Hsig E Sg. pose proof HS as [Hr Hd Hrd Hwr H1 H2 _ Ht Hl [Hpr Hpg] [Hpw Hpv]].
  destruct (proc_cases r rs gr ws gw pid p HS E) as [[-> P]|[-> P]].
  - exists (woken rs), true, ws, gw. destruct rs; simplify_eq/=;
      (split; [|unfold rank; simpl; lia]); eapply move_r; eauto; sides Hd; by destruct Hpr.
  - exists rs, gr, ws, true. destruct ws; simplify_eq/=;
      (split; [|unfold rank; simpl; lia]); eapply move_w; eauto; sides Hd.
Qed.

(** A step of the programs or of the driver, or a signal. *)
Lemma run_step_stage r rs gr ws gw r' :
  at_stage r rs gr ws gw -> run_step r r' ->
  exists rs' gr' ws' gw', at_stage r' rs' gr' ws' gw' /\ (rank rs' gr' ws' gw' < rank rs gr ws gw)%nat.
Proof.
  intros HS Hs. pose proof HS as [Hr Hd Hrd Hwr H1 H2 _ Ht Hl [Hpr Hpg] [Hpw Hpv]].
  inversion Hs as [w wr Ho|w wr Ho|w p wr E K Sg|w p wr E K Sg|w wr|w rd wr Hsig Hdn Hdie
    |w rd Ho|w rd Ho|w p rd left s pos n E K Sg Hc Ec|w p rd E K Sg|w rd|w rd wr Hsig Hdn Hdie
    |w w' rd wr Hi|w pid p rd wr Hsig E Sg]; subst r r'; simpl in *.
  - destruct rs; simplify_eq. exists RsOpen, false, ws, gw. split; [|unfold rank; simpl; lia].
    eapply (move_r (Run w _ _)); eauto; sides Hd.
  - destruct rs; simplify_eq. exists RsNoFile, false, ws, gw. split; [|unfold rank; simpl; lia].
    eapply (move_r (Run w _ _)); eauto; sides Hd.
  - destruct rs; simplify_eq. rewrite E in H1. simplify_eq/=.
    exists RsCheck, false, ws, gw. split; [|unfold rank; simpl; lia]. unfold enter_read. rewrite u64_id by lia.
    eapply (move_r (Run w _ _)); eauto; sides Hd.
  - rewrite E in H1. destruct rs; simplify_eq/=; [|by destruct Hpr].
    exists RsExit, false, ws, gw. split; [|unfold rank; simpl; lia].
    eapply (move_r (Run w _ _)); eauto; sides Hd. simpl. by rewrite printed.
  - destruct rs; simplify_eq. destruct Hpr as [? ->]. exists RsFailed, false, ws, gw. split; [|unfold rank; simpl; lia].
    eapply (move_r (Run w _ _)); eauto; sides Hd.
  - destruct (reader_dies _ _ _ _ _ HS Hsig Hdn Hdie) as (rs' & ?). by exists rs', gr, ws, gw.
  - destruct ws; simplify_eq. exists rs, gr, WsOpen, false. split; [|unfold rank; simpl; lia].
    eapply (move_w (Run w _ _)); eauto; sides Hd; by destruct rs.
  - destruct ws; simplify_eq. exists rs, gr, WsNoFile, false. split; [|unfold rank; simpl; lia].
    eapply (move_w (Run w _ _)); eauto; sides Hd; by destruct rs.
  - destruct ws; simplify_eq. rewrite E in H2. simplify_eq/=.
    exists rs, gr, WsCopied, false. split; [|unfold rank; simpl; lia].
    destruct (buffer_written _ _ _ _ _ Hr Hc Ht Ec) as (Hr' & Hd' & -> & -> & Hb).
    eapply (move_w (Run w _ _)); eauto; sides Hd; try by destruct rs. by rewrite <- Hd.
  - rewrite E in H2. destruct ws; simplify_eq/=.
    exists rs, gr, WsExit, false. split; [|unfold rank; simpl; lia].
    eapply (move_w (Run w _ _)); eauto; sides Hd.
  - destruct ws; simplify_eq. destruct Hpw as [? ->]. exists rs, gr, WsFailed, false. split; [|unfold rank; simpl; lia].
    eapply (move_w (Run w _ _)); eauto; sides Hd; by destruct rs.
  - destruct (writer_dies _ _ _ _ _ HS Hsig Hdn Hdie) as (ws' & ?). by exists rs, gr, ws', gw.
  - by apply (inside_stage (Run w rd wr)).
  - by apply (signal_stage (Run w rd wr) rs gr ws gw).
Qed.

Lemma all_copied_uaccess left : all_copied left -> uaccess left.
Proof. intros Hc n ?. rewrite Hc. lia. Qed.

(** A program that is not done can go on, a sleeping reader only when a signal
    comes. *)
Lemma writer_progress r rs gr ws gw :
  at_stage r rs gr ws gw -> (forall r', ~ run_step r r') -> wdone (writer r) = true.
Proof.
  intros [Hr Hd Hrd Hwr H1 H2 _ Ht Hl _ [Hpw Hpv]] Hno. destruct r as [w rd wr]. simpl in *.
  assert (forall w', ~ inside all_copied w w') as Hin by (intros w' Hi; by eapply Hno, in_kernel).
  assert (gw = true -> wdone wr = false -> dies w 2 -> False) as Hk
    by (intros Hg ? ?; eapply Hno, w_killed; auto).
  unfold dies in Hk. rewrite H2 in Hk. subst wr.
  destruct ws; simpl in *; try done; exfalso.
  - destruct w_opens eqn:Ho; [by eapply Hno, w_open|by eapply Hno, w_refused].
  - by eapply Hno, w_badf.
  - destruct gw; [by apply Hk|].
    destruct (write_copy_total (dev w) (fun _ => 0) buffer (Z.of_nat (length buffer)) 0)
      as (s & pos & n & E & _); [done|by apply all_copied_uaccess|lia|done|].
    by eapply Hno, w_write; [exact H2|done|done|intros ?; done|exact E].
  - by eapply Hin, write_set.
  - by eapply Hin, write_wake.
  - destruct gw; [by apply Hk|]. by eapply Hno, w_return.
Qed.

Lemma reader_progress r rs gr ws gw :
  at_stage r rs gr ws gw -> (forall r', ~ run_step r r') ->
  rdone (reader r) = true \/ (rs = RsSleep /\ signals = false).
Proof.
  intros [Hr Hd Hrd Hwr H1 H2 _ Ht Hl [Hpr Hpg] _] Hno. destruct r as [w rd wr]. simpl in *.
  assert (forall w', ~ inside all_copied w w') as Hin by (intros w' Hi; by eapply Hno, in_kernel).
  assert (gr = true -> rdone rd = false -> dies w 1 -> False) as Hk
    by (intros Hg ? ?; eapply Hno, r_killed; auto).
  unfold dies in Hk. rewrite H1 in Hk. subst rd.
  destruct rs; simpl in *; try (by left); [..|by destruct Hpr; destruct Hk].
  - exfalso. destruct r_opens eqn:Ho; [by eapply Hno, r_open|by eapply Hno, r_refused].
  - exfalso. by eapply Hno, r_badf.
  - exfalso. destruct gr; [by apply Hk|]. by eapply Hno, r_read.
  - exfalso. destruct (decide (data_ready (dev w) <> 0 \/ gr = true)) as [C|C].
    + by eapply Hin, wait_done.
    + eapply Hin, wait_sleep; [exact H1|done|lia|by destruct gr; [destruct C; right|]].
  - right. split; [done|]. destruct signals eqn:Hs; [|done]. exfalso. destruct Hpr as [_ ->].
    by eapply Hno, signalled.
  - exfalso. destruct gr; [by eapply Hin, read_signal|].
    pose proof (read_in (as_misc (dev w)) (fun _ => 0) nbytes 0 Hr) as (_ & _ & E);
      [by apply all_copied_uaccess|lia|done|]. rewrite <- read_copy_misc in E.
    eapply Hin, (read_data _ _ 1 _ nbytes (fun _ => 0)); [exact H1|done|done|done|exact E].
  - exfalso. by eapply Hin, read_clear.
  - exfalso. destruct gr; [by apply Hk|]. by eapply Hno, r_return.
Qed.

Lemma begun_stage s :
  ready s -> data_ready s = 0 -> on_disk s disk -> at_stage (begun s) RsNew false WsNew false.
Proof. intros Hr Hd Ht. by split. Qed.

Lemma run_reachable s r :
  ready s -> data_ready s = 0 -> on_disk s disk -> rtc run_step (begun s) r ->
  exists rs gr ws gw, at_stage r rs gr ws gw.
Proof.
  intros Hr Hd Ht Hs. pattern r. eapply rtc_preserves; [|exact Hs|].
  - intros r1 r2 Hst (rs & gr & ws & gw & HS).
    destruct (run_step_stage _ _ _ _ _ _ HS Hst) as (? & ? & ? & ? & ? & _). eauto.
  - exists RsNew, false, WsNew, false. by apply begun_stage.
Qed.

Lemma stage_terminates r rs gr ws gw : at_stage r rs gr ws gw -> Acc (flip run_step) r.
Proof.
  remember (rank rs gr ws gw) as k eqn:Hk. revert r rs gr ws gw Hk.
  induction k as [k IH] using lt_wf_ind. intros r rs gr ws gw -> HS. constructor. intros r' Hst.
  destruct (run_step_stage _ _ _ _ _ _ HS Hst) as (? & ? & ? & ? & HS' & Hlt).
  by eapply IH; [exact Hlt| |].
Qed.

Lemma printed_short : nbytes <= 32 -> until_nul text = take (Z.to_nat nbytes) buffer.
Proof.
  intros H. unfold text, count. rewrite Z.min_l by (unfold LabMisc.ramdisk_size, LabMisc.PAGE_SIZE; lia).
  rewrite take_app_le by (change (length buffer) with 32%nat; lia).
  assert (Forall (fun c => c <> 0) (take (Z.to_nat nbytes) buffer)) as Hz
    by (apply Forall_take; by repeat constructor).
  induction Hz as [|c l Hc _ IH]; simpl; [done|]. by rewrite (proj2 (Z.eqb_neq c 0)), IH.
Qed.

End programs.

Section examples.
(** A device of 65536 bytes, all 7. *)
Definition ex_fresh : st := St 4096 0 {[ 4096 := Block ramdisk_size (fun _ => 7) ]}.
Definition ex_disk : list Z := bytes (kmem ex_fresh) (ramdisk ex_fresh, 0) LabMisc.ramdisk_size.

Lemma ex_disk_length : Z.of_nat (length ex_disk) = LabMisc.ramdisk_size.
Proof. unfold ex_disk, bytes. rewrite length_slice, Z2Nat.id; done. Qed.

(** A run in which the reader, which asks for more than the text, sleeps
    before the writer starts. *)
Definition ex_asleep : run :=
  Run (World ex_fresh {[ 1 := Proc (RAsleep 40) 0 false [] 0 ]}) RInRead WStart.

Lemma ex_asleep_reach :
  rtc (run_step 40 (replicate 41 9) true true true) (begun ex_fresh) ex_asleep.
Proof.
  eapply rtc_l; [by apply r_open|]. eapply rtc_l; [by eapply r_read|].
  eapply rtc_l; [eapply in_kernel, (wait_sleep _ _ 1 (Proc (RCheck 40) 0 false [] 0) 40); reflexivity|].
  apply rtc_refl.
Defined.

End examples.
