(* ===== verification/NetHash.v ===== *)
(** * data-struct-labs/hlist.c

    The name hash of network devices and the table of hash chains: the hash
    functions at machine width, insertion, lookup, and the module that fills
    the table with ten devices.  A C string is the list of its bytes, the
    terminating NUL follows the list. *)

From S2P Require Import Prelude Kernel.

Definition init_name_hash : Z := 0.
Definition IFNAMSIZ : Z := 16.
Definition NETDEV_HASHBITS : Z := 8.
Definition NETDEV_HASHENTRIES : Z := Z.shiftl 1 NETDEV_HASHBITS.

Definition partial_name_hash (c prevhash : Z) : Z :=
  u64 (u64 (u64 (prevhash + u64 (Z.shiftl c 4)) + Z.shiftr c 4) * 11).

Definition end_name_hash (hash : Z) : Z := u32 hash.

(** The [while (len--)] loop; [name] advances with it. *)
Fixpoint name_hash_loop (name : list Z) (len : nat) (hash : Z) : Z :=
  match len with
  | O => hash
  | S len' => name_hash_loop (tail name) len' (partial_name_hash (u8 (default 0 (head name))) hash)
  end.

Definition full_name_hash (name : list Z) (len : Z) : Z :=
  u32 (end_name_hash (name_hash_loop name (Z.to_nat len) init_name_hash)).

(** The C library's strnlen and strncmp. *)
Fixpoint strnlen (s : list Z) (n : nat) {struct n} : nat :=
  match n, s with
  | S n', c :: s' => if c =? 0 then O else S (strnlen s' n')
  | _, _ => O
  end.

Fixpoint strncmp (a b : list Z) (n : nat) {struct n} : Z :=
  match n with
  | O => 0
  | S n' =>
      let x := default 0 (head a) in
      let y := default 0 (head b) in
      if x =? y then (if x =? 0 then 0 else strncmp (tail a) (tail b) n') else x - y
  end.

(** The index of the chain for a name. *)
Definition dev_name_hash (name : list Z) : Z :=
  let hash := full_name_hash name (Z.of_nat (strnlen name (Z.to_nat IFNAMSIZ))) in
  Z.land hash (Z.shiftl 1 NETDEV_HASHBITS - 1).

Record net_device := NetDevice { name : list Z; net_num : Z }.

(** A chain is the list of the devices on it, by their index in [devices],
    first one first. *)
Abbreviation hlist := (list Z).

Definition hlist_add_head (i : Z) (k : Z) (tbl : list hlist) : list hlist :=
  alter (i ::.) (Z.to_nat k) tbl.

(** The [hlist_for_each] loop. *)
Fixpoint dev_search (devices : list net_device) (name0 : list Z) (p : hlist) : option Z :=
  match p with
  | [] => None
  | i :: p' =>
      match devices !! Z.to_nat i with
      | Some dev =>
          if strncmp (name dev) name0 (Z.to_nat IFNAMSIZ) =? 0 then Some i
          else dev_search devices name0 p'
      | None => None
      end
  end.

Definition dev_get_by_name (tbl : list hlist) (devices : list net_device) (name0 : list Z)
    : option Z :=
  dev_search devices name0 (default [] (tbl !! Z.to_nat (dev_name_hash name0))).

(** snprintf into an array: at most [n - 1] bytes and a NUL. *)
Definition snprintf (arr : list Z) (n : nat) (s : list Z) : list Z :=
  let t := take (n - 1) s in t ++ [0] ++ drop (S (length t)) arr.

Record st := St { dev_name_head : Z; devices : Z; table : list hlist; devs : list net_device }.

Section module.
(** What kmalloc'ed memory holds: chain heads and device structures. *)
Context (junk_table : list hlist) (junk_devs : list net_device).

Definition netdev_create_hash : M st Z :=
  hash ← call (kmalloc (8 * NETDEV_HASHENTRIES));
  if negb (hash =? 0) then
    modify (fun s => St (dev_name_head s) (devices s) junk_table (devs s));;
    for_loop (R := Empty_set) 0 (Z.to_nat NETDEV_HASHENTRIES) (fun i =>
      modify (fun s => St (dev_name_head s) (devices s)
        (<[Z.to_nat i := []]> (table s)) (devs s));; mret None);;
    mret hash
  else mret hash.

Definition sizeof_net_device : Z := 40.
Definition dev_num : Z := 10.

(** "eth%d" *)
Definition eth (i : Z) : list Z := bytes_of ("eth" +:+ pretty.pretty i).

(** Body of the loop that fills the table: the device gets name and number,
    then goes to the head of the chain of its name. *)
Definition fill_in (i : Z) (s : st) : st :=
  St (dev_name_head s) (devices s) (table s)
    (alter (fun d => NetDevice (snprintf (name d) (Z.to_nat IFNAMSIZ) (eth i)) i) (Z.to_nat i) (devs s)).

Definition link (i : Z) (s : st) : st :=
  match devs s !! Z.to_nat i with
  | Some d =>
      St (dev_name_head s) (devices s) (hlist_add_head i (dev_name_hash (name d)) (table s)) (devs s)
  | None => s
  end.

Definition add_device (i : Z) (s : st) : st := link i (fill_in i s).

(** The result is the return value and the device printed. *)
Definition hlist_module_init : M st (Z * option net_device) :=
  h ← netdev_create_hash;
  modify (fun s => St h (devices s) (table s) (devs s));;
  if h =? 0 then mret (- ENOMEM, None)
  else
    d ← call (kmalloc (sizeof_net_device * dev_num));
    modify (fun s => St (dev_name_head s) d (table s) (devs s));;
    if d =? 0 then
      s ← get; call (kfree (dev_name_head s));; mret (- ENOMEM, None)
    else
      modify (fun s => St (dev_name_head s) (devices s) (table s) junk_devs);;
      for_loop (R := Empty_set) 0 (Z.to_nat dev_num) (fun i => modify (add_device i);; mret None);;
      s ← get;
      mret (0, i ← dev_get_by_name (table s) (devs s) (bytes_of "eth1"); devs s !! Z.to_nat i).

Definition hlist_module_exit : M st () :=
  s ← get;
  call (kfree (devices s));;
  call (kfree (dev_name_head s));;
  mret ().
End module.

(** ** The hash functions *)

(** The hash over unbounded integers. *)
Definition hash_step (h c : Z) : Z := (h + 16 * c + c / 16) * 11.
Definition hash_ref (l : list Z) : Z := foldl hash_step 0 l.

Lemma partial_name_hash_ref c h :
  0 <= c < 256 -> partial_name_hash c h = u64 (hash_step h c).
Proof.
  intros Hc. unfold partial_name_hash, hash_step.
  rewrite Z.shiftl_mul_pow2, Z.shiftr_div_pow2 by lia. change (2 ^ 4) with 16.
  rewrite (u64_id (c * 16)) by lia. unfold u64, wrap. rewrite Zplus_mod_idemp_l, Zmult_mod_idemp_l.
  f_equal. lia.
Qed.

Lemma hash_step_mod h c w : 0 <= w -> wrap w (hash_step (wrap w h) c) = wrap w (hash_step h c).
Proof.
  intros. unfold wrap, hash_step. rewrite <- Zmult_mod_idemp_l.
  rewrite <- !Z.add_assoc, Zplus_mod_idemp_l, Zmult_mod_idemp_l. done.
Qed.

Lemma foldl_hash_mod l h w :
  0 <= w -> wrap w (foldl hash_step (wrap w h) l) = wrap w (foldl hash_step h l).
Proof.
  intros Hw. revert h. induction l as [|c l IH]; intros h; simpl.
  - unfold wrap. apply Zmod_mod.
  - by rewrite <- IH, hash_step_mod, IH by done.
Qed.

(** A byte of a C string. *)
Definition byte (c : Z) : Prop := 0 <= c < 256.

Lemma name_hash_loop_ref l len h :
  (len <= length l)%nat -> Forall byte l ->
  u64 (name_hash_loop l len h) = u64 (foldl hash_step h (take len l)).
Proof.
  revert l h. induction len as [|len IH]; intros l h Hlen Hl; [done|].
  destruct l as [|c l]; [simpl in *; lia|]. apply Forall_cons in Hl as [Hc Hl].
  cbn [name_hash_loop tail head default]. simpl in Hlen |- *. unfold byte in Hc.
  rewrite IH by (done || lia). rewrite partial_name_hash_ref by blia.
  unfold u8. rewrite wrap_id by done. by apply foldl_hash_mod.
Qed.

(** full_name_hash computes, at machine width, the hash
    h := (h + 16 c + c / 16) * 11 of the bytes of the name modulo 2^32: no
    bits below the cut are lost to the wrap-around of the intermediate
    64-bit values. *)
Theorem full_name_hash_spec l len :
  (len <= length l)%nat -> Forall byte l ->
  full_name_hash l (Z.of_nat len) = hash_ref (take len l) mod 2 ^ 32.
Proof.
  intros Hlen Hl. unfold full_name_hash, end_name_hash, hash_ref.
  rewrite Nat2Z.id. pose proof (name_hash_loop_ref l len init_name_hash Hlen Hl) as E.
  unfold init_name_hash in *.
  set (x := name_hash_loop l len 0) in *. set (y := foldl hash_step 0 (take len l)) in *.
  clearbody x y. clear -E. mlia.
Qed.

Lemma dev_name_hash_mod l :
  dev_name_hash l = full_name_hash l (Z.of_nat (strnlen l (Z.to_nat IFNAMSIZ))) mod 256.
Proof.
  unfold dev_name_hash, NETDEV_HASHBITS.
  change (Z.shiftl 1 8 - 1) with (Z.ones 8). by rewrite Z.land_ones.
Qed.

Lemma dev_name_hash_range l : 0 <= dev_name_hash l < NETDEV_HASHENTRIES.
Proof. rewrite dev_name_hash_mod. by apply Z.mod_pos_bound. Qed.

#[local] Arguments Z.sub : simpl never.
#[local] Arguments Z.eqb : simpl never.

(** Names that strncmp takes for equal have the same bytes up to the length
    that is hashed. *)
Lemma strncmp_eq a b n :
  strncmp a b n = 0 -> strnlen a n = strnlen b n /\ take (strnlen a n) a = take (strnlen b n) b.
Proof.
  revert a b. induction n as [|n IH]; intros a b; [done|].
  destruct a as [|x a], b as [|y b]; simpl; try done.
  - destruct (Z.eqb_spec 0 y) as [<-|]; [done|]. destruct (Z.eqb_spec y 0); [done|intros ?; lia].
  - destruct (Z.eqb_spec x 0) as [->|]; [done|intros ?; lia].
  - destruct (Z.eqb_spec x y) as [->|]; [|intros ?; lia].
    destruct (Z.eqb_spec y 0); [done|]. intros [E1 E2]%IH. simpl. by rewrite E1, <- E2, E1.
Qed.

Lemma strncmp_refl a n : strncmp a a n = 0.
Proof.
  revert a. induction n as [|n IH]; intros a; [done|]. simpl. rewrite Z.eqb_refl, IH.
  by case_match.
Qed.

(** The hash only looks at the bytes it is told to. *)
Lemma name_hash_loop_take a b n h :
  take n a = take n b -> name_hash_loop a n h = name_hash_loop b n h.
Proof.
  revert a b h. induction n as [|n IH]; intros a b h; [done|].
  destruct a as [|x a], b as [|y b]; simpl; try done.
  intros [= -> E]. by apply IH.
Qed.

Lemma same_name_same_chain a b :
  strncmp a b (Z.to_nat IFNAMSIZ) = 0 -> dev_name_hash a = dev_name_hash b.
Proof.
  intros [E1 E2]%strncmp_eq. unfold dev_name_hash, full_name_hash.
  rewrite E1, !Nat2Z.id. rewrite E1 in E2. by rewrite (name_hash_loop_take _ _ _ _ E2).
Qed.

(** ** The table *)

Definition empty_table : list hlist := replicate (Z.to_nat NETDEV_HASHENTRIES) [].

(** The chains after the devices of [l] were linked in that order. *)
Definition added (devices : list net_device) (l : list Z) (tbl : list hlist) : list hlist :=
  foldl (fun t i => match devices !! Z.to_nat i with
                    | Some d => hlist_add_head i (dev_name_hash (name d)) t
                    | None => t
                    end) tbl l.

Definition hash_of (devices : list net_device) (i : Z) : option Z :=
  (fun d => dev_name_hash (name d)) <$> devices !! Z.to_nat i.

Lemma added_lookup devices l tbl k :
  length tbl = Z.to_nat NETDEV_HASHENTRIES -> 0 <= k < NETDEV_HASHENTRIES ->
  added devices l tbl !! Z.to_nat k =
  Some (filter (fun i => hash_of devices i = Some k) (reverse l) ++
        default [] (tbl !! Z.to_nat k)).
Proof.
  revert tbl. induction l as [|i l IH]; intros tbl Hlen Hk; simpl.
  - destruct (lookup_lt_is_Some_2 tbl (Z.to_nat k)) as [x ->]; [lia|done].
  - rewrite reverse_cons, filter_app, <- app_assoc.
    destruct (devices !! Z.to_nat i) as [d|] eqn:Ed.
    + rewrite IH; [|unfold hlist_add_head; by rewrite length_alter|done].
      unfold hlist_add_head. pose proof (dev_name_hash_range (name d)).
      rewrite filter_cons, filter_nil.
      assert (hash_of devices i = Some (dev_name_hash (name d))) as ->
        by (unfold hash_of; by rewrite Ed).
      destruct (decide (dev_name_hash (name d) = k)) as [->|Hne].
      * rewrite decide_True by done. rewrite list_lookup_alter_eq.
        destruct (lookup_lt_is_Some_2 tbl (Z.to_nat k)) as [x ->]; [lia|done].
      * rewrite decide_False by congruence. by rewrite list_lookup_alter_ne by lia.
    + rewrite IH by done. rewrite filter_cons, filter_nil.
      by assert (hash_of devices i = None) as -> by (unfold hash_of; by rewrite Ed).
Qed.

(** The reference: the newest device whose name compares equal. *)
Definition matches (devices : list net_device) (name0 : list Z) (i : Z) : bool :=
  match devices !! Z.to_nat i with
  | Some d => strncmp (name d) name0 (Z.to_nat IFNAMSIZ) =? 0
  | None => false
  end.

Lemma dev_search_filter devices name0 l :
  Forall (fun i => is_Some (devices !! Z.to_nat i)) l ->
  dev_search devices name0 (filter (fun i => hash_of devices i = Some (dev_name_hash name0)) l) =
  head (filter (fun i => matches devices name0 i) l).
Proof.
  induction 1 as [|i l [d Ed] Hl IH]; [done|].
  assert (hash_of devices i = Some (dev_name_hash (name d))) as Eh
    by (unfold hash_of; by rewrite Ed).
  assert (matches devices name0 i = (strncmp (name d) name0 (Z.to_nat IFNAMSIZ) =? 0)) as Em
    by (unfold matches; by rewrite Ed).
  rewrite !filter_cons, Eh, Em.
  destruct (Z.eqb_spec (strncmp (name d) name0 (Z.to_nat IFNAMSIZ)) 0) as [E|E].
  - rewrite decide_True by (f_equal; by apply same_name_same_chain).
    rewrite decide_True by done. cbn [dev_search head]. by rewrite Ed, E.
  - rewrite (decide_False (P := Is_true false)) by auto. case_decide; [|done].
    cbn [dev_search]. rewrite Ed. by rewrite (proj2 (Z.eqb_neq _ _) E).
Qed.

Lemma foldl_link l s :
  devs (foldl (fun s i => link i s) s l) = devs s /\
  table (foldl (fun s i => link i s) s l) = added (devs s) l (table s).
Proof.
  revert s. induction l as [|i l IH]; intros s; [done|]. simpl.
  destruct (IH (link i s)) as [-> ->]. unfold link. by destruct (devs s !! Z.to_nat i).
Qed.

Lemma search_added devices l name0 :
  Forall (fun i => is_Some (devices !! Z.to_nat i)) l ->
  dev_get_by_name (added devices l empty_table) devices name0 =
    head (filter (fun i => matches devices name0 i) (reverse l)).
Proof.
  intros Hl. pose proof (dev_name_hash_range name0) as Hr.
  unfold dev_get_by_name. rewrite added_lookup by done. simpl.
  unfold empty_table. rewrite lookup_replicate_2 by lia. rewrite app_nil_r.
  apply dev_search_filter. by apply Forall_reverse.
Qed.

(** ** Names made by snprintf *)

Lemma pretty_digits n s k :
  (n < 10 ^ N.of_nat k)%N -> Forall (fun c => c <> 0) (bytes_of s) ->
  Forall (fun c => c <> 0) (bytes_of (pretty.pretty_N_go n s)) /\
  (length (bytes_of (pretty.pretty_N_go n s)) <= k + length (bytes_of s))%nat.
Proof.
  revert n s. induction k as [|k IH]; intros n s Hn Hs.
  { assert (n = 0)%N as -> by (simpl in Hn; lia). by rewrite pretty.pretty_N_go_0. }
  destruct (decide (0 < n)%N) as [H0|]; [|assert (n = 0)%N as -> by lia].
  2: { rewrite pretty.pretty_N_go_0. split; [done|lia]. }
  rewrite pretty.pretty_N_go_step by done.
  destruct (IH (n / 10)%N (String (pretty.pretty_N_char (n mod 10)) s)) as [H1 H2].
  - apply N.Div0.div_lt_upper_bound. rewrite Nat2N.inj_succ, N.pow_succ_r' in Hn. done.
  - unfold bytes_of; simpl. constructor; [|done].
    unfold pretty.pretty_N_char. by repeat case_match.
  - split; [done|]. etrans; [exact H2|]. change (length (bytes_of (String _ s))) with (S (length (bytes_of s))). lia.
Qed.

Lemma eth_cstr i : 0 <= i < 2 ^ 31 -> Forall (fun c => c <> 0) (eth i) /\ (length (eth i) < 15)%nat.
Proof.
  intros Hi. unfold eth. assert (Forall (fun c => c <> 0) (bytes_of (pretty.pretty i)) /\
    (length (bytes_of (pretty.pretty i)) <= 10)%nat) as [H1 H2].
  { destruct i as [|p|p]; [| |lia].
    - by split; [repeat constructor|simpl; lia].
    - change (pretty.pretty (Z.pos p)) with (pretty.pretty_N_go (N.pos p) "").
      apply (pretty_digits (N.pos p) "" 10); [|constructor].
      change (10 ^ N.of_nat 10)%N with 10000000000%N. change (2 ^ 31) with 2147483648 in Hi. lia. }
  change (bytes_of ("eth" +:+ pretty.pretty i)) with ([101; 116; 104] ++ bytes_of (pretty.pretty i)).
  rewrite length_app. simpl. split; [|lia]. by repeat constructor.
Qed.

Lemma bytes_of_inj s t : bytes_of s = bytes_of t -> s = t.
Proof.
  unfold bytes_of. revert t. induction s as [|c s IH]; intros [|d t]; simpl; try done.
  intros [= E1 E2]. apply Nat2Z.inj in E1. rewrite (IH t) by done.
  rewrite <- (Ascii.ascii_nat_embedding c), E1, Ascii.ascii_nat_embedding. done.
Qed.

Lemma eth_inj i j : eth i = eth j -> i = j.
Proof. unfold eth. intros E%bytes_of_inj. simplify_eq/=. done. Qed.

(** A string that ends inside the array compares equal to itself only. *)
Lemma strncmp_nul a b r n :
  Forall (fun c => c <> 0) a -> Forall (fun c => c <> 0) b -> (length a < n)%nat ->
  (strncmp (a ++ 0 :: r) b n =? 0) = bool_decide (a = b).
Proof.
  intros Ha. revert b n. induction Ha as [|x a Hx Ha IH]; intros b n Hb Hn.
  - destruct n as [|n]; [simpl in Hn; lia|]. destruct Hb as [|y b Hy Hb]; simpl; [done|].
    rewrite (proj2 (Z.eqb_neq 0 y)) by done. apply Z.eqb_neq. lia.
  - destruct n as [|n]; simpl in *; [lia|]. destruct Hb as [|y b Hy Hb]; simpl.
    + rewrite (proj2 (Z.eqb_neq x 0)) by done. apply Z.eqb_neq. lia.
    + destruct (Z.eqb_spec x y) as [<-|Hne].
      * rewrite (proj2 (Z.eqb_neq x 0)), IH by (done || lia). by apply bool_decide_ext; split; [intros ->|intros [=]].
      * rewrite bool_decide_false by congruence. apply Z.eqb_neq. lia.
Qed.

(** ** Filling the table *)

Definition named (s : st) (i : Z) : Prop := exists r, devs s !! Z.to_nat i = Some (NetDevice (eth i ++ 0 :: r) i).

Lemma added_ext devices devices' l t :
  (forall i, i ∈ l -> devices !! Z.to_nat i = devices' !! Z.to_nat i) ->
  added devices l t = added devices' l t.
Proof.
  revert t. induction l as [|i l IH]; intros t H; [done|]. simpl. rewrite <- (H i) by (by left).
  apply IH. intros. apply H. by right.
Qed.

Lemma snprintf_eth arr i :
  0 <= i < 2 ^ 31 -> exists r, snprintf arr (Z.to_nat IFNAMSIZ) (eth i) = eth i ++ 0 :: r.
Proof.
  intros [_ Hi]%eth_cstr. unfold snprintf. change (Z.to_nat IFNAMSIZ - 1)%nat with 15%nat.
  rewrite take_ge by lia. by eexists.
Qed.

(** After devices were added one by one, the table is what linking them all
    would make of it. *)
Lemma adding_spec l s :
  NoDup l -> Forall (fun i => 0 <= i < 2 ^ 31 /\ is_Some (devs s !! Z.to_nat i)) l ->
  let s' := foldl (fun s i => add_device i s) s l in
  table s' = added (devs s') l (table s) /\ Forall (named s') l /\
  forall k, (forall i, i ∈ l -> Z.to_nat i <> k) -> devs s' !! k = devs s !! k.
Proof.
  induction l as [|i l IH] using rev_ind; intros Hnd Hl; [by split_and!|]. cbv zeta in *.
  apply NoDup_app in Hnd as (Hnd & Hni & _). apply Forall_app in Hl as [Hl [[Hi [d Hd]] _]%Forall_cons].
  destruct (IH Hnd Hl) as (Ht & Hn & Hk). clear IH. rewrite foldl_snoc.
  set (s1 := foldl (fun s i => add_device i s) s l) in *.
  assert (forall j, j ∈ l -> Z.to_nat i <> Z.to_nat j) as Hij.
  { intros j Hj E. rewrite Forall_forall in Hl. destruct (Hl j Hj) as [Hj0 _].
    apply Z2Nat.inj in E; [|lia..]. subst. by apply (Hni j Hj); left. }
  assert (devs s1 !! Z.to_nat i = Some d) as Hd1 by (rewrite Hk; [done|intros j Hj; by apply not_eq_sym, Hij]).
  destruct (snprintf_eth (name d) i Hi) as [r Hr].
  set (d' := NetDevice (eth i ++ 0 :: r) i).
  assert (devs (add_device i s1) = <[Z.to_nat i := d']> (devs s1) /\
    table (add_device i s1) = hlist_add_head i (dev_name_hash (name d')) (table s1)) as [Ed Et].
  { unfold add_device, link, fill_in. cbn [devs]. rewrite list_lookup_alter_eq, Hd1. cbn [fmap option_fmap option_map].
    rewrite Hr. cbn [devs table]. split; [|done]. apply list_eq. intros k.
    destruct (decide (k = Z.to_nat i)) as [->|Hne].
    - rewrite list_lookup_alter_eq, Hd1, list_lookup_insert_eq by (by eapply lookup_lt_Some). simpl. by rewrite Hr.
    - by rewrite list_lookup_alter_ne, list_lookup_insert_ne by done. }
  assert (devs (add_device i s1) !! Z.to_nat i = Some d') as Hd'
    by (rewrite Ed; apply list_lookup_insert_eq; by eapply lookup_lt_Some).
  split_and!.
  - rewrite Et, Ht. unfold added at 2. rewrite foldl_snoc, Hd'. f_equal.
    apply added_ext. intros j Hj. rewrite Ed, list_lookup_insert_ne by auto. done.
  - apply Forall_app. split; [|constructor; [by exists r|constructor]].
    rewrite Forall_forall in Hn |- *. intros j Hj. destruct (Hn j Hj) as [rj Ej]. exists rj.
    by rewrite Ed, list_lookup_insert_ne by auto.
  - intros k Hkl. rewrite Ed, list_lookup_insert_ne, Hk; [done| |].
    + intros j Hj. apply Hkl, elem_of_app. by left.
    + apply Hkl, elem_of_app. right. by left.
Qed.

Lemma matches_eth s i j :
  named s j -> 0 <= i < 2 ^ 31 -> 0 <= j < 2 ^ 31 -> matches (devs s) (eth i) j = bool_decide (j = i).
Proof.
  intros [r Hr] [Hi _]%eth_cstr [Hj Hlen]%eth_cstr. unfold matches. rewrite Hr. cbn [name].
  rewrite strncmp_nul by (done || change (Z.to_nat IFNAMSIZ) with 16%nat; lia).
  apply bool_decide_ext. split; [apply eth_inj|by intros ->].
Qed.

Lemma head_filter_one {A} (P : A -> bool) (l : list A) x :
  x ∈ l -> (forall y, y ∈ l -> P y = true <-> y = x) -> head (filter (fun y => P y) l) = Some x.
Proof.
  induction l as [|y l IH]; intros Hx HP; [by apply elem_of_nil in Hx|]. rewrite filter_cons.
  case_decide as Hy.
  - simpl. f_equal. apply HP; [by left|]. by destruct (P y).
  - apply IH; [|intros; apply HP; by right]. apply elem_of_cons in Hx as [->|]; [|done].
    exfalso. apply Hy. by rewrite (proj2 (HP y ltac:(by left)) eq_refl).
Qed.

(** C12.  The table implements a map from names to devices.  Whatever devices,
    with whatever names and collisions, are linked into an empty table, a
    lookup returns the one linked last whose name compares equal, and nothing
    if there is none.  And the loop body of the module makes such a table:
    whatever the devices held before, after it was run for any distinct device
    numbers each of those devices has its number and the name "eth" with that
    number, and is what a lookup of that name returns; the chain that is
    searched is always one of the 256 of the table. *)
Theorem dev_get_by_name_refines s l :
  table s = empty_table -> NoDup l ->
  Forall (fun i => 0 <= i < 2 ^ 31 /\ is_Some (devs s !! Z.to_nat i)) l ->
  (let s' := foldl (fun s i => link i s) s l in
   forall name0, dev_get_by_name (table s') (devs s') name0 =
     head (filter (fun i => matches (devs s') name0 i) (reverse l))) /\
  (let s' := foldl (fun s i => add_device i s) s l in
   Forall (named s') l /\
   (forall i, i ∈ l -> dev_get_by_name (table s') (devs s') (eth i) = Some i) /\
   forall name0, dev_get_by_name (table s') (devs s') name0 =
     head (filter (fun i => matches (devs s') name0 i) (reverse l))) /\
  forall name0, 0 <= dev_name_hash name0 < NETDEV_HASHENTRIES.
Proof.
  intros Ht Hnd Hl. split_and!; [| |apply dev_name_hash_range].
  - cbv zeta. intros name0. destruct (foldl_link l s) as [-> ->]. rewrite Ht. apply search_added.
    eapply Forall_impl; [exact Hl|]. by intros i [_ ?].
  - destruct (adding_spec l s Hnd Hl) as (Et & Hn & _). cbv zeta in *.
    set (s' := foldl (fun s i => add_device i s) s l) in *. rewrite Et, Ht.
    assert (Forall (fun i => is_Some (devs s' !! Z.to_nat i)) l) as Hs
      by (eapply Forall_impl; [exact Hn|]; intros i [r Hr]; eauto).
    split_and!; [done| |intros name0; by apply search_added].
    intros i Hi. rewrite search_added by done. rewrite Forall_forall in Hn, Hl.
    apply (head_filter_one (matches (devs s') (eth i))); [by apply elem_of_reverse|].
    intros j Hj. rewrite elem_of_reverse in Hj.
    rewrite matches_eth by (exact (Hn j Hj) || exact (proj1 (Hl i Hi)) || exact (proj1 (Hl j Hj))).
    apply bool_decide_eq_true.
Qed.

(** ** The module *)

Section module_theorems.
Context (junk_table : list hlist) (junk_devs : list net_device) (env : kenv).
(** The sizes of the arrays that were allocated. *)
Context (table_len : length junk_table = Z.to_nat NETDEV_HASHENTRIES).
Context (devs_len : length junk_devs = Z.to_nat dev_num).

Definition table_size : Z := 8 * NETDEV_HASHENTRIES.

Lemma init_heads (t : list hlist) n :
  (n < length t)%nat ->
  <[n := []]> (replicate n [] ++ drop n t) = replicate (S n) [] ++ drop (S n) t.
Proof.
  intros Hn. rewrite insert_app_r_alt by (rewrite length_replicate; lia).
  rewrite length_replicate, Nat.sub_diag.
  destruct (lookup_lt_is_Some_2 t n Hn) as [x Hx]. rewrite (drop_S t x n Hx). simpl.
  by rewrite app_comm_cons, replicate_cons_app, <- app_assoc.
Qed.

Lemma netdev_create_hash_wp s :
  wp (netdev_create_hash junk_table) env s [] (fun r s' tr => exists h o,
    r = Some h /\ tr = [(kmalloc table_size, (h, o))] /\
    (h <> 0 -> s' = St (dev_name_head s) (devices s) empty_table (devs s))).
Proof.
  unfold netdev_create_hash. apply wp_bind_call. intros h o _.
  destruct (Z.eqb_spec h 0) as [->|Hh]; cbn [negb]; [wpure; by eexists _, _|]. wpure.
  apply wp_bind. eapply (wp_for_loop _ _ _ _ _ _ (fun i s' tr =>
    s' = St (dev_name_head s) (devices s)
           (replicate (Z.to_nat i) [] ++ drop (Z.to_nat i) junk_table) (devs s) /\
    tr = [(kmalloc table_size, (h, o))])); [done| |].
  - intros i ? ? Hi [-> ->]. wpure. split; [|done]. simpl.
    rewrite init_heads by lia. by rewrite Z2Nat.inj_add by lia; rewrite Nat.add_comm.
  - intros ? ? [-> ->]. wpure. eexists _, _. split_and!; [done..|]. intros _.
    rewrite drop_ge, app_nil_r; [done|]. by rewrite table_len.
Qed.

(** The table with the ten devices in it. *)
Definition filled (h d : Z) : st :=
  foldl (fun s i => add_device i s) (St h d empty_table junk_devs) (seqZ 0 dev_num).

Lemma filled_lookup h d i :
  0 <= i < dev_num ->
  dev_get_by_name (table (filled h d)) (devs (filled h d)) (bytes_of ("eth" +:+ pretty.pretty i))
    = Some i /\
  net_num <$> devs (filled h d) !! Z.to_nat i = Some i.
Proof.
  intros Hi. change (Z.to_nat dev_num) with 10%nat in devs_len.
  assert (i ∈ [0; 1; 2; 3; 4; 5; 6; 7; 8; 9]) as Hin
    by (unfold dev_num in Hi; rewrite !elem_of_cons; lia).
  unfold filled. clear Hi. revert devs_len. generalize junk_devs as l. intros l Hl.
  do 10 (destruct l as [|[] l]; [done|]). destruct l; [|done]. clear Hl.
  rewrite !elem_of_cons, elem_of_nil in Hin.
  repeat destruct Hin as [->|Hin]; try done; split; vm_compute; reflexivity.
Qed.

Lemma filled_ptrs h d : dev_name_head (filled h d) = h /\ devices (filled h d) = d.
Proof.
  unfold filled. generalize empty_table as t, junk_devs as l.
  induction (seqZ 0 dev_num) as [|i r IH]; intros t l; simpl; [done|].
  unfold add_device at 2 4, link, fill_in. cbn [devs]. by destruct (alter _ _ l !! Z.to_nat i).
Qed.

Lemma filled_eq h d : filled h d =
  foldl (fun s i => add_device i s) (St h d empty_table junk_devs) (seqZ 0 dev_num).
Proof. done. Qed.

#[local] Opaque filled.

Lemma hlist_module_init_wp s :
  wp (hlist_module_init junk_table junk_devs) env s [] (fun r s' tr =>
    (r = Some (- ENOMEM, None) /\ audit tr = Some []) \/
    exists h d x, h <> 0 /\ d <> 0 /\ r = Some (0, Some x) /\ net_num x = 1 /\
      s' = filled h d /\ audit tr = Some [RMem d; RMem h]).
Proof.
  unfold hlist_module_init. apply wp_bind. eapply wp_mono; [apply netdev_create_hash_wp|].
  intros ? s1 ? (h & o & -> & -> & Hs1). wpure. destruct (Z.eqb_spec h 0) as [->|Hh].
  { wpure. by left. }
  rewrite (Hs1 Hh).
  assert (audit [(kmalloc table_size, (h, o))] = Some [RMem h]) as A
    by (apply (audit_acquire [] _ _ _ []); [done|acq]).
  apply wp_bind_call. intros d od _. wpure. destruct (Z.eqb_spec d 0) as [->|Hd].
  { wpure. apply (audit_silent _ (kmalloc (sizeof_net_device * dev_num)) 0 od) in A; [|done..].
    wpop A. wpure. by left. }
  apply (audit_acquire _ (kmalloc (sizeof_net_device * dev_num)) d od _ (RMem d)) in A; [|acq].
  wpure. apply wp_bind. eapply (wp_for_loop _ _ _ _ _ _ (fun i s' tr =>
    s' = foldl (fun s i => add_device i s) (St h d empty_table junk_devs) (seqZ 0 i) /\
    audit tr = Some [RMem d; RMem h])); [done| |].
  { intros i ? ? Hi [-> A']. wpure. split; [|done].
    rewrite seqZ_app by lia. by rewrite foldl_app. }
  clear A. intros ? ? [-> A]. wpure. right.
  change (0 + Z.of_nat (Z.to_nat dev_num)) with dev_num. rewrite <- filled_eq.
  destruct (filled_lookup h d 1) as [E1 E2]; [done|].
  change (pretty.pretty 1) with "1" in E1. change ("eth" +:+ "1") with "eth1" in E1.
  destruct (devs (filled h d) !! Z.to_nat 1) as [x|] eqn:Ex; simplify_eq/=.
  exists h, d, x. rewrite E1. simpl. by rewrite Ex.
Qed.

(** The module's load fills the table and looks up every device under its
    own name (and prints the one of eth1), and its unload frees both arrays;
    when an allocation fails the load returns -ENOMEM with nothing allocated. *)
Theorem hlist_module_spec s0 :
  let '(r, s, tr) := hlist_module_init junk_table junk_devs env s0 [] in
  (r = Some (- ENOMEM, None) /\ audit tr = Some []) \/
  (exists x, r = Some (0, Some x) /\ net_num x = 1 /\
   (forall i, 0 <= i < dev_num ->
      dev_get_by_name (table s) (devs s) (bytes_of ("eth" +:+ pretty.pretty i)) = Some i) /\
   leaves (hlist_module_exit env s tr) = Some []).
Proof.
  pose proof (hlist_module_init_wp s0) as W. unfold wp in W.
  destruct (hlist_module_init junk_table junk_devs env s0 []) as [[r s] tr].
  destruct W as [W|(h & d & x & Hh & Hd & Er & Ex & Es & A)]; [by left|right].
  simpl in Er, Es, A. exists x. split_and!; [done|done| |].
  - intros i Hi. subst s. by apply filled_lookup.
  - assert (dev_name_head s = h /\ devices s = d) as [E1 E2]
      by (subst s; apply filled_ptrs).
    enough (wp hlist_module_exit env s tr (fun _ _ tr => audit tr = Some [])) as W by exact W.
    unfold hlist_module_exit. wpure. rewrite E1, E2. wpop A. wpop A. by wpure.
Qed.
End module_theorems.

Section examples.
(** Two devices of the same name and a third one. *)
Definition ex_devs : list net_device :=
  [NetDevice (bytes_of "eth0") 0; NetDevice (bytes_of "eth1") 1; NetDevice (bytes_of "eth0") 2].

Lemma full_name_hash_spec_witness :
  full_name_hash (bytes_of "eth1") (Z.of_nat 4) = hash_ref (take 4 (bytes_of "eth1")) mod 2 ^ 32.
Proof.
  apply (full_name_hash_spec (bytes_of "eth1") 4); [vm_compute; lia|].
  repeat constructor; discriminate.
Defined.

Definition ex_table : st := St 1 2 empty_table ex_devs.

Lemma ex_distinct : NoDup [1; 0; 2].
Proof. repeat constructor; rewrite ?elem_of_cons, ?elem_of_nil; lia. Defined.

Lemma dev_get_by_name_refines_witness :
  (let s' := foldl (fun s i => link i s) ex_table [1; 0; 2] in
   forall name0, dev_get_by_name (table s') (devs s') name0 =
     head (filter (fun i => matches (devs s') name0 i) (reverse [1; 0; 2]))) /\
  (let s' := foldl (fun s i => add_device i s) ex_table [1; 0; 2] in
   Forall (named s') [1; 0; 2] /\
   (forall i, i ∈ [1; 0; 2] -> dev_get_by_name (table s') (devs s') (eth i) = Some i) /\
   forall name0, dev_get_by_name (table s') (devs s') name0 =
     head (filter (fun i => matches (devs s') name0 i) (reverse [1; 0; 2]))) /\
  forall name0, 0 <= dev_name_hash name0 < NETDEV_HASHENTRIES.
Proof.
  apply (dev_get_by_name_refines ex_table [1; 0; 2]); [reflexivity|exact ex_distinct|].
  repeat constructor; try discriminate; eexists; reflexivity.
Defined.

Example newest_eth0 :
  let s' := foldl (fun s i => link i s) ex_table [0; 1; 2] in
  dev_get_by_name (table s') (devs s') (bytes_of "eth0") = Some 2.
Proof. reflexivity. Qed.

Definition ex_junk : list net_device := replicate 10 (NetDevice (replicate 16 1) 99).

Lemma hlist_module_spec_witness :
  let '(r, s, tr) := hlist_module_init (replicate 256 [7]) ex_junk nice_env (St 0 0 [] []) [] in
  (r = Some (- ENOMEM, None) /\ audit tr = Some []) \/
  (exists x, r = Some (0, Some x) /\ net_num x = 1 /\
   (forall i, 0 <= i < dev_num ->
      dev_get_by_name (table s) (devs s) (bytes_of ("eth" +:+ pretty.pretty i)) = Some i) /\
   leaves (hlist_module_exit nice_env s tr) = Some []).
Proof. exact (hlist_module_spec (replicate 256 [7]) ex_junk nice_env eq_refl eq_refl (St 0 0 [] [])). Defined.

Example hlist_load :
  (fun x => x.1) <$> returns (hlist_module_init (replicate 256 [7]) ex_junk nice_env (St 0 0 [] []) [])
  = Some 0.
Proof. vm_compute. reflexivity. Qed.
End examples.
