(* ===== verification/ListLabs.v ===== *)
(** * data-struct-labs: list.c, taints.c

    Circular doubly linked lists: a module that keeps two entries on a list,
    and one that walks the kernel's list of modules starting from its own
    node.  The list primitives are the kernel's: any type with the operations
    of [Lists] that obeys [ListsSpec], the documented behaviour of list_add,
    list_del and the iterators; an instance is given.  A node is named by its
    address; [clist] is the first member of [my_entry], so an entry and its
    node have the same address. *)

From S2P Require Import Prelude Kernel.

Class Lists (L : Type) := {
  list_add : L -> Z -> Z -> L;     (* new entry, head *)
  list_del : L -> Z -> L;
  list_next : L -> Z -> Z;
  (** The nodes of the ring, each followed by its successor, the last one by
      the first. *)
  ring : L -> list Z
}.

Class ListsSpec (L : Type) `{!Lists L} := {
  ring_add : forall l xs head ys new, NoDup (ring l) -> ring l = xs ++ head :: ys -> new ∉ ring l ->
    ring (list_add l new head) = xs ++ head :: new :: ys;
  ring_del : forall l xs x ys, NoDup (ring l) -> ring l = xs ++ x :: ys ->
    ring (list_del l x) = xs ++ ys;
  ring_next : forall l x y xs ys, NoDup (ring l) -> ring l = xs ++ x :: y :: ys ->
    list_next l x = y;
  ring_last : forall l x xs y, NoDup (ring l) -> ring l = y :: xs ++ [x] -> list_next l x = y;
  ring_alone : forall l x, ring l = [x] -> list_next l x = x
}.

(** ** list.c *)
Module MyList.

Record st (L : Type) := St { my_list : L; val : gmap Z Z }.
Arguments St {L} _ _.
Arguments my_list {L} _.
Arguments val {L} _.

Section module.
Context `{Lists L}.
(** The address of the list head [my_list] and the size of an entry. *)
Context (head : Z) (sizeof_my_entry : Z).

(** The list_for_each loop of my_init: the values printed. *)
Fixpoint show_loop (fuel : nat) (s : st L) (ptr : Z) : outcome (list Z) :=
  match fuel with
  | O => NoFuel
  | S fuel' =>
      if ptr =? head then Done []
      else match val s !! ptr with
           | None => Wild
           | Some v =>
               match show_loop fuel' s (list_next (my_list s) ptr) with
               | Done out => Done (v :: out)
               | Wild => Wild
               | NoFuel => NoFuel
               end
           end
  end.

Definition show (fuel : nat) (s : st L) : outcome (list Z) :=
  show_loop fuel s (list_next (my_list s) head).

Definition my_init (fuel : nat) : M (st L) (Z * outcome (list Z)) :=
  m1 ← call (kmalloc sizeof_my_entry);
  if m1 =? 0 then mret (- ENOMEM, Done [])
  else
    m2 ← call (kmalloc sizeof_my_entry);
    if m2 =? 0 then mret (- ENOMEM, Done [])
    else
      modify (fun s => St (my_list s) (<[m1 := 20]> (val s)));;
      modify (fun s => St (my_list s) (<[m2 := 27]> (val s)));;
      modify (fun s => St (list_add (my_list s) m1 head) (val s));;
      modify (fun s => St (list_add (my_list s) m2 head) (val s));;
      s ← get;
      mret (0, show fuel s).

(** The list_for_each_safe loop of my_exit, from [pos] with its successor
    [tmp] read in advance. *)
Fixpoint exit_loop (fuel : nat) (pos tmp : Z) : M (st L) (outcome (list Z)) :=
  match fuel with
  | O => mret NoFuel
  | S fuel' =>
      if pos =? head then mret (Done [])
      else
        modify (fun s => St (list_del (my_list s) pos) (val s));;
        s ← get;
        match val s !! pos with
        | None => mret Wild
        | Some v =>
            modify (fun s => St (my_list s) (delete pos (val s)));;
            call (kfree pos);;
            s ← get;
            out ← exit_loop fuel' tmp (list_next (my_list s) tmp);
            mret match out with Done o => Done (v :: o) | Wild => Wild | NoFuel => NoFuel end
        end
  end.

Definition my_exit (fuel : nat) : M (st L) (outcome (list Z)) :=
  s ← get;
  let pos := list_next (my_list s) head in
  exit_loop fuel pos (list_next (my_list s) pos).
End module.

End MyList.

(** ** taints.c *)
Module Taints.

Section module.
Context `{Lists L}.

(** The list_for_each_entry loop: the nodes whose [struct module] is printed,
    with the running number. *)
Fixpoint walk (fuel : nat) (l : L) (modules curr j : Z) : outcome (list (Z * Z)) :=
  match fuel with
  | O => NoFuel
  | S fuel' =>
      if curr =? modules then Done []
      else match walk fuel' l modules (list_next l curr) (s32 (j + 1)) with
           | Done out => Done ((j, curr) :: out)
           | Wild => Wild
           | NoFuel => NoFuel
           end
  end.

(** [m] is the list node of THIS_MODULE.  The result is the list of lines. *)
Definition my_init (fuel : nat) (l : L) (m : Z) : outcome (list (Z * Z)) :=
  let j := 0 in
  match walk fuel l m (list_next l m) (s32 (j + 1)) with
  | Done out => Done ((j, m) :: out)
  | Wild => Wild
  | NoFuel => NoFuel
  end.
End module.

End Taints.

(** ** Rings as lists *)

Section instance.
Fixpoint add_after (new head : Z) (l : list Z) : list Z :=
  match l with
  | [] => []
  | x :: l' => if x =? head then x :: new :: l' else x :: add_after new head l'
  end.

Fixpoint next_in (first x : Z) (l : list Z) : Z :=
  match l with
  | [] => x
  | y :: l' => if y =? x then default first (head l') else next_in first x l'
  end.
End instance.

#[export] Instance list_lists : Lists (list Z) := {|
  list_add l new hd := add_after new hd l;
  list_del l x := filter (fun y => y <> x) l;
  list_next l x := next_in (default x (head l)) x l;
  ring l := l
|}.

Lemma filter_ne (x : Z) (l : list Z) : x ∉ l -> filter (fun y => y <> x) l = l.
Proof.
  induction l as [|y l IH]; intros Hx; [done|]. rewrite filter_cons_True by (intros ->; set_solver).
  by rewrite IH by set_solver.
Qed.

#[export] Instance list_lists_spec : ListsSpec (list Z).
Proof.
  split; simpl.
  - intros l xs hd ys new Hn -> _. induction xs as [|x xs IH]; simpl in *; [by rewrite Z.eqb_refl|].
    apply NoDup_cons in Hn as [Hx Hn]. rewrite (proj2 (Z.eqb_neq x hd)); [by rewrite IH|].
    intros ->. apply Hx. set_solver.
  - intros l xs x ys Hn ->. rewrite filter_app, filter_cons_False by tauto.
    apply NoDup_app in Hn as (_ & H1 & [H2 _]%NoDup_cons).
    rewrite !filter_ne; [done|done|]. intros Hx. apply (H1 x Hx). left.
  - intros l x y xs ys Hn ->. generalize (default x (head (xs ++ x :: y :: ys))). intros f.
    induction xs as [|z xs IH]; simpl in *; [by rewrite Z.eqb_refl|].
    apply NoDup_cons in Hn as [Hz Hn]. rewrite (proj2 (Z.eqb_neq z x)); [auto|]. intros ->. set_solver.
  - intros l x xs y Hn ->. simpl. apply NoDup_cons in Hn as [Hy Hn].
    rewrite (proj2 (Z.eqb_neq y x)) by (intros ->; set_solver).
    induction xs as [|z xs IH]; simpl in *; [by rewrite Z.eqb_refl|].
    apply NoDup_cons in Hn as [Hz Hn]. rewrite (proj2 (Z.eqb_neq z x)) by (intros ->; set_solver).
    apply IH; [set_solver|done].
  - intros l x ->. simpl. by rewrite Z.eqb_refl.
Qed.

(** ** Walks *)

Section walks.
Context `{ListsSpec L}.
Implicit Types (l : L).

(** The successor of the head, and of a node of the ring that begins with the
    head. *)
Lemma next_head l hd ns : NoDup (ring l) -> ring l = hd :: ns -> list_next l hd = default hd (head ns).
Proof.
  intros Hn E. destruct ns as [|n ns]; [by apply ring_alone|]. by eapply (ring_next l hd n []).
Qed.

Lemma next_node l hd xs x ys : NoDup (ring l) -> ring l = hd :: xs ++ x :: ys ->
  list_next l x = default hd (head ys).
Proof.
  intros Hn E. destruct ys as [|y ys]; [by eapply ring_last|]. by eapply (ring_next l x y (hd :: xs)).
Qed.
End walks.

Section my_list.
Import MyList.
Context `{ListsSpec L} (hd size : Z) (env : kenv).
Implicit Types (s : st L).

Lemma show_loop_ok fuel s xs ns vs :
  NoDup (ring (my_list s)) -> ring (my_list s) = hd :: xs ++ ns ->
  Forall2 (fun n v => val s !! n = Some v) ns vs -> (length ns < fuel)%nat ->
  show_loop hd fuel s (default hd (head ns)) = Done vs.
Proof.
  intros Hn Hr Hv. revert fuel xs Hr. induction Hv as [|n v ns vs Hnv Hv IH]; intros [|fuel] xs Hr Hf;
    simpl in Hf |- *; try lia.
  - by rewrite Z.eqb_refl.
  - rewrite (proj2 (Z.eqb_neq n hd)), Hnv.
    2: { intros ->. rewrite Hr in Hn. apply NoDup_cons in Hn as [[] _]. set_solver. }
    rewrite (next_node _ hd xs n ns) by done. rewrite (IH fuel (xs ++ [n])); [done| |lia].
    by rewrite <- app_assoc.
Qed.

Lemma vals_delete (m : gmap Z Z) n ns vs :
  n ∉ ns -> Forall2 (fun k v => m !! k = Some v) ns vs ->
  Forall2 (fun k v => delete n m !! k = Some v) ns vs.
Proof.
  intros Hn HF. induction HF as [|k v ns vs Hk _ IH]; constructor; [|apply IH; set_solver].
  rewrite lookup_delete_ne; [done|]. intros ->. apply Hn. left.
Qed.

Lemma exit_loop_ok fuel ns vs rest s tr :
  NoDup (ring (my_list s)) -> ring (my_list s) = hd :: ns ->
  Forall2 (fun n v => val s !! n = Some v) ns vs -> Forall (fun n => n <> 0) ns ->
  held tr ((RMem <$> ns) ++ rest) -> (length ns < fuel)%nat ->
  wp (exit_loop hd fuel (default hd (head ns)) (list_next (my_list s) (default hd (head ns)))) env s tr
    (fun out s' tr' => out = Some (Done vs) /\ ring (my_list s') = [hd] /\ held tr' rest).
Proof.
  revert fuel vs s tr. induction ns as [|n ns IH]; intros [|fuel] vs s tr Hn Hr Hv H0 Hh Hf;
    simpl in Hf; try lia; cbn [exit_loop head from_option id].
  { inversion_clear Hv. rewrite Z.eqb_refl. wpure. done. }
  inversion_clear Hv as [|? v ? vs' Hnv Hv']. rename vs' into vs0.
  apply Forall_cons in H0 as [Hnz H0]. pose proof Hn as Hn'. rewrite Hr in Hn.
  apply NoDup_cons in Hn as [Hhd [Hnn Hn]%NoDup_cons].
  rewrite (proj2 (Z.eqb_neq n hd)) by (intros ->; apply Hhd; left).
  assert (ring (list_del (my_list s) n) = hd :: ns) as Hr' by by apply (ring_del _ [hd] n ns).
  rewrite (next_node (my_list s) hd [] n ns) by done. wpure. cbn [my_list val].
  rewrite Hnv. wpure.
  change (held tr (RMem n :: ((RMem <$> ns) ++ rest))) in Hh.
  eapply (wp_bind_release (RMem n)); [exact Hh|done|by simpl; rewrite if_null|reflexivity|].
  intros r o Hh'. wpure. cbn [my_list val]. apply wp_bind. eapply wp_mono.
  - apply (IH fuel vs0 (St (list_del (my_list s) n) (delete n (val s)))); cbn [my_list val].
    + rewrite Hr'. apply NoDup_cons. set_solver.
    + exact Hr'.
    + by apply vals_delete.
    + done.
    + exact Hh'.
    + lia.
  - intros out s' tr' (-> & Hr2 & Hh2). wpure. done.
Qed.

Context (HG : good_env env).
(** The list head is a static variable of the module. *)
Context (Hhd : forall tr c, alloc_call c = true -> (env tr c).1 <> hd).

Lemma entry_alloc tr r o h :
  env tr (kmalloc size) = (r, o) -> audit tr = Some h ->
  r <> 0 /\ r <> hd /\ (RMem r ∉ h) /\ audit ((kmalloc size, (r, o)) :: tr) = Some (RMem r :: h).
Proof.
  intros E A. destruct (good_alloc env tr (kmalloc size) r o h (RMem r) HG E eq_refl A) as (? & ? & ?); [acq|].
  split_and!; [done| |done..]. specialize (Hhd tr (kmalloc size) eq_refl). by rewrite E in Hhd.
Qed.

Lemma my_init_wp l fuel :
  ring l = [hd] -> (2 < fuel)%nat ->
  wp (my_init hd size fuel) env (St l ∅) [] (fun out s tr =>
    out = Some (0, Done [27; 20]) /\
    exists m1 m2, Forall (fun n => n <> 0) [m2; m1] /\ NoDup (ring (my_list s)) /\
      ring (my_list s) = [hd; m2; m1] /\
      Forall2 (fun n v => val s !! n = Some v) [m2; m1] [27; 20] /\ held tr [RMem m2; RMem m1]).
Proof.
  intros Hl Hf. unfold my_init.
  apply wp_bind_call. intros m1 o1 E1. destruct (entry_alloc _ _ _ [] E1 eq_refl) as (N1 & D1 & _ & A1).
  rewrite if_null by done. apply wp_bind_call. intros m2 o2 E2.
  destruct (entry_alloc _ _ _ _ E2 A1) as (N2 & D2 & F2 & A2). rewrite if_null by done. wpure.
  cbn [my_list val]. assert (m2 <> m1) as D by (intros ->; apply F2; left).
  assert (ring (list_add l m1 hd) = [hd; m1]) as R1.
  { apply (ring_add l [] hd [] m1); [rewrite Hl; apply NoDup_singleton|done|rewrite Hl; set_solver]. }
  assert (NoDup (ring (list_add l m1 hd))) as ND1 by (rewrite R1; repeat constructor; set_solver).
  assert (ring (list_add (list_add l m1 hd) m2 hd) = [hd; m2; m1]) as R2.
  { apply (ring_add _ [] hd [m1] m2); [done|done|rewrite R1; set_solver]. }
  assert (NoDup (ring (list_add (list_add l m1 hd) m2 hd))) as ND2 by (rewrite R2; repeat constructor; set_solver).
  assert (Forall2 (fun n v => <[m2 := 27]> (<[m1 := 20]> ∅ : gmap Z Z) !! n = Some v) [m2; m1] [27; 20]) as HV.
  { constructor; [by simplify_map_eq|]. constructor; [by simplify_map_eq|constructor]. }
  split.
  - do 2 f_equal. unfold show. rewrite (next_head _ hd [m2; m1]) by done.
    by apply (show_loop_ok fuel _ [] [m2; m1]).
  - exists m1, m2. split_and!; [by repeat constructor|done..|]. by apply audit_held.
Qed.

(** C35.  my_init adds both entries at the head of the list and prints them in
    list order, 27 before 20; my_exit then walks the list while it takes it
    apart, prints the same values, frees every entry once and leaves the list
    empty. *)
Theorem list_module_spec l fuel :
  ring l = [hd] -> (2 < fuel)%nat ->
  let '(r, s, tr) := my_init hd size fuel env (St l ∅) [] in
  r = Some (0, Done [27; 20]) /\
  let '(r', s', tr') := my_exit hd fuel env s tr in
  r' = Some (Done [27; 20]) /\ ring (my_list s') = [hd] /\ audit tr' = Some [].
Proof.
  intros Hl Hf. pose proof (my_init_wp l fuel Hl Hf) as W. unfold wp in W.
  destruct (my_init hd size fuel env (St l ∅) []) as [[r s] tr]. simpl in W.
  destruct W as (-> & m1 & m2 & Hnz & Hn & Hr & Hv & Hh). split; [done|].
  pose proof (exit_loop_ok fuel [m2; m1] [27; 20] [] s tr Hn Hr Hv Hnz Hh Hf) as W.
  unfold my_exit. munfold. rewrite (next_head _ hd [m2; m1]) by done. unfold wp in W. simpl in W |- *.
  destruct (exit_loop _ _ _ _ _ _ _) as [[r' s'] tr']. simpl in W. destruct W as (? & ? & ?%held_nil). done.
Qed.
End my_list.

(** ** taints.c *)

Section taints.
Import Taints.
Context `{ListsSpec L} (l : L).

Lemma walk_ok fuel m xs ns j :
  NoDup (ring l) -> ring l = m :: xs ++ ns -> (length ns < fuel)%nat ->
  0 <= j -> j + Z.of_nat (length ns) < 2 ^ 31 ->
  walk fuel l m (default m (head ns)) j = Done (zip (seqZ j (Z.of_nat (length ns))) ns).
Proof.
  intros Hn. revert fuel xs j. induction ns as [|n ns IH]; intros [|fuel] xs j Hr Hf Hj Hb;
    simpl in Hf |- *; try lia.
  - by rewrite Z.eqb_refl.
  - rewrite (proj2 (Z.eqb_neq n m)).
    2: { intros ->. rewrite Hr in Hn. apply NoDup_cons in Hn as [[] _]. set_solver. }
    rewrite (next_node l m xs n ns) by done. simpl in Hb.
    rewrite s32_id by lia. rewrite (IH fuel (xs ++ [n])); [|by rewrite <- app_assoc|lia..].
    rewrite (seqZ_cons j) by lia. simpl. do 4 f_equal. lia.
Qed.

(** Loading taints.c prints its own module and then, numbered on, every
    other node of the ring once in list order from its own node.  The ring
    has the kernel's list head on it, so one of the lines reads the head as
    if it were a module. *)
Theorem taints_walk fuel m ns modules :
  NoDup (ring l) -> ring l = m :: ns -> (length ns < fuel)%nat ->
  Z.of_nat (length ns) + 1 < 2 ^ 31 -> modules ∈ ring l -> modules <> m ->
  my_init fuel l m = Done (zip (seqZ 0 (Z.of_nat (length (ring l)))) (ring l)) /\
  exists j, (j, modules) ∈ zip (seqZ 0 (Z.of_nat (length (ring l)))) (ring l) /\ 0 < j.
Proof.
  intros Hn Hr Hf Hb Hin Hne. split.
  - unfold my_init. rewrite (next_head l m ns) by done. change (s32 (0 + 1)) with 1.
    rewrite (walk_ok fuel m [] ns) by (done || lia). rewrite Hr. cbn [length].
    rewrite (seqZ_cons 0) by lia. cbn [zip zip_with]. do 4 f_equal; lia.
  - rewrite Hr in Hin |- *. apply elem_of_cons in Hin as [?|[i Hi]%list_elem_of_lookup]; [done|].
    exists (Z.of_nat (S i)). split; [|lia]. apply list_elem_of_lookup. exists (S i).
    apply lookup_zip_with_Some. exists (Z.of_nat (S i)), modules. split_and!; [done| |done].
    apply lookup_seqZ. split; [lia|]. apply lookup_lt_Some in Hi. simpl. lia.
Qed.
End taints.

Section examples.
Import MyList.
Lemma ex_head_static tr c : alloc_call c = true -> (nice_env tr c).1 <> 8.
Proof. intros Hc. unfold nice_env. rewrite Hc. pose proof (next_addr_pos tr). simpl. lia. Defined.

Lemma list_module_spec_witness :
  let '(r, s, tr) := my_init 8 24 3 nice_env (St [8] ∅) [] in
  r = Some (0, Done [27; 20]) /\
  let '(r', s', tr') := my_exit 8 3 nice_env s tr in
  r' = Some (Done [27; 20]) /\ ring (my_list s') = [8] /\ audit tr' = Some [].
Proof. apply (list_module_spec 8 24 nice_env nice_env_good ex_head_static [8] 3); [reflexivity|lia]. Defined.

(** Node 5 is this module, 7 the head of the kernel's list. *)
Lemma taints_walk_witness :
  Taints.my_init 4 [5; 6; 7; 9] 5 = Done [(0, 5); (1, 6); (2, 7); (3, 9)].
Proof.
  refine (proj1 (taints_walk [5; 6; 7; 9] 4 5 [6; 7; 9] 7 _ eq_refl _ _ _ _));
    [|simpl; lia|simpl; lia|set_solver|lia].
  repeat constructor; set_solver.
Defined.
End examples.
