(* ===== verification/Kobject.v ===== *)
(** * kobject-ueveng-lab/kobject-event.c

    A sysfs attribute whose writes send uevents: show and store with the C
    conversions of the source, the tables sysfs calls them through, load and
    unload. *)

From stdpp Require Import pretty.
From S2P Require Import Prelude Kernel.

(** enum kobject_action *)
Inductive action := KOBJ_ADD | KOBJ_REMOVE | KOBJ_CHANGE | KOBJ_MOVE | KOBJ_ONLINE | KOBJ_OFFLINE.

(** The attribute's object: the static [flag], [uevent_suppress] of the object,
    and the calls of kobject_uevent with the value of [uevent_suppress] when
    they were made, newest first. *)
Record attr := Attr { flag : Z; uevent_suppress : Z; uevents : list (action * Z) }.

Definition attr0 : attr := Attr 1 0 [].

Definition newline : list Z := [10].

(** sprintf of an unsigned long. *)
Definition format_lu (n : Z) : list Z := bytes_of (pretty (Z.to_N n)).

(** The bytes put into [buf] and their number. *)
Definition att_show (a : attr) : list Z * Z :=
  let out := format_lu (flag a) ++ newline in
  (out, Z.of_nat (length out)).

Definition kobject_uevent (act : action) (a : attr) : attr :=
  Attr (flag a) (uevent_suppress a) ((act, uevent_suppress a) :: uevents a).

Definition set_suppress (v : Z) (a : attr) : attr := Attr (flag a) v (uevents a).

(** [buf] is the text written, of [count] bytes: sysfs puts a NUL behind it. *)
Definition att_store (a : attr) (buf : list Z) (count : Z) : attr * Z :=
  let a1 := Attr (u64 (s8 (default 0 (head buf)) - 48)) (uevent_suppress a) (uevents a) in
  let a2 :=
    match flag a1 with
    | 0 => kobject_uevent KOBJ_ADD a1
    | 1 => kobject_uevent KOBJ_REMOVE a1
    | 2 => kobject_uevent KOBJ_CHANGE a1
    | 3 => kobject_uevent KOBJ_MOVE a1
    | 4 => kobject_uevent KOBJ_ONLINE a1
    | 5 => kobject_uevent KOBJ_OFFLINE a1
    | 6 => set_suppress 1 a1
    | 7 => set_suppress 0 a1
    | _ => a1
    end in
  (a2, count).

(** ** The tables sysfs goes through *)

Definition S_IWUSR : Z := 0x80.
Definition S_IRUGO : Z := 0x124.
Definition EACCES : Z := 13.

(** struct attribute, struct sysfs_ops and struct kobj_type (its other
    members are NULL here). *)
Record attribute := Attribute { a_name : string; a_mode : Z }.
Record sysfs_ops := SysfsOps {
  show : attr -> list Z * Z; store : attr -> list Z -> Z -> attr * Z
}.
Record kobj_type := KobjType { ops : sysfs_ops; release : option (attr -> attr) }.

Definition cld_att : attribute := Attribute "jeff" (Z.lor S_IRUGO S_IWUSR).
Definition att_ops : sysfs_ops := SysfsOps att_show att_store.
Definition cld_type : kobj_type := KobjType att_ops None.

(** A write and a read of the file by its owner or by somebody else: the mode
    decides, then the type's operation is called. *)
Definition mode_bit (owner : bool) (shift : Z) : bool :=
  Z.testbit (a_mode cld_att) (shift + (if owner then 6 else 0)).

Definition sysfs_write (owner : bool) (a : attr) (w : list Z) : attr * Z :=
  if mode_bit owner 1 then store (ops cld_type) a w (Z.of_nat (length w)) else (a, - EACCES).

Definition sysfs_read (owner : bool) (a : attr) : list Z * Z :=
  if mode_bit owner 2 then show (ops cld_type) a else ([], - EACCES).

(** ** Load and unload *)

(** [child_kset] is [child->kset]. *)
Record st := St { parent : Z; child : Z; c_kset : Z; child_kset : Z }.
Definition st0 : st := St 0 0 0 0.

Section module.
Context (sizeof_kobject : Z).

Definition kobj_init : M st Z :=
  p ← call (kobject_create_and_add "dir_obj" 0);
  modify (fun s => St p (child s) (c_kset s) (child_kset s));;
  c ← call (kzalloc sizeof_kobject);
  modify (fun s => St (parent s) c (c_kset s) 0);;
  if c =? 0 then mret (PTR_ERR c)
  else
    k ← call (kset_create_and_add "c_kset" p);
    modify (fun s => St (parent s) (child s) k (child_kset s));;
    if k =? 0 then mret (-1)
    else
      err ← call (kobject_init_and_add c p "c_obj");
      if negb (err =? 0) then mret err
      else
        modify (fun s => St (parent s) (child s) (c_kset s) (c_kset s));;
        err ← call (sysfs_create_file c);
        mret err.

(** The removal functions use the object they are given. *)
Definition with_obj (k : Z) (c : kcall) : M st () :=
  if k =? 0 then oops else call c;; mret ().

Definition kobj_exit : M st () :=
  s ← get;
  with_obj (child s) (sysfs_remove_file (child s));;
  call (kset_unregister (c_kset s));;
  call (kobject_del (child s));;
  call (kobject_del (parent s));;
  mret ().
End module.

(** ** What user space sees *)

(** Events of an object with [uevent_suppress] set are not sent. *)
Definition sent (a : attr) : list action :=
  reverse (omap (fun e => if e.2 =? 0 then Some e.1 else None) (uevents a)).

Definition stores (a : attr) (ws : list (list Z)) : attr :=
  foldl (fun a w => (att_store a w (Z.of_nat (length w))).1) a ws.

(** The reference: what a sequence of written digits announces. *)
Definition action_of (d : Z) : option action :=
  [KOBJ_ADD; KOBJ_REMOVE; KOBJ_CHANGE; KOBJ_MOVE; KOBJ_ONLINE; KOBJ_OFFLINE] !! Z.to_nat d.

Fixpoint announced (quiet : bool) (ds : list Z) : list action :=
  match ds with
  | [] => []
  | d :: ds' =>
      if d =? 6 then announced true ds'
      else if d =? 7 then announced false ds'
      else (if quiet then [] else option_list (action_of d)) ++ announced quiet ds'
  end.

(** A write that begins with the digit [d]. *)
Definition digit_text (d : Z) (w : list Z) : Prop := head w = Some (48 + d).

Lemma store_digit a d w n :
  0 <= d <= 9 -> digit_text d w ->
  att_store a w n = (
    let a1 := Attr d (uevent_suppress a) (uevents a) in
    if d =? 6 then set_suppress 1 a1 else if d =? 7 then set_suppress 0 a1
    else match action_of d with Some act => kobject_uevent act a1 | None => a1 end, n).
Proof.
  intros Hd Hw. destruct w as [|c w]; [done|]. injection Hw as ->. unfold att_store.
  assert (d = 0 \/ d = 1 \/ d = 2 \/ d = 3 \/ d = 4 \/ d = 5 \/ d = 6 \/ d = 7 \/ d = 8 \/ d = 9) as Hc by lia.
  repeat destruct Hc as [->|Hc]; [reflexivity..|subst; reflexivity].
Qed.

(** The attribute keeps what was written: after a write that begins with
    a digit a read by anybody returns that digit and a newline, two bytes, and
    the write reports all its bytes as taken.  Only the owner can write. *)
Theorem att_store_show a d w reader :
  0 <= d <= 9 -> digit_text d w ->
  (let '(a', n) := sysfs_write true a w in
   n = Z.of_nat (length w) /\ sysfs_read reader a' = ([48 + d; 10], 2)) /\
  sysfs_write false a w = (a, - EACCES).
Proof.
  intros Hd Hw. split; [|reflexivity].
  change (sysfs_write true a w) with (att_store a w (Z.of_nat (length w))).
  assert (forall x, sysfs_read reader x = att_show x) as Hr by (by destruct reader).
  rewrite (store_digit a d w) by done. split; [done|]. rewrite Hr.
  assert (d = 0 \/ d = 1 \/ d = 2 \/ d = 3 \/ d = 4 \/ d = 5 \/ d = 6 \/ d = 7 \/ d = 8 \/ d = 9) as Hc by lia.
  repeat destruct Hc as [->|Hc]; [reflexivity..|subst; reflexivity].
Qed.

Lemma sent_uevent act a : uevent_suppress a = 0 -> sent (kobject_uevent act a) = sent a ++ [act].
Proof. intros E. unfold sent, kobject_uevent. simpl. rewrite E. simpl. by rewrite reverse_cons. Qed.

Lemma sent_suppressed act a : uevent_suppress a <> 0 -> sent (kobject_uevent act a) = sent a.
Proof. intros E. unfold sent, kobject_uevent. simpl. by rewrite (proj2 (Z.eqb_neq _ _)). Qed.

(** C37.  Whatever digits are written one after the other, user space sees the
    action of each of 0 to 5 in the order written, except between a 6 and
    the next 7, which switch the events off and on. *)
Theorem kobj_events a ds ws :
  Forall (fun d => 0 <= d <= 9) ds -> Forall2 digit_text ds ws ->
  sent (stores a ws) = sent a ++ announced (negb (uevent_suppress a =? 0)) ds.
Proof.
  intros Hd HF. revert a. induction HF as [|d w ds ws Hw _ IH]; intros a; [by rewrite app_nil_r|].
  apply Forall_cons in Hd as [Hd Hds]. specialize (IH Hds). cbn [stores foldl].
  change (foldl _ ?x ws) with (stores x ws). rewrite IH, (store_digit a d w) by done. cbn [fst announced].
  destruct (Z.eqb_spec d 6) as [->|H6]; [done|]. destruct (Z.eqb_spec d 7) as [->|H7]; [done|].
  destruct (action_of d) as [act|]; [|cbn [uevent_suppress]; by destruct (uevent_suppress a =? 0)].
  destruct (Z.eqb_spec (uevent_suppress a) 0) as [E|E].
  - rewrite sent_uevent by done. cbn [uevent_suppress kobject_uevent]. rewrite E. simpl.
    by rewrite <- app_assoc.
  - rewrite sent_suppressed by done. cbn [uevent_suppress kobject_uevent].
    by rewrite (proj2 (Z.eqb_neq _ _)).
Qed.

(** kobj_init reports success when the child object cannot be allocated:
    PTR_ERR of NULL is 0, so the module stays loaded without its child, and
    unloading it uses the NULL pointer. *)
Theorem kobj_init_hides_failure size env :
  (env [(kobject_create_and_add "dir_obj" 0, env [] (kobject_create_and_add "dir_obj" 0))]
     (kzalloc size)).1 = 0 ->
  let '(r, s, tr) := kobj_init size env st0 [] in
  r = Some 0 /\ child s = 0 /\ returns (kobj_exit env s tr) = None.
Proof.
  intros E. unfold kobj_init. munfold. simpl. rewrite E. simpl. split_and!; [done..|].
  unfold returns, kobj_exit, with_obj. munfold. done.
Qed.

Section examples.
Lemma att_store_show_witness :
  (let '(a', n) := sysfs_write true attr0 (bytes_of "4x") in
   n = 2 /\ sysfs_read false a' = ([52; 10], 2)) /\
  sysfs_write false attr0 (bytes_of "4x") = (attr0, - EACCES).
Proof. apply (att_store_show attr0 4 (bytes_of "4x") false); [lia|reflexivity]. Defined.

Lemma kobj_events_witness :
  sent (stores attr0 (bytes_of <$> ["0"; "6"; "1"; "7"; "5"])) = [KOBJ_ADD; KOBJ_OFFLINE].
Proof.
  apply (kobj_events attr0 [0; 6; 1; 7; 5] (bytes_of <$> ["0"; "6"; "1"; "7"; "5"])).
  - repeat constructor; lia.
  - repeat constructor.
Defined.

Definition ex_env : kenv := fun tr c => match c with kzalloc _ => (0, 0) | _ => (4096, 0) end.

Lemma kobj_init_hides_failure_witness :
  let '(r, s, tr) := kobj_init 64 ex_env st0 [] in
  r = Some 0 /\ child s = 0 /\ returns (kobj_exit ex_env s tr) = None.
Proof. apply (kobj_init_hides_failure 64 ex_env). reflexivity. Defined.
End examples.
