(* ===== verification/Poll.v ===== *)
(** * poll-labs/poll.c

    A misc device with a wait queue per open file: open, release, poll, the
    ioctls that wake the pollers, and the files that use them. *)

From S2P Require Import Prelude Kernel.

Definition POLLIN : Z := 1.
Definition sizeof_polldev : Z := 32.

(** [wq] is the list of the processes that poll. *)
Record polldev := PollDev { wq : list Z; state : Z }.

(** The open files with their [private_data], and the [polldev] structures in
    memory. *)
Record st := St { files : gmap Z Z; pds : gmap Z polldev }.
Definition st0 : st := St ∅ ∅.
Definition set_pds p s := St (files s) p.
Definition set_files f s := St f (pds s).

(** The function ends without a return statement: [ret] is what the caller
    finds as its value.  The result is [private_data] and the value. *)
Definition kern_open (ret : Z) : M st (Z * Z) :=
  pd ← call (kmalloc sizeof_polldev);
  if IS_ERR pd then mret (0, s32 (PTR_ERR pd))
  else if pd =? 0 then oops   (* init_waitqueue_head(&pd->wq) *)
  else
    modify (fun s => set_pds (<[pd := PollDev [] 0]> (pds s)) s);;
    mret (pd, ret).

Definition kern_release (pd : Z) : M st Z :=
  modify (fun s => set_pds (delete pd (pds s)) s);;
  call (kfree pd);;
  mret 0.

(** [mask] is never assigned; [who] polls. *)
Definition kern_poll (mask : Z) (pd who : Z) : M st Z :=
  s ← get;
  match pds s !! pd with
  | None => oops
  | Some d =>
      modify (set_pds (<[pd := PollDev (who :: wq d) (state d)]> (pds s)));;
      mret (u32 mask)
  end.

(** The return value and the processes wake_up_all wakes. *)
Definition kern_unlocked_ioctl (pd cmd : Z) : M st (Z * list Z) :=
  s ← get;
  match pds s !! pd with
  | None => oops
  | Some d =>
      match cmd with
      | 1 =>
          modify (set_pds (<[pd := PollDev (wq d) POLLIN]> (pds s)));;
          mret (0, wq d)
      | 2 =>
          modify (set_pds (<[pd := PollDev (wq d) 0]> (pds s)));;
          mret (0, wq d)
      | _ => mret (- ENOTTY, [])
      end
  end.

Definition my_init : M st Z :=
  r ← call (misc_register "mycdev");
  if negb (r =? 0) then mret (- EBUSY) else mret 0.

Definition my_exit : M st () :=
  call (misc_deregister "mycdev");; mret ().

(** ** Open files

    The file layer calls open once per file, the other operations while the
    file is open, and release once; a value other than 0 from open means that
    the file was not opened. *)
Inductive op :=
  | Open (f ret : Z) | Ioctl (f cmd : Z) | DoPoll (f who mask : Z) | Release (f : Z).

Definition exec (o : op) : M st () :=
  s ← get;
  match o with
  | Open f ret =>
      if decide (files s !! f = None) then
        '(pd, r) ← kern_open ret;
        if r =? 0 then modify (fun s => set_files (<[f := pd]> (files s)) s) else mret ()
      else mret ()
  | Ioctl f cmd =>
      match files s !! f with
      | Some pd => kern_unlocked_ioctl pd cmd;; mret () | None => mret () end
  | DoPoll f who mask =>
      match files s !! f with Some pd => kern_poll mask pd who;; mret () | None => mret () end
  | Release f =>
      match files s !! f with
      | Some pd => kern_release pd;; modify (fun s => set_files (delete f (files s)) s)
      | None => mret ()
      end
  end.

Fixpoint session (l : list op) : M st () :=
  match l with
  | [] => mret ()
  | o :: l' => exec o;; session l'
  end.

Section sessions.
Context (env : kenv) (HG : good_env env).
(** An address that kmalloc returns is not an error value. *)
Context (Hptr : forall tr, IS_ERR (env tr (kmalloc sizeof_polldev)).1 = false).

Definition opened (s : st) : list Z := (map_to_list (files s)).*2.

(** The structures held are those of the open files. *)
Definition inv (s : st) (tr : trace) : Prop :=
  held tr (RMem <$> opened s) /\ NoDup (opened s) /\
  Forall (fun pd => pd <> 0 /\ is_Some (pds s !! pd)) (opened s).

(** open finds 0 as the value of kern_open. *)
Definition open_ok (o : op) : Prop :=
  match o with Open _ ret => ret = 0 | _ => True end.

Lemma opened_In s f pd : files s !! f = Some pd -> pd ∈ opened s.
Proof.
  intros E. unfold opened. apply list_elem_of_fmap. exists (f, pd). split; [done|].
  by apply elem_of_map_to_list.
Qed.

(** An update of one structure in place. *)
Lemma inv_update s tr pd d :
  inv s tr -> is_Some (pds s !! pd) -> inv (set_pds (<[pd := d]> (pds s)) s) tr.
Proof.
  intros (Hh & Hn & Hf) Hd. split_and!; [done..|]. eapply Forall_impl; [exact Hf|].
  intros x [H0 Hx]. split; [done|]. simpl. destruct (decide (x = pd)) as [->|]; by simplify_map_eq.
Qed.

(** The handlers on their own, with [F] the files that are open: they do not
    look at the table of files. *)
Lemma kern_open_wp s tr F :
  inv (set_files F s) tr ->
  wp (kern_open 0) env s tr (fun a s' tr' => exists pd, a = Some (pd, 0) /\ files s' = files s /\
    forall f, F !! f = None -> inv (set_files (<[f := pd]> F) s') tr').
Proof.
  intros ((h & A & Hp) & Hn & HF). unfold kern_open.
  apply wp_bind_call. intros pd o E. pose proof (Hptr tr) as Hpt. rewrite E in Hpt. cbn [fst] in Hpt. rewrite Hpt.
  destruct (good_alloc env tr _ pd o h (RMem pd) HG E eq_refl A) as (H0 & Hnew & A'); [acq|].
  rewrite if_null by done. wpure. exists pd. split_and!; [done..|]. intros f Hf.
  assert (opened (set_files (<[f := pd]> F) (set_pds (<[pd := PollDev [] 0]> (pds s)) s))
    ≡ₚ pd :: opened (set_files F s)) as Ho.
  { unfold opened. simpl. by rewrite map_to_list_insert. }
  assert (pd ∉ opened (set_files F s)) as Hnin.
  { intros Hin. apply Hnew. rewrite Hp. by apply list_elem_of_fmap_2. }
  split_and!.
  - eexists. split; [exact A'|]. rewrite Ho, Hp. done.
  - rewrite Ho. by constructor.
  - rewrite Ho. constructor; [by split; [|simpl; simplify_map_eq]|].
    apply Forall_forall. intros x Hx. rewrite Forall_forall in HF. destruct (HF x Hx) as [? Hs]. split; [done|].
    simpl. rewrite lookup_insert_ne; [done|]. intros ->. done.
Qed.

Lemma kern_release_wp s tr F f pd :
  inv (set_files F s) tr -> F !! f = Some pd ->
  wp (kern_release pd) env s tr (fun a s' tr' => a = Some 0 /\ files s' = files s /\
    inv (set_files (delete f F) s') tr').
Proof.
  intros (Hh & Hn & HF) Hf. unfold kern_release. wpure.
  assert (opened (set_files F s) ≡ₚ pd :: opened (set_files (delete f F) s)) as Ho.
  { unfold opened. simpl. rewrite <- (map_to_list_delete _ _ _ Hf). done. }
  assert (pd <> 0) as H0.
  { rewrite Forall_forall in HF. by destruct (HF pd (opened_In (set_files F s) _ _ Hf)). }
  rewrite Ho in Hn, HF. apply NoDup_cons in Hn as [Hnin Hn]. apply Forall_cons in HF as [_ HF].
  eapply (wp_bind_release (RMem pd) _ (RMem <$> opened (set_files (delete f F) s)));
    [exact Hh|done|by simpl; rewrite if_null|by rewrite Ho|].
  intros r o Hh'. wpure. split; [done|]. split; [done|]. split_and!; [exact Hh'|exact Hn|].
  apply Forall_forall. intros x Hx. rewrite Forall_forall in HF. destruct (HF x Hx) as [? Hs].
  split; [done|]. simpl. rewrite lookup_delete_ne; [done|]. intros ->. done.
Qed.

Lemma inv_file s tr F f pd :
  inv (set_files F s) tr -> F !! f = Some pd -> is_Some (pds s !! pd).
Proof.
  intros (_ & _ & HF) Hf. rewrite Forall_forall in HF.
  by destruct (HF pd (opened_In (set_files F s) _ _ Hf)).
Qed.

Lemma kern_ioctl_wp s tr F f pd cmd :
  inv (set_files F s) tr -> F !! f = Some pd ->
  wp (kern_unlocked_ioctl pd cmd) env s tr (fun a s' tr' => is_Some a /\ files s' = files s /\
    inv (set_files F s') tr').
Proof.
  intros Hi Hf. destruct (inv_file _ _ _ _ _ Hi Hf) as [d Hd]. unfold kern_unlocked_ioctl. wpure.
  rewrite Hd. destruct cmd as [|[|[]|]|]; wpure; (split_and!; [by eauto|done|]); try done;
    by apply (inv_update (set_files F s)); [|exists d].
Qed.

Lemma kern_poll_wp s tr F f pd who mask :
  inv (set_files F s) tr -> F !! f = Some pd ->
  wp (kern_poll mask pd who) env s tr (fun a s' tr' => is_Some a /\ files s' = files s /\
    inv (set_files F s') tr').
Proof.
  intros Hi Hf. destruct (inv_file _ _ _ _ _ Hi Hf) as [d Hd]. unfold kern_poll. wpure.
  rewrite Hd. wpure. split_and!; [by eauto|done|]. by apply (inv_update (set_files F s)); [|exists d].
Qed.

Lemma set_files_self s : set_files (files s) s = s.
Proof. by destruct s. Qed.

Lemma exec_wp o s tr :
  open_ok o -> inv s tr -> wp (exec o) env s tr (fun a s' tr' => a = Some () /\ inv s' tr').
Proof.
  intros Ho Hi. rewrite <- (set_files_self s) in Hi. unfold exec. wpure.
  destruct o as [f ret|f cmd|f who mask|f]; simpl in Ho.
  - subst. case_decide as Hf; [|wpure; by rewrite set_files_self in Hi]. apply wp_bind.
    eapply wp_mono; [by apply kern_open_wp|]. intros a s' tr' (pd & -> & Es & Hn). simpl.
    apply wp_modify. rewrite Es. split; [done|]. by apply Hn.
  - destruct (files s !! f) as [pd|] eqn:Hf; [|wpure; by rewrite set_files_self in Hi].
    apply wp_bind. eapply wp_mono; [by eapply kern_ioctl_wp|]. intros a s' tr' ([v ->] & Es & Hn).
    wpure. rewrite <- Es, set_files_self in Hn. done.
  - destruct (files s !! f) as [pd|] eqn:Hf; [|wpure; by rewrite set_files_self in Hi].
    apply wp_bind. eapply wp_mono; [by eapply kern_poll_wp|]. intros a s' tr' ([v ->] & Es & Hn).
    wpure. rewrite <- Es, set_files_self in Hn. done.
  - destruct (files s !! f) as [pd|] eqn:Hf; [|wpure; by rewrite set_files_self in Hi].
    apply wp_bind. eapply wp_mono; [by eapply kern_release_wp|]. intros a s' tr' (-> & Es & Hn).
    apply wp_modify. rewrite Es. done.
Qed.

(** C21.  However opens, ioctls, polls and releases of any number of files
    follow each other, no operation touches a structure that is not there,
    and the structures held are exactly those of the files open at the end;
    after the last release nothing is left.  That needs kern_open, which has no
    return statement, to be seen to return 0. *)
Theorem poll_sessions l :
  Forall open_ok l ->
  let '(r, s, tr) := session l env st0 [] in
  r = Some () /\ held tr (RMem <$> opened s) /\ (files s = ∅ -> audit tr = Some []).
Proof.
  intros Hl.
  enough (forall s tr, inv s tr -> wp (session l) env s tr (fun r s tr => r = Some () /\ inv s tr)) as W.
  { specialize (W st0 []). unfold wp in W. destruct (session l env st0 []) as [[r s] tr]. simpl in W.
    destruct W as (-> & Hh & _).
    { split_and!; [by exists []|constructor|constructor]. }
    split_and!; [done..|]. intros E. apply held_nil. unfold opened in Hh. by rewrite E in Hh. }
  induction Hl as [|o l Ho _ IH]; intros s tr Hi; simpl; [by wpure|].
  apply wp_bind. eapply wp_mono; [by apply exec_wp|]. intros a s' tr' [-> Hi']. by apply IH.
Qed.

(** When open finds anything but 0, the file is not opened and its
    structure is never released. *)
Theorem poll_open_leaks f ret :
  ret <> 0 ->
  let '(r, s, tr) := exec (Open f ret) env st0 [] in
  r = Some () /\ files s = ∅ /\ exists pd, audit tr = Some [RMem pd].
Proof.
  intros Hr.
  enough (wp (exec (Open f ret)) env st0 [] (fun r s tr =>
    r = Some () /\ files s = ∅ /\ exists pd, audit tr = Some [RMem pd])) as W.
  { unfold wp in W. by destruct (exec (Open f ret) env st0 []) as [[? ?] ?]. }
  unfold exec. wpure. rewrite decide_True by done. unfold kern_open. wpure.
  apply wp_bind_call. intros pd o E. pose proof (Hptr []) as Hpt. rewrite E in Hpt. cbn [fst] in Hpt. rewrite Hpt.
  destruct (good_alloc env [] _ pd o [] (RMem pd) HG E eq_refl eq_refl) as (H0 & _ & A); [acq|].
  rewrite if_null by done. wpure. rewrite (proj2 (Z.eqb_neq ret 0)) by done. wpure. eauto.
Qed.
End sessions.

(** The ioctls wake exactly the processes that poll this file and record
    the event in its structure, and leave the other files alone; but a process
    that is woken and polls again is told whatever the uninitialised mask
    holds, not the recorded state. *)
Theorem poll_wake s env tr pd d cmd mask who :
  pds s !! pd = Some d -> cmd = 1 \/ cmd = 2 ->
  exists s', kern_unlocked_ioctl pd cmd env s tr = (Some (0, wq d), s', tr) /\
    pds s' !! pd = Some (PollDev (wq d) (if cmd =? 1 then POLLIN else 0)) /\
    (forall pd', pd' <> pd -> pds s' !! pd' = pds s !! pd') /\
    returns (kern_poll mask pd who env s' tr) = Some (u32 mask).
Proof.
  intros Hd Hc. unfold kern_unlocked_ioctl, returns, kern_poll. munfold. simpl. rewrite Hd.
  destruct Hc as [-> | ->]; eexists; (split; [reflexivity|]); simpl;
    (split_and!; [by simplify_map_eq|intros; by simplify_map_eq|by simplify_map_eq]).
Qed.

Section examples.
(** A kernel whose objects are clear of the error values. *)
Definition far_env : kenv := fun tr c =>
  if alloc_call c then (2 ^ 64 + next_addr tr, 0) else (0, 0).

Lemma far_env_good : good_env far_env.
Proof.
  split_and!; [|intros tr c Hc; unfold far_env; rewrite Hc; pose proof (next_addr_pos tr); simpl; lia|done].
  intros tr c h x Hc Ha Hx Hin. unfold far_env in Hx. rewrite Hc in Hx. cbn [fst snd] in Hx.
  assert (alloc_addr x = Some (2 ^ 64 + next_addr tr)) as Hp.
  { destruct c; try done; cbn [acquired] in Hx; destruct (_ =? 0); by simplify_eq. }
  pose proof (held_addr _ _ _ _ Ha Hin Hp). unfold next_addr in *. lia.
Defined.

Lemma far_ptr tr : IS_ERR (far_env tr (kmalloc sizeof_polldev)).1 = false.
Proof.
  unfold IS_ERR, far_env. cbn [alloc_call fst]. pose proof (next_addr_pos tr).
  apply andb_false_intro2, Z.ltb_ge. lia.
Defined.

Lemma poll_sessions_witness :
  let '(r, s, tr) := session [Open 1 0; Open 2 0; DoPoll 1 7 0; Ioctl 1 1; Release 1; Release 2] far_env st0 [] in
  r = Some () /\ held tr (RMem <$> opened s) /\ (files s = ∅ -> audit tr = Some []).
Proof. apply (poll_sessions far_env far_env_good far_ptr). repeat constructor. Defined.

Lemma poll_open_leaks_witness :
  let '(r, s, tr) := exec (Open 1 (-5)) far_env st0 [] in
  r = Some () /\ files s = ∅ /\ exists pd, audit tr = Some [RMem pd].
Proof. apply (poll_open_leaks far_env far_env_good far_ptr). lia. Defined.

Definition ex_st : st := St {[1 := 4096]} {[4096 := PollDev [7; 8] 0]}.

Lemma poll_wake_witness : exists s',
  kern_unlocked_ioctl 4096 1 nice_env ex_st [] = (Some (0, [7; 8]), s', []).
Proof.
  destruct (poll_wake ex_st nice_env [] 4096 (PollDev [7; 8] 0) 1 12345 7) as (s' & E & _);
    [reflexivity|by left|]. exists s'. exact E.
Defined.
End examples.
