(* ===== verification/Vfs.v ===== *)
(** * The character devices behind their file operation tables

    A driver hands the kernel a [struct file_operations]; from then on every
    system call on an open file is dispatched through it.  This file has the
    tables of lab-misc.c, lab-char.c, poll.c, mmap.c and mmap-root.c, the part
    of the file layer that calls through them, and an interface: what a driver
    promises of each of its operations, so that no sequence of system calls,
    unloading included, breaks it. *)

From S2P Require Import LabMisc LabChar Poll MmapLab MmapRoot.
From S2P Require Import Prelude CMem PhysMem Kernel.

Definition ENXIO : Z := 6.
Definition ENODEV : Z := 19.

(** ** struct file_operations *)

(** [f_pos] and [private_data] of struct file. *)
Record file := File { f_pos : Z; private_data : Z }.

(** The members the labs use, NULL as [None]; [S] is the state of the driver,
    [pt] the page tables of the calling process.  open delivers
    [private_data] and its value; read the bytes for the caller, the new
    position and its value; write the new position and its value; ioctl its
    value and the processes woken. *)
Record file_operations (S pt : Type) := FileOps {
  owner : bool;
  fo_open : option (M S (Z * Z));
  fo_read : option ((Z -> Z) -> Z -> file -> M S (list Z * Z * Z));
  fo_write : option ((Z -> Z) -> list Z -> file -> M S (Z * Z));
  fo_ioctl : option (Z -> file -> M S (Z * list Z));
  fo_poll : option (Z -> file -> M S Z);
  fo_mmap : option (pt -> vma -> pt * Z);
  fo_release : option (file -> M S Z)
}.
Arguments FileOps {S pt}.
Arguments owner {S pt}.
Arguments fo_open {S pt}.
Arguments fo_read {S pt}.
Arguments fo_write {S pt}.
Arguments fo_ioctl {S pt}.
Arguments fo_poll {S pt}.
Arguments fo_mmap {S pt}.
Arguments fo_release {S pt}.

(** struct miscdevice, and the cdev of a device that has one: what they add to
    the table is the name and, for a cdev, an owner of its own. *)
Definition MISC_DYNAMIC_MINOR : Z := 255.

Record miscdevice (S pt : Type) := Misc {
  minor : Z; name : string; misc_fops : file_operations S pt
}.
Arguments Misc {S pt}.
Arguments misc_fops {S pt}.

(** A handler that fails on a wild access is an oops. *)
Definition lift {S A} (f : S -> option A) : M S A :=
  s ← get; match f s with Some a => mret a | None => oops end.

(** ** The tables *)

Section tables.
Context {pt : Type} `{!Remap pt}.

Definition misc_fops_read (left : Z -> Z) (lbuf : Z) (f : file) : M LabMisc.st (list Z * Z * Z) :=
  lift (fun s => mycdev_generic_read s left lbuf (f_pos f)).

Definition misc_fops_write (left : Z -> Z) (buf : list Z) (f : file) : M LabMisc.st (Z * Z) :=
  '(s', p, n) ← lift (fun s => mycdev_generic_write s left buf (Z.of_nat (length buf)) (f_pos f));
  modify (fun _ => s');; mret (p, n).

(** lab-misc.c; [private_data] is not used. *)
Definition mycdev_fops : file_operations LabMisc.st pt := {|
  owner := true;
  fo_open := Some (s ← get; modify (fun s => (mycdev_generic_open s).1);;
                   mret (0, (mycdev_generic_open s).2));
  fo_read := Some misc_fops_read;
  fo_write := Some misc_fops_write;
  fo_ioctl := None; fo_poll := None; fo_mmap := None;
  fo_release := Some (fun _ => s ← get; mret (mycdev_generic_release s).2)
|}.

Definition my_misc_device : miscdevice LabMisc.st pt := Misc MISC_DYNAMIC_MINOR "mycdev" mycdev_fops.

(** lab-char.c: a static variable nobody fills in. *)
Definition char_fops : file_operations LabChar.st pt := {|
  owner := false; fo_open := None; fo_read := None; fo_write := None; fo_ioctl := None;
  fo_poll := None; fo_mmap := None; fo_release := None
|}.

(** poll.c; [ret] and [mask] are what the caller finds where kern_open returns
    nothing and kern_poll an unassigned variable. *)
Definition poll_fops (ret mask : Z) : file_operations Poll.st pt := {|
  owner := true;
  fo_open := Some (kern_open ret);
  fo_read := None; fo_write := None;
  fo_ioctl := Some (fun cmd f => kern_unlocked_ioctl (private_data f) cmd);
  fo_poll := Some (fun who f => kern_poll mask (private_data f) who);
  fo_mmap := None;
  fo_release := Some (fun f => kern_release (private_data f))
|}.

Definition poll_device (ret mask : Z) : miscdevice Poll.st pt :=
  Misc MISC_DYNAMIC_MINOR "mycdev" (poll_fops ret mask).

(** mmap.c *)
Definition mmap_fops : file_operations MmapLab.st pt := {|
  owner := true;
  fo_open := Some (mret (0, demo_open));
  fo_read := None; fo_write := None; fo_ioctl := None; fo_poll := None;
  fo_mmap := Some demo_mmap;
  fo_release := Some (fun _ => mret demo_release)
|}.

(** mmap-root.c, which has no owner in its table. *)
Definition root_fops : file_operations Cve.st pt := {|
  owner := false;
  fo_open := Some (mret (0, Cve.dev_open));
  fo_read := None; fo_write := None; fo_ioctl := None; fo_poll := None;
  fo_mmap := Some Cve.simple_mmap;
  fo_release := Some (fun f => Cve.dev_release (private_data f))
|}.
End tables.

(** ** The file layer *)

(** A registered device: its table, and whether its cdev names an owner; the
    module stays loaded while a file is open when one of the two does. *)
Record chardev (S pt : Type) := CharDev { fops : file_operations S pt; cdev_owner : bool }.
Arguments CharDev {S pt}.
Arguments fops {S pt}.
Arguments cdev_owner {S pt}.

Definition pinned {S pt} (d : chardev S pt) : bool := owner (fops d) || cdev_owner d.

Record world (S pt : Type) := World { drv : S; ftab : gmap Z file; pages : pt; loaded : bool }.
Arguments World {S pt}.
Arguments drv {S pt}.
Arguments ftab {S pt}.
Arguments pages {S pt}.
Arguments loaded {S pt}.

Inductive syscall :=
  | SysOpen | SysRead (fd : Z) (copy : Z -> Z) (n : Z) | SysWrite (fd : Z) (copy : Z -> Z) (buf : list Z)
  | SysPread (fd : Z) (copy : Z -> Z) (n pos : Z) | SysPwrite (fd : Z) (copy : Z -> Z) (buf : list Z) (pos : Z)
  | SysIoctl (fd cmd : Z) | SysPoll (fd who : Z) | SysMmap (fd : Z) (v : vma)
  | SysClose (fd : Z) | Rmmod.

Section calls.
Context {S pt : Type} (d : chardev S pt).
Abbreviation W := (world S pt).

(** Code of the driver, on its own state. *)
Definition zoom {A} (c : M S A) : M W A := fun env w tr =>
  match c env (drv w) tr with
  | (a, s, tr') => (a, World s (ftab w) (pages w) (loaded w), tr')
  end.

Definition set_ftab (f : gmap Z file -> gmap Z file) : M W () :=
  modify (fun w => World (drv w) (f (ftab w)) (pages w) (loaded w)).

(** The table of an open file is memory of the module: it must still be
    there, even when the member looked for is NULL. *)
Definition with_file (fd : Z) (k : file -> M W Z) : M W Z :=
  w ← get;
  match ftab w !! fd with
  | None => mret (- EBADF)
  | Some f => if loaded w then k f else oops
  end.

(** A new descriptor is one that is not in use. *)
Definition sys_open : M W Z :=
  w ← get;
  if negb (loaded w) then mret (- ENXIO)
  else
    let fd := fresh (dom (ftab w)) in
    '(pd, r) ← match fo_open (fops d) with None => mret (0, 0) | Some op => zoom op end;
    if r =? 0 then set_ftab (<[fd := File 0 pd]>);; mret fd else mret r.

Definition do_call (c : syscall) : M W Z :=
  match c with
  | SysOpen => sys_open
  | SysRead fd copy n => with_file fd (fun f =>
      match fo_read (fops d) with
      | None => mret (- EINVAL)
      | Some op =>
          '(_, p, v) ← zoom (op copy n f);
          set_ftab (<[fd := File p (private_data f)]>);; mret v
      end)
  | SysWrite fd copy buf => with_file fd (fun f =>
      match fo_write (fops d) with
      | None => mret (- EINVAL)
      | Some op =>
          '(p, v) ← zoom (op copy buf f);
          set_ftab (<[fd := File p (private_data f)]>);; mret v
      end)
  (* pread and pwrite: the position comes from the caller, that of the file
     stays *)
  | SysPread fd copy n pos => if pos <? 0 then mret (- EINVAL) else with_file fd (fun f =>
      match fo_read (fops d) with
      | None => mret (- EINVAL)
      | Some op => '(_, _, v) ← zoom (op copy n (File pos (private_data f))); mret v
      end)
  | SysPwrite fd copy buf pos => if pos <? 0 then mret (- EINVAL) else with_file fd (fun f =>
      match fo_write (fops d) with
      | None => mret (- EINVAL)
      | Some op => '(_, v) ← zoom (op copy buf (File pos (private_data f))); mret v
      end)
  | SysIoctl fd cmd => with_file fd (fun f =>
      match fo_ioctl (fops d) with
      | None => mret (- ENOTTY)
      | Some op => r ← zoom (op cmd f); mret r.1
      end)
  | SysPoll fd who => with_file fd (fun f =>
      match fo_poll (fops d) with
      | None => mret 0
      | Some op => zoom (op who f)
      end)
  | SysMmap fd v => with_file fd (fun _ =>
      match fo_mmap (fops d) with
      | None => mret (- ENODEV)
      | Some op =>
          w ← get;
          modify (fun w => World (drv w) (ftab w) (op (pages w) v).1 (loaded w));;
          mret (op (pages w) v).2
      end)
  | SysClose fd => with_file fd (fun f =>
      match fo_release (fops d) with None => mret 0 | Some op => zoom (op f) end;;
      set_ftab (delete fd);; mret 0)
  | Rmmod =>
      w ← get;
      if pinned d && negb (bool_decide (ftab w = ∅)) then mret (- EAGAIN)
      else modify (fun w => World (drv w) (ftab w) (pages w) false);; mret 0
  end.

Fixpoint session (l : list syscall) : M W () :=
  match l with
  | [] => mret ()
  | c :: l' => do_call c;; session l'
  end.
End calls.

(** ** What a driver promises *)

(** System calls with the arguments the file layer lets through, and with the
    positions of pread and pwrite among those in [P]. *)
Definition call_ok (P : Z -> Prop) (c : syscall) : Prop :=
  match c with
  | SysRead _ copy n => uaccess copy /\ 0 <= n
  | SysWrite _ copy buf => uaccess copy
  | SysPread _ copy n pos => uaccess copy /\ 0 <= n /\ (0 <= pos -> P pos)
  | SysPwrite _ copy _ pos => uaccess copy /\ (0 <= pos -> P pos)
  | _ => True
  end.

(** [wf]: the driver's state goes with the files that are open and with what
    the module holds.  Each operation of the table ends, and keeps [wf]; read
    and write do so at the position of their file, and at the positions
    [pos_ok] when the caller chooses. *)
Class WfDriver {S pt : Type} (d : chardev S pt) (env : kenv) := {
  wf : S -> gmap Z file -> trace -> Prop;
  pos_ok : Z -> Prop;
  wf_open s fs tr : wf s fs tr ->
    match fo_open (fops d) with
    | None => forall fd, fs !! fd = None -> wf s (<[fd := File 0 0]> fs) tr
    | Some op => wp op env s tr (fun a s' tr' => exists pd r, a = Some (pd, r) /\
        if r =? 0 then forall fd, fs !! fd = None -> wf s' (<[fd := File 0 pd]> fs) tr'
        else wf s' fs tr')
    end;
  wf_read op s fs tr fd f copy n :
    fo_read (fops d) = Some op -> wf s fs tr -> fs !! fd = Some f -> uaccess copy -> 0 <= n ->
    wp (op copy n f) env s tr (fun a s' tr' => exists got p v, a = Some (got, p, v) /\
      wf s' (<[fd := File p (private_data f)]> fs) tr');
  wf_write op s fs tr fd f copy buf :
    fo_write (fops d) = Some op -> wf s fs tr -> fs !! fd = Some f -> uaccess copy ->
    wp (op copy buf f) env s tr (fun a s' tr' => exists p v, a = Some (p, v) /\
      wf s' (<[fd := File p (private_data f)]> fs) tr');
  wf_pread op s fs tr fd f copy n pos :
    fo_read (fops d) = Some op -> wf s fs tr -> fs !! fd = Some f -> uaccess copy -> 0 <= n ->
    0 <= pos -> pos_ok pos ->
    wp (op copy n (File pos (private_data f))) env s tr (fun a s' tr' => exists got p v,
      a = Some (got, p, v) /\ wf s' fs tr');
  wf_pwrite op s fs tr fd f copy buf pos :
    fo_write (fops d) = Some op -> wf s fs tr -> fs !! fd = Some f -> uaccess copy ->
    0 <= pos -> pos_ok pos ->
    wp (op copy buf (File pos (private_data f))) env s tr (fun a s' tr' => exists p v,
      a = Some (p, v) /\ wf s' fs tr');
  wf_ioctl op s fs tr fd f cmd :
    fo_ioctl (fops d) = Some op -> wf s fs tr -> fs !! fd = Some f ->
    wp (op cmd f) env s tr (fun a s' tr' => is_Some a /\ wf s' fs tr');
  wf_poll op s fs tr fd f who :
    fo_poll (fops d) = Some op -> wf s fs tr -> fs !! fd = Some f ->
    wp (op who f) env s tr (fun a s' tr' => is_Some a /\ wf s' fs tr');
  wf_release s fs tr fd f : wf s fs tr -> fs !! fd = Some f ->
    match fo_release (fops d) with
    | None => wf s (delete fd fs) tr
    | Some op => wp (op f) env s tr (fun a s' tr' => is_Some a /\ wf s' (delete fd fs) tr')
    end
}.

(** ** The file layer keeps the promise *)

Section client.
Context {S pt : Type} (d : chardev S pt) (env : kenv) `{!WfDriver d env}.
Context (Hpin : pinned d = true).

Definition world_ok (w : world S pt) (tr : trace) : Prop :=
  wf (drv w) (ftab w) tr /\ (loaded w = false -> ftab w = ∅).

Lemma wp_zoom {A} (c : M S A) w tr (Q : option A -> world S pt -> trace -> Prop) :
  wp c env (drv w) tr (fun a s tr' => Q a (World s (ftab w) (pages w) (loaded w)) tr') ->
  wp (zoom c) env w tr Q.
Proof. unfold wp, zoom. by destruct (c env (drv w) tr) as [[a s] tr']. Qed.

(** A call on a file: there is none once the module is gone. *)
Lemma with_file_wp fd k w tr Q :
  world_ok w tr -> Q (Some (- EBADF)) w tr ->
  (forall f, ftab w !! fd = Some f -> loaded w = true -> wf (drv w) (ftab w) tr -> wp (k f) env w tr Q) ->
  wp (with_file fd k) env w tr Q.
Proof.
  intros [Hw Hl] Hbad Hk. unfold with_file. wpure. destruct (ftab w !! fd) as [f|] eqn:E; [|by wpure].
  destruct (loaded w) eqn:L; [by apply Hk|]. by rewrite Hl in E.
Qed.

Abbreviation kept := (fun (a : option Z) w' tr' => is_Some a /\ world_ok w' tr').

Lemma sys_open_wp w tr : world_ok w tr -> wp (sys_open d) env w tr kept.
Proof.
  intros Hok. pose proof Hok as [Hw Hl]. unfold sys_open. wpure.
  destruct (loaded w) eqn:L; simpl; [|by wpure; eauto].
  assert (ftab w !! fresh (dom (ftab w)) = None) as Hfree by apply not_elem_of_dom, is_fresh.
  pose proof (wf_open _ _ _ Hw) as Ho. destruct (fo_open (fops d)) as [op|].
  - apply wp_bind, wp_zoom. eapply wp_mono; [exact Ho|]. intros a s' tr' (pd & r & -> & H).
    cbv beta iota. destruct (r =? 0); [|wpure; split; [by eauto|split; [done|by rewrite L]]].
    unfold set_ftab. wpure. split; [by eauto|]. split; simpl; [by apply H|by rewrite L].
  - wpure. simpl. unfold set_ftab. wpure. split; [by eauto|]. split; simpl; [by apply Ho|by rewrite L].
Qed.

Lemma do_call_wp c w tr : call_ok pos_ok c -> world_ok w tr -> wp (do_call d c) env w tr kept.
Proof.
  intros Hc Hok.
  destruct c as [|fd copy n|fd copy buf|fd copy n pos|fd copy buf pos|fd cmd|fd who|fd v|fd|];
    simpl in *; [by apply sys_open_wp|..].
  3,4: destruct (Z.ltb_spec pos 0) as [?|Hpos]; [by wpure; eauto|].
  1-8: apply with_file_wp; [done|by eauto|]; intros f Hf L Hw.
  - destruct (fo_read (fops d)) as [op|] eqn:E; [|by wpure; eauto]. destruct Hc as [Hu Hn].
    apply wp_bind, wp_zoom. eapply wp_mono; [by eapply wf_read|]. intros a s' tr' (got & p & v & -> & H).
    unfold set_ftab. wpure. split; [by eauto|]. split; simpl; [done|by rewrite L].
  - destruct (fo_write (fops d)) as [op|] eqn:E; [|by wpure; eauto].
    apply wp_bind, wp_zoom. eapply wp_mono; [by eapply wf_write|]. intros a s' tr' (p & v & -> & H).
    unfold set_ftab. wpure. split; [by eauto|]. split; simpl; [done|by rewrite L].
  - destruct (fo_read (fops d)) as [op|] eqn:E; [|by wpure; eauto]. destruct Hc as (Hu & Hn & HP).
    apply wp_bind, wp_zoom. eapply wp_mono; [by eapply wf_pread; eauto|]. intros a s' tr' (got & p & v & -> & H).
    wpure. split; [by eauto|]. split; simpl; [done|by rewrite L].
  - destruct (fo_write (fops d)) as [op|] eqn:E; [|by wpure; eauto]. destruct Hc as (Hu & HP).
    apply wp_bind, wp_zoom. eapply wp_mono; [by eapply wf_pwrite; eauto|]. intros a s' tr' (p & v & -> & H).
    wpure. split; [by eauto|]. split; simpl; [done|by rewrite L].
  - destruct (fo_ioctl (fops d)) as [op|] eqn:E; [|by wpure; eauto].
    apply wp_bind, wp_zoom. eapply wp_mono; [by eapply wf_ioctl|]. intros a s' tr' ([r ->] & H).
    wpure. split; [by eauto|]. split; simpl; [done|by rewrite L].
  - destruct (fo_poll (fops d)) as [op|] eqn:E; [|by wpure; eauto].
    apply wp_zoom. eapply wp_mono; [by eapply wf_poll|]. intros a s' tr' (Ha & H).
    split; [done|]. split; simpl; [done|by rewrite L].
  - destruct (fo_mmap (fops d)) as [op|] eqn:E; [|by wpure; eauto].
    wpure. split; [by eauto|]. split; simpl; [done|by rewrite L].
  - pose proof (wf_release _ _ _ _ _ Hw Hf) as H. unfold set_ftab.
    destruct (fo_release (fops d)) as [op|] eqn:E.
    + apply wp_bind, wp_zoom. eapply wp_mono; [exact H|]. intros a s' tr' ([r ->] & H').
      wpure. split; [by eauto|]. split; simpl; [done|by rewrite L].
    + wpure. split; [by eauto|]. split; simpl; [done|by rewrite L].
  - wpure. rewrite Hpin. simpl. case_bool_decide as He; simpl; wpure; [|by eauto].
    destruct Hok. split; [by eauto|]. by split.
Qed.

(** However system calls and attempts to unload the module follow each
    other, none of them crashes and the driver stays well-formed. *)
Lemma session_wp l w tr :
  Forall (call_ok pos_ok) l -> world_ok w tr ->
  wp (session d l) env w tr (fun a w' tr' => a = Some () /\ world_ok w' tr').
Proof.
  intros Hl. revert w tr. induction Hl as [|c l Hc _ IH]; intros w tr Hok; simpl; [by wpure|].
  apply wp_bind. eapply wp_mono; [by apply do_call_wp|]. intros a w' tr' ([v ->] & Hok'). by apply IH.
Qed.
End client.

(** ** The drivers keep the promise *)

Section drivers.
Context {pt : Type} `{!Remap pt} (env : kenv).

Definition misc_dev : chardev LabMisc.st pt := CharDev (misc_fops my_misc_device) false.
Definition poll_dev (ret mask : Z) : chardev Poll.st pt := CharDev (misc_fops (poll_device ret mask)) false.
(** [pcdev->owner = THIS_MODULE] *)
Definition mmap_dev : chardev MmapLab.st pt := CharDev mmap_fops true.
Definition root_dev : chardev Cve.st pt := CharDev root_fops true.
Definition char_dev : chardev LabChar.st pt := CharDev char_fops false.

(** lab-misc.c: the buffer is there, no position is outside it. *)
Definition misc_wf (s : LabMisc.st) (fs : gmap Z file) (tr : trace) : Prop :=
  LabMisc.ready s /\ map_Forall (fun _ f => 0 <= f_pos f <= LabMisc.ramdisk_size) fs.

#[local] Instance misc_wf_driver : WfDriver misc_dev env.
Proof.
  refine {| wf := misc_wf; pos_ok := fun p => p <= LabMisc.ramdisk_size |}; simpl.
  - intros s fs tr [Hr Hp]. wpure. eexists _, _. split; [done|]. simpl. intros fd _. split; [exact Hr|].
    apply map_Forall_insert_2; [|done]. simpl. unfold LabMisc.ramdisk_size, LabMisc.PAGE_SIZE. lia.
  - intros op s fs tr fd f copy n [= <-] [Hr Hp] Hf Hu Hn. unfold misc_fops_read, lift. wpure.
    destruct (read_in s copy n (f_pos f) Hr Hu Hn (Hp _ _ Hf)) as (? & ? & ->). wpure.
    eexists _, _, _. split; [done|]. split; [done|]. pose proof (Hp _ _ Hf) as Hf'. simpl in Hf'.
    apply map_Forall_insert_2; [|done]. simpl. lia.
  - intros op s fs tr fd f copy buf [= <-] [Hr Hp] Hf Hu. unfold misc_fops_write, lift. wpure.
    destruct (write_in s copy buf (Z.of_nat (length buf)) (f_pos f) Hr Hu ltac:(lia) (Hp _ _ Hf))
      as (m & -> & ? & ? & Hal & _). wpure.
    eexists _, _. split; [done|]. pose proof (Hp _ _ Hf) as Hf'. simpl in Hf'. split.
    + unfold LabMisc.ready in *. simpl. by rewrite Hal.
    + apply map_Forall_insert_2; [|done]. simpl. lia.
  - intros op s fs tr fd f copy n pos [= <-] [Hr Hp] Hf Hu Hn H0 H1. unfold misc_fops_read, lift. cbn [f_pos]. wpure.
    destruct (read_in s copy n pos Hr Hu Hn (conj H0 H1)) as (_ & _ & ->). wpure.
    eexists _, _, _. split; [done|]. by split.
  - intros op s fs tr fd f copy buf pos [= <-] [Hr Hp] Hf Hu H0 H1. unfold misc_fops_write, lift. cbn [f_pos]. wpure.
    destruct (write_in s copy buf (Z.of_nat (length buf)) pos Hr Hu ltac:(lia) (conj H0 H1))
      as (m & -> & _ & _ & Hal & _). wpure.
    eexists _, _. split; [done|]. split; [|done]. unfold LabMisc.ready in *. simpl. by rewrite Hal.
  - done.
  - done.
  - intros s fs tr fd f [Hr Hp] Hf. wpure. split; [by eauto|]. split; [done|by apply map_Forall_delete].
Defined.

(** poll.c: the structures held are those of the open files. *)
Definition poll_wf (s : Poll.st) (fs : gmap Z file) (tr : trace) : Prop :=
  Poll.inv (Poll.set_files (private_data <$> fs) s) tr.

#[local] Instance poll_wf_driver mask :
  good_env env -> (forall tr, IS_ERR (env tr (kmalloc sizeof_polldev)).1 = false) ->
  WfDriver (poll_dev 0 mask) env.
Proof.
  intros HG Hptr. refine {| wf := poll_wf; pos_ok := fun _ => True |}; simpl.
  - intros s fs tr Hi. eapply wp_mono; [by apply kern_open_wp|]. intros a s' tr' (pd & -> & _ & H).
    eexists _, _. split; [done|]. simpl. intros fd Hfd. unfold poll_wf. rewrite fmap_insert. apply H.
    by rewrite lookup_fmap, Hfd.
  - done.
  - done.
  - done.
  - done.
  - intros op s fs tr fd f cmd [= <-] Hi Hf. eapply wp_mono.
    { eapply (kern_ioctl_wp env s tr _ fd); [exact Hi|by rewrite lookup_fmap, Hf]. }
    intros a s' tr' (? & _ & ?). done.
  - intros op s fs tr fd f who [= <-] Hi Hf. eapply wp_mono.
    { eapply (kern_poll_wp env s tr _ fd); [exact Hi|by rewrite lookup_fmap, Hf]. }
    intros a s' tr' (? & _ & ?). done.
  - intros s fs tr fd f Hi Hf. eapply wp_mono.
    { eapply (kern_release_wp env s tr _ fd); [exact Hi|by rewrite lookup_fmap, Hf]. }
    intros a s' tr' (-> & _ & H). split; [by eauto|]. unfold poll_wf. by rewrite fmap_delete.
Defined.

(** Where the value of kern_open is not 0 no file is ever open. *)
Definition refused_wf (s : Poll.st) (fs : gmap Z file) (tr : trace) : Prop := fs = ∅.

#[local] Instance poll_refused_driver ret mask :
  ret <> 0 -> good_env env -> (forall tr, IS_ERR (env tr (kmalloc sizeof_polldev)).1 = false) ->
  WfDriver (poll_dev ret mask) env.
Proof.
  intros Hret HG Hptr. refine {| wf := refused_wf; pos_ok := fun _ => True |}; simpl;
    try (intros; unfold refused_wf in *; by simplify_map_eq).
  intros s fs tr ->. unfold kern_open. apply wp_bind_call. intros pd o E.
  pose proof E as Hn. apply (answer_is _ _ _ _ (fun z => IS_ERR z = false) _ Hptr) in E.
  apply (answer_is _ _ _ _ (fun z => z <> 0) _ (fun tr => proj1 (proj2 HG) tr (kmalloc sizeof_polldev) eq_refl)) in Hn.
  rewrite E, if_null by done. wpure. eexists _, _. split; [done|].
  by rewrite (proj2 (Z.eqb_neq ret 0)).
Defined.

(** mmap.c and mmap-root.c: files hold nothing, so the module's books stay
    as they are; in mmap-root.c the kfree of [private_data] frees NULL. *)
Definition still (h : list res) {S} (s : S) (fs : gmap Z file) (tr : trace) : Prop :=
  audit tr = Some h /\ map_Forall (fun _ f => private_data f = 0) fs.

#[local] Instance mmap_wf_driver (h : list res) : WfDriver mmap_dev env.
Proof.
  refine {| wf := still h; pos_ok := fun _ => True |}; simpl; [|done..|].
  - intros s fs tr [Hh Hp]. wpure. eexists _, _. split; [done|]. simpl. intros fd _. split; [done|].
    by apply map_Forall_insert_2.
  - intros s fs tr fd f [Hh Hp] Hf. wpure. split; [by eauto|]. split; [done|by apply map_Forall_delete].
Defined.

#[local] Instance root_wf_driver (h : list res) : WfDriver root_dev env.
Proof.
  refine {| wf := still h; pos_ok := fun _ => True |}; simpl; [|done..|].
  - intros s fs tr [Hh Hp]. wpure. eexists _, _. split; [done|]. simpl. intros fd _. split; [done|].
    by apply map_Forall_insert_2.
  - intros s fs tr fd f [Hh Hp] Hf. unfold Cve.dev_release. rewrite (Hp _ _ Hf). wsilent Hh.
    intros r o A. wpure. split; [by eauto|]. split; [done|by apply map_Forall_delete].
Defined.

(** A session from a state the driver accepts ends and leaves one. *)
Lemma session_from {S} (d : chardev S pt) (D : WfDriver d env) l s t tr :
  pinned d = true -> Forall (call_ok pos_ok) l -> wf s ∅ tr ->
  let '(r, w, tr') := session d l env (World s ∅ t true) tr in
  r = Some () /\ wf (drv w) (ftab w) tr'.
Proof.
  intros Hp Hl Hw. pose proof (session_wp d env Hp l (World s ∅ t true) tr Hl) as W.
  unfold wp in W. destruct (session d l env (World s ∅ t true) tr) as [[r w] tr'].
  simpl in W. destruct W as [-> [Hw' _]]; [by split|]. done.
Qed.

(** pread and pwrite past the end of lab-misc.c. *)
Lemma past_end_crashes (w : world LabMisc.st pt) tr fd f copy pos n buf :
  LabMisc.ready (drv w) -> loaded w = true -> ftab w !! fd = Some f -> uaccess copy ->
  LabMisc.ramdisk_size < pos <= LabMisc.ramdisk_size + 2 ^ 31 ->
  0 < n < 2 ^ 31 -> copy n < n -> Z.of_nat (length buf) = n ->
  returns (do_call misc_dev (SysPread fd copy n pos) env w tr) = None /\
  returns (do_call misc_dev (SysPwrite fd copy buf pos) env w tr) = None.
Proof.
  intros Hr L Hf Hu Hp Hn Hc Hb.
  destruct (rw_past_end (drv w) copy buf n pos Hr Hu Hp Hn Hc) as [Er Ew].
  assert ((pos <? 0) = false) as H0 by (apply Z.ltb_ge; unfold LabMisc.ramdisk_size, LabMisc.PAGE_SIZE in Hp; lia).
  split.
  - enough (wp (do_call misc_dev (SysPread fd copy n pos)) env w tr (fun a _ _ => a = None)) as W
      by (unfold wp in W; unfold returns; by destruct (do_call _ _ env w tr) as [[? ?] ?]).
    simpl. rewrite H0. unfold with_file. wpure. rewrite Hf, L. apply wp_bind, wp_zoom.
    unfold misc_fops_read, lift. cbn [f_pos]. wpure. rewrite Er. by wpure.
  - enough (wp (do_call misc_dev (SysPwrite fd copy buf pos)) env w tr (fun a _ _ => a = None)) as W
      by (unfold wp in W; unfold returns; by destruct (do_call _ _ env w tr) as [[? ?] ?]).
    simpl. rewrite H0. unfold with_file. wpure. rewrite Hf, L. apply wp_bind, wp_zoom.
    unfold misc_fops_write, lift. cbn [f_pos]. wpure. rewrite Hb, Ew. by wpure.
Qed.


(** A module that nothing pins, as lab-char.c, which names no owner in its table
    or its cdev, can be unloaded while a file is open, and the close that
    follows reads a table that is gone. *)
Lemma unpinned_crashes {S} (d : chardev S pt) (w : world S pt) tr fd f :
  pinned d = false -> ftab w !! fd = Some f ->
  returns (do_call d Rmmod env w tr) = Some 0 /\
  returns (session d [Rmmod; SysClose fd] env w tr) = None.
Proof.
  intros Hd Hf. split.
  - enough (wp (do_call d Rmmod) env w tr (fun a _ _ => a = Some 0)) as W
      by (unfold wp in W; unfold returns; by destruct (do_call _ _ env w tr) as [[? ?] ?]).
    simpl. wpure. rewrite Hd. simpl. by wpure.
  - enough (wp (session d [Rmmod; SysClose fd]) env w tr (fun a _ _ => a = None)) as W
      by (unfold wp in W; unfold returns; by destruct (session _ _ env w tr) as [[? ?] ?]).
    simpl. unfold with_file. wpure. rewrite Hd. simpl. wpure. simpl. rewrite Hf. by wpure.
Qed.
End drivers.

Section examples.
(** Two files, reads and writes at the file's position and elsewhere, ioctls, a
    refused unload, a close. *)
Definition ex_calls : list syscall :=
  [SysOpen; SysOpen; SysWrite 0 (fun _ => 0) [1; 2; 3]; SysRead 1 (fun _ => 0) 100;
   SysPwrite 1 (fun _ => 0) [4; 5] 65535; SysPread 0 (fun _ => 0) 8 (-3); SysPread 0 (fun _ => 0) 8 65000;
   SysIoctl 0 1; SysPoll 1 7; Rmmod; SysMmap 0 (Vma 0x400000 0x401000 1 3); SysClose 0; SysClose 5; Rmmod].

Lemma ex_calls_ok (P : Z -> Prop) : (forall p, 0 <= p <= 65535 -> P p) -> Forall (call_ok P) ex_calls.
Proof.
  intros HP. assert (uaccess (fun _ => 0)) as Hu by (intros n ?; lia).
  repeat constructor; simpl; try done; try lia; intros; apply HP; lia.
Defined.

Lemma ex_calls_inside : Forall (call_ok (fun p => p <= LabMisc.ramdisk_size)) ex_calls.
Proof. apply ex_calls_ok. unfold LabMisc.ramdisk_size, LabMisc.PAGE_SIZE. lia. Defined.


(** A refused unload, and what the two kinds of device answer. *)
Example pinned_refuses : pinned (misc_dev (pt := Z -> option Z)) = true.
Proof. reflexivity. Qed.

Example char_not_pinned : pinned (char_dev (pt := Z -> option Z)) = false.
Proof. reflexivity. Qed.
End examples.
