(* ===== verification/MemLabs.v ===== *)
(** * Memory labs: sync/high_mem.c, mm-lab/mod_kmem_cache.c, mm-lab/vm_area.c,
    mmap-labs/rammap.c, include/kernel_helper.h

    A page filled through a temporary mapping, an object of a slab cache, the
    areas of the address space of the loading process, an ioremapped range,
    and the memory check of the helper header. *)

From S2P Require Import Prelude CMem Words Kernel.

(** ** sync/high_mem.c *)
Module HighMem.

Definition PAGE_SIZE : Z := 4096.
Definition INTS_IN_PAGES : Z := PAGE_SIZE / 4.

(** The loop from [i] on: [int_array[i] = i], then the line with [i] and
    [int_array[i]]. *)
Fixpoint fill (n : nat) (m : mem) (int_array i : Z) : option (mem * list (Z * Z)) :=
  match n with
  | O => Some (m, [])
  | S n' =>
      m' ← store_le 4 m (int_array, 4 * i) (u32 i);
      '(m'', out) ← fill n' m' int_array (i + 1);
      Some (m'', (i, s32 (peek_le 4 m' int_array (4 * i))) :: out)
  end.

Section module.
(** What the page holds when it is allocated. *)
Context (junk : Z -> Z).

Definition my_mod_init : M mem (Z * list (Z * Z)) :=
  my_page ← call (alloc_pages 0);
  if my_page =? 0 then mret (-1, [])
  else
    my_ptr ← call (kmap my_page);
    modify (<[my_ptr := Block PAGE_SIZE junk]>);;
    m ← get;
    match fill (Z.to_nat INTS_IN_PAGES) m my_ptr 0 with
    | None => oops
    | Some (m', out) =>
        modify (fun _ => m');;
        call (kunmap my_page);;
        call (free_pages my_page 0);;
        mret (0, out)
    end.
End module.

(** Only prints. *)
Definition my_mod_exit : M mem () := mret ().

End HighMem.

(** ** mm-lab/mod_kmem_cache.c *)
Module Slab.

Record st := St { jcache : Z; buf : Z }.
Definition st0 : st := St 0 0.

Definition jslab_init : M st Z :=
  c ← call (kmem_cache_create "jcache_object" 20);
  modify (fun s => St c (buf s));;
  if c =? 0 then
    call (kmem_cache_destroy c);; mret (- ENOMEM)
  else
    b ← call (kmem_cache_alloc c);
    modify (fun s => St (jcache s) b);;
    mret 0.

Definition jslab_exit : M st () :=
  s ← get;
  call (kmem_cache_free (jcache s) (buf s));;
  call (kmem_cache_destroy (jcache s));;
  mret ().

End Slab.

(** ** mmap-labs/rammap.c *)
Module Rammap.

Definition physaddr : Z := 0x32000000.
Definition size : Z := 170 * 1024 * 1024.

Record page := Page { flags : Z; mapping : Z; page_mapcount : Z; page_count : Z }.

Section module.
(** The bits of [page->flags] in the order they are printed: lru, private,
    locked, writeback, slab, swapcache, active, reserved. *)
Context (PG : list Z).
Context (virt_to_page : Z -> option page) (va pa : Z -> Z).

(** The values of the lines about the flags, none when there is no page. *)
Definition api_print_addressinfo (logical_adr : Z) : list Z :=
  match virt_to_page logical_adr with
  | None => []
  | Some p => (fun b => Z.land (flags p) (s32 (Z.shiftl 1 b))) <$> PG
  end.

(** The numbers printed: the address given, the address translated there and
    back, and the lines about its page. *)
Definition api_debug_address (phys : Z) : Z * Z * list Z :=
  let logical := va phys in
  let phys2 := u32 (pa logical) in
  (phys, phys2, api_print_addressinfo logical).

Definition mod_init : M Z (Z * (Z * Z * list Z)) :=
  let out := api_debug_address physaddr in
  l ← call (ioremap physaddr size);
  modify (fun _ => l);;
  if IS_ERR l then
    call (release_mem_region physaddr size);;
    mret (s32 (PTR_ERR l), out)
  else mret (0, out).

Definition mod_exit : M Z () :=
  l ← get;
  call (iounmap l);;
  call (release_mem_region physaddr size);;
  mret ().
End module.

End Rammap.

(** ** include/kernel_helper.h *)

(** The loop of memcheck from index [i] on, [n] bytes to go. *)
Fixpoint memcheck_loop (n : nat) (m : mem) (buf : ptr) (val i : Z) : option Z :=
  match n with
  | O => Some 0
  | S n' =>
      c ← load m (padd buf i);
      if negb (s8 c =? val) then Some (- EFAULT) else memcheck_loop n' m buf val (u32 (i + 1))
  end.

Definition memcheck (m : mem) (buf : ptr) (val size : Z) : option Z :=
  memcheck_loop (Z.to_nat size) m buf val 0.

(** ** mm-lab/vm_area.c *)
Module VmArea.

Record vma := Vma { vm_start : Z; vm_end : Z }.

(** What is printed: the areas of the walk, the area found below the first
    one, and the area found by the second search with its predecessor. *)
Record report := Report {
  areas : list (Z * Z); found : option vma; found2 : option (vma * option vma)
}.

Section module.
(** The list of areas of an address space, linked by [vm_next], and the
    kernel's searches in it. *)
Context (find_vma : list vma -> Z -> option vma).
Context (find_vma_prev : list vma -> Z -> option vma * option vma).

Fixpoint walk (l : list vma) : list (Z * Z) :=
  match l with [] => [] | v :: l' => (vm_start v, vm_end v) :: walk l' end.

(** [None] for no address space; an [oops] when [vm_next] of the first area
    is NULL. *)
Definition vma_init (mm : option (list vma)) : M () (Z * option report) :=
  match mm with
  | None => mret (-1, None)
  | Some [] => mret (-1, None)
  | Some ((start_vma :: rest) as l) =>
      let start := u64 (vm_start start_vma - 0x4000) in
      let f := find_vma l (u64 (start - 0x4000)) in
      match rest with
      | [] => oops
      | next :: _ =>
          let start := u64 (vm_start next - 0x4000) in
          let '(v, prev) := find_vma_prev l (u64 (start - 0x4000)) in
          mret (0, Some (Report (walk l) f (v ← v; Some (v, prev))))
      end
  end.
End module.

End VmArea.

(** ** The filled page *)

Section high_mem.
Import HighMem.

Lemma fill_ok n m b i :
  0 <= i -> 4 * (i + Z.of_nat n) <= 4096 -> bsize <$> m !! b = Some 4096 ->
  exists m', fill n m b i = Some (m', (fun k => (k, k)) <$> seqZ i (Z.of_nat n)) /\
    (forall k, i <= k < i + Z.of_nat n -> peek_le 4 m' b (4 * k) = k) /\
    (forall x, x < 4 * i -> peek m' b x = peek m b x).
Proof.
  revert m i. induction n as [|n IH]; intros m i Hi Hn Hb.
  { exists m. split_and!; [done|lia|done]. }
  assert (valid m (b, 4 * i) 4 = true) as Hv by (rewrite valid_bsize; simpl; rewrite Hb; zify_bool; done || lia).
  destruct (write_is_Some m (b, 4 * i) 4 (le_byte (u32 i)) Hv) as [m1 E1].
  pose proof (peek_store_le 4 m (b, 4 * i) (u32 i) m1 E1) as Hp. cbn [fst snd] in Hp.
  change (8 * Z.of_nat 4) with 32 in Hp. rewrite u32_id, Z.mod_small in Hp by lia.
  destruct (IH m1 (i + 1)) as (m2 & E2 & H2 & H3); [lia|lia|by rewrite (write_alloc _ _ _ _ _ E1)|].
  assert (peek_le 4 m2 b (4 * i) = i) as Hkeep.
  { rewrite <- Hp at 2. apply peek_le_ext. intros j Hj. apply H3. lia. }
  exists m2. split_and!.
  - cbn [fill]. unfold store_le. rewrite E1. cbn [mbind option_bind]. rewrite E2. cbn [mbind option_bind].
    rewrite Hp, s32_id by lia. rewrite (seqZ_cons i) by lia. cbn [fmap list_fmap].
    replace (Z.pred (Z.of_nat (S n))) with (Z.of_nat n) by lia. done.
  - intros k Hk. destruct (decide (k = i)) as [->|]; [done|]. apply H2. lia.
  - intros x Hx. rewrite H3 by lia. apply (write_frame _ _ _ _ _ _ _ E1). simpl. lia.
Qed.

(** high_mem.c fills its page through the temporary mapping without
    leaving it, prints every index with the value read back, which is the
    index, and has given mapping and page back when it returns; without a page
    it returns -1. *)
Theorem high_mem_spec junk env m :
  let '(r, _, tr) := my_mod_init junk env m [] in
  audit tr = Some [] /\
  (r = Some (-1, []) \/ r = Some (0, (fun k => (k, k)) <$> seqZ 0 1024)).
Proof.
  enough (wp (my_mod_init junk) env m [] (fun r _ tr => audit tr = Some [] /\
    (r = Some (-1, []) \/ r = Some (0, (fun k => (k, k)) <$> seqZ 0 1024)))) as W.
  { unfold wp in W. by destruct (my_mod_init junk env m []) as [[? ?] ?]. }
  unfold my_mod_init. apply wp_bind_call. intros pg o _. destruct (Z.eqb_spec pg 0) as [->|Hpg].
  { wpure. split; [done|by left]. }
  assert (audit [(alloc_pages 0, (pg, o))] = Some [RPage pg]) as A by by apply audit_acquire; [|acq].
  wacquire (RKmap pg) A. clear A. intros p op A. wpure.
  destruct (fill_ok (Z.to_nat INTS_IN_PAGES) (<[p := Block PAGE_SIZE junk]> m) p 0) as (m' & -> & _);
    [lia|vm_compute; discriminate|by simplify_map_eq|].
  wpure. wpop A. wpop A. wpure. split; [done|by right].
Qed.
End high_mem.

(** ** The slab cache *)

Section slab.
Import Slab.

(** The three ways mod_kmem_cache.c loads: -ENOMEM with nothing held; 0
    with a cache and an object, which unloading gives back; and 0 with a cache
    but no object, where unloading frees an object that was never
    allocated. *)
Theorem slab_outcomes env :
  let '(r, s, tr) := jslab_init env st0 [] in
  (r = Some (- ENOMEM) /\ audit tr = Some []) \/
  (r = Some 0 /\ buf s <> 0 /\ leaves (jslab_exit env s tr) = Some []) \/
  (r = Some 0 /\ buf s = 0 /\ leaves (jslab_exit env s tr) = None).
Proof.
  unfold jslab_init, leaves. munfold. simpl.
  destruct (env [] (kmem_cache_create "jcache_object" 20)) as [c o] eqn:E1. simpl.
  destruct (Z.eqb_spec c 0) as [->|Hc]; simpl.
  { left. split; [done|]. by destruct (env _ (kmem_cache_destroy 0)). }
  destruct (env _ (kmem_cache_alloc c)) as [b o'] eqn:E2. simpl. right.
  assert (audit [(kmem_cache_create "jcache_object" 20, (c, o))] = Some [RCache c]) as A
    by by apply audit_acquire; [|acq].
  destruct (decide (b = 0)) as [->|Hb]; [right|left]; (split_and!; [done|done|]).
  - unfold jslab_exit. munfold. simpl.
    destruct (env _ (kmem_cache_free c 0)) as [r1 o1]. destruct (env _ (kmem_cache_destroy c)) as [r2 o2].
    simpl. unfold account. simpl. rewrite if_null by done. simpl. done.
  - enough (wp jslab_exit env (St c b) [(kmem_cache_alloc c, (b, o')); (kmem_cache_create "jcache_object" 20, (c, o))]
      (fun _ _ tr => audit tr = Some [])) as W by exact W.
    apply (audit_acquire _ (kmem_cache_alloc c) b o' _ (RObj c b)) in A; [|acq].
    unfold jslab_exit. wpure. cbn [jcache buf]. wpop A. wpop A. wpure. done.
Qed.
End slab.

(** ** The ioremapped range *)

Section rammap.
Import Rammap.
Context (PG : list Z) (virt_to_page : Z -> option page) (va pa : Z -> Z) (env : kenv).

(** rammap.c translates its physical address to a kernel address and back
    without loss.  ioremap reports failure by NULL, which the load does not
    look for: it returns 0 also then.  Unloading always gives back what is not
    held: the load does not request the memory region that the unload
    releases, and without a mapping it unmaps NULL too. *)
Theorem rammap_outcomes :
  (forall x, 0 <= x < 2 ^ 32 -> pa (va x) = x) ->
  (forall tr, IS_ERR (env tr (ioremap physaddr size)).1 = false) ->
  let '(r, s, tr) := mod_init PG virt_to_page va pa env 0 [] in
  r = Some (0, (physaddr, physaddr, api_print_addressinfo PG virt_to_page (va physaddr))) /\
  leaves (mod_exit env s tr) = None /\
  (s <> 0 -> audit tr = Some [RIomap s]).
Proof.
  intros Hpa Herr. unfold mod_init, mod_exit, leaves, api_debug_address. munfold. simpl.
  specialize (Herr []). destruct (env [] (ioremap physaddr size)) as [l o]. simpl in *. rewrite Herr. simpl.
  rewrite Hpa by (unfold physaddr; lia). split; [done|].
  split; [|intros Hl; unfold account; simpl; by rewrite if_null].
  destruct (env _ (iounmap l)) as [r1 o1]. destruct (env _ (release_mem_region physaddr size)) as [r2 o2]. simpl.
  unfold account. simpl. destruct (Z.eqb_spec l 0) as [->|Hl]; simpl; [done|].
  by rewrite decide_True.
Qed.

(** A line about a flag is not 0 exactly when the bit is set. *)
Lemma flag_line p b :
  virt_to_page 0 = Some p -> PG = [b] -> 0 <= b < 31 -> 0 <= flags p ->
  api_print_addressinfo PG virt_to_page 0 = [if Z.testbit (flags p) b then 2 ^ b else 0].
Proof.
  intros Hp -> Hb Hf. unfold api_print_addressinfo. rewrite Hp. cbn [fmap list_fmap]. f_equal.
  assert (2 ^ b < 2 ^ 31) by (apply Z.pow_lt_mono_r; lia).
  assert (0 < 2 ^ b) by (apply Z.pow_pos_nonneg; lia).
  rewrite Z.shiftl_1_l, s32_id by lia. apply Z.bits_inj'. intros i Hi. rewrite Z.land_spec.
  destruct (decide (i = b)) as [->|Hne].
  - rewrite Z.pow2_bits_true, andb_true_r by lia. destruct (Z.testbit (flags p) b).
    + by rewrite Z.pow2_bits_true by lia.
    + by rewrite Z.testbit_0_l.
  - rewrite Z.pow2_bits_false, andb_false_r by lia. destruct (Z.testbit (flags p) b).
    + by rewrite Z.pow2_bits_false by lia.
    + by rewrite Z.testbit_0_l.
Qed.
End rammap.

(** ** memcheck *)

Lemma memcheck_loop_ok n m buf val i :
  0 <= i -> i + Z.of_nat n < 2 ^ 32 -> valid m (padd buf i) (Z.of_nat n) = true ->
  memcheck_loop n m buf val i =
    Some (if forallb (fun c => s8 c =? val) (bytes m (padd buf i) (Z.of_nat n)) then 0 else - EFAULT).
Proof.
  revert i. induction n as [|n IH]; intros i Hi Hn Hv; [done|].
  assert (valid m (padd buf i) 1 = true /\ valid m (padd buf (i + 1)) (Z.of_nat n) = true) as [Hv1 Hvn].
  { revert Hv. rewrite !valid_bsize. simpl. destruct (bsize <$> m !! buf.1); [|done].
    rewrite !andb_true_iff, !Z.leb_le. lia. }
  replace (Z.of_nat (S n)) with (1 + Z.of_nat n) by lia. unfold bytes. rewrite slice_app, forallb_app by lia.
  cbn [memcheck_loop]. unfold load. rewrite Hv1. cbn [mbind option_bind].
  change (forallb _ (slice (peek m (padd buf i).1) (padd buf i).2 1))
    with ((s8 (peek m (padd buf i).1 (padd buf i).2) =? val) && true).
  rewrite andb_true_r. destruct (s8 _ =? val); simpl; [|done].
  rewrite u32_id by lia. rewrite IH by (done || lia). unfold bytes. simpl. by rewrite Z.add_assoc.
Qed.

(** memcheck returns 0 exactly when every byte of the buffer is the value
    asked for, -EFAULT otherwise, and reads nothing outside the buffer. *)
Theorem memcheck_spec m buf val size :
  0 <= size < 2 ^ 32 -> valid m buf size = true ->
  memcheck m buf val size =
    Some (if forallb (fun c => s8 c =? val) (bytes m buf size) then 0 else - EFAULT).
Proof.
  intros Hs Hv. unfold memcheck. assert (padd buf 0 = buf) as E by (destruct buf; unfold padd; simpl; f_equal; lia).
  rewrite memcheck_loop_ok; [|lia|lia|by rewrite E, Z2Nat.id by lia]. by rewrite E, Z2Nat.id by lia.
Qed.

(** ** The areas of an address space *)

Section vm_area.
Import VmArea.
Context (find_vma : list vma -> Z -> option vma).
Context (find_vma_prev : list vma -> Z -> option vma * option vma).
(** The first area that ends above the address. *)
Context (find_law : forall l a, find_vma l a = head (filter (fun v => a < vm_end v) l)).
(** The same with the area before it. *)
Context (find_prev_law : forall xs v ys a,
  Forall (fun u => vm_end u <= a) xs -> a < vm_end v ->
  find_vma_prev (xs ++ v :: ys) a = (Some v, last xs)).

(** Areas are in order and disjoint. *)
Fixpoint in_order (lo : Z) (l : list vma) : Prop :=
  match l with
  | [] => True
  | v :: l' => lo <= vm_start v < vm_end v /\ vm_end v < 2 ^ 64 /\ in_order (vm_end v) l'
  end.

Lemma walk_all l : walk l = (fun v => (vm_start v, vm_end v)) <$> l.
Proof. induction l as [|v l IH]; simpl; [done|]. by rewrite IH. Qed.

(** vm_area.c prints every area of the loading process in order; its
    first search, below the first area, finds that area; its second, 32 KiB
    below the second area, finds the first or the second, with the area before
    it, by where the first one ends.  A process with a single area is not
    foreseen: the NULL behind it is used. *)
Theorem vma_init_spec v1 rest env tr :
  in_order 0x8000 (v1 :: rest) ->
  returns (vma_init find_vma find_vma_prev (Some (v1 :: rest)) env () tr) =
  match rest with
  | [] => None
  | v2 :: _ =>
      Some (0, Some (Report ((fun v => (vm_start v, vm_end v)) <$> v1 :: rest) (Some v1)
        (Some (if vm_start v2 - 0x8000 <? vm_end v1 then (v1, None) else (v2, Some v1)))))
  end.
Proof.
  intros (H1 & H1' & Ho). unfold vma_init. destruct rest as [|v2 rest]; [done|].
  destruct Ho as (H2 & H2' & _). rewrite find_law.
  cbn in H1, H2. change (2 ^ 64) with 18446744073709551616 in *.
  rewrite (u64_id (vm_start v1 - 0x4000)) by lia. rewrite (u64_id (vm_start v1 - 0x4000 - 0x4000)) by lia.
  rewrite (u64_id (vm_start v2 - 0x4000)) by lia. rewrite (u64_id (vm_start v2 - 0x4000 - 0x4000)) by lia.
  rewrite filter_cons_True by lia. replace (vm_start v2 - 16384 - 16384) with (vm_start v2 - 0x8000) by lia.
  assert (find_vma_prev (v1 :: v2 :: rest) (vm_start v2 - 0x8000) =
    if vm_start v2 - 0x8000 <? vm_end v1 then (Some v1, None) else (Some v2, Some v1)) as ->.
  { destruct (Z.ltb_spec (vm_start v2 - 0x8000) (vm_end v1)).
    - by apply (find_prev_law []).
    - apply (find_prev_law [v1]); [by repeat constructor|lia]. }
  rewrite walk_all. by destruct (_ <? vm_end v1).
Qed.
End vm_area.

Section examples.
Import VmArea.
Definition ex_find (l : list vma) (a : Z) : option vma := head (filter (fun v => a < vm_end v) l).

Fixpoint ex_find_prev (prev : option vma) (l : list vma) (a : Z) : option vma * option vma :=
  match l with
  | [] => (None, prev)
  | v :: l' => if a <? vm_end v then (Some v, prev) else ex_find_prev (Some v) l' a
  end.

Lemma ex_find_prev_law prev xs v ys a :
  Forall (fun u => vm_end u <= a) xs -> a < vm_end v ->
  ex_find_prev prev (xs ++ v :: ys) a = (Some v, match last xs with Some u => Some u | None => prev end).
Proof.
  revert prev. induction xs as [|u xs IH]; intros prev Hx Hv; cbn [app ex_find_prev].
  - by rewrite (proj2 (Z.ltb_lt _ _)).
  - apply Forall_cons in Hx as [Hu Hx]. rewrite (proj2 (Z.ltb_ge _ _)), IH by done.
    rewrite last_cons. by destruct (last xs).
Qed.

Definition ex_mm : list vma := [Vma 0x400000 0x401000; Vma 0x600000 0x602000].

Lemma vma_init_spec_witness :
  returns (vma_init ex_find (ex_find_prev None) (Some ex_mm) nice_env () []) =
  Some (0, Some (Report [(0x400000, 0x401000); (0x600000, 0x602000)] (Some (Vma 0x400000 0x401000))
    (Some (Vma 0x600000 0x602000, Some (Vma 0x400000 0x401000))))).
Proof.
  apply (vma_init_spec ex_find (ex_find_prev None)).
  - reflexivity.
  - intros xs v ys a Hx Hv. rewrite ex_find_prev_law by done. by destruct (last xs).
  - simpl. lia.
Defined.

Lemma memcheck_spec_witness :
  memcheck {[ 1 := Block 8 (fun i => if i =? 5 then 7 else 3) ]} (1, 0) 3 8 = Some (- EFAULT).
Proof.
  rewrite (memcheck_spec {[ 1 := Block 8 (fun i => if i =? 5 then 7 else 3) ]} (1, 0) 3 8); [reflexivity|lia|reflexivity].
Defined.

Lemma rammap_outcomes_witness :
  let '(r, s, tr) := Rammap.mod_init [4] (fun _ => None) (fun x => x + 2 ^ 47) (fun x => x - 2 ^ 47) nice_env 0 [] in
  r = Some (0, (Rammap.physaddr, Rammap.physaddr, [])) /\
  leaves (Rammap.mod_exit nice_env s tr) = None /\ (s <> 0 -> audit tr = Some [RIomap s]).
Proof.
  apply (rammap_outcomes [4] (fun _ => None) (fun x => x + 2 ^ 47) (fun x => x - 2 ^ 47) nice_env).
  - intros. lia.
  - reflexivity.
Defined.
End examples.
