(* ===== verification/Hooks.v ===== *)
(** * notifier-labs/notifier-module.c, kprobe-labs/kprobe.c

    Modules that hook into events of the kernel: the loading and unloading of
    other modules, and the calls of do_mmap. *)

From S2P Require Import Prelude Kernel.

(** ** notifier-module.c *)
Module Notifier.

(** enum module_state, in the order of its values. *)
Inductive module_state := MODULE_STATE_LIVE | MODULE_STATE_COMING | MODULE_STATE_GOING.

Definition state_value (s : module_state) : Z :=
  match s with MODULE_STATE_LIVE => 0 | MODULE_STATE_COMING => 1 | MODULE_STATE_GOING => 2 end.

Definition master : list string := ["LIVE"; "COMING"; "GOING"].

(** [priority] of the notifier block; the callback of the block is
    [get_notify], the only one this module has. *)
Record st := St { pnb : Z; priority : Z }.
Definition st0 : st := St 0 0.

(** The line printed for state value [v] of the module called [name], and
    the return value; [None] reads past the end of [master]. *)
Definition get_notify (s : st) (v : Z) (name : string) : option (string * string * Z * Z) :=
  w ← master !! Z.to_nat v;
  Some (name, w, priority s, 0).

Section module.
Context (sizeof_notifier_block : Z).

Definition hello_init : M st Z :=
  p ← call (kzalloc sizeof_notifier_block);
  modify (fun s => St p 0);;
  if p =? 0 then mret (- ENOMEM)
  else
    modify (fun s => St (pnb s) 12);;
    call (register_module_notifier p);;
    mret 0.

Definition hello_exit : M st () :=
  s ← get;
  call (unregister_module_notifier (pnb s));;
  call (kfree (pnb s));;
  mret ().
End module.

End Notifier.

(** ** kprobe.c *)
Module Kprobe.

Definition symbol_name : string := "do_mmap".

(** The line of the handler and its return value, which lets the probed
    function go on. *)
Definition handler_pre (pid : Z) (comm : string) : Z * string * Z := (pid, comm, 0).

(** [*addr] is read for a message before anything is checked. *)
Definition init_kprobe_sample : M () Z :=
  addr ← call (kallsyms_lookup_name symbol_name);
  if addr =? 0 then oops
  else
    call (register_kprobe symbol_name);;
    mret 0.

Definition cleanup_kprobe_sample : M () () :=
  call (unregister_kprobe symbol_name);; mret ().

End Kprobe.

Section notifier.
Import Notifier.

(** A change of state of any module is announced by the word of that
    state, with priority 12 once the module is loaded; the load and unload of
    the listener itself give its block back, unless registration was refused,
    which the load does not notice. *)
Theorem notifier_spec size env :
  let '(r, s, tr) := hello_init size env st0 [] in
  (r = Some (- ENOMEM) /\ audit tr = Some []) \/
  (r = Some 0 /\
   (forall ms name, get_notify s (state_value ms) name =
      Some (name, match ms with MODULE_STATE_LIVE => "LIVE" | MODULE_STATE_COMING => "COMING"
                  | MODULE_STATE_GOING => "GOING" end, 12, 0)) /\
   leaves (hello_exit env s tr) =
     match tr with (register_module_notifier _, (0, _)) :: _ => Some [] | _ => None end).
Proof.
  unfold hello_init, leaves. munfold. simpl.
  destruct (env [] (kzalloc size)) as [p o] eqn:E1. simpl.
  destruct (Z.eqb_spec p 0) as [->|Hp]; simpl; [by left|]. right.
  destruct (env _ (register_module_notifier p)) as [r o'] eqn:E2. simpl.
  split_and!; [done|by intros []|].
  unfold hello_exit. munfold. simpl. destruct (env _ (unregister_module_notifier p)) as [r1 o1].
  destruct (env _ (kfree p)) as [r2 o2]. simpl. unfold account. simpl. rewrite !if_null by done. simpl.
  destruct (Z.eqb_spec r 0) as [->|Hr]; simpl.
  - rewrite decide_True by done. simpl. by rewrite decide_True.
  - by destruct r.
Qed.
End notifier.

Section kprobe.
Import Kprobe.

(** The ways kprobe.c loads: an unknown symbol is dereferenced; a probe
    that was accepted is given back by unloading; a probe that was refused
    still makes the load succeed, and unloading removes a probe that is not
    there. *)
Theorem kprobe_outcomes env :
  let '(r, s, tr) := init_kprobe_sample env () [] in
  let addr := (env [] (kallsyms_lookup_name symbol_name)).1 in
  let retval := (env [(kallsyms_lookup_name symbol_name, env [] (kallsyms_lookup_name symbol_name))]
                   (register_kprobe symbol_name)).1 in
  (addr = 0 /\ r = None) \/
  (addr <> 0 /\ retval = 0 /\ r = Some 0 /\ leaves (cleanup_kprobe_sample env s tr) = Some []) \/
  (addr <> 0 /\ retval <> 0 /\ r = Some 0 /\ leaves (cleanup_kprobe_sample env s tr) = None).
Proof.
  unfold init_kprobe_sample, leaves. munfold. simpl.
  destruct (env [] (kallsyms_lookup_name symbol_name)) as [a o] eqn:E1. simpl.
  destruct (Z.eqb_spec a 0) as [->|Ha]; simpl; [by left|]. right.
  destruct (env _ (register_kprobe symbol_name)) as [r o'] eqn:E2. simpl.
  unfold cleanup_kprobe_sample. munfold. simpl. destruct (env _ (unregister_kprobe symbol_name)) as [r1 o1].
  simpl. unfold account. simpl. destruct (Z.eqb_spec r 0) as [->|Hr]; simpl; [by left|by right].
Qed.
End kprobe.
