(* ===== verification/SchedDl.v ===== *)
(** * sched-dl/patch-dl/test-dl.c

    A program whose second thread asks for a deadline reservation and spins
    until the first thread, after a sleep, tells it to stop.  The two threads
    run interleaved on the shared flag [done]. *)

From S2P Require Import Prelude.

Definition SCHED_DEADLINE : Z := 6.

Record sched_attr := SchedAttr {
  size : Z; sched_policy : Z; sched_flags : Z; sched_nice : Z; sched_priority : Z;
  sched_runtime : Z; sched_deadline : Z; sched_period : Z
}.

(** Two u32, a u64, an s32 and a u32, three u64. *)
Definition sizeof_sched_attr : Z := 4 + 4 + 8 + 4 + 4 + 8 + 8 + 8.

(** What run_deadline passes to sched_setattr. *)
Definition attr : sched_attr :=
  let period := s32 (30 * 1000 * 1000) in
  SchedAttr sizeof_sched_attr SCHED_DEADLINE 0 0 0 (s32 (10 * 1000 * 1000)) period period.

(** ** System calls *)

Inductive thread := Main | Deadline.

(** The numbers and arguments of the calls; [attr] of sched_getattr is the
    address the kernel fills. *)
Inductive scall :=
  | NR_gettid
  | NR_sched_setattr (pid : Z) (attr : sched_attr) (flags : Z)
  | NR_sched_getattr (pid attr size flags : Z).

Section program.
(** What the kernel answers each thread, the long that syscall returns, and
    whether pthread_create makes the thread: main does not look. *)
Context (syscall : thread -> scall -> Z) (created : bool).

Definition gettid (t : thread) : Z := syscall t NR_gettid.

(** The wrappers return an int. *)
Definition sched_setattr (t : thread) (pid : Z) (attr : sched_attr) (flags : Z) : Z :=
  s32 (syscall t (NR_sched_setattr pid attr flags)).

Definition sched_getattr (t : thread) (pid attr size flags : Z) : Z :=
  s32 (syscall t (NR_sched_getattr pid attr size flags)).

(** The [ret] of run_deadline. *)
Definition setattr_ret : Z := sched_setattr Deadline 0 attr 0.

(** ** The two threads *)

Inductive tpc :=            (* run_deadline *)
  | TNew                    (* not created yet *)
  | TStart                  (* before its first line *)
  | TSetattr                (* before sched_setattr *)
  | TFailed                 (* its result was negative *)
  | TLoop                   (* the while loop *)
  | TDone.

Inductive mpc :=            (* main *)
  | MStart | MCreate | MSleep | MJoin
  | MReturned
  | MUndefined.             (* in pthread_join on an uninitialised handle *)

(** The lines of the program, with the thread number they print. *)
Inductive line := MainThread (tid : Z) | Started (tid : Z) | Perror | Dies (tid : Z) | MainDies (tid : Z).

(** [out]: the lines printed, oldest first; [exited]: the exit code once the
    process is gone. *)
Record world := World {
  done : Z; x : Z; t_at : tpc; m_at : mpc; out : list line; exited : option Z
}.

Definition start : world := World 0 0 TNew MStart [] None.

Inductive step : world -> world -> Prop :=
  | m_start w :
      exited w = None -> m_at w = MStart ->
      step w (World (done w) (x w) (t_at w) MCreate (out w ++ [MainThread (gettid Main)]) None)
  | m_create w :
      exited w = None -> m_at w = MCreate ->
      step w (World (done w) (x w) (if created then TStart else TNew) MSleep (out w) None)
  | m_done w :                              (* sleep(10) is over *)
      exited w = None -> m_at w = MSleep ->
      step w (World 1 (x w) (t_at w) MJoin (out w) None)
  | m_join w :
      exited w = None -> m_at w = MJoin -> t_at w = TDone ->
      step w (World (done w) (x w) TDone MReturned (out w ++ [MainDies (gettid Main)]) (Some 0))
  | m_join_nothing w :                      (* the handle was never filled in *)
      exited w = None -> m_at w = MJoin -> created = false ->
      step w (World (done w) (x w) (t_at w) MUndefined (out w) None)
  | t_start w :
      exited w = None -> t_at w = TStart ->
      step w (World (done w) (x w) TSetattr (m_at w) (out w ++ [Started (gettid Deadline)]) None)
  | t_setattr w :
      exited w = None -> t_at w = TSetattr ->
      step w (World (done w) (x w) (if setattr_ret <? 0 then TFailed else TLoop) (m_at w) (out w) None)
  | t_failed w :                            (* done = 0; perror; exit(-1) *)
      exited w = None -> t_at w = TFailed ->
      step w (World 0 (x w) TFailed (m_at w) (out w ++ [Perror]) (Some (-1)))
  | t_spin w :
      exited w = None -> t_at w = TLoop -> done w = 0 ->
      step w (World (done w) (s32 (x w + 1)) TLoop (m_at w) (out w) None)
  | t_leave w :
      exited w = None -> t_at w = TLoop -> done w <> 0 ->
      step w (World (done w) (x w) TDone (m_at w) (out w ++ [Dies (gettid Deadline)]) None).

(** ** Properties *)

(** The lines printed before the program counters of the two threads. *)
Definition lines (t : tpc) (m : mpc) : list line :=
  (if m is MStart then [] else [MainThread (gettid Main)]) ++
  match t with
  | TNew | TStart => []
  | TSetattr | TFailed | TLoop => [Started (gettid Deadline)]
  | TDone => [Started (gettid Deadline); Dies (gettid Deadline)]
  end.

(** All lines of a run that exits. *)
Definition transcript : list line :=
  [MainThread (gettid Main); Started (gettid Deadline)] ++
  if setattr_ret <? 0 then [Perror] else [Dies (gettid Deadline); MainDies (gettid Main)].

(** [done] is set exactly while main waits for the thread, and the thread is
    where the answer of the kernel puts it. *)
Definition inv (w : world) : Prop :=
  match exited w with
  | Some c => created = true /\ c = (if setattr_ret <? 0 then -1 else 0) /\ out w = transcript
  | None =>
      match m_at w with
      | MStart | MCreate => t_at w = TNew /\ done w = 0
      | MSleep => (t_at w = TNew <-> created = false) /\ t_at w <> TDone /\ done w = 0
      | MJoin => (t_at w = TNew <-> created = false) /\ done w = 1
      | MReturned => False
      | MUndefined => t_at w = TNew /\ created = false
      end /\
      match t_at w with
      | TFailed => setattr_ret < 0
      | TLoop | TDone => 0 <= setattr_ret
      | _ => True
      end /\
      out w = lines (t_at w) (m_at w)
  end.

Lemma step_inv_dl w w' : step w w' -> inv w -> inv w'.
Proof.
  intros Hs. unfold inv, transcript. destruct Hs as [w E M|w E M|w E M|w E M T|w E M C|w E T|w E T|w E T|w E T D|w E T D];
    rewrite E; cbn [exited done t_at m_at out].
  - rewrite M. intros ([-> ?] & _ & ->). done.
  - rewrite M. intros ([-> ?] & _ & ->). by destruct created.
  - rewrite M. intros ((? & ? & ?) & ? & ->). done.
  - rewrite M, T. intros ([HC _] & ? & ->). rewrite (proj2 (Z.ltb_ge setattr_ret 0)) by done.
    split; [|done]. destruct created; [done|]. by pose proof (proj2 HC eq_refl).
  - rewrite M. intros ([HC _] & _ & ->). rewrite (proj2 HC C). done.
  - rewrite T. intros (HM & _ & ->). destruct (m_at w); naive_solver.
  - rewrite T. intros (HM & _ & Ho). split_and!; [destruct (Z.ltb setattr_ret 0), (m_at w); naive_solver| |];
      destruct (Z.ltb_spec setattr_ret 0); rewrite ?Ho; done.
  - rewrite T. intros (HM & ? & ->). rewrite (proj2 (Z.ltb_lt setattr_ret 0)) by done.
    destruct created, (m_at w); naive_solver.
  - rewrite T. intros (HM & ? & ->). destruct (m_at w); naive_solver.
  - rewrite T. intros (HM & ? & ->). destruct (m_at w); naive_solver.
Qed.

Lemma reachable_inv_dl w : rtc step start w -> inv w.
Proof. intros Hr. eapply rtc_preserves; [|exact Hr|done]. intros a b. apply step_inv_dl. Qed.

(** Steps left once main has woken up. *)
Definition left (w : world) : nat :=
  match exited w, m_at w with
  | Some _, _ | None, MUndefined => 0
  | None, _ =>
      match t_at w with TNew | TStart => 5 | TSetattr => 4 | TFailed => 1 | TLoop => 3 | TDone => 2 end
  end.

Lemma left_step w w' :
  step w w' -> inv w -> done w <> 0 \/ exited w <> None ->
  (left w' < left w)%nat /\ (done w' <> 0 \/ exited w' <> None).
Proof.
  intros Hs HI HD. destruct Hs as [w E M|w E M|w E M|w E M T|w E M C|w E T|w E T|w E T|w E T D|w E T D];
    unfold left, inv in *; rewrite E in *; simpl.
  1-3: rewrite M in HI; naive_solver.
  3-7: rewrite T in HI |- *; destruct HI as (HM & _ & _);
    assert (m_at w <> MUndefined) as HU by (intros EM; rewrite EM in HM; naive_solver).
  - rewrite M, T. split; [lia|by right].
  - rewrite M in HI |- *. split; [destruct (t_at w); lia|]. left. naive_solver.
  - split; [destruct (m_at w); try done; lia|left; naive_solver].
  - split; [destruct (m_at w), (setattr_ret <? 0); try done; lia|left; naive_solver].
  - split; [destruct (m_at w); try done; lia|by right].
  - naive_solver.
  - split; [destruct (m_at w); try done; lia|by left].
Qed.

(** Once done is set there is no infinite run. *)
Lemma dl_terminates w : inv w -> done w <> 0 -> Acc (flip step) w.
Proof.
  intros HI HD. assert (done w <> 0 \/ exited w <> None) as HD' by by left. clear HD.
  remember (left w) as k eqn:Hk. revert w Hk HI HD'. induction k as [k IH] using lt_wf_ind.
  intros w -> HI HD. constructor. intros w' Hs. destruct (left_step w w' Hs HI HD) as [Hl HD'].
  eapply IH; [exact Hl|done|by eapply step_inv_dl|done].
Qed.

(** A run that cannot go on has exited, or main joins a thread that was never
    made. *)
Lemma dl_stuck w :
  inv w -> (forall w', ~ step w w') -> exited w <> None \/ (m_at w = MUndefined /\ created = false).
Proof.
  intros HI Hno. destruct (exited w) eqn:E; [by left|]. right. unfold inv in HI. rewrite E in HI.
  destruct HI as (HM & HT & _). destruct (m_at w) eqn:M; [exfalso..|by destruct HM]; [..|done].
  - by eapply Hno, m_start.
  - by eapply Hno, m_create.
  - by eapply Hno, m_done.
  - destruct HM as [HN HD]. destruct (t_at w) eqn:T; [by eapply Hno, m_join_nothing; naive_solver|..].
    + by eapply Hno, t_start.
    + by eapply Hno, t_setattr.
    + by eapply Hno, t_failed.
    + eapply Hno, t_leave; [done|done|lia].
    + by eapply Hno, m_join.
Qed.


(** Before that the thread spins: it counts in [x] and nothing else. *)
Lemma spin_only_counts w w' :
  step w w' -> t_at w = TLoop -> t_at w' = TLoop -> m_at w' = m_at w ->
  w' = World (done w) (s32 (x w + 1)) TLoop (m_at w) (out w) None.
Proof. intros Hs HT HT' HM. destruct Hs; simpl in *; congruence. Qed.
End program.

Section examples.
(** A kernel that grants the reservation; the threads are 7 and 8. *)
Definition ex_kernel (t : thread) (c : scall) : Z :=
  match c, t with NR_gettid, Main => 7 | NR_gettid, Deadline => 8 | _, _ => 0 end.

Definition ex_join : world := World 1 0 TLoop MJoin [MainThread 7; Started 8] None.

End examples.
