(* ===== verification/Deferred.v ===== *)
(** * timer-labs: timer.c, hrtimer.c; sched-lab: tasklet.c, work_queue.c,
    kthread_run.c

    Five modules that hand one function to the kernel to be run later: by a
    timer, a high resolution timer, a tasklet, a work item, a thread.  The
    function is a list of instructions in the order of the source; it runs
    interleaved with the unloading of the module.  The question is the same for
    all: can the function still run when the module is gone? *)

From S2P Require Import Prelude Kernel.

(** Instructions of a deferred function: print a line with a static variable
    or without, leave a loop when [status] is 0 or when the thread is asked to
    stop, go back, return. *)
Inductive instr :=
  | Emit (i : option nat)
  | UnlessStatus (target : nat)
  | IfStop (target : nat)
  | Goto (target : nat)
  | Return.

(** What load and unload do. *)
Inductive act :=
  | SetData (i : nat) (v : Z)   (* a static variable *)
  | SetStatus (v : Z)
  | Queue                       (* hand the function to the kernel *)
  | CancelSync                  (* take it back, wait while it runs *)
  | CancelOther                 (* cancel something that was never queued *)
  | ThreadStop.                 (* ask the thread to stop, wait for its end *)

Record lab := Lab { body : list instr; load : list act; unload : list act }.

Inductive phase := Loaded | Unloading (todo : list act) | Gone.

(** [pending]: queued and not started; [pc]: where the function is if it runs;
    [wild]: an instruction ran after the module was gone. *)
Record world := World {
  data : list Z; status : Z; pending : bool; pc : option nat; stop : bool;
  ph : phase; out : list (option Z); wild : bool
}.

(** Actions that never wait. *)
Definition do_act (a : act) (w : world) : world :=
  match a with
  | SetData i v =>
      World (<[i := v]> (data w)) (status w) (pending w) (pc w) (stop w) (ph w) (out w) (wild w)
  | SetStatus v => World (data w) v (pending w) (pc w) (stop w) (ph w) (out w) (wild w)
  | Queue => World (data w) (status w) true (pc w) (stop w) (ph w) (out w) (wild w)
  | CancelSync => World (data w) (status w) false (pc w) (stop w) (ph w) (out w) (wild w)
  | CancelOther => w
  | ThreadStop => World (data w) (status w) (pending w) (pc w) true (ph w) (out w) (wild w)
  end.

Definition set_ph (p : phase) (w : world) : world :=
  World (data w) (status w) (pending w) (pc w) (stop w) p (out w) (wild w).
Definition set_pc (p : option nat) (w : world) : world :=
  World (data w) (status w) (pending w) p (stop w) (ph w) (out w) (wild w).
Definition started (w : world) : world :=
  World (data w) (status w) false (Some 0%nat) (stop w) (ph w) (out w) (wild w).

(** One instruction at [n]. *)
Definition run (i : instr) (n : nat) (w : world) : world :=
  let gone := match ph w with Gone => true | _ => false end in
  let w1 := World (data w) (status w) (pending w) (pc w) (stop w) (ph w) (out w) (wild w || gone) in
  match i with
  | Emit o =>
      World (data w) (status w) (pending w) (Some (S n)) (stop w) (ph w)
        ((k ← o; data w !! k) :: out w) (wild w || gone)
  | UnlessStatus t => set_pc (Some (if status w =? 0 then t else S n)) w1
  | IfStop t => set_pc (Some (if stop w then t else S n)) w1
  | Goto t => set_pc (Some t) w1
  | Return => set_pc None w1
  end.

(** Unloading may go past [a]. *)
Definition passes (a : act) (w : world) : bool :=
  match a with
  | CancelSync => match pc w with None => true | Some _ => false end
  | ThreadStop => negb (pending w) && match pc w with None => true | Some _ => false end
  | _ => true
  end.

Inductive step (l : lab) : world -> world -> Prop :=
  | begin w : pending w = true -> pc w = None -> step l w (started w)
  | instruction w n i : pc w = Some n -> body l !! n = Some i -> step l w (run i n w)
  | rmmod w : ph w = Loaded -> step l w (set_ph (Unloading (unload l)) w)
  | asked w todo :
      ph w = Unloading (ThreadStop :: todo) -> stop w = false -> step l w (do_act ThreadStop w)
  | unloading w a todo :
      ph w = Unloading (a :: todo) -> passes a w = true ->
      step l w (set_ph (Unloading todo) (do_act a w))
  | unloaded w : ph w = Unloading [] -> step l w (set_ph Gone w).

(** The world after the load; [status] is 1 in the modules that have it. *)
Definition loaded (l : lab) : world :=
  foldl (fun w a => do_act a w) (World [0; 0] 1 false None false Loaded [] false) (load l).

(** ** The modules *)

Module Timer.
Definition thr_fun : list instr := [Emit (Some 0%nat); Return].
(** timer_setup and the expiry time only say when the timer will be run. *)
Definition my_init : list act := [SetData 0 89; Queue].
(** del_timer(&my_timer): not the timer that was added. *)
Definition my_exit : list act := [SetStatus 0; CancelOther].
Definition module : lab := Lab thr_fun my_init my_exit.
End Timer.

Module HrTimer.
Definition my_hrtimer_callback : list instr := [Emit None; Return].
Definition my_init : list act := [Queue].
Definition my_exit : list act := [CancelSync].
Definition module : lab := Lab my_hrtimer_callback my_init my_exit.
(** The delay in nanoseconds: MS_TO_NS(200). *)
Definition delay : Z := 200 * 1000000.
End HrTimer.

Module SchedTasklet.
Definition t_fun : list instr := [Emit (Some 0%nat); Emit (Some 1%nat); Return].
Definition my_init : list act := [SetData 0 100; SetData 1 200; Queue].
Definition my_exit : list act := [].
Definition module : lab := Lab t_fun my_init my_exit.
End SchedTasklet.

Module SchedWork.
Definition thr_fun : list instr := [UnlessStatus 3; Emit (Some 0%nat); Goto 0; Return].
Definition my_init : list act := [SetData 0 90; Queue].
Definition my_exit : list act := [SetStatus 0].
Definition module : lab := Lab thr_fun my_init my_exit.
End SchedWork.

Module SchedThread.
Definition thr_fun : list instr := [IfStop 3; Emit None; Goto 0; Return].
Definition my_init : list act := [Queue].
Definition my_exit : list act := [ThreadStop].
Definition module : lab := Lab thr_fun my_init my_exit.
End SchedThread.

(** kthread_run may fail: init and exit with the kernel's answers. *)
Definition thread_init : M Z Z :=
  tsk ← call (kthread_run "thr_fun");
  modify (fun _ => tsk);;
  if tsk =? 0 then mret (-1) else mret 0.

Definition thread_exit : M Z () :=
  tsk ← get; call (kthread_stop tsk);; mret ().

(** ** Unloading *)

Definition modules : list lab :=
  [Timer.module; HrTimer.module; SchedTasklet.module; SchedWork.module; SchedThread.module].

(** Labs that unload by one action that waits until the function is over. *)
Definition waits (l : lab) : Prop := unload l = [CancelSync] \/ unload l = [ThreadStop].

(** Once unloading is past that action, the function is not queued and does
    not run. *)
Definition quiet (l : lab) (w : world) : Prop :=
  wild w = false /\
  match ph w with
  | Loaded => True
  | Unloading todo => todo = unload l \/ (todo = [] /\ pending w = false /\ pc w = None)
  | Gone => pending w = false /\ pc w = None
  end.

Lemma passed a w :
  a = CancelSync \/ a = ThreadStop -> passes a w = true ->
  pending (do_act a w) = false /\ pc (do_act a w) = None.
Proof.
  intros [-> | ->] Hp; simpl in *; destruct (pc w); try done; [|by destruct (pending w)].
  by rewrite andb_false_r in Hp.
Qed.

Lemma quiet_step l w w' : waits l -> step l w w' -> quiet l w -> quiet l w'.
Proof.
  intros Hl Hs [Hw Hq]. destruct Hs as [w Hp Hc|w n i Hc Hi|w Hp|w todo Hp _|w a todo Hp Ha|w Hp].
  - split; [done|]. simpl. destruct (ph w); naive_solver congruence.
  - assert (wild (run i n w) = false /\ ph (run i n w) = ph w) as [Hw' Hph].
    { destruct (ph w) eqn:E; [| |destruct Hq; congruence]; destruct i; simpl; rewrite Hw, E; done. }
    split; [done|]. rewrite Hph. destruct (ph w); naive_solver congruence.
  - split; [done|]. by left.
  - split; [done|]. simpl. rewrite Hp in *. naive_solver.
  - rewrite Hp in Hq. destruct Hq as [Hq|[? _]]; [|done].
    assert ((a = CancelSync \/ a = ThreadStop) /\ todo = []) as [Ha' ->] by (unfold waits in Hl; naive_solver congruence).
    split; [by destruct Ha' as [-> | ->]|]. right. split; [done|]. by apply passed.
  - rewrite Hp in Hq. split; [done|]. simpl. destruct Hq as [Hq|[_ ?]]; [|done].
    unfold waits in Hl. naive_solver congruence.
Qed.

Lemma quiet_reachable l w : waits l -> wild (loaded l) = false -> ph (loaded l) = Loaded ->
  rtc (step l) (loaded l) w -> quiet l w.
Proof.
  intros Hl Hw Hp Hr. eapply rtc_preserves; [|exact Hr|split; [done|by rewrite Hp]].
  intros a b Hs. by apply quiet_step.
Qed.

(** A run that unloads at once, without waiting, and then starts the function. *)
Fixpoint rush (todo : list act) (w : world) : world :=
  match todo with
  | [] => set_ph Gone w
  | a :: todo' => rush todo' (set_ph (Unloading todo') (do_act a w))
  end.

Lemma rush_steps l todo w :
  ph w = Unloading todo -> forallb (fun a => match a with CancelSync | ThreadStop => false | _ => true end) todo = true ->
  rtc (step l) w (rush todo w).
Proof.
  revert w. induction todo as [|a todo IH]; intros w Hp Hf; simpl in *; [by apply rtc_once, unloaded|].
  apply andb_true_iff in Hf as [Ha Hf]. eapply rtc_l; [eapply unloading; [exact Hp|by destruct a]|].
  by apply IH.
Qed.

Lemma rush_wild l i : ph (loaded l) = Loaded ->
  forallb (fun a => match a with CancelSync | ThreadStop => false | _ => true end) (unload l) = true ->
  let w := rush (unload l) (set_ph (Unloading (unload l)) (loaded l)) in
  pending w = true -> pc w = None -> ph w = Gone -> body l !! 0%nat = Some i ->
  exists w', rtc (step l) (loaded l) w' /\ wild w' = true.
Proof.
  intros Hp Hf w Hpe Hpc Hg Hi. exists (run i 0 (started w)). split.
  - eapply rtc_l; [by apply rmmod|]. etrans; [by apply rush_steps|]. fold w.
    eapply rtc_l; [by apply begin|]. apply rtc_once. by apply instruction.
  - destruct i; simpl; rewrite Hg; by rewrite orb_true_r.
Qed.

(** C31.  Which of the modules can be unloaded safely: after hrtimer.c, which
    cancels its timer, and kthread_run.c, which stops its thread, no
    instruction of the function is executed once the module is gone, in any
    interleaving; timer.c, which deletes the wrong timer, tasklet.c, which
    forgets its tasklet, and work_queue.c, which does not wait for its work, all
    have runs in which the function starts in memory that was freed. *)
Theorem deferred_unload :
  (forall l w, l ∈ [HrTimer.module; SchedThread.module] -> rtc (step l) (loaded l) w ->
    wild w = false /\ (ph w = Gone -> pending w = false /\ pc w = None)) /\
  (forall l, l ∈ [Timer.module; SchedTasklet.module; SchedWork.module] ->
    exists w, rtc (step l) (loaded l) w /\ wild w = true).
Proof.
  split.
  - intros l w Hl Hr. assert (quiet l w) as [Hw Hq].
    { apply quiet_reachable; [| | |done].
      all: apply elem_of_cons in Hl as [->|[->|[]%not_elem_of_nil]%elem_of_cons]; first [done|by left|by right]. }
    split; [done|]. intros E. by rewrite E in Hq.
  - intros l Hl. apply elem_of_cons in Hl as [->|[->|[->|[]%not_elem_of_nil]%elem_of_cons]%elem_of_cons];
      by eapply rush_wild.
Qed.

(** ** Unloading ends *)

Section ends.
(** [tbl] bounds the instructions left from each point of the function once
    it is to stop; a queued function has fewer than [5]. *)
Definition rank (tbl : list nat) (p : option nat) : nat :=
  match p with None => 0 | Some n => default 0%nat (tbl !! n) end.

Definition phase_rank (p : phase) : nat :=
  match p with Loaded => 0 | Unloading todo => S (length todo) | Gone => 0 end.

Definition measure (tbl : list nat) (w : world) : nat :=
  (6 * phase_rank (ph w) + (if pending w then 5 else 0) + rank tbl (pc w))%nat.

(** The module is on its way out, and a thread has been asked to stop. *)
Definition leaving (l : lab) (w : world) : Prop :=
  quiet l w /\ ph w <> Loaded /\
  (unload l = [ThreadStop] -> ph w = Unloading [ThreadStop] -> stop w = true) /\
  (forall n, pc w = Some n -> (n < length (body l))%nat).

Definition table (l : lab) : list nat :=
  match body l with [_; _] => [2; 1]%nat | _ => [2; 4; 3; 1]%nat end.

(** Both functions end by instructions that lower the rank. *)
Definition winds_down (l : lab) : Prop := forall w n i,
  (unload l = [ThreadStop] -> stop w = true) -> body l !! n = Some i ->
  (rank (table l) (pc (run i n w)) < rank (table l) (Some n))%nat /\
  (forall k, pc (run i n w) = Some k -> (k < length (body l))%nat).

Lemma winds_down_labs : winds_down HrTimer.module /\ winds_down SchedThread.module.
Proof.
  split; intros w n i Hs Hi.
  - destruct n as [|[|n]]; [injection Hi as <-..|by destruct n]; simpl.
    + split; [lia|]. intros k [= <-]. lia.
    + split; [lia|done].
  - specialize (Hs eq_refl). destruct n as [|[|[|[|n]]]]; [injection Hi as <-..|by destruct n]; simpl; rewrite ?Hs.
    + split; [simpl; lia|]. intros k [= <-]. lia.
    + split; [lia|]. intros k [= <-]. lia.
    + split; [lia|]. intros k [= <-]. lia.
    + split; [lia|done].
Qed.

Context (l : lab) (Hl : waits l) (Hdown : winds_down l) (Hstart : body l <> []).
(** A queued function is shorter than what queueing counts for. *)
Context (Hfirst : (rank (table l) (Some 0%nat) < 5)%nat).

Lemma leaving_step w w' :
  step l w w' -> leaving l w -> leaving l w' /\ (measure (table l) w' < measure (table l) w)%nat.
Proof.
  intros Hst (HQ & Hph & Hstop & Hpc). pose proof (quiet_step l w w' Hl Hst HQ) as HQ'.
  destruct HQ as [_ Hq]. unfold leaving, measure.
  destruct Hst as [w Hp Hc|w n i Hc Hi|w Hp|w todo Hp Hns|w a todo Hp Ha|w Hp].
  - split; [split_and!; [done..|]|].
    + simpl. intros n [= <-]. destruct (body l); [done|simpl; lia].
    + rewrite Hp, Hc. cbn [started ph pending pc rank]. unfold rank in Hfirst. lia.
  - assert (unload l = [ThreadStop] -> stop w = true) as Hs'.
    { intros E. destruct (ph w) eqn:Eph; [done| |naive_solver congruence].
      destruct Hq as [->|(_ & _ & ?)]; [|congruence]. rewrite E in *. auto. }
    destruct (Hdown w n i Hs' Hi) as [Hr Hk].
    assert (ph (run i n w) = ph w /\ stop (run i n w) = stop w /\ pending (run i n w) = pending w)
      as (E1 & E2 & E3) by by destruct i.
    rewrite E1, E2, E3, Hc in *. split; [split_and!; done|lia].
  - done.
  - assert (todo = []) as -> by (rewrite Hp in Hq; unfold waits in Hl; naive_solver congruence).
    assert (unload l = [ThreadStop]) as E by (rewrite Hp in Hq; naive_solver).
    specialize (Hstop E Hp). congruence.
  - rewrite Hp in Hq. destruct Hq as [Hq|[? _]]; [|done].
    assert ((a = CancelSync \/ a = ThreadStop) /\ todo = []) as [Ha' ->] by (unfold waits in Hl; naive_solver congruence).
    destruct (passed a w Ha' Ha) as [Hpe Hpn]. split; [split_and!; [done|done|done|]|].
    + simpl. intros n E. change (pc (do_act a w) = Some n) in E. congruence.
    + cbn [set_ph ph pending pc]. rewrite Hpe, Hpn, Hp. cbn. lia.
  - split; [split_and!; done|]. rewrite Hp. cbn. lia.
Qed.

Lemma leaving_acc w : leaving l w -> Acc (flip (step l)) w.
Proof.
  remember (measure (table l) w) as k eqn:Hk. revert w Hk.
  induction k as [k IH] using lt_wf_ind. intros w -> HL. constructor. intros w' Hst.
  destruct (leaving_step w w' Hst HL) as [HL' Hlt]. by eapply IH.
Qed.

Lemma leaving_done w : leaving l w -> (forall w', ~ step l w w') -> ph w = Gone.
Proof.
  intros ((_ & Hq) & Hph & Hstop & Hpc) Hno. destruct (ph w) as [|todo|] eqn:E; [done| |done].
  destruct (pc w) as [n|] eqn:Ec.
  { destruct (lookup_lt_is_Some_2 (body l) n (Hpc n eq_refl)) as [i Hi].
    destruct (Hno _ (instruction l w n i Ec Hi)). }
  destruct (pending w) eqn:Ep; [destruct (Hno _ (begin l w Ep Ec))|].
  destruct todo as [|a todo]; [destruct (Hno _ (unloaded l w E))|].
  destruct (Hno _ (unloading l w a todo E ltac:(by destruct a; simpl; rewrite ?Ep, ?Ec))).
Qed.
End ends.

Lemma leaving_rtc l w w' : waits l -> winds_down l -> body l <> [] ->
  (rank (table l) (Some 0%nat) < 5)%nat -> rtc (step l) w w' -> leaving l w -> leaving l w'.
Proof.
  intros. eapply rtc_preserves; [|done..]. intros a b Hs Ha. by eapply leaving_step.
Qed.

(** The function never leaves its code. *)
Definition in_range (l : lab) : Prop := body l <> [] /\ forall w n i k,
  body l !! n = Some i -> pc (run i n w) = Some k -> (k < length (body l))%nat.

Lemma in_range_labs : in_range HrTimer.module /\ in_range SchedThread.module.
Proof.
  split; (split; [done|]); intros w n i k Hi.
  - destruct n as [|[|n]]; [injection Hi as <-..|by destruct n]; simpl; [intros [= <-]; lia|done].
  - destruct n as [|[|[|[|n]]]]; [injection Hi as <-..|by destruct n]; simpl; [| | |done];
      [destruct (stop w)| |]; intros [= <-]; lia.
Qed.

Lemma pc_in_range l w : in_range l -> pc (loaded l) = None -> rtc (step l) (loaded l) w ->
  forall n, pc w = Some n -> (n < length (body l))%nat.
Proof.
  intros [Hb Hi] H0 Hr.
  eapply (rtc_preserves _ (fun w => forall n, pc w = Some n -> (n < length (body l))%nat)); [|exact Hr|by rewrite H0].
  intros v v' Hs Hv. destruct Hs as [v Hp Hc|v n i Hc Hin|v _|v todo _ _|v a todo _ _|v _]; try done.
  - intros n [= <-]. destruct (body l); [done|simpl; lia].
  - intros k. by eapply Hi.
  - intros n E. apply Hv. by destruct a.
Qed.

(** C18.  Unloading hrtimer.c and kthread_run.c always comes to an end: once the
    unload has begun (and, for the thread, the request to stop is made), there
    is no infinite run, whatever the function was doing, and a run that can go
    no further has unloaded the module. *)
Theorem unload_ends l w :
  l ∈ [HrTimer.module; SchedThread.module] -> rtc (step l) (loaded l) w ->
  ph w <> Loaded -> (l = SchedThread.module -> ph w = Unloading [ThreadStop] -> stop w = true) ->
  Acc (flip (step l)) w /\
  forall w', rtc (step l) w w' -> (forall w'', ~ step l w' w'') -> ph w' = Gone.
Proof.
  intros Hin Hr Hph Hstop.
  assert (waits l /\ winds_down l /\ body l <> [] /\ (rank (table l) (Some 0%nat) < 5)%nat /\ in_range l /\
    wild (loaded l) = false /\ ph (loaded l) = Loaded /\ pc (loaded l) = None /\
    (unload l = [ThreadStop] -> l = SchedThread.module)) as (Hl & Hd & Hb & Hf & Hi & H1 & H2 & H3 & H4).
  { pose proof winds_down_labs as [W1 W2]. pose proof in_range_labs as [R1 R2].
    apply elem_of_cons in Hin as [->|[->|[]%not_elem_of_nil]%elem_of_cons];
      (split_and!; [by (left + right)|done|done|simpl; lia|done|done|done|done|done]). }
  assert (leaving l w) as HL.
  { split_and!; [by apply quiet_reachable|done|auto|]. by apply (pc_in_range l w Hi H3). }
  split; [by apply leaving_acc|]. intros w' Hr' Hno.
  eapply leaving_done; [|exact Hno]. by eapply leaving_rtc.
Qed.

(** ** What is printed *)

Definition lines (l : lab) : list (option Z) :=
  omap (fun i => match i with Emit o => Some (k ← o; data (loaded l) !! k) | _ => None end) (body l).

(** Unloading does not touch what the function prints. *)
Definition keeps_data (a : act) : bool :=
  match a with SetData _ _ | Queue => false | _ => true end.

Definition prints_inv (l : lab) (w : world) : Prop :=
  data w = data (loaded l) /\ Forall (fun o => o ∈ lines l) (out w) /\
  match ph w with Unloading todo => forallb keeps_data todo = true | _ => True end.

Lemma prints_step l w w' :
  forallb keeps_data (unload l) = true -> step l w w' -> prints_inv l w -> prints_inv l w'.
Proof.
  intros Hl Hs (Hd & Ho & Hp). destruct Hs as [w _ _|w n i Hc Hi|w _|w todo E _|w a todo E _|w E].
  - done.
  - assert (forall o, i = Emit o -> (k ← o; data w !! k) ∈ lines l) as He.
    { intros o ->. rewrite Hd. unfold lines. apply list_elem_of_omap. exists (Emit o). split; [|done].
      by eapply list_elem_of_lookup_2. }
    destruct i; (split; [done|]); (split; [|done]); try done. simpl. constructor; [by apply He|done].
  - split_and!; done.
  - split_and!; [done|done|]. simpl. by rewrite E in *.
  - rewrite E in Hp. apply andb_true_iff in Hp as [Ha Hp]. destruct a; try done; split_and!; done.
  - split_and!; done.
Qed.

(** In every interleaving, loaded, while unloading and after, the five
    functions print nothing but what their load set up: 89 from the timer,
    100 and 200 from the tasklet, 90 from the work item. *)
Theorem deferred_prints l w :
  l ∈ modules -> rtc (step l) (loaded l) w -> Forall (fun o => o ∈ lines l) (out w).
Proof.
  intros Hl Hr. assert (prints_inv l w) as (_ & ? & _); [|done].
  assert (forallb keeps_data (unload l) = true /\ prints_inv l (loaded l)) as [Hk H0].
  { unfold modules in Hl. repeat (apply elem_of_cons in Hl as [->|Hl]; [by split_and!|]).
    by apply not_elem_of_nil in Hl. }
  eapply rtc_preserves; [|exact Hr|exact H0]. intros a b Hs. by apply prints_step.
Qed.

Example lines_of : lines <$> modules =
  [[Some 89]; [None]; [Some 100; Some 200]; [Some 90]; [None]].
Proof. reflexivity. Qed.

(** The work item of work_queue.c ends once status is cleared: from any
    point of its loop a few more instructions reach the end, with at most one
    more line. *)
Theorem work_ends w n :
  status w = 0 -> pc w = Some n -> (n < 4)%nat ->
  exists w', rtc (step SchedWork.module) w w' /\ pc w' = None /\
    (length (out w') <= S (length (out w)))%nat.
Proof.
  intros Hs Hc Hn.
  assert (forall w, pc w = Some 3%nat -> exists w', rtc (step SchedWork.module) w w' /\ pc w' = None /\ out w' = out w) as E3.
  { intros v Hv. exists (run Return 3 v). split; [apply rtc_once; by apply instruction|done]. }
  assert (forall w, status w = 0 -> pc w = Some 0%nat -> exists w', rtc (step SchedWork.module) w w' /\ pc w' = None /\ out w' = out w) as E0.
  { intros v Hv Hp. destruct (E3 (run (UnlessStatus 3) 0 v)) as (w' & Hr & Hw); [simpl; by rewrite Hv|].
    exists w'. split; [|done]. eapply rtc_l; [by apply instruction|done]. }
  assert (forall w, status w = 0 -> pc w = Some 2%nat -> exists w', rtc (step SchedWork.module) w w' /\ pc w' = None /\ out w' = out w) as E2.
  { intros v Hv Hp. destruct (E0 (run (Goto 0) 2 v)) as (w' & Hr & Hw); [done|done|].
    exists w'. split; [|done]. eapply rtc_l; [by apply instruction|done]. }
  destruct n as [|[|[|[|n]]]]; [| | | |lia].
  - destruct (E0 w) as (w' & ? & ? & E); [done..|]. exists w'. rewrite E. auto.
  - destruct (E2 (run (Emit (Some 0%nat)) 1 w)) as (w' & Hr & Hp & E); [done|done|].
    exists w'. rewrite E. split_and!; [|done|done]. eapply rtc_l; [by apply instruction|done].
  - destruct (E2 w) as (w' & ? & ? & E); [done..|]. exists w'. rewrite E. auto.
  - destruct (E3 w) as (w' & ? & ? & E); [done|]. exists w'. rewrite E. auto.
Qed.

(** kthread_run reports failure by an error pointer, which the load takes
    for a thread: it returns 0, and unloading stops a thread that was never
    started. *)
Theorem thread_error_unchecked env :
  IS_ERR (env [] (kthread_run "thr_fun")).1 = true ->
  let '(r, s, tr) := thread_init env 0 [] in
  r = Some 0 /\ leaves (thread_exit env s tr) = None.
Proof.
  intros E. unfold thread_init, thread_exit, leaves. munfold. simpl.
  destruct (env [] (kthread_run "thr_fun")) as [r o]. simpl in *.
  assert (r <> 0) as H0 by by intros ->. rewrite (proj2 (Z.eqb_neq r 0)) by done. simpl.
  destruct (env _ (kthread_stop r)) as [r' o']. simpl. unfold account. simpl. rewrite E. done.
Qed.

Section examples.
(** The thread has started, runs its loop, and is asked to stop. *)
Definition ex_stopping : world :=
  do_act ThreadStop (set_ph (Unloading [ThreadStop]) (run (IfStop 3) 0 (started (loaded SchedThread.module)))).

Lemma unload_ends_witness :
  Acc (flip (step SchedThread.module)) ex_stopping /\
  forall w', rtc (step SchedThread.module) ex_stopping w' ->
    (forall w'', ~ step SchedThread.module w' w'') -> ph w' = Gone.
Proof.
  apply (unload_ends SchedThread.module); [right; left| |discriminate|reflexivity].
  eapply rtc_l; [by apply begin|]. eapply rtc_l; [by apply (instruction SchedThread.module _ 0 (IfStop 3))|].
  eapply rtc_l; [by apply rmmod|]. apply rtc_once. by apply (asked SchedThread.module _ []).
Defined.

Lemma deferred_prints_witness : Forall (fun o => o ∈ [Some 89]) (out (run (Emit (Some 0%nat)) 0 (started (loaded Timer.module)))).
Proof.
  apply (deferred_prints Timer.module); [left|].
  eapply rtc_l; [by apply begin|]. apply rtc_once. by apply instruction.
Defined.

Definition ex_work : world := World [90; 0] 0 false (Some 1%nat) false Gone [] false.

Lemma work_ends_witness : exists w',
  rtc (step SchedWork.module) ex_work w' /\ pc w' = None /\ (length (out w') <= 1)%nat.
Proof. apply (work_ends ex_work 1); [reflexivity|reflexivity|lia]. Defined.

Definition ex_fail : kenv := fun _ _ => (2 ^ 64 - 12, 0).

Lemma thread_error_unchecked_witness :
  let '(r, s, tr) := thread_init ex_fail 0 [] in
  r = Some 0 /\ leaves (thread_exit ex_fail s tr) = None.
Proof. apply (thread_error_unchecked ex_fail). reflexivity. Defined.
End examples.
