(* ===== verification/ProductTree.v ===== *)
(** * data-struct-labs/rbtree.c

    A search tree of products on the kernel's red-black trees.  Descent,
    insertion point, deletion and the module itself are the repository's;
    rb_insert_color, rb_erase and the postorder walk are the kernel's and enter
    through the class [RbTree], whose laws [RbTreeSpec] say what the kernel
    documents: the in-order sequence of nodes is kept, respectively loses the
    node erased. *)

From stdpp Require Import sorting.
From S2P Require Import Prelude Kernel.

(** ** C strings *)

(** strcmp on the bytes before the terminating NUL. *)
Fixpoint strcmp (a b : list Z) : Z :=
  match a, b with
  | [], [] => 0
  | [], y :: _ => - y
  | x :: _, [] => x
  | x :: a', y :: b' => if x =? y then strcmp a' b' else x - y
  end.

Definition cstr (l : list Z) : Prop := Forall (fun c => 0 < c < 256) l.

(** ** Nodes *)

(** struct product_t with its rb_node; the parent pointer and the colour are
    the kernel's and never read by the module. *)
Record product_t := Product { rb_left : Z; rb_right : Z; name : list Z; price : Z }.
Definition sizeof_product_t : Z := 40.

(** [product_tree] and the nodes. *)
Record tree_st := Tree { rb_node : Z; nodes_at : gmap Z product_t }.

Class RbTree := {
  rb_insert_color : Z -> tree_st -> tree_st;
  rb_erase : Z -> tree_st -> tree_st;
  rb_first_postorder : tree_st -> Z;
  rb_next_postorder : Z -> tree_st -> Z
}.

(** Where a child pointer is stored: [struct rb_node **]. *)
Inductive slot := Root | Left (p : Z) | Right (p : Z).

Definition read_slot (t : tree_st) (s : slot) : option Z :=
  match s with
  | Root => Some (rb_node t)
  | Left p => rb_left <$> nodes_at t !! p
  | Right p => rb_right <$> nodes_at t !! p
  end.

Definition write_slot (s : slot) (q : Z) (t : tree_st) : tree_st :=
  match s with
  | Root => Tree q (nodes_at t)
  | Left p => Tree (rb_node t)
      (alter (fun n => Product q (rb_right n) (name n) (price n)) p (nodes_at t))
  | Right p => Tree (rb_node t)
      (alter (fun n => Product (rb_left n) q (name n) (price n)) p (nodes_at t))
  end.

(** rb_link_node: the node becomes a leaf and is stored in the slot. *)
Definition rb_link_node (p : Z) (s : slot) (t : tree_st) : tree_st :=
  write_slot s p (Tree (rb_node t)
    (alter (fun n => Product 0 0 (name n) (price n)) p (nodes_at t))).

(** ** The operations *)

Fixpoint search_loop (fuel : nat) (t : tree_st) (product_name : list Z) (each : Z)
    : outcome (Z * Z) :=
  match fuel with
  | O => NoFuel
  | S fuel' =>
      if each =? 0 then Done (-1, 0)
      else
        match nodes_at t !! each with
        | None => Wild
        | Some n =>
            let ret := strcmp product_name (name n) in
            if ret <? 0 then search_loop fuel' t product_name (rb_left n)
            else if 0 <? ret then search_loop fuel' t product_name (rb_right n)
            else Done (0, each)
        end
  end.

(** The return value and [*product_data_buf] (0 when it is not set). *)
Definition rbtree_search_product_by_name (fuel : nat) (t : tree_st) (product_name : list Z)
    : outcome (Z * Z) :=
  search_loop fuel t product_name (rb_node t).

Definition rbtree_del `{RbTree} (fuel : nat) (t : tree_st) (nm : list Z)
    : outcome (tree_st * Z) :=
  match rbtree_search_product_by_name fuel t nm with
  | Done (r, tmp) => if r <? 0 then Done (t, -1) else Done (rb_erase tmp t, 0)
  | Wild => Wild
  | NoFuel => NoFuel
  end.

(** The [while] loop of rb_tree_add: the slot where it stops.  When the name
    is already there the loop prints a message and goes round again. *)
Fixpoint add_loop (fuel : nat) (t : tree_st) (nm : list Z) (each_tnode : slot) : outcome slot :=
  match fuel with
  | O => NoFuel
  | S fuel' =>
      match read_slot t each_tnode with
      | None => Wild
      | Some each =>
          if each =? 0 then Done each_tnode
          else
            match nodes_at t !! each with
            | None => Wild
            | Some n =>
                let ret := strcmp nm (name n) in
                if ret <? 0 then add_loop fuel' t nm (Left each)
                else if 0 <? ret then add_loop fuel' t nm (Right each)
                else add_loop fuel' t nm each_tnode
            end
      end
  end.

Definition rb_tree_add `{RbTree} (fuel : nat) (t : tree_st) (product_data : Z)
    : outcome (tree_st * Z) :=
  if product_data =? 0 then Done (t, - EINVAL)
  else
    match nodes_at t !! product_data with
    | None => Wild
    | Some n =>
        match add_loop fuel t (name n) Root with
        | Done s => Done (rb_insert_color product_data (rb_link_node product_data s t), 0)
        | Wild => Wild
        | NoFuel => NoFuel
        end
    end.

(** ** The module *)

Record st := St { product_tree : tree_st; p1 : Z; p2 : Z }.

Definition st0 : st := St (Tree 0 ∅) 0 0.

Section module.
Context `{RbTree} (fuel : nat).

Definition set_tree (t : tree_st) (s : st) : st := St t (p1 s) (p2 s).

(** An operation on the tree; a wild access or an endless loop is an oops. *)
Definition on_tree {A} (op : tree_st -> outcome (tree_st * A)) : M st A :=
  s ← get;
  match op (product_tree s) with
  | Done (t, a) => modify (set_tree t);; mret a
  | _ => oops
  end.

(** The postorder walk: the successor is taken before the body. *)
Fixpoint clear_loop (fuel : nat) (each_product : Z) : M st () :=
  match fuel with
  | O => oops
  | S fuel' =>
      if each_product =? 0 then mret ()
      else
        s ← get;
        let tmp_product := rb_next_postorder each_product (product_tree s) in
        let t := rb_erase each_product (product_tree s) in
        modify (set_tree (Tree (rb_node t) (delete each_product (nodes_at t))));;
        call (kfree each_product);;
        clear_loop fuel' tmp_product
  end.

Definition rbtree_clear : M st Z :=
  s ← get;
  clear_loop fuel (rb_first_postorder (product_tree s));;
  mret 0.

Definition new_product (p : Z) (nm : string) (pr : Z) (s : st) : st :=
  set_tree (Tree (rb_node (product_tree s))
    (<[p := Product 0 0 (bytes_of nm) pr]> (nodes_at (product_tree s)))) s.

Definition rbtree_init : M st Z :=
  p ← call (kmalloc sizeof_product_t);
  modify (fun s => St (product_tree s) p (p2 s));;
  if p =? 0 then mret (- ENOMEM)
  else
    modify (new_product p "jeff" 23);;
    q ← call (kmalloc sizeof_product_t);
    modify (fun s => St (product_tree s) (p1 s) q);;
    if q =? 0 then call (kfree p);; mret (- ENOMEM)
    else
      modify (new_product q "one" 24);;
      on_tree (fun t => rb_tree_add fuel t p);;
      on_tree (fun t => rb_tree_add fuel t q);;
      on_tree (fun t => rbtree_del fuel t (bytes_of "one"));;
      s ← get;
      match rbtree_search_product_by_name fuel (product_tree s) (bytes_of "one") with
      | Done (retval, _) => if retval <? 0 then mret 0 else mret 0
      | _ => oops
      end.

Definition rbtree_exit : M st () := rbtree_clear;; mret ().
End module.

(** ** Order of strings *)

Lemma strcmp_opp a b : strcmp b a = - strcmp a b.
Proof.
  revert b. induction a as [|x a IH]; intros [|y b]; simpl; try lia.
  rewrite (Z.eqb_sym y x). destruct (x =? y); [by rewrite IH|lia].
Qed.

Lemma strcmp_refl a : strcmp a a = 0.
Proof. induction a as [|x a IH]; simpl; [done|]. by rewrite Z.eqb_refl. Qed.

Lemma strcmp_eq a b : cstr a -> cstr b -> strcmp a b = 0 -> a = b.
Proof.
  intros Ha. revert b. induction Ha as [|x a Hx Ha IH]; intros b Hb; destruct Hb as [|y b Hy Hb];
    simpl; try lia; [done|].
  destruct (Z.eqb_spec x y) as [->|]; [|lia]. intros E. f_equal. by apply IH.
Qed.

Lemma strcmp_trans a b c :
  cstr a -> cstr b -> cstr c -> strcmp a b < 0 -> strcmp b c < 0 -> strcmp a c < 0.
Proof.
  intros Ha. revert b c. induction Ha as [|x a Hx Ha IH]; intros b c Hb Hc;
    destruct Hb as [|y b Hy Hb], Hc as [|z c Hz Hc]; simpl; try lia.
  destruct (Z.eqb_spec x y), (Z.eqb_spec y z), (Z.eqb_spec x z); try lia. by eauto.
Qed.

(** ** Trees in memory *)

Inductive tree := E | N (p : Z) (l r : tree).

#[export] Instance tree_eq_dec : EqDecision tree.
Proof. solve_decision. Defined.

Fixpoint nodes (t : tree) : list Z :=
  match t with E => [] | N p l r => nodes l ++ p :: nodes r end.

Fixpoint height (t : tree) : nat :=
  match t with E => O | N _ l r => S (Nat.max (height l) (height r)) end.

Fixpoint rep (h : gmap Z product_t) (p : Z) (t : tree) : Prop :=
  match t with
  | E => p = 0
  | N q l r => p = q /\ q <> 0 /\
      exists n, h !! q = Some n /\ rep h (rb_left n) l /\ rep h (rb_right n) r
  end.

Definition name_of (h : gmap Z product_t) (p : Z) : list Z := default [] (name <$> h !! p).

Definition before (h : gmap Z product_t) (p q : Z) : Prop :=
  strcmp (name_of h p) (name_of h q) < 0.

(** The tree in memory is [t], a search tree by name. *)
Record tree_ok (s : tree_st) (t : tree) : Prop := {
  ok_rep : rep (nodes_at s) (rb_node s) t;
  ok_sorted : StronglySorted (before (nodes_at s)) (nodes t);
  ok_names : Forall (fun p => cstr (name_of (nodes_at s) p)) (nodes t)
}.

(** What the kernel documents of its tree functions. *)
Class RbTreeSpec `{RbTree} := {
  insert_color_spec s t p :
    rep (nodes_at s) (rb_node s) t -> NoDup (nodes t) -> p ∈ nodes t ->
    exists t', rep (nodes_at (rb_insert_color p s)) (rb_node (rb_insert_color p s)) t' /\
      nodes t' = nodes t /\
      forall q, name_of (nodes_at (rb_insert_color p s)) q = name_of (nodes_at s) q;
  erase_spec s t p l r :
    rep (nodes_at s) (rb_node s) t -> NoDup (nodes t) -> nodes t = l ++ p :: r ->
    exists t', rep (nodes_at (rb_erase p s)) (rb_node (rb_erase p s)) t' /\
      nodes t' = l ++ r /\
      forall q, name_of (nodes_at (rb_erase p s)) q = name_of (nodes_at s) q;
  postorder_one s p :
    rep (nodes_at s) (rb_node s) (N p E E) ->
    rb_first_postorder s = p /\ rb_next_postorder p s = 0
}.

Section trees.
Implicit Types (h : gmap Z product_t) (t : tree).

(** A search tree is one whose in-order sequence is sorted. *)
Lemma sorted_node h p l r :
  StronglySorted (before h) (nodes l ++ p :: nodes r) ->
  StronglySorted (before h) (nodes l) /\ StronglySorted (before h) (nodes r) /\
  Forall (fun q => before h q p) (nodes l) /\ Forall (before h p) (nodes r).
Proof.
  intros [Hlr [Hl Hr]]%StronglySorted_app. apply StronglySorted_inv in Hr as [Hr Hp].
  split_and!; try done. apply Forall_forall. intros q Hq. apply Hlr; [done|left].
Qed.

Lemma rep_lookup h p t q : rep h p t -> q ∈ nodes t -> q <> 0 /\ is_Some (h !! q).
Proof.
  revert p. induction t as [|p0 l IHl r IHr]; intros p; simpl; [by intros _ ?%elem_of_nil|].
  intros (-> & Hne & n & En & Hl & Hr) [Hq|[->|Hq]%elem_of_cons]%elem_of_app; eauto.
Qed.

Lemma height_nodes t : (height t <= length (nodes t))%nat.
Proof. induction t; simpl; [done|]. rewrite length_app; simpl. lia. Qed.

Lemma name_of_lookup h p n : h !! p = Some n -> name_of h p = name n.
Proof. unfold name_of. by intros ->. Qed.

(** Descending goes the right way. *)
Lemma go_left h nm p q r :
  cstr nm -> cstr (name_of h p) -> strcmp nm (name_of h p) <= 0 ->
  Forall (before h p) r -> q ∈ r -> cstr (name_of h q) -> name_of h q <> nm.
Proof.
  intros Hn Hp Hlt Hr Hq Hc <-. rewrite Forall_forall in Hr. specialize (Hr q Hq).
  unfold before in Hr. rewrite (strcmp_opp (name_of h p)) in Hlt. lia.
Qed.

Lemma go_right h nm p q l :
  0 <= strcmp nm (name_of h p) -> Forall (fun q => before h q p) l -> q ∈ l -> name_of h q <> nm.
Proof.
  intros Hgt Hl Hq <-. rewrite Forall_forall in Hl. specialize (Hl q Hq).
  unfold before in Hl. lia.
Qed.

Lemma search_loop_spec s nm t p fuel :
  rep (nodes_at s) p t -> StronglySorted (before (nodes_at s)) (nodes t) ->
  Forall (fun q => cstr (name_of (nodes_at s) q)) (nodes t) -> cstr nm -> (height t < fuel)%nat ->
  (exists q, q ∈ nodes t /\ name_of (nodes_at s) q = nm /\ search_loop fuel s nm p = Done (0, q)) \/
  (Forall (fun q => name_of (nodes_at s) q <> nm) (nodes t) /\
   search_loop fuel s nm p = Done (-1, 0)).
Proof.
  intros Hrep Hs Hc Hn. revert p fuel Hrep.
  induction t as [|p0 l IHl r IHr]; intros p fuel Hrep Hf; simpl in *.
  { subst. destruct fuel; [lia|]. right. by split. }
  destruct Hrep as (-> & Hne & n & En & Hl & Hr). destruct fuel as [|fuel]; [lia|]. simpl.
  rewrite (proj2 (Z.eqb_neq p0 0) Hne), En.
  apply sorted_node in Hs as (Hsl & Hsr & Hbl & Hbr).
  apply Forall_app in Hc as [Hcl [Hc0 Hcr]%Forall_cons].
  pose proof (name_of_lookup _ _ _ En) as Enm. rewrite <- Enm.
  destruct (Z.ltb_spec (strcmp nm (name_of (nodes_at s) p0)) 0) as [Hlt|Hge].
  - destruct (IHl Hsl Hcl (rb_left n) fuel Hl) as [(q & Hq & ? & ?)|[Hno Hd]]; [lia| |].
    + left. exists q. split_and!; [|done..]. by apply elem_of_app; left.
    + right. split; [|done]. apply Forall_app. split; [done|]. apply Forall_cons. split.
      * intros E0. rewrite E0, strcmp_refl in Hlt. lia.
      * apply Forall_forall. intros q Hq. eapply (go_left _ _ p0); [done|done|lia|done|done|].
        by eapply Forall_forall in Hcr.
  - destruct (Z.ltb_spec 0 (strcmp nm (name_of (nodes_at s) p0))) as [Hgt|Hle].
    + destruct (IHr Hsr Hcr (rb_right n) fuel Hr) as [(q & Hq & ? & ?)|[Hno Hd]]; [lia| |].
      * left. exists q. split_and!; [|done..]. apply elem_of_app; right. by right.
      * right. split; [|done]. apply Forall_app. split; [|apply Forall_cons; split; [|done]].
        -- apply Forall_forall. intros q Hq. by eapply (go_right _ _ p0).
        -- intros E0. rewrite E0, strcmp_refl in Hgt. lia.
    + left. exists p0. split_and!; [apply elem_of_app; right; left| |done].
      symmetry. apply strcmp_eq; [done..|lia].
Qed.
Lemma rep_ext h h' p t :
  (forall q, q ∈ nodes t -> h' !! q = h !! q) -> rep h p t -> rep h' p t.
Proof.
  revert p. induction t as [|p0 l IHl r IHr]; intros p; simpl; [done|].
  intros Hext (-> & Hne & n & En & Hl & Hr). split_and!; [done..|]. exists n.
  rewrite Hext by (apply elem_of_app; right; left). split_and!; [done| |].
  - apply IHl; [|done]. intros q Hq. apply Hext, elem_of_app. by left.
  - apply IHr; [|done]. intros q Hq. apply Hext, elem_of_app. right. by right.
Qed.

(** The slot [sl] belongs to a node of [t]. *)
Definition slot_of (sl : slot) (t : tree) : Prop :=
  exists q, q ∈ nodes t /\ (sl = Left q \/ sl = Right q).

Lemma write_slot_other sl p s t q :
  slot_of sl t -> q ∉ nodes t -> nodes_at (write_slot sl p s) !! q = nodes_at s !! q.
Proof.
  intros (q0 & Hq0 & [-> | ->]) Hq; simpl; rewrite lookup_alter_ne; congruence.
Qed.

Definition leaf_at h p : Prop := exists n, h !! p = Some n /\ rb_left n = 0 /\ rb_right n = 0.

(** [p] is put between the nodes [a] before it and [b] after it. *)
Definition split_at h nm p t t' : Prop :=
  exists a b, nodes t = a ++ b /\ nodes t' = a ++ p :: b /\
    Forall (fun x => strcmp (name_of h x) nm < 0) a /\
    Forall (fun x => strcmp nm (name_of h x) < 0) b.

Lemma leaf_rep h p : p <> 0 -> leaf_at h p -> rep h p (N p E E).
Proof. intros Hp (n & En & El & Er). simpl. eauto 10. Qed.

Lemma below_all h nm p (l : list Z) :
  cstr nm -> cstr (name_of h p) -> Forall (fun q => cstr (name_of h q)) l ->
  strcmp nm (name_of h p) < 0 -> Forall (before h p) l ->
  Forall (fun x => strcmp nm (name_of h x) < 0) l.
Proof.
  intros Hn Hp Hl Hlt Hb. rewrite Forall_forall in *. intros x Hx.
  eapply (strcmp_trans nm (name_of h p)); auto. by apply Hb.
Qed.

Lemma above_all h nm p (l : list Z) :
  cstr nm -> cstr (name_of h p) -> Forall (fun q => cstr (name_of h q)) l ->
  0 < strcmp nm (name_of h p) -> Forall (fun q => before h q p) l ->
  Forall (fun x => strcmp (name_of h x) nm < 0) l.
Proof.
  intros Hn Hp Hl Hgt Hb. rewrite Forall_forall in *. intros x Hx.
  eapply (strcmp_trans _ (name_of h p)); auto; [by apply Hb|].
  rewrite (strcmp_opp nm). lia.
Qed.

(** What the descent into a subtree [t] at [p0] with the slot [sl] gives: it
    stops at [sl] if [t] is empty, and otherwise at a slot [sl'] of [t] where
    writing [p] puts [p] at its place in the order. *)
Definition finds s h nm p t p0 (sl sl' : slot) : Prop :=
  (t = E -> sl' = sl) /\
  (t <> E -> slot_of sl' t /\ exists t',
     rep (nodes_at (write_slot sl' p (Tree (rb_node s) h))) p0 t' /\
     split_at (nodes_at s) nm p t t').

Section insert.
(** [p] is a new leaf of the heap [h], which is the tree's otherwise; [x] is a
    node with its children [l] and [r]. *)
Context (s : tree_st) (h : gmap Z product_t) (nm : list Z) (p : Z).
Context (p_nonnull : p <> 0) (p_leaf : leaf_at h p).
Context (h_same : forall q, q <> p -> h !! q = nodes_at s !! q).
Context (x : Z) (n : product_t) (l r : tree).
Context (x_nonnull : x <> 0) (x_node : nodes_at s !! x = Some n).
Context (rep_l : rep (nodes_at s) (rb_left n) l) (rep_r : rep (nodes_at s) (rb_right n) r).
Context (p_l : p ∉ nodes l) (p_x : p <> x) (p_r : p ∉ nodes r).
Context (x_l : x ∉ nodes l) (x_r : x ∉ nodes r) (l_r : forall q, q ∈ nodes l -> q ∉ nodes r).

Lemma finds_left sl sl' :
  strcmp nm (name_of (nodes_at s) x) < 0 ->
  Forall (fun y => strcmp nm (name_of (nodes_at s) y) < 0) (nodes r) ->
  finds s h nm p l (rb_left n) (Left x) sl' -> finds s h nm p (N x l r) x sl sl'.
Proof using All.
  intros Hlt Hbelow [HE HN]. split; [done|]. intros _. destruct (decide (l = E)) as [->|HlE].
  - rewrite (HE eq_refl). split; [exists x; split; [left|auto]|].
    exists (N x (N p E E) r). split.
    + simpl. split_and!; [done..|]. eexists. rewrite lookup_alter_eq, h_same, x_node by congruence.
      split; [done|]. split.
      * destruct p_leaf as (k & Ek & ? & ?). split_and!; [done..|]. exists k.
        by rewrite lookup_alter_ne by congruence.
      * eapply rep_ext; [|exact rep_r]. intros q Hq. rewrite lookup_alter_ne, h_same; congruence.
    + exists [], (x :: nodes r). by split_and!; try constructor.
  - destruct (HN HlE) as (Hslot & l' & Hl' & a & b & E1 & E2 & Ha & Hb).
    split; [destruct Hslot as (q & Hq & ?); exists q; split; [by apply elem_of_app; left|done]|].
    exists (N x l' r). split.
    + simpl. split_and!; [done..|]. exists n.
      rewrite (write_slot_other _ _ _ l) by done. simpl. rewrite h_same by congruence.
      split_and!; [done|done|]. eapply rep_ext; [|exact rep_r]. intros q Hq.
      rewrite (write_slot_other _ _ _ l); [simpl; apply h_same; congruence|done|].
      intros Hq'. by apply (l_r q).
    + exists a, (b ++ x :: nodes r). simpl. rewrite E1, E2, <- !app_assoc. split_and!; [done..|].
      apply Forall_app. split; [done|]. by constructor.
Qed.

Lemma finds_right sl sl' :
  strcmp (name_of (nodes_at s) x) nm < 0 ->
  Forall (fun y => strcmp (name_of (nodes_at s) y) nm < 0) (nodes l) ->
  finds s h nm p r (rb_right n) (Right x) sl' -> finds s h nm p (N x l r) x sl sl'.
Proof using All.
  intros Hlt Habove [HE HN]. split; [done|]. intros _. destruct (decide (r = E)) as [->|HrE].
  - rewrite (HE eq_refl). split; [exists x; split; [apply elem_of_app; right; left|auto]|].
    exists (N x l (N p E E)). split.
    + simpl. split_and!; [done..|]. eexists. rewrite lookup_alter_eq, h_same, x_node by congruence.
      split; [done|]. split.
      * eapply rep_ext; [|exact rep_l]. intros q Hq. rewrite lookup_alter_ne, h_same; congruence.
      * destruct p_leaf as (k & Ek & ? & ?). split_and!; [done..|]. exists k.
        by rewrite lookup_alter_ne by congruence.
    + exists (nodes l ++ [x]), []. simpl.
      split_and!; [by rewrite app_nil_r|by rewrite <- app_assoc| |done].
      apply Forall_app. split; [done|]. by repeat constructor.
  - destruct (HN HrE) as (Hslot & r' & Hr' & a & b & E1 & E2 & Ha & Hb).
    split; [destruct Hslot as (q & Hq & ?); exists q; split; [apply elem_of_app; right; by right|done]|].
    exists (N x l r'). split.
    + simpl. split_and!; [done..|]. exists n.
      rewrite (write_slot_other _ _ _ r) by done. simpl. rewrite h_same by congruence.
      split_and!; [done| |done]. eapply rep_ext; [|exact rep_l]. intros q Hq.
      rewrite (write_slot_other _ _ _ r); [simpl; apply h_same; congruence|done|].
      by apply l_r.
    + exists (nodes l ++ x :: a), b. simpl. rewrite E1, E2, <- !app_assoc. split_and!; [done..| |done].
      apply Forall_app. split; [done|]. by constructor.
Qed.
End insert.

(** The loop of rb_tree_add finds the slot for [nm]. *)
Lemma add_loop_spec s nm p t p0 sl fuel h :
  rep (nodes_at s) p0 t -> read_slot s sl = Some p0 -> NoDup (nodes t) -> p ∉ nodes t ->
  StronglySorted (before (nodes_at s)) (nodes t) ->
  Forall (fun q => cstr (name_of (nodes_at s) q)) (nodes t) -> cstr nm ->
  Forall (fun q => name_of (nodes_at s) q <> nm) (nodes t) -> (height t < fuel)%nat ->
  p <> 0 -> leaf_at h p -> (forall q, q <> p -> h !! q = nodes_at s !! q) ->
  exists sl', add_loop fuel s nm sl = Done sl' /\ finds s h nm p t p0 sl sl'.
Proof.
  intros Hrep Hsl Hnd Hp Hs Hc Hn Hno Hf Hp0 Hleaf Hh. revert p0 sl fuel Hrep Hsl Hf.
  induction t as [|x l IHl r IHr]; intros p0 sl fuel Hrep Hsl Hf; simpl in *.
  { subst. destruct fuel; [lia|]. simpl. rewrite Hsl. exists sl. split; [done|]. by split. }
  destruct Hrep as (-> & Hne & n & En & Hl & Hr). destruct fuel as [|fuel]; [lia|]. simpl.
  rewrite Hsl, (proj2 (Z.eqb_neq x 0) Hne), En.
  apply sorted_node in Hs as (Hsl' & Hsr & Hbl & Hbr).
  apply Forall_app in Hc as [Hcl [Hc0 Hcr]%Forall_cons].
  apply Forall_app in Hno as [Hnl [Hn0 Hnr]%Forall_cons].
  apply NoDup_app in Hnd as (Hndl & Hlr & [Hxr Hndr]%NoDup_cons).
  rewrite not_elem_of_app, not_elem_of_cons in Hp. destruct Hp as (Hpl & Hpx & Hpr).
  assert (x ∉ nodes l) as Hxl by (intros Hx; apply (Hlr x Hx); left).
  assert (forall q, q ∈ nodes l -> q ∉ nodes r) as Hdisj
    by (intros q Hq Hq'; apply (Hlr q Hq); by right).
  rewrite <- (name_of_lookup _ _ _ En).
  destruct (Z.ltb_spec (strcmp nm (name_of (nodes_at s) x)) 0) as [Hlt|Hge].
  - destruct (IHl Hndl Hpl Hsl' Hcl Hnl (rb_left n) (Left x) fuel Hl) as (sl' & -> & HF);
      [simpl; by rewrite En|lia|]. exists sl'. split; [done|].
    eapply (finds_left s h nm p Hp0 Hleaf Hh x n l r); try done. by eapply below_all.
  - destruct (Z.ltb_spec 0 (strcmp nm (name_of (nodes_at s) x))) as [Hgt|Hle].
    2: { exfalso. apply Hn0. symmetry. apply strcmp_eq; [done..|lia]. }
    destruct (IHr Hndr Hpr Hsr Hcr Hnr (rb_right n) (Right x) fuel Hr) as (sl' & -> & HF);
      [simpl; by rewrite En|lia|]. exists sl'. split; [done|].
    eapply (finds_right s h nm p Hp0 Hleaf Hh x n l r); try done.
    + rewrite (strcmp_opp nm). lia.
    + by eapply above_all.
Qed.
End trees.

(** ** The operations on a search tree *)

Lemma tree_nodup s t : tree_ok s t -> NoDup (nodes t).
Proof.
  intros [_ Hs _]. induction Hs as [|x l Hl IH Hx]; constructor; [|done].
  intros Hin. rewrite Forall_forall in Hx. specialize (Hx x Hin). unfold before in Hx.
  rewrite strcmp_refl in Hx. lia.
Qed.

(** Same names, an in-order sequence that is sorted: a search tree. *)
Lemma tree_ok_intro s s' t' (l : list Z) :
  rep (nodes_at s') (rb_node s') t' -> nodes t' = l ->
  (forall q, name_of (nodes_at s') q = name_of (nodes_at s) q) ->
  StronglySorted (before (nodes_at s)) l ->
  Forall (fun q => cstr (name_of (nodes_at s) q)) l -> tree_ok s' t'.
Proof.
  intros Hrep <- Hn Hs Hc. split; [done| |].
  - clear -Hn Hs. induction Hs as [|x l Hl IH Hx]; constructor; [done|].
    eapply Forall_impl; [exact Hx|]. unfold before. intros y. by rewrite !Hn.
  - eapply Forall_impl; [exact Hc|]. intros q. by rewrite Hn.
Qed.

(** A search returns, for a tree of any shape, the product with the name
    asked for when the tree holds one, and -1 exactly when it holds none. *)
Theorem rbtree_search_spec fuel s t nm :
  tree_ok s t -> cstr nm -> (height t < fuel)%nat ->
  (exists q, q ∈ nodes t /\ name_of (nodes_at s) q = nm /\
     rbtree_search_product_by_name fuel s nm = Done (0, q)) \/
  (Forall (fun q => name_of (nodes_at s) q <> nm) (nodes t) /\
     rbtree_search_product_by_name fuel s nm = Done (-1, 0)).
Proof. intros [Hr Hs Hc] Hn Hf. by apply search_loop_spec. Qed.

Section operations.
Context `{RbTreeSpec}.

Lemma link_names p sl s q :
  name_of (nodes_at (rb_link_node p sl s)) q = name_of (nodes_at s) q.
Proof.
  unfold rb_link_node, name_of. destruct sl as [|x|x]; simpl;
    repeat (rewrite lookup_alter; case_decide; subst); rewrite <- ?option_fmap_compose; try done;
    by destruct (nodes_at s !! q).
Qed.

Lemma leaf_heap s p n :
  nodes_at s !! p = Some n ->
  let h := alter (fun n => Product 0 0 (name n) (price n)) p (nodes_at s) in
  leaf_at h p /\ forall q, q <> p -> h !! q = nodes_at s !! q.
Proof.
  intros En h. split.
  - exists (Product 0 0 (name n) (price n)). subst h. by rewrite lookup_alter_eq, En.
  - intros q Hq. subst h. by rewrite lookup_alter_ne.
Qed.

(** After rb_link_node the new node is in the tree, at its place. *)
Lemma link_spec fuel s t p n :
  tree_ok s t -> p <> 0 -> nodes_at s !! p = Some n -> p ∉ nodes t -> cstr (name n) ->
  Forall (fun q => name_of (nodes_at s) q <> name n) (nodes t) -> (height t < fuel)%nat ->
  exists sl t', add_loop fuel s (name n) Root = Done sl /\
    rep (nodes_at (rb_link_node p sl s)) (rb_node (rb_link_node p sl s)) t' /\
    split_at (nodes_at s) (name n) p t t'.
Proof.
  intros Hok Hp0 En Hp Hcn Hno Hf. pose proof (tree_nodup _ _ Hok) as Hnd.
  destruct Hok as [Hr Hs Hc]. destruct (leaf_heap s p n En) as [Hleaf Hsame].
  destruct (add_loop_spec s (name n) p t (rb_node s) Root fuel _ Hr eq_refl Hnd Hp Hs Hc Hcn Hno Hf
    Hp0 Hleaf Hsame) as (sl & -> & HE & HN).
  exists sl. unfold rb_link_node. destruct (decide (t = E)) as [->|HtE].
  - rewrite (HE eq_refl). exists (N p E E). split; [done|]. split.
    + by apply leaf_rep.
    + exists [], []. by split_and!.
  - destruct (HN HtE) as ((q & _ & Hq) & t' & Hr' & Hsp). exists t'. split_and!; [done| |done].
    by destruct Hq as [-> | ->].
Qed.

(** Inserting between smaller and larger names keeps the order. *)
Lemma sorted_split h p a b nm :
  name_of h p = nm -> StronglySorted (before h) (a ++ b) ->
  Forall (fun x => strcmp (name_of h x) nm < 0) a ->
  Forall (fun x => strcmp nm (name_of h x) < 0) b -> StronglySorted (before h) (a ++ p :: b).
Proof.
  intros <- [Hab [Ha Hb]]%StronglySorted_app Hpa Hpb.
  apply StronglySorted_app. split_and!; [|done|by constructor].
  intros x y Hx [->|Hy]%elem_of_cons; [|by apply Hab].
  rewrite Forall_forall in Hpa. by apply Hpa.
Qed.

Lemma add_ok fuel s t p n :
  tree_ok s t -> p <> 0 -> nodes_at s !! p = Some n -> p ∉ nodes t -> cstr (name n) ->
  Forall (fun q => name_of (nodes_at s) q <> name n) (nodes t) -> (height t < fuel)%nat ->
  exists s' t', rb_tree_add fuel s p = Done (s', 0) /\ tree_ok s' t' /\
    nodes t' ≡ₚ p :: nodes t /\
    forall q, name_of (nodes_at s') q = name_of (nodes_at s) q.
Proof.
  intros Hok Hp0 En Hp Hcn Hno Hf.
  destruct (link_spec fuel s t p n Hok Hp0 En Hp Hcn Hno Hf)
    as (sl & t1 & Hloop & Hr1 & a & b & E1 & E2 & Ha & Hb).
  pose proof (name_of_lookup _ _ _ En) as Enm.
  assert (StronglySorted (before (nodes_at s)) (nodes t1)) as Hs1.
  { rewrite E2. eapply sorted_split; try done. rewrite <- E1. apply Hok. }
  assert (Forall (fun q => cstr (name_of (nodes_at s) q)) (nodes t1)) as Hc1.
  { pose proof (ok_names _ _ Hok) as Hc. rewrite E1 in Hc. rewrite E2.
    apply Forall_app in Hc as [? ?]. apply Forall_app; split; [done|].
    constructor; [by rewrite Enm|done]. }
  destruct (insert_color_spec (rb_link_node p sl s) t1 p) as (t2 & Hr2 & Hn2 & Hnm2); [done| | |].
  { apply (tree_nodup (rb_link_node p sl s)).
    by apply (tree_ok_intro s _ t1 (nodes t1) Hr1 eq_refl (link_names p sl s)). }
  { rewrite E2. apply elem_of_app; right; left. }
  assert (forall q, name_of (nodes_at (rb_insert_color p (rb_link_node p sl s))) q
                    = name_of (nodes_at s) q) as Hnm
    by (intros q; by rewrite Hnm2, link_names).
  eexists _, t2. split; [|split; [|split; [|exact Hnm]]].
  - unfold rb_tree_add. by rewrite (proj2 (Z.eqb_neq p 0) Hp0), En, Hloop.
  - by apply (tree_ok_intro s _ t2 (nodes t1)).
  - rewrite Hn2, E2, E1. by rewrite Permutation_middle.
Qed.

(** C4.  Adding a product whose name is not in the tree terminates, returns 0
    and inserts exactly that product at its place in the order; the result is
    a search tree again, and no product's name changes. *)
Theorem rb_tree_add_spec fuel s t p n :
  tree_ok s t -> p <> 0 -> nodes_at s !! p = Some n -> p ∉ nodes t -> cstr (name n) ->
  Forall (fun q => name_of (nodes_at s) q <> name n) (nodes t) -> (height t < fuel)%nat ->
  exists s' t', rb_tree_add fuel s p = Done (s', 0) /\ tree_ok s' t' /\
    nodes t' ≡ₚ p :: nodes t /\
    forall q, name_of (nodes_at s') q = name_of (nodes_at s) q.
Proof. exact (add_ok fuel s t p n). Qed.

Lemma add_loop_dup s nm t p0 sl q fuel :
  rep (nodes_at s) p0 t -> StronglySorted (before (nodes_at s)) (nodes t) ->
  q ∈ nodes t -> name_of (nodes_at s) q = nm -> read_slot s sl = Some p0 ->
  add_loop fuel s nm sl = NoFuel.
Proof.
  intros Hr Hs Hq Hnm Hsl. revert t p0 sl Hr Hs Hq Hsl.
  induction fuel as [|fuel IH]; intros t p0 sl Hr Hs Hq Hsl; [done|].
  destruct t as [|x l r]; [by apply elem_of_nil in Hq|]. pose proof Hr as Hr0. pose proof Hs as Hs0.
  destruct Hr as (-> & Hne & n & En & Hl & Hr). simpl in Hs, Hq.
  cbn [add_loop]. rewrite Hsl, (proj2 (Z.eqb_neq x 0) Hne), En.
  rewrite <- (name_of_lookup _ _ _ En).
  apply sorted_node in Hs as (Hsl' & Hsr & Hbl & Hbr). rewrite Forall_forall in Hbl, Hbr.
  destruct (Z.ltb_spec (strcmp nm (name_of (nodes_at s) x)) 0) as [Hlt|Hge];
    [|destruct (Z.ltb_spec 0 (strcmp nm (name_of (nodes_at s) x))) as [Hgt|Hle]].
  - apply (IH l (rb_left n)); [done|done| |simpl; by rewrite En].
    apply elem_of_app in Hq as [Hq|[->|Hq]%elem_of_cons]; [done| |].
    + rewrite Hnm, strcmp_refl in Hlt. lia.
    + specialize (Hbr q Hq). unfold before in Hbr. rewrite Hnm, (strcmp_opp nm) in Hbr. lia.
  - apply (IH r (rb_right n)); [done|done| |simpl; by rewrite En].
    apply elem_of_app in Hq as [Hq|[->|Hq]%elem_of_cons]; [| |done].
    + specialize (Hbl q Hq). unfold before in Hbl. rewrite Hnm in Hbl. lia.
    + rewrite Hnm, strcmp_refl in Hgt. lia.
  - by apply (IH (N x l r) x sl).
Qed.

(** Adding a product whose name is already in the tree never returns: the
    loop prints that the product exists and compares with the same node
    again, whatever the number of iterations. *)
Theorem rb_tree_add_duplicate fuel s t p n q :
  tree_ok s t -> p <> 0 -> nodes_at s !! p = Some n -> q ∈ nodes t ->
  name_of (nodes_at s) q = name n -> rb_tree_add fuel s p = NoFuel.
Proof.
  intros [Hr Hs _] Hp En Hq Hnm. unfold rb_tree_add.
  by rewrite (proj2 (Z.eqb_neq p 0) Hp), En, (add_loop_dup s (name n) t (rb_node s) Root q).
Qed.

Lemma del_ok fuel s t nm :
  tree_ok s t -> cstr nm -> (height t < fuel)%nat ->
  exists s' r, rbtree_del fuel s nm = Done (s', r) /\
    ((r = 0 /\ exists t' p, tree_ok s' t' /\ nodes t ≡ₚ p :: nodes t' /\
        name_of (nodes_at s) p = nm /\ Forall (fun q => name_of (nodes_at s') q <> nm) (nodes t') /\
        forall q, name_of (nodes_at s') q = name_of (nodes_at s) q) \/
     (r = -1 /\ s' = s /\ Forall (fun q => name_of (nodes_at s) q <> nm) (nodes t))).
Proof.
  intros Hok Hn Hf. unfold rbtree_del, rbtree_search_product_by_name.
  destruct (search_loop_spec s nm t (rb_node s) fuel) as [(q & Hq & Hnm & ->)|[Hno ->]];
    [apply Hok..|done|done| |]; simpl.
  2: { eexists _, _. split; [done|]. auto. }
  apply list_elem_of_split in Hq as (l & r & Hlr).
  destruct (erase_spec s t q l r) as (t' & Hr' & Hn' & Hnames);
    [apply Hok|by eapply tree_nodup|done|].
  eexists _, _. split; [done|]. left. split; [done|]. exists t', q.
  pose proof (ok_sorted _ _ Hok) as Hs. pose proof (ok_names _ _ Hok) as Hc. rewrite Hlr in Hs, Hc.
  apply StronglySorted_app in Hs as [Hb [Hsl [Hsr Hqr]%StronglySorted_inv]].
  apply Forall_app in Hc as [Hcl [Hcq Hcr]%Forall_cons].
  split_and!; [|by rewrite Hlr, Hn', Permutation_middle|done| |done].
  - apply (tree_ok_intro s _ t' (l ++ r)); [done..| |by apply Forall_app].
    apply StronglySorted_app. split_and!; [|done..]. intros x y Hx Hy. apply Hb; [done|by right].
  - rewrite Hn'. rewrite Forall_forall in Hqr. apply Forall_forall. intros x Hx. rewrite Hnames.
    intros Hxn. apply elem_of_app in Hx as [Hx|Hx].
    + specialize (Hb x q Hx ltac:(left)). unfold before in Hb.
      rewrite Hxn, Hnm, strcmp_refl in Hb. lia.
    + specialize (Hqr x Hx). unfold before in Hqr. rewrite Hxn, Hnm, strcmp_refl in Hqr. lia.
Qed.

(** Deleting a name takes exactly the product of that name out of the
    tree, which is a search tree again and no longer holds the name, and
    changes no other name; deleting an absent name returns -1 and changes nothing. *)
Theorem rbtree_del_spec fuel s t nm :
  tree_ok s t -> cstr nm -> (height t < fuel)%nat ->
  exists s' r, rbtree_del fuel s nm = Done (s', r) /\
    ((r = 0 /\ exists t' p, tree_ok s' t' /\ nodes t ≡ₚ p :: nodes t' /\
        name_of (nodes_at s) p = nm /\ Forall (fun q => name_of (nodes_at s') q <> nm) (nodes t') /\
        forall q, name_of (nodes_at s') q = name_of (nodes_at s) q) \/
     (r = -1 /\ s' = s /\ Forall (fun q => name_of (nodes_at s) q <> nm) (nodes t))).
Proof. exact (del_ok fuel s t nm). Qed.
(** ** The module *)

(** A tree of one node, and what postorder clearing does to it. *)
Lemma clear_one env fuel s tr p :
  (2 <= fuel)%nat -> rep (nodes_at (product_tree s)) (rb_node (product_tree s)) (N p E E) ->
  forall h, held tr (RMem p :: h) ->
  wp (rbtree_clear fuel) env s tr (fun a s' tr' => a = Some 0 /\ held tr' h).
Proof.
  intros Hf Hrep h A. destruct fuel as [|[|fuel]]; [lia..|].
  destruct (postorder_one (product_tree s) p Hrep) as [E1 E2].
  destruct Hrep as (_ & Hp & _).
  unfold rbtree_clear. wpure. rewrite E1. cbn [clear_loop]. rewrite if_null by done.
  wpure. wfree A. rewrite E2. simpl. wpure. done.
Qed.

Lemma tree_empty_ok h : tree_ok (Tree 0 h) E.
Proof. split; [done|constructor|constructor]. Qed.

Lemma nodes_one t p : nodes t = [p] -> t = N p E E.
Proof.
  assert (forall t', nodes t' = [] -> t' = E) as Hnil.
  { intros [|x l r]; simpl; [done|]. by destruct (nodes l). }
  destruct t as [|x l r]; simpl; [done|].
  destruct (nodes l) as [|y k] eqn:El; simpl; intros [= -> Er].
  - by rewrite (Hnil l El), (Hnil r Er).
  - by destruct k.
Qed.

(** The tree that rbtree_init builds: "jeff" and "one" are added, "one" is
    deleted. *)
Lemma init_tree fuel (p q : Z) :
  (4 <= fuel)%nat -> p <> 0 -> q <> 0 -> p <> q ->
  let h := <[q := Product 0 0 (bytes_of "one") 24]> {[ p := Product 0 0 (bytes_of "jeff") 23 ]} in
  exists s1 s2 s3, rb_tree_add fuel (Tree 0 h) p = Done (s1, 0) /\
    rb_tree_add fuel s1 q = Done (s2, 0) /\
    rbtree_del fuel s2 (bytes_of "one") = Done (s3, 0) /\
    rbtree_search_product_by_name fuel s3 (bytes_of "one") = Done (-1, 0) /\
    rep (nodes_at s3) (rb_node s3) (N p E E).
Proof.
  intros Hf Hp Hq Hpq h.
  assert (cstr (bytes_of "one")) as C1 by (repeat constructor).
  assert (cstr (bytes_of "jeff")) as C2 by (repeat constructor).
  assert (h !! p = Some (Product 0 0 (bytes_of "jeff") 23)) as Lp
    by (subst h; by rewrite lookup_insert_ne, lookup_singleton_eq by done).
  assert (h !! q = Some (Product 0 0 (bytes_of "one") 24)) as Lq
    by (subst h; by rewrite lookup_insert_eq).
  destruct (add_ok fuel (Tree 0 h) E p _ (tree_empty_ok h) Hp Lp) as (s1 & t1 & A1 & O1 & N1 & M1);
    [apply not_elem_of_nil|done|constructor|simpl; lia|].
  apply Permutation_singleton_r in N1.
  assert (name_of (nodes_at s1) p = bytes_of "jeff") as E1 by (rewrite M1; cbn [nodes_at]; unfold name_of; by rewrite Lp).
  assert (name_of (nodes_at s1) q = bytes_of "one") as E2 by (rewrite M1; cbn [nodes_at]; unfold name_of; by rewrite Lq).
  assert (exists n, nodes_at s1 !! q = Some n /\ name n = bytes_of "one") as (n & Ln & En).
  { unfold name_of in E2. destruct (nodes_at s1 !! q) as [n|]; [eauto|done]. }
  pose proof (height_nodes t1) as H1. rewrite N1 in H1.
  destruct (add_ok fuel s1 t1 q n O1 Hq Ln) as (s2 & t2 & A2 & O2 & N2 & M2).
  { rewrite N1. intros ->%list_elem_of_singleton. done. }
  { by rewrite En. }
  { rewrite N1, En. repeat constructor. by rewrite E1. }
  { simpl in H1. lia. }
  pose proof (height_nodes t2) as H2. rewrite N2, N1 in H2.
  destruct (del_ok fuel s2 t2 (bytes_of "one") O2 C1) as (s3 & r & A3 & D); [simpl in H2; lia|].
  destruct D as [(-> & t3 & x & O3 & N3 & Ex & Hno & _)|(_ & _ & Hno)].
  2: { exfalso. rewrite N2 in Hno. apply Forall_cons in Hno as [Hno _]. rewrite M2 in Hno. done. }
  assert (x = q) as ->.
  { assert (x ∈ nodes t2) as Hx by (rewrite N3; left). rewrite N2, N1 in Hx.
    apply elem_of_cons in Hx as [->|Hx]; [done|]. apply list_elem_of_singleton in Hx as ->.
    rewrite M2, E1 in Ex. discriminate Ex. }
  rewrite N2, N1 in N3. apply Permutation_cons_inv in N3. symmetry in N3.
  apply Permutation_singleton_r in N3.
  exists s1, s2, s3. split_and!; [done..| |].
  - pose proof (height_nodes t3) as H3. rewrite N3 in H3.
    destruct O3 as [R3 S3 C3]. unfold rbtree_search_product_by_name.
    destruct (search_loop_spec s3 (bytes_of "one") t3 (rb_node s3) fuel R3 S3 C3 C1)
      as [(y & Hy & Ey & _)|[_ ->]]; [simpl in H3; lia| |done].
    rewrite Forall_forall in Hno. by destruct (Hno y Hy).
  - apply nodes_one in N3 as ->. apply O3.
Qed.

(** Loading and unloading the module leaks: the product "one" is taken
    out of the tree by rbtree_del without being freed, so the walk of the
    unload frees "jeff" only. *)
Theorem rbtree_module_leaks env fuel :
  good_env env -> (4 <= fuel)%nat ->
  exists s tr s' tr', rbtree_init fuel env st0 [] = (Some 0, s, tr) /\
    rbtree_exit fuel env s tr = (Some (), s', tr') /\ audit tr' = Some [RMem (p2 s)].
Proof.
  intros HG Hf.
  enough (wp (rbtree_init fuel) env st0 [] (fun a s tr => a = Some 0 /\
    wp (rbtree_exit fuel) env s tr (fun b s' tr' => b = Some () /\ audit tr' = Some [RMem (p2 s)])))
    as W.
  { unfold wp in W. destruct (rbtree_init fuel env st0 []) as [[a s] tr]. simpl in W.
    destruct W as [-> W]. destruct (rbtree_exit fuel env s tr) as [[b s'] tr'] eqn:E'.
    simpl in W. destruct W as [-> ?]. eauto 10. }
  assert (audit [] = Some []) as A by done. unfold rbtree_init.
  walloc RMem A. clear A. intros p o Hp _ A. wpure. rewrite if_null by done. wpure.
  walloc RMem A. clear A. intros q oq Hq Hqp A. wpure. rewrite if_null by done. wpure.
  assert (p <> q) as Hpq by (intros ->; apply Hqp; left).
  destruct (init_tree fuel p q Hf Hp Hq Hpq) as (s1 & s2 & s3 & A1 & A2 & A3 & Hs & Hrep).
  unfold on_tree, new_product; simpl. wpure. simpl.
  change (<[p := ?x]> ∅) with ({[p := x]} : gmap Z product_t).
  rewrite A1. wpure. simpl. rewrite A2. wpure. simpl. rewrite A3. wpure. simpl. rewrite Hs.
  simpl. wpure. split; [done|]. unfold rbtree_exit. apply wp_bind.
  assert (held [(kmalloc sizeof_product_t, (q, oq)); (kmalloc sizeof_product_t, (p, o))]
    [RMem p; RMem q]) as Hh.
  { eexists. split; [exact A|]. apply Permutation_swap. }
  eapply wp_mono; [eapply (clear_one env fuel _ _ p); [lia|exact Hrep|exact Hh]|].
  intros ? s' tr' [-> (h' & Eh & Ph)]. wpure. split; [done|].
  rewrite Eh. symmetry in Ph. apply Permutation_singleton_l in Ph. by rewrite <- Ph.
Qed.
End operations.

(** ** An implementation of the laws

    Insertion as it is; erasing relinks the remaining nodes in a chain. *)

Section chain.
Implicit Types (h : gmap Z product_t) (l : list Z).

Fixpoint inorder (fuel : nat) h (p : Z) : list Z :=
  match fuel, h !! p with
  | S f, Some n =>
      if p =? 0 then [] else inorder f h (rb_left n) ++ p :: inorder f h (rb_right n)
  | _, _ => []
  end.

Fixpoint postorder (fuel : nat) h (p : Z) : list Z :=
  match fuel, h !! p with
  | S f, Some n =>
      if p =? 0 then [] else postorder f h (rb_left n) ++ postorder f h (rb_right n) ++ [p]
  | _, _ => []
  end.

(** Links the nodes of [l] to the right of each other. *)
Fixpoint relink h l : tree_st :=
  match l with
  | [] => Tree 0 h
  | q :: l' =>
      let t := relink h l' in
      Tree q (alter (fun n => Product 0 (rb_node t) (name n) (price n)) q (nodes_at t))
  end.

Fixpoint after (p : Z) l : Z :=
  match l with
  | [] => 0
  | q :: l' => if q =? p then default 0 (head l') else after p l'
  end.

#[local] Instance chain : RbTree := {
  rb_insert_color _ s := s;
  rb_erase p s := relink (nodes_at s)
    (filter (fun q => q <> p) (inorder (S (size (nodes_at s))) (nodes_at s) (rb_node s)));
  rb_first_postorder s :=
    default 0 (head (postorder (S (size (nodes_at s))) (nodes_at s) (rb_node s)));
  rb_next_postorder p s :=
    after p (postorder (S (size (nodes_at s))) (nodes_at s) (rb_node s))
}.

Lemma inorder_nodes h p t fuel :
  rep h p t -> (height t < fuel)%nat -> inorder fuel h p = nodes t.
Proof.
  intros Hr. revert p fuel Hr. induction t as [|x l IHl r IHr]; intros p fuel Hr Hf; simpl in *.
  - subst. destruct fuel; [lia|]. simpl. by destruct (h !! 0).
  - destruct Hr as (-> & Hne & n & En & Hl & Hr). destruct fuel as [|fuel]; [lia|]. simpl.
    rewrite En, (proj2 (Z.eqb_neq x 0) Hne), IHl, IHr by (done || lia). done.
Qed.

Fixpoint spine l : tree := match l with [] => E | q :: l' => N q E (spine l') end.

Lemma spine_nodes l : nodes (spine l) = l.
Proof. induction l; simpl; congruence. Qed.

Lemma relink_other h l q : q ∉ l -> nodes_at (relink h l) !! q = h !! q.
Proof.
  induction l as [|x l IH]; [done|]. rewrite not_elem_of_cons. intros [Hx Hl]. simpl.
  rewrite lookup_alter_ne by congruence. by apply IH.
Qed.

Lemma relink_rep h l :
  NoDup l -> Forall (fun q => q <> 0 /\ is_Some (h !! q)) l ->
  rep (nodes_at (relink h l)) (rb_node (relink h l)) (spine l).
Proof.
  intros Hnd. induction Hnd as [|x l Hx Hnd IH]; intros Hl; simpl; [done|].
  apply Forall_cons in Hl as [[Hx0 [n En]] Hl]. split_and!; [done..|].
  eexists. rewrite lookup_alter_eq, relink_other, En by done. split_and!; [done|done|].
  simpl. eapply rep_ext; [|by apply IH]. intros q Hq. rewrite spine_nodes in Hq.
  rewrite lookup_alter_ne; congruence.
Qed.

Lemma relink_names h l q : name_of (nodes_at (relink h l)) q = name_of h q.
Proof.
  induction l as [|x l IH]; simpl; [done|]. rewrite <- IH. unfold name_of.
  rewrite lookup_alter. case_decide; [subst|done]. by destruct (nodes_at (relink h l) !! q).
Qed.

Lemma rep_size h p t : rep h p t -> NoDup (nodes t) -> (height t < S (size h))%nat.
Proof.
  intros Hr Hnd. pose proof (height_nodes t). rewrite <- (size_dom (D := gset Z) h).
  assert (size (list_to_set (nodes t) : gset Z) <= size (dom h))%nat as Hle.
  { apply subseteq_size. intros q Hq. apply elem_of_list_to_set in Hq.
    apply elem_of_dom. by eapply rep_lookup. }
  rewrite size_list_to_set in Hle by done. lia.
Qed.

Lemma filter_one (p : Z) l r : NoDup (l ++ p :: r) -> filter (fun q => q <> p) (l ++ p :: r) = l ++ r.
Proof.
  intros (Hl & Hd & [Hp Hr]%NoDup_cons)%NoDup_app.
  assert (forall k : list Z, p ∉ k -> filter (fun q => q <> p) k = k) as Hk.
  { intros k Hpk. induction k as [|x k IH]; [done|]. rewrite not_elem_of_cons in Hpk.
    destruct Hpk as [Hx Hpk]. rewrite filter_cons_True by congruence. by rewrite IH. }
  rewrite filter_app, filter_cons_False by auto.
  rewrite !Hk; [done|done|]. intros Hpl. apply (Hd p Hpl). left.
Qed.

#[local] Instance chain_spec : RbTreeSpec.
Proof.
  split.
  - intros s t p Hr _ _. by exists t.
  - intros s t p l r Hr Hnd Hn. exists (spine (l ++ r)). cbn [rb_erase chain].
    rewrite (inorder_nodes _ _ t) by eauto using rep_size. rewrite Hn in *.
    rewrite filter_one by done. split_and!; [|apply spine_nodes|apply relink_names].
    assert (NoDup (l ++ r)) as Hnd'.
    { rewrite <- (filter_one p) by done. by apply NoDup_filter. }
    apply relink_rep; [done|]. apply Forall_forall. intros q Hq.
    eapply rep_lookup; [exact Hr|]. rewrite Hn.
    rewrite elem_of_app in *. rewrite elem_of_cons. tauto.
  - intros s p Hr. destruct Hr as (Ep & Hp & n & En & El & Er). simpl in El, Er.
    destruct (size (nodes_at s)) as [|k] eqn:Ek.
    { exfalso. apply map_size_empty_iff in Ek. by rewrite Ek in En. }
    assert (forall f, postorder f (nodes_at s) 0 = []) as H0.
    { intros [|f]; [done|]. simpl. by destruct (nodes_at s !! 0). }
    cbn [rb_first_postorder rb_next_postorder chain]. rewrite Ek, Ep. cbn [postorder].
    rewrite En, (proj2 (Z.eqb_neq p 0) Hp), El, Er.
    change (match nodes_at s !! 0 with Some n0 => _ | None => _ end)
      with (postorder (S k) (nodes_at s) 0). rewrite H0. simpl. by rewrite Z.eqb_refl.
Qed.

(** ** Examples *)

(** "b" (address 2) is the root, "a" (1) and "c" (3) its children; 4 is a
    product "d", 5 a second "a", neither is in the tree. *)
Definition ex_heap : gmap Z product_t :=
  {[ 1 := Product 0 0 (bytes_of "a") 1; 2 := Product 1 3 (bytes_of "b") 2;
     3 := Product 0 0 (bytes_of "c") 3; 4 := Product 0 0 (bytes_of "d") 4;
     5 := Product 0 0 (bytes_of "a") 5 ]}.
Definition ex_tree : tree := N 2 (N 1 E E) (N 3 E E).
Definition ex_st : tree_st := Tree 2 ex_heap.

Lemma ex_ok : tree_ok ex_st ex_tree.
Proof.
  split.
  - simpl. split_and!; [done..|]. eexists. split; [reflexivity|]. simpl.
    split_and!; [done..| |done|done|]; eexists; (split; [reflexivity|done]).
  - simpl. repeat constructor.
  - simpl. repeat constructor.
Defined.

Lemma rbtree_search_spec_witness :
  (exists q, q ∈ nodes ex_tree /\ name_of (nodes_at ex_st) q = bytes_of "c" /\
     rbtree_search_product_by_name 3 ex_st (bytes_of "c") = Done (0, q)) \/
  (Forall (fun q => name_of (nodes_at ex_st) q <> bytes_of "c") (nodes ex_tree) /\
     rbtree_search_product_by_name 3 ex_st (bytes_of "c") = Done (-1, 0)).
Proof.
  apply (rbtree_search_spec 3 ex_st ex_tree (bytes_of "c"));
    [exact ex_ok|repeat constructor|simpl; lia].
Defined.

Lemma rb_tree_add_spec_witness :
  exists s' t', rb_tree_add 3 ex_st 4 = Done (s', 0) /\ tree_ok s' t' /\
    nodes t' ≡ₚ 4 :: nodes ex_tree /\
    forall q, name_of (nodes_at s') q = name_of (nodes_at ex_st) q.
Proof.
  apply (rb_tree_add_spec 3 ex_st ex_tree 4 (Product 0 0 (bytes_of "d") 4));
    [exact ex_ok|done|reflexivity| |repeat constructor| |simpl; lia].
  - simpl. rewrite !not_elem_of_cons. split_and!; [lia..|apply not_elem_of_nil].
  - repeat constructor; discriminate.
Defined.

Lemma rb_tree_add_duplicate_witness : rb_tree_add 1000 ex_st 5 = NoFuel.
Proof.
  apply (rb_tree_add_duplicate 1000 ex_st ex_tree 5 (Product 0 0 (bytes_of "a") 5) 1);
    [exact ex_ok|lia|reflexivity|left|reflexivity].
Defined.

Lemma rbtree_del_spec_witness :
  exists s' r, rbtree_del 3 ex_st (bytes_of "a") = Done (s', r) /\
    ((r = 0 /\ exists t' p, tree_ok s' t' /\ nodes ex_tree ≡ₚ p :: nodes t' /\
        name_of (nodes_at ex_st) p = bytes_of "a" /\
        Forall (fun q => name_of (nodes_at s') q <> bytes_of "a") (nodes t') /\
        forall q, name_of (nodes_at s') q = name_of (nodes_at ex_st) q) \/
     (r = -1 /\ s' = ex_st /\
        Forall (fun q => name_of (nodes_at ex_st) q <> bytes_of "a") (nodes ex_tree))).
Proof.
  apply (rbtree_del_spec 3 ex_st ex_tree (bytes_of "a"));
    [exact ex_ok|repeat constructor|simpl; lia].
Defined.

Lemma rbtree_module_leaks_witness :
  exists s tr s' tr', rbtree_init 4 nice_env st0 [] = (Some 0, s, tr) /\
    rbtree_exit 4 nice_env s tr = (Some (), s', tr') /\ audit tr' = Some [RMem (p2 s)].
Proof. apply (rbtree_module_leaks nice_env 4 nice_env_good). lia. Defined.
End chain.
