(* ===== verification/TreeMap.v ===== *)
(** * The product tree is a map

    Sequences of the operations of data-struct-labs/rbtree.c against the
    abstract specification of a catalogue: a finite map from names to
    products. *)

From S2P Require Import Prelude Kernel ProductTree.

(** A client adds a product it has just filled in, deletes a name, or looks
    one up. *)
Inductive op :=
  | OAdd (p : Z) (nm : list Z) (pr : Z)
  | ODel (nm : list Z)
  | OFind (nm : list Z).

(** The return value and the product found (0 when there is none). *)
Definition exec `{RbTree} (fuel : nat) (s : tree_st) (o : op) : outcome (tree_st * (Z * Z)) :=
  match o with
  | OAdd p nm pr =>
      match rb_tree_add fuel (Tree (rb_node s) (<[p := Product 0 0 nm pr]> (nodes_at s))) p with
      | Done (s', r) => Done (s', (r, 0)) | Wild => Wild | NoFuel => NoFuel
      end
  | ODel nm =>
      match rbtree_del fuel s nm with
      | Done (s', r) => Done (s', (r, 0)) | Wild => Wild | NoFuel => NoFuel
      end
  | OFind nm =>
      match rbtree_search_product_by_name fuel s nm with
      | Done out => Done (s, out) | Wild => Wild | NoFuel => NoFuel
      end
  end.

Fixpoint run `{RbTree} (fuel : nat) (s : tree_st) (l : list op) : outcome (tree_st * list (Z * Z)) :=
  match l with
  | [] => Done (s, [])
  | o :: l' =>
      match exec fuel s o with
      | Done (s', out) =>
          match run fuel s' l' with
          | Done (s'', outs) => Done (s'', out :: outs) | Wild => Wild | NoFuel => NoFuel
          end
      | Wild => Wild
      | NoFuel => NoFuel
      end
  end.

(** ** The specification *)

Abbreviation catalogue := (gmap (list Z) Z).

(** [None] is an operation that never returns: adding a name that is there. *)
Definition spec (m : catalogue) (o : op) : option (catalogue * (Z * Z)) :=
  match o with
  | OAdd p nm _ => match m !! nm with None => Some (<[nm := p]> m, (0, 0)) | Some _ => None end
  | ODel nm => Some (delete nm m, (if decide (is_Some (m !! nm)) then 0 else -1, 0))
  | OFind nm => Some (m, match m !! nm with Some p => (0, p) | None => (-1, 0) end)
  end.

Fixpoint spec_run (m : catalogue) (l : list op) : option (catalogue * list (Z * Z)) :=
  match l with
  | [] => Some (m, [])
  | o :: l' =>
      '(m', out) ← spec m o;
      '(m'', outs) ← spec_run m' l';
      Some (m'', out :: outs)
  end.

(** Names are C strings, and a product structure is not filled in again while
    it is in the catalogue. *)
Definition legal (m : catalogue) (o : op) : Prop :=
  match o with
  | OAdd p nm _ => cstr nm /\ p <> 0 /\ forall nm', m !! nm' <> Some p
  | ODel nm | OFind nm => cstr nm
  end.

Fixpoint legal_run (m : catalogue) (l : list op) : Prop :=
  match l with
  | [] => True
  | o :: l' => legal m o /\ match spec m o with Some (m', _) => legal_run m' l' | None => True end
  end.

(** ** Refinement *)

(** The nodes of the tree are the products of the catalogue. *)
Definition refines (s : tree_st) (m : catalogue) (n : nat) : Prop :=
  exists t, tree_ok s t /\ (length (nodes t) <= n)%nat /\
    forall nm q, m !! nm = Some q <-> q ∈ nodes t /\ name_of (nodes_at s) q = nm.

Section refinement.
Context `{RbTreeSpec}.

(** A product outside the tree can be filled in without touching the tree. *)
Lemma tree_ok_fill s t p x :
  tree_ok s t -> p ∉ nodes t ->
  tree_ok (Tree (rb_node s) (<[p := x]> (nodes_at s))) t /\
  forall q, q ∈ nodes t -> name_of (<[p := x]> (nodes_at s)) q = name_of (nodes_at s) q.
Proof.
  intros [Hr Hs Hc] Hp.
  assert (forall q, q ∈ nodes t -> <[p := x]> (nodes_at s) !! q = nodes_at s !! q) as Hl.
  { intros q Hq. apply lookup_insert_ne. intros ->. done. }
  assert (forall q, q ∈ nodes t -> name_of (<[p := x]> (nodes_at s)) q = name_of (nodes_at s) q) as Hn.
  { intros q Hq. unfold name_of. by rewrite Hl. }
  split; [|done]. split; simpl; [by eapply rep_ext| |].
  - clear Hr Hc. induction Hs as [|y l Hl' IH Hy]; constructor.
    + apply IH; [set_solver|intros; apply Hl; by right|intros; apply Hn; by right].
    + rewrite Forall_forall in Hy |- *. intros z Hz. unfold before. rewrite !Hn by set_solver. by apply Hy.
  - rewrite Forall_forall in Hc |- *. intros q Hq. rewrite Hn by done. by apply Hc.
Qed.

Lemma exec_add fuel s m n p nm pr :
  refines s m n -> legal m (OAdd p nm pr) -> m !! nm = None -> (n < fuel)%nat ->
  exists s', exec fuel s (OAdd p nm pr) = Done (s', (0, 0)) /\ refines s' (<[nm := p]> m) (S n).
Proof.
  intros (t & Hok & Hlen & Hm) (Hc & Hp0 & Hfree) Hnew Hf.
  assert (p ∉ nodes t) as Hp by (intros Hin; by apply (Hfree (name_of (nodes_at s) p)), Hm).
  destruct (tree_ok_fill s t p (Product 0 0 nm pr) Hok Hp) as [Hok1 Hn1].
  set (s1 := Tree (rb_node s) (<[p := Product 0 0 nm pr]> (nodes_at s))) in *.
  assert (nodes_at s1 !! p = Some (Product 0 0 nm pr)) as Hl by (subst s1; simpl; apply lookup_insert_eq).
  destruct (add_ok fuel s1 t p (Product 0 0 nm pr)) as (s' & t' & E & Hok' & Hperm & Hn');
    [exact Hok1|exact Hp0|exact Hl|exact Hp|exact Hc| | |].
  { apply Forall_forall. intros q Hq Hnm. change (name_of (nodes_at s1) q = nm) in Hnm.
    assert (m !! nm = Some q) as Hmq by (apply Hm; split; [done|]; rewrite <- Hn1 by done; exact Hnm). congruence. }
  { pose proof (height_nodes t). lia. }
  exists s'. split; [by simpl; fold s1; rewrite E|]. exists t'. split_and!; [done| |].
  { rewrite Hperm. simpl. lia. }
  assert (name_of (nodes_at s1) p = nm) as Hpn by (unfold name_of; by rewrite Hl).
  intros nm' q. rewrite Hperm, elem_of_cons, Hn'. destruct (decide (nm' = nm)) as [->|Hne].
  - rewrite lookup_insert_eq. split; [intros [= <-]; auto|].
    intros [[->|Hq] Hqn]; [done|]. exfalso. assert (m !! nm = Some q); [|congruence].
    apply Hm. split; [done|]. rewrite <- Hn1 by done. exact Hqn.
  - rewrite lookup_insert_ne by done. rewrite Hm. split.
    + intros [Hq <-]. split; [by right|]. by apply Hn1.
    + intros [[->|Hq] <-]; [congruence|]. split; [done|]. symmetry. by apply Hn1.
Qed.

Lemma exec_del fuel s m n nm :
  refines s m n -> cstr nm -> (n < fuel)%nat ->
  exists s', exec fuel s (ODel nm) = Done (s', (if decide (is_Some (m !! nm)) then 0 else -1, 0)) /\
    refines s' (delete nm m) n.
Proof.
  intros (t & Hok & Hlen & Hm) Hc Hf.
  destruct (del_ok fuel s t nm Hok Hc) as (s' & r & E & HC); [pose proof (height_nodes t); lia|].
  exists s'. simpl. rewrite E.
  destruct HC as [(-> & t' & p & Hok' & Hperm & Hpn & Hno & Hnames)|(-> & -> & Hno)].
  - assert (m !! nm = Some p) as Hmp by (apply Hm; split; [rewrite Hperm; left|done]).
    rewrite decide_True by (by rewrite Hmp). split; [done|]. exists t'. split_and!; [done| |].
    { rewrite Hperm in Hlen. simpl in Hlen. lia. }
    intros nm' q. rewrite Hnames. destruct (decide (nm' = nm)) as [->|Hne].
    + rewrite lookup_delete_eq. split; [done|]. intros [Hq Hqn]. exfalso.
      rewrite Forall_forall in Hno. apply (Hno q Hq). by rewrite Hnames.
    + rewrite lookup_delete_ne, Hm, Hperm, elem_of_cons by done. split; [|tauto].
      intros [[->|Hq] Hqn]; [congruence|done].
  - assert (m !! nm = None) as Hmn.
    { destruct (m !! nm) as [q|] eqn:Hq; [|done]. apply Hm in Hq as [Hq Hqn].
      rewrite Forall_forall in Hno. by destruct (Hno q Hq). }
    rewrite decide_False by (rewrite Hmn; by intros []). split; [done|]. exists t. split_and!; [done..|].
    rewrite delete_id by done. exact Hm.
Qed.

Lemma exec_find fuel s m n nm :
  refines s m n -> cstr nm -> (n < fuel)%nat ->
  exec fuel s (OFind nm) = Done (s, match m !! nm with Some p => (0, p) | None => (-1, 0) end).
Proof.
  intros (t & Hok & Hlen & Hm) Hc Hf. simpl.
  destruct (search_loop_spec s nm t (rb_node s) fuel) as [(q & Hq & Hqn & E)|[Hno E]];
    [apply Hok..|done|pose proof (height_nodes t); lia| |]; unfold rbtree_search_product_by_name; rewrite E.
  - by rewrite (proj2 (Hm nm q)).
  - destruct (m !! nm) as [q|] eqn:Hq; [|done]. apply Hm in Hq as [Hq Hqn].
    rewrite Forall_forall in Hno. by destruct (Hno q Hq).
Qed.

(** Adding a name that is there goes round the loop for ever. *)
Lemma exec_add_again fuel s m n p nm pr q :
  refines s m n -> legal m (OAdd p nm pr) -> m !! nm = Some q -> exec fuel s (OAdd p nm pr) = NoFuel.
Proof.
  intros (t & Hok & Hlen & Hm) (Hc & Hp0 & Hfree) [Hq Hqn]%Hm. simpl.
  assert (p ∉ nodes t) as Hp by (intros Hin; by apply (Hfree (name_of (nodes_at s) p)), Hm).
  destruct (tree_ok_fill s t p (Product 0 0 nm pr) Hok Hp) as [Hok1 Hn1].
  rewrite (rb_tree_add_duplicate fuel _ t p (Product 0 0 nm pr) q); [done|done|done| |done|].
  - apply lookup_insert_eq.
  - simpl. by rewrite Hn1.
Qed.

(** One operation on related states. *)
Lemma exec_refines fuel s m n o :
  refines s m n -> legal m o -> (n < fuel)%nat ->
  match spec m o with
  | Some (m', out) => exists s', exec fuel s o = Done (s', out) /\ refines s' m' (S n)
  | None => exec fuel s o = NoFuel
  end.
Proof.
  intros HR HL Hf. destruct o as [p nm pr|nm|nm]; simpl spec; [destruct (m !! nm) as [q|] eqn:Hq|..].
  - by eapply exec_add_again.
  - by apply exec_add.
  - destruct (exec_del fuel s m n nm HR HL Hf) as (s' & E & t & ? & ? & ?). exists s'. split; [done|].
    exists t. split_and!; [done|lia|done].
  - exists s. split; [by eapply exec_find|]. destruct HR as (t & ? & ? & ?). exists t.
    split_and!; [done|lia|done].
Qed.

Lemma run_refines fuel l s m n :
  refines s m n -> legal_run m l -> (n + length l < fuel)%nat ->
  match spec_run m l with
  | Some (m', outs) => exists s', run fuel s l = Done (s', outs) /\ refines s' m' (n + length l)
  | None => run fuel s l = NoFuel
  end.
Proof.
  revert s m n. induction l as [|o l IH]; intros s m n HR HL Hf; simpl in *.
  { exists s. by rewrite Nat.add_0_r. }
  destruct HL as [Ho HL]. pose proof (exec_refines fuel s m n o HR Ho) as H1.
  destruct (spec m o) as [[m1 out]|]; simpl; [|by rewrite H1 by lia].
  destruct H1 as (s1 & -> & HR1); [lia|].
  specialize (IH s1 m1 (S n) HR1 HL ltac:(lia)). destruct (spec_run m1 l) as [[m2 outs]|]; simpl; [|by rewrite IH].
  destruct IH as (s2 & -> & HR2). exists s2. split; [done|]. by rewrite Nat.add_succ_r.
Qed.

(** C3.  The product tree refines a finite map: every sequence of additions,
    deletions and searches, whatever shape the kernel's rebalancing gives the
    tree, answers exactly as a map from names to products does and terminates,
    unless it adds a name that is there at that point; then it never returns,
    whatever fuel it is given.  Names are C strings, and a product structure is
    not handed in again while it is in the tree. *)
Theorem tree_refines_map fuel l :
  legal_run ∅ l -> (length l < fuel)%nat ->
  match spec_run ∅ l with
  | Some (m, outs) => exists s, run fuel (Tree 0 ∅) l = Done (s, outs) /\ refines s m (length l)
  | None => run fuel (Tree 0 ∅) l = NoFuel
  end.
Proof.
  intros HL Hf. apply (run_refines fuel l (Tree 0 ∅) ∅ 0); [|done|done].
  exists E. split_and!; [apply tree_empty_ok|done|]. intros nm q. rewrite lookup_empty.
  split; [done|]. by intros [[]%not_elem_of_nil _].
Qed.
End refinement.

Section examples.
#[local] Existing Instance chain.
#[local] Existing Instance chain_spec.

Definition ex_ops : list op :=
  [OAdd 11 (bytes_of "b") 1; OAdd 12 (bytes_of "a") 2; OFind (bytes_of "a"); ODel (bytes_of "b");
   OFind (bytes_of "b"); ODel (bytes_of "c"); OAdd 13 (bytes_of "b") 3; OFind (bytes_of "b")].

(** A name deleted can be added again; the second addition of "a" cannot. *)
Definition ex_again : list op := [OAdd 11 (bytes_of "a") 1; OAdd 12 (bytes_of "a") 2].

Ltac look_up :=
  repeat match goal with
  | |- context [match ?m !! ?k with Some _ => None | None => _ end] =>
      let v := eval vm_compute in (m !! k) in change (m !! k) with v; cbv beta iota
  end.

Ltac legal_ops :=
  simpl; look_up; split_and!; try done; try (by repeat constructor);
  intros nm' Hm; repeat (rewrite lookup_insert_Some in Hm || rewrite lookup_delete_Some in Hm); naive_solver.

Lemma tree_refines_map_witness :
  (exists s, run 9 (Tree 0 ∅) ex_ops =
    Done (s, [(0, 0); (0, 0); (0, 12); (0, 0); (-1, 0); (-1, 0); (0, 0); (0, 13)])) /\
  run 9 (Tree 0 ∅) ex_again = NoFuel.
Proof.
  split.
  - destruct (tree_refines_map 9 ex_ops) as (s & E & _); [legal_ops|simpl; lia|]. exists s. exact E.
  - apply (tree_refines_map 9 ex_again); [legal_ops|simpl; lia].
Defined.
End examples.
