(* ===== verification/Kvm.v ===== *)
(** * kvm-test-lab/kvm-test.c

    The guest that [test] builds in 64 KiB of memory before it runs it:
    segment descriptors, task state, interrupt table, page tables and code, and
    the registers.  The KVM ioctls are calls to the kernel; what they receive
    is the result of the model. *)

From S2P Require Import Prelude CMem Words.

(** ** Constants *)

(** The C expression [1 << n], an int. *)
Definition shl1 (n : Z) : Z := s32 (Z.shiftl 1 n).

Definition CR0_PE : Z := 1.
Definition CR0_MP : Z := shl1 1.
Definition CR0_EM : Z := shl1 2.
Definition CR0_TS : Z := shl1 3.
Definition CR0_ET : Z := shl1 4.
Definition CR0_NE : Z := shl1 5.
Definition CR0_WP : Z := shl1 16.
Definition CR0_AM : Z := shl1 18.
Definition CR0_NW : Z := shl1 29.
Definition CR0_CD : Z := shl1 30.
Definition CR0_PG : Z := shl1 31.

Definition CR4_VME : Z := 1.
Definition CR4_PVI : Z := shl1 1.
Definition CR4_TSD : Z := shl1 2.
Definition CR4_DE : Z := shl1 3.
Definition CR4_PSE : Z := shl1 4.
Definition CR4_PAE : Z := shl1 5.
Definition CR4_MCE : Z := shl1 6.
Definition CR4_PGE : Z := shl1 7.
Definition CR4_PCE : Z := shl1 8.
Definition CR4_OSFXSR : Z := shl1 8.
Definition CR4_OSXMMEXCPT : Z := shl1 10.
Definition CR4_UMIP : Z := shl1 11.
Definition CR4_VMXE : Z := shl1 13.
Definition CR4_SMXE : Z := shl1 14.
Definition CR4_FSGSBASE : Z := shl1 16.
Definition CR4_PCIDE : Z := shl1 17.
Definition CR4_OSXSAVE : Z := shl1 18.
Definition CR4_SMEP : Z := shl1 20.
Definition CR4_SMAP : Z := shl1 21.
Definition CR4_PKE : Z := shl1 22.

Definition EFER_SCE : Z := 1.
Definition EFER_LME : Z := shl1 8.
Definition EFER_LMA : Z := shl1 10.
Definition EFER_NXE : Z := shl1 11.
Definition EFER_SVME : Z := shl1 12.
Definition EFER_LMSLE : Z := shl1 13.
Definition EFER_FFXSR : Z := shl1 14.
Definition EFER_TCE : Z := shl1 15.

Definition PDE32_PRESENT : Z := 1.
Definition PDE32_RW : Z := shl1 1.
Definition PDE32_USER : Z := shl1 2.
Definition PDE32_PS : Z := shl1 7.

Definition PDE64_PRESENT : Z := 1.
Definition PDE64_RW : Z := shl1 1.
Definition PDE64_USER : Z := shl1 2.
Definition PDE64_ACCESSED : Z := shl1 5.
Definition PDE64_DIRTY : Z := shl1 6.
Definition PDE64_PS : Z := shl1 7.
Definition PDE64_G : Z := shl1 8.

(** struct tss64: the offsets of its (packed) members and its size. *)
Definition tss64_rsp (k : Z) : Z := 4 + 8 * k.
Definition tss64_io_bitmap : Z := 4 + 8 * 3 + 8 + 8 * 7 + 8 + 4.
Definition sizeof_tss64 : Z := tss64_io_bitmap + 4.

(** ** Segment descriptors *)

(** struct kvm_segment: base is a u64, limit a u32, selector a u16, the other
    members are bytes. *)
Record kvm_segment := KvmSegment {
  base : Z; limit : Z; selector : Z; type : Z; present : Z; dpl : Z;
  db : Z; s_ : Z; l_ : Z; g_ : Z; avl : Z
}.

Definition segment_descriptor (seg : kvm_segment) : Z :=
  let lim := u32 (if negb (g_ seg =? 0) then Z.shiftr (limit seg) 12 else limit seg) in
  u64 (Z.lor (Z.land lim 0xffff)
      (Z.lor (u64 (Z.shiftl (Z.land (base seg) 0xffffff) 16))
      (Z.lor (u64 (Z.shiftl (type seg) 40))
      (Z.lor (u64 (Z.shiftl (s_ seg) 44))
      (Z.lor (u64 (Z.shiftl (dpl seg) 45))
      (Z.lor (u64 (Z.shiftl (present seg) 47))
      (Z.lor (u64 (Z.shiftl (Z.land lim 0xf0000) 48))
      (Z.lor (u64 (Z.shiftl (avl seg) 52))
      (Z.lor (u64 (Z.shiftl (l_ seg) 53))
      (Z.lor (u64 (Z.shiftl (db seg) 54))
      (Z.lor (u64 (Z.shiftl (g_ seg) 55))
             (u64 (Z.shiftl (Z.land (base seg) 0xff000000) 56))))))))))))).

Definition fill_segment_descriptor (m : mem) (dt : ptr) (seg : kvm_segment) : option mem :=
  let index := u16 (Z.shiftr (selector seg) 3) in
  store_le 8 m (padd dt (8 * index)) (segment_descriptor seg).

(** ** Code *)

Definition kvm_asm64_init_vm : list Z :=
  [
    0x0f; 0x20; 0xc0; 0x0d; 0x00; 0x00; 0x00; 0x80; 0x0f; 0x22; 0xc0; 0xea; 0xde; 0xc0; 0xad; 0x0b;
    0x48; 0x00; 0x48; 0xc7; 0xc0; 0x80; 0x00; 0x00; 0x00; 0x0f; 0x00; 0xd8; 0x48; 0xc7; 0xc1; 0x3a;
    0x00; 0x00; 0x00; 0x0f; 0x32; 0x48; 0x83; 0xc8; 0x05; 0x0f; 0x30; 0x0f; 0x20; 0xe0; 0x48; 0x0d;
    0x00; 0x20; 0x00; 0x00; 0x0f; 0x22; 0xe0; 0x48; 0xc7; 0xc1; 0x80; 0x04; 0x00; 0x00; 0x0f; 0x32;
    0x48; 0xc7; 0xc2; 0x00; 0x60; 0x00; 0x00; 0x89; 0x02; 0x48; 0xc7; 0xc2; 0x00; 0x70; 0x00; 0x00;
    0x89; 0x02; 0x48; 0xc7; 0xc0; 0x00; 0x5f; 0x00; 0x00; 0xf3; 0x0f; 0xc7; 0x30; 0x48; 0xc7; 0xc0;
    0x08; 0x5f; 0x00; 0x00; 0x66; 0x0f; 0xc7; 0x30; 0x0f; 0xc7; 0x30; 0x48; 0xc7; 0xc1; 0x81; 0x04;
    0x00; 0x00; 0x0f; 0x32; 0x48; 0x83; 0xc8; 0x3f; 0x48; 0x21; 0xd0; 0x48; 0xc7; 0xc2; 0x00; 0x40;
    0x00; 0x00; 0x0f; 0x79; 0xd0; 0x48; 0xc7; 0xc2; 0x02; 0x40; 0x00; 0x00; 0x48; 0xc7; 0xc0; 0x84;
    0x9e; 0x99; 0x61; 0x0f; 0x79; 0xd0; 0x48; 0xc7; 0xc2; 0x1e; 0x40; 0x00; 0x00; 0x48; 0xc7; 0xc0;
    0x00; 0x00; 0x00; 0x00; 0x0f; 0x79; 0xd0; 0x48; 0xc7; 0xc1; 0x83; 0x04; 0x00; 0x00; 0x0f; 0x32;
    0x48; 0x0d; 0xff; 0x6f; 0x03; 0x00; 0x48; 0x21; 0xd0; 0x48; 0xc7; 0xc2; 0x0c; 0x40; 0x00; 0x00;
    0x0f; 0x79; 0xd0; 0x48; 0xc7; 0xc1; 0x84; 0x04; 0x00; 0x00; 0x0f; 0x32; 0x48; 0x0d; 0xff; 0x13;
    0x00; 0x00; 0x48; 0x21; 0xd0; 0x48; 0xc7; 0xc2; 0x12; 0x40; 0x00; 0x00; 0x0f; 0x79; 0xd0; 0x48;
    0xc7; 0xc2; 0x04; 0x2c; 0x00; 0x00; 0x48; 0xc7; 0xc0; 0x00; 0x00; 0x00; 0x00; 0x0f; 0x79; 0xd0;
    0x48; 0xc7; 0xc2; 0x00; 0x28; 0x00; 0x00; 0x48; 0xc7; 0xc0; 0xff; 0xff; 0xff; 0xff; 0x0f; 0x79;
    0xd0; 0x48; 0xc7; 0xc2; 0x02; 0x0c; 0x00; 0x00; 0x48; 0xc7; 0xc0; 0x48; 0x00; 0x00; 0x00; 0x0f;
    0x79; 0xd0; 0x48; 0xc7; 0xc0; 0x30; 0x00; 0x00; 0x00; 0x48; 0xc7; 0xc2; 0x00; 0x0c; 0x00; 0x00;
    0x0f; 0x79; 0xd0; 0x48; 0xc7; 0xc2; 0x04; 0x0c; 0x00; 0x00; 0x0f; 0x79; 0xd0; 0x48; 0xc7; 0xc2;
    0x06; 0x0c; 0x00; 0x00; 0x0f; 0x79; 0xd0; 0x48; 0xc7; 0xc2; 0x08; 0x0c; 0x00; 0x00; 0x0f; 0x79;
    0xd0; 0x48; 0xc7; 0xc2; 0x0a; 0x0c; 0x00; 0x00; 0x0f; 0x79; 0xd0; 0x48; 0xc7; 0xc0; 0x80; 0x00;
    0x00; 0x00; 0x48; 0xc7; 0xc2; 0x0c; 0x0c; 0x00; 0x00; 0x0f; 0x79; 0xd0; 0x48; 0xc7; 0xc2; 0x02;
    0x2c; 0x00; 0x00; 0x48; 0xc7; 0xc0; 0x00; 0x05; 0x00; 0x00; 0x0f; 0x79; 0xd0; 0x48; 0xc7; 0xc2;
    0x00; 0x4c; 0x00; 0x00; 0x48; 0xc7; 0xc0; 0x48; 0x00; 0x00; 0x00; 0x0f; 0x79; 0xd0; 0x48; 0xc7;
    0xc2; 0x10; 0x6c; 0x00; 0x00; 0x48; 0xc7; 0xc0; 0x00; 0x00; 0x00; 0x00; 0x0f; 0x79; 0xd0; 0x48;
    0xc7; 0xc2; 0x12; 0x6c; 0x00; 0x00; 0x48; 0xc7; 0xc0; 0x00; 0x00; 0x00; 0x00; 0x0f; 0x79; 0xd0;
    0x0f; 0x20; 0xc0; 0x48; 0xc7; 0xc2; 0x00; 0x6c; 0x00; 0x00; 0x48; 0x89; 0xc0; 0x0f; 0x79; 0xd0;
    0x0f; 0x20; 0xd8; 0x48; 0xc7; 0xc2; 0x02; 0x6c; 0x00; 0x00; 0x48; 0x89; 0xc0; 0x0f; 0x79; 0xd0;
    0x0f; 0x20; 0xe0; 0x48; 0xc7; 0xc2; 0x04; 0x6c; 0x00; 0x00; 0x48; 0x89; 0xc0; 0x0f; 0x79; 0xd0;
    0x48; 0xc7; 0xc2; 0x06; 0x6c; 0x00; 0x00; 0x48; 0xc7; 0xc0; 0x00; 0x00; 0x00; 0x00; 0x0f; 0x79;
    0xd0; 0x48; 0xc7; 0xc2; 0x08; 0x6c; 0x00; 0x00; 0x48; 0xc7; 0xc0; 0x00; 0x00; 0x00; 0x00; 0x0f;
    0x79; 0xd0; 0x48; 0xc7; 0xc2; 0x0a; 0x6c; 0x00; 0x00; 0x48; 0xc7; 0xc0; 0x00; 0x09; 0x00; 0x00;
    0x0f; 0x79; 0xd0; 0x48; 0xc7; 0xc2; 0x0c; 0x6c; 0x00; 0x00; 0x48; 0xc7; 0xc0; 0x00; 0x10; 0x00;
    0x00; 0x0f; 0x79; 0xd0; 0x48; 0xc7; 0xc2; 0x0e; 0x6c; 0x00; 0x00; 0x48; 0xc7; 0xc0; 0x00; 0x0b;
    0x00; 0x00; 0x0f; 0x79; 0xd0; 0x48; 0xc7; 0xc2; 0x14; 0x6c; 0x00; 0x00; 0x48; 0xc7; 0xc0; 0x00;
    0x00; 0x00; 0x00; 0x0f; 0x79; 0xd0; 0x48; 0xc7; 0xc2; 0x16; 0x6c; 0x00; 0x00; 0x48; 0x8b; 0x04;
    0x25; 0x10; 0x5f; 0x00; 0x00; 0x0f; 0x79; 0xd0; 0x48; 0xc7; 0xc2; 0x00; 0x00; 0x00; 0x00; 0x48;
    0xc7; 0xc0; 0x00; 0x00; 0x00; 0x00; 0x0f; 0x79; 0xd0; 0x48; 0xc7; 0xc2; 0x02; 0x00; 0x00; 0x00;
    0x48; 0xc7; 0xc0; 0x00; 0x00; 0x00; 0x00; 0x0f; 0x79; 0xd0; 0x48; 0xc7; 0xc2; 0x00; 0x20; 0x00;
    0x00; 0x48; 0xc7; 0xc0; 0x00; 0x00; 0x00; 0x00; 0x0f; 0x79; 0xd0; 0x48; 0xc7; 0xc2; 0x02; 0x20;
    0x00; 0x00; 0x48; 0xc7; 0xc0; 0x00; 0x00; 0x00; 0x00; 0x0f; 0x79; 0xd0; 0x48; 0xc7; 0xc2; 0x04;
    0x20; 0x00; 0x00; 0x48; 0xc7; 0xc0; 0x00; 0x00; 0x00; 0x00; 0x0f; 0x79; 0xd0; 0x48; 0xc7; 0xc2;
    0x06; 0x20; 0x00; 0x00; 0x48; 0xc7; 0xc0; 0x00; 0x00; 0x00; 0x00; 0x0f; 0x79; 0xd0; 0x48; 0xc7;
    0xc1; 0x77; 0x02; 0x00; 0x00; 0x0f; 0x32; 0x48; 0xc1; 0xe2; 0x20; 0x48; 0x09; 0xd0; 0x48; 0xc7;
    0xc2; 0x00; 0x2c; 0x00; 0x00; 0x48; 0x89; 0xc0; 0x0f; 0x79; 0xd0; 0x48; 0xc7; 0xc2; 0x04; 0x40;
    0x00; 0x00; 0x48; 0xc7; 0xc0; 0x00; 0x00; 0x00; 0x00; 0x0f; 0x79; 0xd0; 0x48; 0xc7; 0xc2; 0x0a;
    0x40; 0x00; 0x00; 0x48; 0xc7; 0xc0; 0x00; 0x00; 0x00; 0x00; 0x0f; 0x79; 0xd0; 0x48; 0xc7; 0xc2;
    0x0e; 0x40; 0x00; 0x00; 0x48; 0xc7; 0xc0; 0x00; 0x00; 0x00; 0x00; 0x0f; 0x79; 0xd0; 0x48; 0xc7;
    0xc2; 0x10; 0x40; 0x00; 0x00; 0x48; 0xc7; 0xc0; 0x00; 0x00; 0x00; 0x00; 0x0f; 0x79; 0xd0; 0x48;
    0xc7; 0xc2; 0x16; 0x40; 0x00; 0x00; 0x48; 0xc7; 0xc0; 0x00; 0x00; 0x00; 0x00; 0x0f; 0x79; 0xd0;
    0x48; 0xc7; 0xc2; 0x14; 0x40; 0x00; 0x00; 0x48; 0xc7; 0xc0; 0x00; 0x00; 0x00; 0x00; 0x0f; 0x79;
    0xd0; 0x48; 0xc7; 0xc2; 0x00; 0x60; 0x00; 0x00; 0x48; 0xc7; 0xc0; 0xff; 0xff; 0xff; 0xff; 0x0f;
    0x79; 0xd0; 0x48; 0xc7; 0xc2; 0x02; 0x60; 0x00; 0x00; 0x48; 0xc7; 0xc0; 0xff; 0xff; 0xff; 0xff;
    0x0f; 0x79; 0xd0; 0x48; 0xc7; 0xc2; 0x1c; 0x20; 0x00; 0x00; 0x48; 0xc7; 0xc0; 0x00; 0x00; 0x00;
    0x00; 0x0f; 0x79; 0xd0; 0x48; 0xc7; 0xc2; 0x1e; 0x20; 0x00; 0x00; 0x48; 0xc7; 0xc0; 0x00; 0x00;
    0x00; 0x00; 0x0f; 0x79; 0xd0; 0x48; 0xc7; 0xc2; 0x20; 0x20; 0x00; 0x00; 0x48; 0xc7; 0xc0; 0x00;
    0x00; 0x00; 0x00; 0x0f; 0x79; 0xd0; 0x48; 0xc7; 0xc2; 0x22; 0x20; 0x00; 0x00; 0x48; 0xc7; 0xc0;
    0x00; 0x00; 0x00; 0x00; 0x0f; 0x79; 0xd0; 0x48; 0xc7; 0xc2; 0x00; 0x08; 0x00; 0x00; 0x48; 0xc7;
    0xc0; 0x30; 0x00; 0x00; 0x00; 0x0f; 0x79; 0xd0; 0x48; 0xc7; 0xc2; 0x02; 0x08; 0x00; 0x00; 0x48;
    0xc7; 0xc0; 0x48; 0x00; 0x00; 0x00; 0x0f; 0x79; 0xd0; 0x48; 0xc7; 0xc2; 0x04; 0x08; 0x00; 0x00;
    0x48; 0xc7; 0xc0; 0x30; 0x00; 0x00; 0x00; 0x0f; 0x79; 0xd0; 0x48; 0xc7; 0xc2; 0x06; 0x08; 0x00;
    0x00; 0x48; 0xc7; 0xc0; 0x30; 0x00; 0x00; 0x00; 0x0f; 0x79; 0xd0; 0x48; 0xc7; 0xc2; 0x08; 0x08;
    0x00; 0x00; 0x48; 0xc7; 0xc0; 0x30; 0x00; 0x00; 0x00; 0x0f; 0x79; 0xd0; 0x48; 0xc7; 0xc2; 0x0a;
    0x08; 0x00; 0x00; 0x48; 0xc7; 0xc0; 0x30; 0x00; 0x00; 0x00; 0x0f; 0x79; 0xd0; 0x48; 0xc7; 0xc2;
    0x0c; 0x08; 0x00; 0x00; 0x48; 0xc7; 0xc0; 0x00; 0x00; 0x00; 0x00; 0x0f; 0x79; 0xd0; 0x48; 0xc7;
    0xc2; 0x0e; 0x08; 0x00; 0x00; 0x48; 0xc7; 0xc0; 0x80; 0x00; 0x00; 0x00; 0x0f; 0x79; 0xd0; 0x48;
    0xc7; 0xc2; 0x12; 0x68; 0x00; 0x00; 0x48; 0xc7; 0xc0; 0x00; 0x00; 0x00; 0x00; 0x0f; 0x79; 0xd0;
    0x48; 0xc7; 0xc2; 0x14; 0x68; 0x00; 0x00; 0x48; 0xc7; 0xc0; 0x00; 0x09; 0x00; 0x00; 0x0f; 0x79;
    0xd0; 0x48; 0xc7; 0xc2; 0x16; 0x68; 0x00; 0x00; 0x48; 0xc7; 0xc0; 0x00; 0x10; 0x00; 0x00; 0x0f;
    0x79; 0xd0; 0x48; 0xc7; 0xc2; 0x18; 0x68; 0x00; 0x00; 0x48; 0xc7; 0xc0; 0x00; 0x0b; 0x00; 0x00;
    0x0f; 0x79; 0xd0; 0x48; 0xc7; 0xc2; 0x00; 0x48; 0x00; 0x00; 0x48; 0xc7; 0xc0; 0xff; 0xff; 0x0f;
    0x00; 0x0f; 0x79; 0xd0; 0x48; 0xc7; 0xc2; 0x02; 0x48; 0x00; 0x00; 0x48; 0xc7; 0xc0; 0xff; 0xff;
    0x0f; 0x00; 0x0f; 0x79; 0xd0; 0x48; 0xc7; 0xc2; 0x04; 0x48; 0x00; 0x00; 0x48; 0xc7; 0xc0; 0xff;
    0xff; 0x0f; 0x00; 0x0f; 0x79; 0xd0; 0x48; 0xc7; 0xc2; 0x06; 0x48; 0x00; 0x00; 0x48; 0xc7; 0xc0;
    0xff; 0xff; 0x0f; 0x00; 0x0f; 0x79; 0xd0; 0x48; 0xc7; 0xc2; 0x08; 0x48; 0x00; 0x00; 0x48; 0xc7;
    0xc0; 0xff; 0xff; 0x0f; 0x00; 0x0f; 0x79; 0xd0; 0x48; 0xc7; 0xc2; 0x0a; 0x48; 0x00; 0x00; 0x48;
    0xc7; 0xc0; 0xff; 0xff; 0x0f; 0x00; 0x0f; 0x79; 0xd0; 0x48; 0xc7; 0xc2; 0x0c; 0x48; 0x00; 0x00;
    0x48; 0xc7; 0xc0; 0x00; 0x00; 0x00; 0x00; 0x0f; 0x79; 0xd0; 0x48; 0xc7; 0xc2; 0x0e; 0x48; 0x00;
    0x00; 0x48; 0xc7; 0xc0; 0xff; 0x1f; 0x00; 0x00; 0x0f; 0x79; 0xd0; 0x48; 0xc7; 0xc2; 0x10; 0x48;
    0x00; 0x00; 0x48; 0xc7; 0xc0; 0xff; 0x1f; 0x00; 0x00; 0x0f; 0x79; 0xd0; 0x48; 0xc7; 0xc2; 0x12;
    0x48; 0x00; 0x00; 0x48; 0xc7; 0xc0; 0xff; 0x1f; 0x00; 0x00; 0x0f; 0x79; 0xd0; 0x48; 0xc7; 0xc2;
    0x14; 0x48; 0x00; 0x00; 0x48; 0xc7; 0xc0; 0x93; 0x40; 0x00; 0x00; 0x0f; 0x79; 0xd0; 0x48; 0xc7;
    0xc2; 0x16; 0x48; 0x00; 0x00; 0x48; 0xc7; 0xc0; 0x9b; 0x20; 0x00; 0x00; 0x0f; 0x79; 0xd0; 0x48;
    0xc7; 0xc2; 0x18; 0x48; 0x00; 0x00; 0x48; 0xc7; 0xc0; 0x93; 0x40; 0x00; 0x00; 0x0f; 0x79; 0xd0;
    0x48; 0xc7; 0xc2; 0x1a; 0x48; 0x00; 0x00; 0x48; 0xc7; 0xc0; 0x93; 0x40; 0x00; 0x00; 0x0f; 0x79;
    0xd0; 0x48; 0xc7; 0xc2; 0x1c; 0x48; 0x00; 0x00; 0x48; 0xc7; 0xc0; 0x93; 0x40; 0x00; 0x00; 0x0f;
    0x79; 0xd0; 0x48; 0xc7; 0xc2; 0x1e; 0x48; 0x00; 0x00; 0x48; 0xc7; 0xc0; 0x93; 0x40; 0x00; 0x00;
    0x0f; 0x79; 0xd0; 0x48; 0xc7; 0xc2; 0x20; 0x48; 0x00; 0x00; 0x48; 0xc7; 0xc0; 0x82; 0x00; 0x00;
    0x00; 0x0f; 0x79; 0xd0; 0x48; 0xc7; 0xc2; 0x22; 0x48; 0x00; 0x00; 0x48; 0xc7; 0xc0; 0x8b; 0x00;
    0x00; 0x00; 0x0f; 0x79; 0xd0; 0x48; 0xc7; 0xc2; 0x1c; 0x68; 0x00; 0x00; 0x48; 0xc7; 0xc0; 0x00;
    0x00; 0x00; 0x00; 0x0f; 0x79; 0xd0; 0x48; 0xc7; 0xc2; 0x1e; 0x68; 0x00; 0x00; 0x48; 0xc7; 0xc0;
    0x00; 0x91; 0x00; 0x00; 0x0f; 0x79; 0xd0; 0x48; 0xc7; 0xc2; 0x20; 0x68; 0x00; 0x00; 0x48; 0xc7;
    0xc0; 0x02; 0x00; 0x00; 0x00; 0x0f; 0x79; 0xd0; 0x48; 0xc7; 0xc2; 0x06; 0x28; 0x00; 0x00; 0x48;
    0xc7; 0xc0; 0x00; 0x05; 0x00; 0x00; 0x0f; 0x79; 0xd0; 0x48; 0xc7; 0xc2; 0x0a; 0x28; 0x00; 0x00;
    0x48; 0xc7; 0xc0; 0x00; 0x00; 0x00; 0x00; 0x0f; 0x79; 0xd0; 0x48; 0xc7; 0xc2; 0x0c; 0x28; 0x00;
    0x00; 0x48; 0xc7; 0xc0; 0x00; 0x00; 0x00; 0x00; 0x0f; 0x79; 0xd0; 0x48; 0xc7; 0xc2; 0x0e; 0x28;
    0x00; 0x00; 0x48; 0xc7; 0xc0; 0x00; 0x00; 0x00; 0x00; 0x0f; 0x79; 0xd0; 0x48; 0xc7; 0xc2; 0x10;
    0x28; 0x00; 0x00; 0x48; 0xc7; 0xc0; 0x00; 0x00; 0x00; 0x00; 0x0f; 0x79; 0xd0; 0x0f; 0x20; 0xc0;
    0x48; 0xc7; 0xc2; 0x00; 0x68; 0x00; 0x00; 0x48; 0x89; 0xc0; 0x0f; 0x79; 0xd0; 0x0f; 0x20; 0xd8;
    0x48; 0xc7; 0xc2; 0x02; 0x68; 0x00; 0x00; 0x48; 0x89; 0xc0; 0x0f; 0x79; 0xd0; 0x0f; 0x20; 0xe0;
    0x48; 0xc7; 0xc2; 0x04; 0x68; 0x00; 0x00; 0x48; 0x89; 0xc0; 0x0f; 0x79; 0xd0; 0x0f; 0x01; 0xc2;
    0x48; 0xc7; 0xc2; 0x00; 0x44; 0x00; 0x00; 0x0f; 0x78; 0xd0; 0xf4].

Definition kvm_asm64_vm_exit : list Z :=
  [
    0xf4; 0x48; 0xc7; 0xc3; 0x00; 0x44; 0x00; 0x00; 0x0f; 0x78; 0xda; 0x48; 0xc7; 0xc3; 0x02; 0x44;
    0x00; 0x00; 0x0f; 0x78; 0xd9; 0x48; 0xc7; 0xc0; 0x00; 0x64; 0x00; 0x00; 0x0f; 0x78; 0xc0; 0x48;
    0xc7; 0xc3; 0x1e; 0x68; 0x00; 0x00; 0x0f; 0x78; 0xdb; 0xf4].

(** memmem: the offset of the first occurrence of [pat] in [l]. *)
Fixpoint memmem_at (o : Z) (l pat : list Z) : option Z :=
  if decide (take (length pat) l = pat) then Some o
  else match l with
       | [] => None
       | _ :: l' => memmem_at (o + 1) l' pat
       end.

Definition memmem (l pat : list Z) : option Z := memmem_at 0 l pat.

(** ** The registers *)

Record kvm_dtable := KvmDtable { dt_base : Z; dt_limit : Z }.

Record kvm_sregs := KvmSregs {
  cs : kvm_segment; ds : kvm_segment; es : kvm_segment; fs : kvm_segment; gs : kvm_segment;
  ss : kvm_segment; ldt : kvm_segment; gdt : kvm_dtable; idt : kvm_dtable;
  cr0 : Z; cr3 : Z; cr4 : Z; efer : Z
}.

Record kvm_regs := KvmRegs { rflags : Z; rip : Z; rsp : Z }.

(** ** test *)

(** The block that mmap returned for the guest's memory. *)
Definition host_mem : Z := 1.
Definition guest_mem_size : Z := Z.shiftl 64 10.
Definition task_base : Z := 0x500.

(** The calls of [test], with what they are given: descriptors are the results
    of earlier calls. *)
Inductive kvm_call :=
  | KVM_CREATE_VM (kvmfd : Z) | KVM_CREATE_VCPU (vmfd : Z)
  | KVM_SET_USER_MEMORY_REGION (vmfd slot guest_phys_addr memory_size userspace_addr : Z)
  | KVM_GET_SREGS (cpufd : Z) | KVM_GET_SUPPORTED_CPUID (kvmfd nent : Z)
  | KVM_SET_CPUID2 (cpufd : Z) | KVM_SET_SREGS (cpufd : Z) (r : kvm_sregs)
  | KVM_SET_REGS (cpufd : Z) (r : kvm_regs)
  | KVM_RUN (cpufd : Z) (guest : mem).

Section test.
(** The [avl] members of [seg_cs16] and [seg_tss_32], which the function leaves
    uninitialised, and what the ioctls answer. *)
Context (avl_cs avl_tss : Z) (kvmfd vmfd cpufd : Z) (sregs0 : kvm_sregs).

Definition seg_cs16 : kvm_segment :=
  KvmSegment 0 0xfffff (Z.shiftl 1 3) 11 1 0 0 1 0 0 avl_cs.

(** Copies of a segment with some members changed. *)
Definition with_selector (x : Z) (g : kvm_segment) : kvm_segment :=
  KvmSegment (base g) (limit g) x (type g) (present g) (dpl g) (db g) (s_ g) (l_ g) (g_ g) (avl g).
Definition with_type (x : Z) (g : kvm_segment) : kvm_segment :=
  KvmSegment (base g) (limit g) (selector g) x (present g) (dpl g) (db g) (s_ g) (l_ g) (g_ g) (avl g).
Definition with_dpl (x : Z) (g : kvm_segment) : kvm_segment :=
  KvmSegment (base g) (limit g) (selector g) (type g) (present g) x (db g) (s_ g) (l_ g) (g_ g) (avl g).
Definition with_db (x : Z) (g : kvm_segment) : kvm_segment :=
  KvmSegment (base g) (limit g) (selector g) (type g) (present g) (dpl g) x (s_ g) (l_ g) (g_ g) (avl g).
Definition with_l (x : Z) (g : kvm_segment) : kvm_segment :=
  KvmSegment (base g) (limit g) (selector g) (type g) (present g) (dpl g) (db g) (s_ g) x (g_ g) (avl g).
Definition with_base_limit (b x : Z) (g : kvm_segment) : kvm_segment :=
  KvmSegment b x (selector g) (type g) (present g) (dpl g) (db g) (s_ g) (l_ g) (g_ g) (avl g).

Definition seg_ds16 := with_type 3 (with_selector (Z.shiftl 2 3) seg_cs16).
Definition seg_cs16_cpl3 := with_dpl 3 (with_selector (Z.shiftl 3 3 + 3) seg_cs16).
Definition seg_ds16_cpl3 := with_dpl 3 (with_selector (Z.shiftl 4 3 + 3) seg_ds16).
Definition seg_cs32 := with_db 1 (with_selector (Z.shiftl 5 3) seg_cs16).
Definition seg_ds32 := with_db 1 (with_selector (Z.shiftl 6 3) seg_ds16).
Definition seg_cs32_cpl3 := with_dpl 3 (with_selector (Z.shiftl 7 3 + 3) seg_cs32).
Definition seg_ds32_cpl3 := with_dpl 3 (with_selector (Z.shiftl 8 3 + 3) seg_ds32).
Definition seg_cs64 := with_l 1 (with_selector (Z.shiftl 9 3) seg_cs16).
Definition seg_cs64_cpl3 := with_dpl 3 (with_selector (Z.shiftl 10 3 + 3) seg_cs64).
Definition seg_tss_32 : kvm_segment :=
  KvmSegment task_base 0xff (Z.shiftl 11 3) 9 1 0 0 0 0 0 avl_tss.
Definition seg_tss_64 :=
  with_base_limit (task_base + 0x400) 0x1ff (with_selector (Z.shiftl 16 3) seg_tss_32).

Definition gdt_base : Z := 0x1000.

(** Lines 242-324: the descriptor table. *)
Definition test_gdt (m : mem) : option mem :=
  m ← foldl (fun o seg => m ← o; fill_segment_descriptor m (host_mem, gdt_base) seg) (Some m)
    [seg_cs16; seg_ds16; seg_cs16_cpl3; seg_ds16_cpl3; seg_cs32; seg_ds32; seg_cs32_cpl3;
     seg_ds32_cpl3; seg_cs64; seg_cs64_cpl3; seg_tss_32; seg_tss_64];
  store_le 8 m (host_mem, gdt_base + 8 * (16 + 1)) 0.

(** Lines 326-331: the task state. *)
Definition test_tss (m : mem) : option mem :=
  let tss := base seg_tss_64 in
  m ← memset m (host_mem, tss) 0 sizeof_tss64;
  m ← store_le 8 m (host_mem, tss + tss64_rsp 0) 0x100;
  m ← store_le 8 m (host_mem, tss + tss64_rsp 1) 0x100;
  m ← store_le 8 m (host_mem, tss + tss64_rsp 2) 0x100;
  store_le 4 m (host_mem, tss + tss64_io_bitmap) tss64_io_bitmap.

Definition idt_base : Z := task_base + 0x600.

Definition idt_gate (i : Z) : Z :=
  Z.lor (0x600 + i) (Z.lor (Z.shiftl (selector seg_cs64) 16)
    (Z.lor (Z.shiftl 14 40) (Z.shiftl 1 47))).

(** Lines 340-346: the interrupt table and its handlers. *)
Fixpoint test_idt (i : Z) (n : nat) (m : mem) : option mem :=
  match n with
  | O => Some m
  | S n' =>
      m ← store_le 8 m (host_mem, idt_base + 8 * (i * 2)) (idt_gate i);
      m ← store_le 8 m (host_mem, idt_base + 8 * (i * 2 + 1)) 0;
      m ← store_le 1 m (host_mem, 0x600 + i) 0xf4;
      test_idt (i + 1) n' m
  end.

(** Lines 351-362: the page tables. *)
Definition test_pages (m : mem) : option mem :=
  m ← store_le 8 m (host_mem, 0x3000)
    (Z.lor PDE64_PRESENT (Z.lor PDE64_RW (Z.lor PDE64_USER 0x4000)));
  m ← store_le 8 m (host_mem, 0x4000)
    (Z.lor PDE64_PRESENT (Z.lor PDE64_RW (Z.lor PDE64_USER 0x5000)));
  store_le 8 m (host_mem, 0x5000)
    (Z.lor PDE64_PRESENT (Z.lor PDE64_RW (Z.lor PDE64_USER PDE64_PS))).

(** Lines 376-381: the pointers and the code for the nested guest's exit. *)
Definition test_vm_exit (m : mem) : option mem :=
  m ← store_le 8 m (host_mem, 0x5f00) 0x6000;
  m ← store_le 8 m (host_mem, 0x5f08) 0x7000;
  m ← store_list m (host_mem, 0x9000) kvm_asm64_vm_exit;
  m ← store_le 8 m (host_mem, 0x5f10) 0x9000;
  store_le 1 m (host_mem, 0x9100) 0xf4.

(** Lines 385-391: the guest's code, with its far jump patched. *)
Definition test_code (m : mem) : option mem :=
  let n := Z.of_nat (length kvm_asm64_init_vm) in
  m ← store_list m (host_mem, 0) kvm_asm64_init_vm;
  m ← (match memmem (bytes m (host_mem, 0) n) [0xde; 0xc0; 0xad; 0x0b] with
       | Some jmp_off => store_le 4 m (host_mem, jmp_off) (u32 (jmp_off + 6))
       | None => Some m
       end);
  store_le 1 m (host_mem, n) 0xf4.

(** The special registers: everything else keeps what KVM_GET_SREGS gave. *)
Definition test_sregs : kvm_sregs :=
  KvmSregs seg_cs32 seg_ds32 seg_ds32 seg_ds32 seg_ds32 seg_ds32
    (with_base_limit (base (ldt sregs0)) 0x1ff (ldt sregs0))
    (KvmDtable gdt_base (24 * 8 - 1)) (KvmDtable idt_base (dt_limit (idt sregs0)))
    (Z.lor CR0_PE CR0_NE) 0x3000 CR4_PAE EFER_LME.

Definition test_regs : kvm_regs := KvmRegs 2 0 0x200.

(** Memory from mmap is zero-filled. *)
Definition guest0 : mem := {[ host_mem := Block guest_mem_size (fun _ => 0) ]}.

(** The guest's memory when it runs. *)
Definition guest : option mem :=
  m ← test_gdt guest0;
  m ← test_tss m;
  m ← test_idt 0 32 m;
  m ← test_pages m;
  m ← test_vm_exit m;
  test_code m.

(** The calls of [test], in order: up to the first look at the registers, and
    from the CPUID on, when the memory is [m]. *)
Definition test_head : list kvm_call :=
  [KVM_CREATE_VM kvmfd; KVM_CREATE_VCPU vmfd;
   KVM_SET_USER_MEMORY_REGION vmfd 0 0 guest_mem_size host_mem; KVM_GET_SREGS cpufd].
Definition test_tail (m : mem) : list kvm_call :=
  [KVM_GET_SUPPORTED_CPUID kvmfd 128; KVM_SET_CPUID2 cpufd;
   KVM_SET_SREGS cpufd test_sregs; KVM_SET_REGS cpufd test_regs; KVM_RUN cpufd m].

Definition test : option (list kvm_call) :=
  m ← guest;
  Some (test_head ++ test_tail m).
End test.

(** ** Segment descriptors *)

(** ** The flags *)

Definition CR0_flags : list Z :=
  [CR0_PE; CR0_MP; CR0_EM; CR0_TS; CR0_ET; CR0_NE; CR0_WP; CR0_AM; CR0_NW; CR0_CD; CR0_PG].

Definition CR4_flags : list Z :=
  [CR4_VME; CR4_PVI; CR4_TSD; CR4_DE; CR4_PSE; CR4_PAE; CR4_MCE; CR4_PGE; CR4_PCE;
   CR4_OSFXSR; CR4_OSXMMEXCPT; CR4_UMIP; CR4_VMXE; CR4_SMXE; CR4_FSGSBASE; CR4_PCIDE;
   CR4_OSXSAVE; CR4_SMEP; CR4_SMAP; CR4_PKE].

Definition EFER_flags : list Z :=
  [EFER_SCE; EFER_LME; EFER_LMA; EFER_NXE; EFER_SVME; EFER_LMSLE; EFER_FFXSR; EFER_TCE].

Definition PDE32_flags : list Z :=
  [PDE32_PRESENT; PDE32_RW; PDE32_USER; PDE32_PS].

Definition PDE64_flags : list Z :=
  [PDE64_PRESENT; PDE64_RW; PDE64_USER; PDE64_ACCESSED; PDE64_DIRTY; PDE64_PS; PDE64_G].

(** The only bit of a flag once it is stored in a 64-bit register or table
    entry. *)
Definition flag_bit (f : Z) : option Z :=
  if u64 f =? 2 ^ Z.log2 (u64 f) then Some (Z.log2 (u64 f)) else None.

(** The flag macros name one bit each, and different bits of the same
    register, with two exceptions: CR4_OSFXSR is the bit of CR4_PCE (the
    processor has it at bit 9), and CR0_PG, a negative int, sets all bits from
    31 up when it is converted to the 64 bits of cr0. *)
Theorem kvm_flag_bits :
  flag_bit <$> CR0_flags = (Some <$> [0; 1; 2; 3; 4; 5; 16; 18; 29; 30]) ++ [None] /\
  u64 CR0_PG = 2 ^ 64 - 2 ^ 31 /\
  flag_bit <$> CR4_flags =
    Some <$> [0; 1; 2; 3; 4; 5; 6; 7; 8; 8; 10; 11; 13; 14; 16; 17; 18; 20; 21; 22] /\
  flag_bit <$> EFER_flags = Some <$> [0; 8; 10; 11; 12; 13; 14; 15] /\
  flag_bit <$> PDE32_flags = Some <$> [0; 1; 2; 7] /\
  flag_bit <$> PDE64_flags = Some <$> [0; 1; 2; 5; 6; 7; 8].
Proof. by vm_compute. Qed.

(** The members hold values of their fields. *)
Definition seg_ok (seg : kvm_segment) : Prop :=
  0 <= type seg < 2 ^ 4 /\ 0 <= s_ seg < 2 ^ 1 /\ 0 <= dpl seg < 2 ^ 2 /\
  0 <= present seg < 2 ^ 1 /\ 0 <= avl seg < 2 ^ 1 /\ 0 <= l_ seg < 2 ^ 1 /\
  0 <= db seg < 2 ^ 1 /\ 0 <= g_ seg < 2 ^ 1.

Definition seg_limit (seg : kvm_segment) : Z :=
  u32 (if negb (g_ seg =? 0) then Z.shiftr (limit seg) 12 else limit seg).

(** One of the members of the disjunction, seen through a field. *)
Ltac part :=
  first [ rewrite field_above by lia
        | rewrite field_at by (first [assumption | lia])
        | match goal with
          | Hx : 0 <= ?x < 2 ^ ?w |- context [field (Z.shiftl ?x ?k) ?lo ?n] =>
              rewrite (field_below x k w lo n) by (first [assumption | lia])
          end ].

Lemma descriptor_field seg lo n :
  0 <= lo -> 0 <= n -> lo + n <= 64 ->
  field (segment_descriptor seg) lo n =
  Z.lor (field (Z.shiftl (Z.land (seg_limit seg) 0xffff) 0) lo n)
 (Z.lor (field (Z.shiftl (Z.land (base seg) 0xffffff) 16) lo n)
 (Z.lor (field (Z.shiftl (type seg) 40) lo n)
 (Z.lor (field (Z.shiftl (s_ seg) 44) lo n)
 (Z.lor (field (Z.shiftl (dpl seg) 45) lo n)
 (Z.lor (field (Z.shiftl (present seg) 47) lo n)
 (Z.lor (field (Z.shiftl (avl seg) 52) lo n)
 (Z.lor (field (Z.shiftl (l_ seg) 53) lo n)
 (Z.lor (field (Z.shiftl (db seg) 54) lo n)
        (field (Z.shiftl (g_ seg) 55) lo n))))))))).
Proof.
  intros. unfold segment_descriptor. fold (seg_limit seg).
  rewrite field_u64, !field_lor, !field_u64 by lia. rewrite Z.shiftl_0_r.
  change 0xf0000 with (Z.shiftl (Z.ones 4) 16).
  change 0xff000000 with (Z.shiftl (Z.ones 8) 24).
  rewrite !land_mask, !Z.shiftl_shiftl by lia.
  rewrite (field_above _ (16 + 48)), (field_above _ (24 + 56)) by lia.
  by rewrite Z.lor_0_l, Z.lor_0_r.
Qed.

(** C15.  The descriptor holds each member of the segment in the bit field the
    architecture defines for it, except for two: bits 16 to 19 of the limit
    and bits 24 to 31 of the base are shifted out of the 64-bit value (by 48
    and 56 instead of 32) and their fields are 0. *)
Theorem segment_descriptor_fields seg :
  seg_ok seg ->
  let d := segment_descriptor seg in
  field d 0 16 = seg_limit seg mod 2 ^ 16 /\ field d 16 24 = base seg mod 2 ^ 24 /\
  field d 40 4 = type seg /\ field d 44 1 = s_ seg /\ field d 45 2 = dpl seg /\
  field d 47 1 = present seg /\ field d 52 1 = avl seg /\ field d 53 1 = l_ seg /\
  field d 54 1 = db seg /\ field d 55 1 = g_ seg /\
  field d 48 4 = 0 /\ field d 56 8 = 0.
Proof.
  intros (H1 & H2 & H3 & H4 & H5 & H6 & H7 & H8) d. subst d.
  pose proof (land_ones_bound (seg_limit seg) 16 0xffff ltac:(lia) eq_refl) as H9.
  pose proof (land_ones_bound (base seg) 24 0xffffff ltac:(lia) eq_refl) as H10.
  rewrite <- (Z.land_ones (seg_limit seg) 16), <- (Z.land_ones (base seg) 24) by lia.
  change (Z.ones 16) with 0xffff. change (Z.ones 24) with 0xffffff.
  split_and!; rewrite descriptor_field by lia; repeat part; by rewrite ?Z.lor_0_r, ?Z.lor_0_l.
Qed.

(** ** The guest at the time it runs *)

(** The segments with their descriptors in the table. *)
Definition segments (avl_cs avl_tss : Z) : list kvm_segment :=
  [seg_cs16 avl_cs; seg_ds16 avl_cs; seg_cs16_cpl3 avl_cs; seg_ds16_cpl3 avl_cs; seg_cs32 avl_cs;
   seg_ds32 avl_cs; seg_cs32_cpl3 avl_cs; seg_ds32_cpl3 avl_cs; seg_cs64 avl_cs;
   seg_cs64_cpl3 avl_cs; seg_tss_32 avl_tss; seg_tss_64 avl_tss].

Definition guest_mem (avl_cs avl_tss : Z) : mem := default ∅ (guest avl_cs avl_tss).

Lemma guest_runs avl_cs avl_tss : guest avl_cs avl_tss = Some (guest_mem avl_cs avl_tss).
Proof. reflexivity. Qed.

Lemma descriptor_range seg : segment_descriptor seg mod 2 ^ (8 * Z.of_nat 8) = segment_descriptor seg.
Proof. unfold segment_descriptor, u64, wrap. apply Zmod_mod. Qed.


(** Stores outside [lo, hi) of the guest's memory leave it alone. *)
Definition untouched (m m' : mem) (lo hi : Z) : Prop :=
  forall i, lo <= i < hi -> peek m' host_mem i = peek m host_mem i.

(** Runs [H : write m p n f = Some m'] backwards in [peek m' b i], when [lia]
    can tell whether [i] is inside. *)
Ltac peek_out H := rewrite (write_frame _ _ _ _ _ _ _ H) by (simpl; lia).
Ltac peek_in H :=
  let E := fresh in
  lazymatch type of H with write _ ?p ?n _ = Some ?m' =>
    lazymatch goal with |- context [peek m' _ ?i] =>
      pose proof (write_inside _ _ _ _ _ i H) as E; simpl in E; rewrite E by lia; clear E
    end end.

(** Splits a chain of stores into its steps. *)
Ltac split_stores E :=
  repeat match type of E with
    | (_ ≫= _) = Some _ =>
        let m := fresh "m" in let H := fresh "S" in apply bind_Some in E as (m & H & E)
    end.

Section stages.
Context (avl_cs avl_tss : Z).
Implicit Types m : mem.

Lemma tss_frame m m' lo hi :
  test_tss avl_tss m = Some m' -> hi <= 0x900 \/ 0x96c <= lo -> untouched m m' lo hi.
Proof.
  unfold test_tss. simpl. unfold sizeof_tss64, tss64_io_bitmap, tss64_rsp, task_base.
  intros E Hr i Hi. split_stores E.
  peek_out E. peek_out S2. peek_out S1. peek_out S0. peek_out S. done.
Qed.

Lemma idt_spec n i m m' :
  test_idt avl_cs i n m = Some m' -> 0 <= i ->
  (forall a, (a < idt_base + 16 * i \/ idt_base + 16 * (i + Z.of_nat n) <= a) ->
     (a < 0x600 + i \/ 0x600 + i + Z.of_nat n <= a) -> peek m' host_mem a = peek m host_mem a) /\
  (i + Z.of_nat n <= 32 -> forall k j, i <= k < i + Z.of_nat n -> 0 <= j < 8 ->
     peek m' host_mem (idt_base + 16 * k + j) = le_byte (idt_gate avl_cs k) j).
Proof.
  revert i m. induction n as [|n IH]; intros i m E Hi; simpl in E.
  { simplify_eq. split; [done|]. intros _ k j Hk. lia. }
  split_stores E. unfold store_le in *. destruct (IH _ _ E) as [Hf Hg]; [lia|]. unfold idt_base, task_base in *. split.
  - intros a H1 H2. rewrite Hf by lia. peek_out S1. peek_out S0. peek_out S. done.
  - intros Hn k j Hk Hj. destruct (decide (k = i)) as [->|]; [|apply Hg; lia].
    rewrite Hf by lia. peek_out S1. peek_out S0. peek_in S. f_equal. lia.
Qed.

Lemma pages_frame m m' lo hi :
  test_pages m = Some m' ->
  hi <= 0x3000 \/ 0x5008 <= lo -> untouched m m' lo hi.
Proof.
  unfold test_pages. intros E Hr i Hi. split_stores E.
  peek_out E. peek_out S0. peek_out S. done.
Qed.

Lemma vm_exit_frame m m' lo hi :
  test_vm_exit m = Some m' -> hi <= 0x5f00 -> untouched m m' lo hi.
Proof.
  unfold test_vm_exit. intros E Hr i Hi. split_stores E.
  peek_out E. peek_out S2. peek_out S1. peek_out S0. peek_out S. done.
Qed.

(** The code area after its jump is patched. *)
Definition code_byte (i : Z) : Z :=
  if (12 <=? i) && (i <? 16) then le_byte 18 (i - 12)
  else if i =? 1627 then 0xf4 else nth (Z.to_nat i) kvm_asm64_init_vm 0.

Lemma find_jump : memmem kvm_asm64_init_vm [0xde; 0xc0; 0xad; 0x0b] = Some 12.
Proof. reflexivity. Qed.

Lemma code_length : Z.of_nat (length kvm_asm64_init_vm) = 1627.
Proof. reflexivity. Qed.

Lemma code_spec m m' :
  test_code m = Some m' ->
  (forall i, 0 <= i <= 1627 -> peek m' host_mem i = code_byte i) /\
  (forall lo hi, 1628 <= lo -> untouched m m' lo hi).
Proof.
  unfold test_code. cbv zeta. intros E. apply bind_Some in E as (m1 & S & E).
  unfold store_list in S. pose proof (bytes_write_same _ _ _ _ _ S) as Hb.
  rewrite slice_nth in Hb by lia. rewrite Nat2Z.id, take_ge in Hb by lia.
  rewrite Hb, find_jump in E. apply bind_Some in E as (m2 & S2 & E).
  change (u32 (12 + 6)) with 18 in S2. rewrite code_length in *. unfold store_le in *. split.
  - intros i Hi. unfold code_byte. rewrite (write_peek _ _ _ _ _ _ _ E), (write_peek _ _ _ _ _ _ _ S2),
      (write_peek _ _ _ _ _ _ _ S).
    generalize kvm_asm64_init_vm as code. intros code. clear -Hi. simpl. rewrite Z.sub_0_r.
    destruct (Z.eqb_spec i 1627) as [->|]; [done|].
    zify_bool; simpl; done || lia.
  - intros lo hi Hlo i Hi. peek_out E. peek_out S2. peek_out S. done.
Qed.

(** A table of words, stored entry by entry at distinct indices. *)
Lemma table_spec {A} (idx val : A -> Z) (tbl : Z) (l : list A) o m' :
  foldl (fun o x => m ← o; store_le 8 m (host_mem, tbl + 8 * idx x) (val x)) o l = Some m' ->
  exists m, o = Some m /\
    (forall i, (forall x, x ∈ l -> i < tbl + 8 * idx x \/ tbl + 8 * idx x + 8 <= i) ->
       peek m' host_mem i = peek m host_mem i) /\
    (NoDup (idx <$> l) -> Forall (fun x => forall j, 0 <= j < 8 ->
       peek m' host_mem (tbl + 8 * idx x + j) = le_byte (val x) j) l).
Proof.
  revert o. induction l as [|x l IH]; intros o E; simpl in E.
  { exists m'. split_and!; [done|done|]. intros _. apply Forall_nil. done. }
  destruct (IH _ E) as (m1 & E1 & Hf & Hg). apply bind_Some in E1 as (m & -> & S).
  unfold store_le in S. exists m. split_and!; [done| |].
  - intros i Hi. rewrite Hf by (intros y Hy; apply Hi; by right).
    specialize (Hi x ltac:(left)). peek_out S. done.
  - rewrite fmap_cons. intros [Hx Hnd]%NoDup_cons. apply Forall_cons. split; [|by apply Hg].
    intros j Hj. rewrite Hf; [peek_in S; f_equal; lia|]. intros y Hy.
    assert (idx x <> idx y); [|lia]. intros Exy. apply Hx. rewrite Exy. by apply list_elem_of_fmap_2.
Qed.

(** The descriptor table right after it was written. *)
Lemma gdt_spec m m' :
  test_gdt avl_cs avl_tss m = Some m' ->
  Forall (fun seg => forall j, 0 <= j < 8 ->
      peek m' host_mem (gdt_base + 8 * u16 (Z.shiftr (selector seg) 3) + j) =
      le_byte (segment_descriptor seg) j) (segments avl_cs avl_tss).
Proof.
  unfold test_gdt. fold (segments avl_cs avl_tss). unfold fill_segment_descriptor, padd.
  intros E. apply bind_Some in E as (m1 & S & E).
  destruct (table_spec (fun seg => u16 (Z.shiftr (selector seg) 3)) segment_descriptor gdt_base
    (segments avl_cs avl_tss) (Some m) m1 S) as (_ & _ & _ & Hg).
  assert (NoDup ((fun seg => u16 (Z.shiftr (selector seg) 3)) <$> segments avl_cs avl_tss)) as Hnd.
  { apply (bool_decide_unpack _). reflexivity. }
  specialize (Hg Hnd).
  assert (Forall (fun seg => u16 (Z.shiftr (selector seg) 3) <= 16) (segments avl_cs avl_tss)) as Hle
    by (repeat constructor; discriminate).
  rewrite Forall_forall in *. intros seg Hseg j Hj. unfold store_le in E.
  specialize (Hle seg Hseg). peek_out E. by apply Hg.
Qed.
End stages.

(** The stages of [guest]. *)
Lemma guest_stages avl_cs avl_tss :
  exists m1 m2 m3 m4 m5,
    test_gdt avl_cs avl_tss guest0 = Some m1 /\ test_tss avl_tss m1 = Some m2 /\
    test_idt avl_cs 0 32 m2 = Some m3 /\ test_pages m3 = Some m4 /\ test_vm_exit m4 = Some m5 /\
    test_code m5 = Some (guest_mem avl_cs avl_tss).
Proof.
  pose proof (guest_runs avl_cs avl_tss) as E. unfold guest in E at 1.
  apply bind_Some in E as (m1 & H1 & E). apply bind_Some in E as (m2 & H2 & E).
  apply bind_Some in E as (m3 & H3 & E). apply bind_Some in E as (m4 & H4 & E).
  apply bind_Some in E as (m5 & H5 & E). eauto 12.
Qed.

#[local] Opaque guest_mem kvm_asm64_init_vm.

(** A word below 0x5f00 and above the code holds what the page-table stage
    left there. *)
Lemma kept avl_cs avl_tss w lo v :
  1628 <= lo -> lo + Z.of_nat w <= 0x5f00 ->
  (forall m1 m2 m3 m4, test_gdt avl_cs avl_tss guest0 = Some m1 -> test_tss avl_tss m1 = Some m2 ->
     test_idt avl_cs 0 32 m2 = Some m3 -> test_pages m3 = Some m4 ->
     forall j, (j < w)%nat -> peek m4 host_mem (lo + Z.of_nat j) = le_byte v (Z.of_nat j)) ->
  peek_le w (guest_mem avl_cs avl_tss) host_mem lo = v mod 2 ^ (8 * Z.of_nat w).
Proof.
  intros Hlo Hhi Hv. destruct (guest_stages avl_cs avl_tss)
    as (m1 & m2 & m3 & m4 & m5 & H1 & H2 & H3 & H4 & H5 & H6).
  apply peek_le_bytes. intros j Hj.
  rewrite (proj2 (code_spec _ _ H6) lo (lo + Z.of_nat w)) by lia.
  rewrite (vm_exit_frame _ _ lo (lo + Z.of_nat w) H5) by lia.
  by apply (Hv m1 m2 m3 m4).
Qed.

Lemma gdt_kept avl_cs avl_tss seg :
  seg ∈ segments avl_cs avl_tss ->
  peek_le 8 (guest_mem avl_cs avl_tss) host_mem (gdt_base + 8 * u16 (Z.shiftr (selector seg) 3))
  = segment_descriptor seg.
Proof.
  intros Hseg. rewrite <- descriptor_range.
  assert (Forall (fun seg => 0 <= u16 (Z.shiftr (selector seg) 3) <= 16) (segments avl_cs avl_tss))
    as Hle by (repeat constructor; discriminate).
  rewrite Forall_forall in Hle. specialize (Hle seg Hseg).
  assert (gdt_base = 0x1000) as Hb by done.
  apply kept; [lia|lia|]. intros m1 m2 m3 m4 H1 H2 H3 H4 j Hj.
  rewrite (pages_frame _ _ 0x1000 0x1100 H4) by lia.
  rewrite (proj1 (idt_spec _ _ _ _ _ H3 ltac:(lia))) by (unfold idt_base, task_base; lia).
  rewrite (tss_frame _ _ _ 0x1000 0x1100 H2) by lia.
  pose proof (gdt_spec _ _ _ _ H1) as Hg. rewrite Forall_forall in Hg. apply Hg; [done|lia].
Qed.

(** When the guest runs, the descriptor table holds the descriptor of
    every segment at the index of its selector: no store of [test]
    overwrites another entry or is overwritten later. *)
Theorem guest_gdt avl_cs avl_tss :
  Forall (fun seg => peek_le 8 (guest_mem avl_cs avl_tss) host_mem
            (gdt_base + 8 * u16 (Z.shiftr (selector seg) 3)) = segment_descriptor seg)
    (segments avl_cs avl_tss).
Proof. apply Forall_forall. intros seg Hseg. by apply gdt_kept. Qed.

(** ** The far jump *)

Lemma guest_code avl_cs avl_tss i :
  0 <= i <= 1627 -> peek (guest_mem avl_cs avl_tss) host_mem i = code_byte i.
Proof.
  destruct (guest_stages avl_cs avl_tss) as (m1 & m2 & m3 & m4 & m5 & _ & _ & _ & _ & _ & H6).
  apply (code_spec _ _ H6).
Qed.

(** The descriptor of the 64-bit code segment, for each value of the byte
    [avl]. *)
Definition cs64_marks (avl : Z) : bool :=
  let d := segment_descriptor (seg_cs64 avl) in
  (field d 47 1 =? 1) && (field d 40 4 =? 11) && (field d 44 1 =? 1) && (field d 53 1 =? 1) &&
  (field d 54 1 =? Z.b2z (Z.testbit avl 2)).

Lemma cs64_all_marks : Forall (fun avl => cs64_marks avl = true) (seqZ 0 256).
Proof. apply List.Forall_forall, List.forallb_forall. vm_compute. reflexivity. Qed.

(** C23.  The far jump of the guest's code (opcode 0xea at offset 11) goes to
    the instruction behind it, offset 18, through the selector of the 64-bit
    code segment, whose descriptor is a present code segment with the 64-bit
    mark.  The processor also wants the size bit (54) of such a segment to be
    0; here it is bit 2 of the byte [avl], which the function never assigns and
    shifts in unmasked.  So the jump is a good one exactly when the stack
    happened to hold a 0 in that bit. *)
Theorem guest_far_jump avl_cs avl_tss :
  0 <= avl_cs < 2 ^ 8 ->
  let m := guest_mem avl_cs avl_tss in
  peek m host_mem 11 = 0xea /\ peek_le 4 m host_mem 12 = 12 + 4 + 2 /\
  peek_le 2 m host_mem 16 = selector (seg_cs64 avl_cs) /\
  let d := peek_le 8 m host_mem (gdt_base + 8 * u16 (Z.shiftr (selector (seg_cs64 avl_cs)) 3)) in
  field d 47 1 = 1 /\ field d 40 4 = 11 /\ field d 44 1 = 1 /\ field d 53 1 = 1 /\
  field d 54 1 = Z.b2z (Z.testbit avl_cs 2).
Proof.
  intros Havl m. subst m. split_and!.
  - by rewrite guest_code by lia.
  - rewrite (peek_le_bytes 4 _ _ _ 18); [done|]. intros j Hj. rewrite guest_code by lia.
    by do 4 (destruct j as [|j]; [done|]); lia.
  - rewrite (peek_le_bytes 2 _ _ _ 72); [done|]. intros j Hj. rewrite guest_code by lia.
    by do 2 (destruct j as [|j]; [done|]); lia.
  - cbv zeta. rewrite gdt_kept by (unfold segments; rewrite !elem_of_cons; tauto).
    pose proof cs64_all_marks as HF. rewrite Forall_forall in HF.
    specialize (HF avl_cs ltac:(apply elem_of_seqZ; lia)). unfold cs64_marks in HF.
    rewrite !andb_true_iff, !Z.eqb_eq in HF. tauto.
Qed.

(** ** Paging *)

(** The walk of the processor in long mode: entries are 8 bytes, bit 0 is
    present, bit 7 of the second and third levels ends the walk with a large
    page. *)
Definition entry (m : mem) (table index : Z) : option Z :=
  let e := peek_le 8 m host_mem (table + 8 * index) in
  if Z.testbit e 0 then Some e else None.

Definition next_table (e : Z) : Z := Z.shiftl (field e 12 40) 12.

Definition page_walk (m : mem) (cr3 va : Z) : option Z :=
  e4 ← entry m (next_table cr3) (field va 39 9);
  e3 ← entry m (next_table e4) (field va 30 9);
  if Z.testbit e3 7 then Some (Z.shiftl (field e3 30 22) 30 + field va 0 30)
  else
    e2 ← entry m (next_table e3) (field va 21 9);
    if Z.testbit e2 7 then Some (Z.shiftl (field e2 21 31) 21 + field va 0 21)
    else
      e1 ← entry m (next_table e2) (field va 12 9);
      Some (Z.shiftl (field e1 12 40) 12 + field va 0 12).

Lemma page_words avl_cs avl_tss :
  let m := guest_mem avl_cs avl_tss in
  peek_le 8 m host_mem 0x3000 = 0x4007 /\ peek_le 8 m host_mem 0x4000 = 0x5007 /\
  peek_le 8 m host_mem 0x5000 = 0x87.
Proof.
  split_and!;
    [rewrite (kept _ _ 8 0x3000 0x4007)|rewrite (kept _ _ 8 0x4000 0x5007)
    |rewrite (kept _ _ 8 0x5000 0x87)]; try (done || lia).
  all: intros m1 m2 m3 m4 _ _ _ E j Hj; unfold test_pages, store_le in E; split_stores E.
  - peek_out E. peek_out S0. peek_in S. f_equal. lia.
  - peek_out E. peek_in S0. f_equal. lia.
  - peek_in E. f_equal. lia.
Qed.

Lemma field_zero x lo n k : 0 <= x < 2 ^ k -> 0 <= k <= lo -> 0 <= n -> field x lo n = 0.
Proof.
  intros Hx Hk Hn. rewrite <- (Z.shiftl_0_r x). apply (field_below x 0 k); lia.
Qed.

Lemma entry_at m t e :
  peek_le 8 m host_mem t = e -> Z.testbit e 0 = true -> entry m t 0 = Some e.
Proof. unfold entry. rewrite Z.add_0_r. by intros -> ->. Qed.

(** C22.  The page tables map the first 2 MiB of virtual addresses, and so all
    of the guest's memory, to themselves. *)
Theorem guest_identity_mapped avl_cs avl_tss sregs0 va :
  0 <= va < 2 ^ 21 ->
  page_walk (guest_mem avl_cs avl_tss) (cr3 (test_sregs avl_cs sregs0)) va = Some va.
Proof.
  intros Hva. destruct (page_words avl_cs avl_tss) as (E4 & E3 & E2).
  unfold page_walk. change (cr3 (test_sregs avl_cs sregs0)) with 0x3000.
  rewrite (field_zero va 39 9 21), (field_zero va 30 9 21), (field_zero va 21 9 21) by lia.
  rewrite (entry_at _ (next_table 0x3000) 0x4007) by done. cbn [mbind option_bind].
  rewrite (entry_at _ (next_table 0x4007) 0x5007) by done. cbn [mbind option_bind].
  change (Z.testbit 0x5007 7) with false. cbv iota.
  rewrite (entry_at _ (next_table 0x5007) 0x87) by done. cbn [mbind option_bind].
  change (Z.testbit 0x87 7) with true. change (Z.shiftl (field 0x87 21 31) 21) with 0. cbv iota.
  unfold field. by rewrite Z.shiftr_0_r, Z.land_ones, Z.mod_small by lia.
Qed.

(** ** Interrupt handlers *)

(** Every gate of the interrupt table leads to its handler at 0x600 + i,
    but the handlers, single hlt instructions, are overwritten: the guest's
    code is longer than 0x620 bytes and is copied to address 0 after they
    were stored, so that none of the 32 handlers is a hlt when the guest
    runs. *)
Theorem guest_handlers_overwritten avl_cs avl_tss i :
  0 <= i < 32 ->
  let m := guest_mem avl_cs avl_tss in
  let gate := peek_le 8 m host_mem (idt_base + 16 * i) in
  field gate 0 16 = 0x600 + i /\ field gate 16 16 = selector (seg_cs64 avl_cs) /\
  peek m host_mem (0x600 + i) <> 0xf4.
Proof.
  intros Hi m gate.
  assert (gate = idt_gate avl_cs i mod 2 ^ (8 * Z.of_nat 8)) as Eg.
  { subst gate m. apply kept; [unfold idt_base, task_base; lia..|].
    intros m1 m2 m3 m4 _ _ H3 H4 j Hj.
    rewrite (pages_frame _ _ idt_base (idt_base + 512) H4) by (unfold idt_base, task_base; lia).
    apply (proj2 (idt_spec _ _ _ _ _ H3 ltac:(lia))); lia. }
  subst m. rewrite Eg. rewrite guest_code by lia.
  assert (i ∈ seqZ 0 32) as Hin by (apply elem_of_seqZ; lia).
  assert (Forall (fun i => field (idt_gate avl_cs i mod 2 ^ (8 * Z.of_nat 8)) 0 16 = 0x600 + i /\
    field (idt_gate avl_cs i mod 2 ^ (8 * Z.of_nat 8)) 16 16 = 72 /\ code_byte (0x600 + i) <> 0xf4)
    (seqZ 0 32)) as Hall by (apply (bool_decide_unpack _); vm_compute; exact I).
  rewrite Forall_forall in Hall. by apply Hall.
Qed.

(** ** Examples *)

(** The uninitialised [avl] can be any byte: with 2 in it, a 32-bit code segment
    gets the 64-bit flag too. *)
Example avl_spills :
  field (segment_descriptor (seg_cs32 0)) 53 1 = 0 /\ field (segment_descriptor (seg_cs32 2)) 53 1 = 1.
Proof. split; reflexivity. Qed.

Definition ex_seg : kvm_segment := KvmSegment 0x12345678 0xfffff 0x48 11 1 3 0 1 1 0 0.
Definition ex_sregs : kvm_sregs :=
  KvmSregs ex_seg ex_seg ex_seg ex_seg ex_seg ex_seg ex_seg (KvmDtable 0 0xffff) (KvmDtable 0 0xffff)
    0x60000010 0 0 0.

Lemma segment_descriptor_fields_witness :
  let d := segment_descriptor ex_seg in
  field d 0 16 = seg_limit ex_seg mod 2 ^ 16 /\ field d 16 24 = base ex_seg mod 2 ^ 24 /\
  field d 40 4 = type ex_seg /\ field d 44 1 = s_ ex_seg /\ field d 45 2 = dpl ex_seg /\
  field d 47 1 = present ex_seg /\ field d 52 1 = avl ex_seg /\ field d 53 1 = l_ ex_seg /\
  field d 54 1 = db ex_seg /\ field d 55 1 = g_ ex_seg /\
  field d 48 4 = 0 /\ field d 56 8 = 0.
Proof. apply (segment_descriptor_fields ex_seg). repeat split; discriminate. Defined.

Lemma guest_far_jump_witness :
  let m := guest_mem 5 7 in
  peek m host_mem 11 = 0xea /\ peek_le 4 m host_mem 12 = 12 + 4 + 2 /\
  peek_le 2 m host_mem 16 = selector (seg_cs64 5) /\
  let d := peek_le 8 m host_mem (gdt_base + 8 * u16 (Z.shiftr (selector (seg_cs64 5)) 3)) in
  field d 47 1 = 1 /\ field d 40 4 = 11 /\ field d 44 1 = 1 /\ field d 53 1 = 1 /\ field d 54 1 = 1.
Proof. apply (guest_far_jump 5 7). lia. Defined.

Lemma guest_identity_mapped_witness :
  page_walk (guest_mem 0 0) (cr3 (test_sregs 0 ex_sregs)) 0x9000 = Some 0x9000.
Proof. apply (guest_identity_mapped 0 0 ex_sregs 0x9000). lia. Defined.

Lemma guest_handlers_overwritten_witness :
  let m := guest_mem 0 0 in
  let gate := peek_le 8 m host_mem (idt_base + 16 * 13) in
  field gate 0 16 = 0x600 + 13 /\ field gate 16 16 = selector (seg_cs64 0) /\
  peek m host_mem (0x600 + 13) <> 0xf4.
Proof. apply (guest_handlers_overwritten 0 0 13). lia. Defined.
