(* ===== verification/KvmMain.v ===== *)
(** * kvm-test-lab/kvm-test.c: main

    The processes of the test program: [main] forks one server, the server
    forks one worker after the other and waits for each.  The worker runs
    [printg], a function that no file of the repository defines; it may end in
    any way and at any time.  fork, waitpid and exit are those of the system:
    fork may fail, waitpid delivers some dead child of the caller, the
    children of a process that ends go to process 1. *)

From S2P Require Import Prelude.

(** Where a process is: in the for loop of main with counter [i], in
    [sleep], before the fork of the inner loop, in the waitpid loop for the
    child [pid], in printg, or ended and not yet waited for. *)
Inductive pc := MLoop (i : Z) | MSleep | SFork | SWait (pid : Z) | Worker | Zombie.

Record proc := Proc { parent : Z; at_ : pc }.

Abbreviation world := (gmap Z proc).

(** The bound of the for loop. *)
Definition PROCS : Z := 1.

Definition goto (pid : Z) (k : pc) (w : world) : world :=
  alter (fun p => Proc (parent p) k) pid w.

(** exit, and a return from main. *)
Definition do_exit (pid : Z) (w : world) : world :=
  (fun p => if parent p =? pid then Proc 1 (at_ p) else p) <$> goto pid Zombie w.

(** The number of a new process is not in use: neither for a process nor as
    the parent of one. *)
Definition unused (w : world) (pid : Z) : Prop :=
  1 < pid /\ w !! pid = None /\ map_Forall (fun _ p => parent p <> pid) w.

Definition spawn (pid child : Z) (k : pc) (w : world) : world := <[child := Proc pid k]> w.

Inductive step : world -> world -> Prop :=
  (* for (i = 0; i < 1; i++) { if (fork()) continue; ... } *)
  | main_fork w pid p i child :
      w !! pid = Some p -> at_ p = MLoop i -> i < PROCS -> unused w child ->
      step w (spawn pid child SFork (goto pid (MLoop (i + 1)) w))
  | main_fork_fails w pid p i :
      w !! pid = Some p -> at_ p = MLoop i -> i < PROCS ->
      step w (goto pid (MLoop (i + 1)) w)
  | main_loop_ends w pid p i :
      w !! pid = Some p -> at_ p = MLoop i -> PROCS <= i -> step w (goto pid MSleep w)
  | main_returns w pid p :
      w !! pid = Some p -> at_ p = MSleep -> step w (do_exit pid w)
  (* for (;;) { int pid = fork(); ... } *)
  | server_fork w pid p child :
      w !! pid = Some p -> at_ p = SFork -> unused w child ->
      step w (spawn pid child Worker (goto pid (SWait child) w))
  | server_fork_fails w pid p :
      w !! pid = Some p -> at_ p = SFork -> step w (do_exit pid w)
  (* printg(); exit(0); *)
  | worker_ends w pid p :
      w !! pid = Some p -> at_ p = Worker -> step w (do_exit pid w)
  (* while (waitpid(-1, &status, __WALL) != pid) { } *)
  | waitpid_child w pid p t child q :
      w !! pid = Some p -> at_ p = SWait t ->
      w !! child = Some q -> parent q = pid -> at_ q = Zombie ->
      step w (goto pid (if child =? t then SFork else SWait t) (delete child w))
  | waitpid_fails w pid p t :
      w !! pid = Some p -> at_ p = SWait t -> step w w
  (* a dead process whose parent is not one of these is waited for elsewhere *)
  | reaped_elsewhere w pid p :
      w !! pid = Some p -> at_ p = Zombie -> w !! parent p = None -> step w (delete pid w).

(** main right after it was started by the process [sh]. *)
Definition started (m sh : Z) : world := {[ m := Proc sh (MLoop 0) ]}.

(** ** Invariant *)

Lemma goto_lookup pid k w x :
  goto pid k w !! x = if decide (x = pid) then (fun p => Proc (parent p) k) <$> w !! x else w !! x.
Proof.
  unfold goto. destruct (decide (x = pid)) as [->|]; [apply lookup_alter_eq|].
  by apply lookup_alter_ne.
Qed.

Definition adopt (pid : Z) (p : proc) : proc := if parent p =? pid then Proc 1 (at_ p) else p.

Lemma adopt_at pid p : at_ (adopt pid p) = at_ p.
Proof. unfold adopt. by destruct (parent p =? pid). Qed.

Lemma do_exit_lookup pid w x :
  do_exit pid w !! x = adopt pid <$> goto pid Zombie w !! x.
Proof. apply lookup_fmap. Qed.

Lemma spawn_lookup pid child k w x :
  spawn pid child k w !! x = if decide (x = child) then Some (Proc pid k) else w !! x.
Proof.
  unfold spawn. destruct (decide (x = child)) as [->|]; [apply lookup_insert_eq|].
  by apply lookup_insert_ne.
Qed.

(** The process of main, if it is there. *)
Definition main_ok (m : Z) (o : option proc) : Prop :=
  match o with
  | None => True
  | Some p =>
      parent p <> m /\
      match at_ p with MLoop i => i = 0 \/ i = 1 | MSleep | Zombie => True | _ => False end
  end.

(** The server [s], given the entry of its worker [c]. *)
Definition server_ok (s c : Z) (o oc : option proc) : Prop :=
  match o with
  | None => oc = None
  | Some p =>
      match at_ p with
      | SFork | Zombie => oc = None
      | SWait t => t = c /\ (oc = Some (Proc s Worker) \/ oc = Some (Proc s Zombie))
      | _ => False
      end
  end.

(** [m] is the process of main, [s] the server, [c] its worker; a number that
    is in the role of a process that does not exist is not in use. *)
Record inv (m : Z) (w : world) (s c : Z) : Prop := Inv {
  inv_distinct : m <> s /\ m <> c /\ s <> c /\ 1 <> m /\ 1 <> s /\ 1 <> c;
  inv_dom x : is_Some (w !! x) -> x = m \/ x = s \/ x = c;
  inv_main : main_ok m (w !! m);
  inv_orphan : forall p, w !! m = Some p -> parent p <> s /\ parent p <> c;
  inv_parent : forall p, w !! s = Some p -> parent p <> s /\ parent p <> c;
  inv_server : server_ok s c (w !! s) (w !! c);
  inv_first : forall p, w !! m = Some p -> at_ p = MLoop 0 -> w !! s = None
}.

(** Which of the three processes one is. *)
Lemma inv_main_is m w s c pid p :
  inv m w s c -> w !! pid = Some p ->
  (exists i, at_ p = MLoop i) \/ at_ p = MSleep -> pid = m.
Proof.
  intros [D Hd Hm _ _ Hs _] E K. destruct (Hd pid) as [-> | [-> | -> ] ]; [by eauto|done| |];
    exfalso; unfold server_ok in Hs; rewrite E in Hs.
  - by destruct K as [[i K]|K]; rewrite K in Hs.
  - destruct (w !! s) as [q|]; [|done].
    destruct (at_ q), K as [[j K]|K]; try done; destruct Hs as (_ & [[= ->] | [= ->] ]); done.
Qed.

Lemma inv_server_is m w s c pid p :
  inv m w s c -> w !! pid = Some p ->
  at_ p = SFork \/ (exists t, at_ p = SWait t) -> pid = s.
Proof.
  intros [D Hd Hm _ _ Hs _] E K. destruct (Hd pid) as [-> | [-> | -> ] ]; [by eauto| |done|];
    exfalso.
  - rewrite E in Hm. destruct Hm as [_ Hm]. by destruct K as [K|[t K]]; rewrite K in Hm.
  - unfold server_ok in Hs. rewrite E in Hs. destruct (w !! s) as [q|]; [|done].
    destruct (at_ q), K as [K|[t K]]; try done; destruct Hs as (_ & [[= ->] | [= ->] ]); done.
Qed.

Lemma inv_worker_is m w s c pid p :
  inv m w s c -> w !! pid = Some p -> at_ p = Worker -> pid = c.
Proof.
  intros [D Hd Hm _ _ Hs _] E K. destruct (Hd pid) as [-> | [-> | -> ] ]; [by eauto| | |done];
    exfalso.
  - rewrite E in Hm. destruct Hm as [_ Hm]. by rewrite K in Hm.
  - rewrite E in Hs. simpl in Hs. by rewrite K in Hs.
Qed.

(** Rewrites the lookups of a world after a step. *)
Ltac lookups :=
  repeat (match goal with
    | H : context [spawn _ _ _ _ !! _] |- _ => rewrite spawn_lookup in H
    | H : context [do_exit _ _ !! _] |- _ => rewrite do_exit_lookup in H
    | H : context [goto _ _ _ !! _] |- _ => rewrite goto_lookup in H
    | |- context [spawn _ _ _ _ !! _] => rewrite spawn_lookup
    | |- context [do_exit _ _ !! _] => rewrite do_exit_lookup
    | |- context [goto _ _ _ !! _] => rewrite goto_lookup
    end; repeat case_decide; try congruence).

Lemma started_inv m sh : 1 < m -> sh <> m -> exists s c, inv m (started m sh) s c.
Proof.
  intros Hm Hsh.
  (* two numbers that are not in use *)
  pose (s := 1 + Z.max m (Z.max sh 1)). exists s, (s + 1).
  assert (started m sh !! s = None) as Es by (apply lookup_singleton_ne; lia).
  assert (started m sh !! (s + 1) = None) as Ec by (apply lookup_singleton_ne; lia).
  split; rewrite ?Es, ?Ec; try done; [lia| | |].
  - intros x [p Hx]. unfold started in Hx. apply lookup_singleton_Some in Hx as [-> _]. by left.
  - unfold started. rewrite lookup_singleton_eq. simpl. auto.
  - intros p Hp. unfold started in Hp. rewrite lookup_singleton_eq in Hp. simplify_eq/=. lia.
Qed.

Lemma main_fork_inv m w s c p child :
  inv m w s c -> w !! m = Some p -> at_ p = MLoop 0 -> unused w child ->
  exists s' c', inv m (spawn m child SFork (goto m (MLoop 1) w)) s' c'.
Proof.
  intros HI E K (H1 & Hn & Hu). pose proof (inv_first _ _ _ _ HI p E K) as Es.
  destruct HI as [D Hd Hm Ho Hp Hs _]. rewrite Es in Hs. simpl in Hs.
  assert (child <> m) as Hcm by congruence.
  assert (exists c', w !! c' = None /\ c' <> m /\ c' <> child /\ c' <> 1 /\ parent p <> c')
    as (c' & Ec & Hc1 & Hc2 & Hc3 & Hc4).
  { destruct (Ho p E) as [Ho1 Ho2].
    destruct (decide (child = c)) as [->|]; [exists s|exists c]; split_and!; auto; naive_solver. }
  specialize (Hu _ _ E). simpl in Hu. exists child, c'. split.
  - clear -D H1 Hcm Hc1 Hc2 Hc3. lia.
  - intros x Hx. lookups; [auto..|].
    destruct (Hd x Hx) as [|[-> | -> ]]; [by left|by rewrite ?Es, ?Hs in Hx; destruct Hx..].
  - lookups. rewrite E in *. simpl. destruct Hm. auto.
  - intros q Hq. lookups. rewrite E in Hq. simplify_eq/=. auto.
  - intros q Hq. lookups. simplify_eq/=. auto.
  - lookups.
  - intros q Hq Kq. lookups. rewrite E in Hq. simplify_eq/=.
Qed.

(** Steps of the process of main alone. *)
Lemma main_goto_inv m w s c p k :
  inv m w s c -> w !! m = Some p -> k = MLoop 1 \/ k = MSleep ->
  inv m (goto m k w) s c.
Proof.
  intros [D Hd Hm Ho Hp Hs Hf] E K. pose proof (Ho p E) as [Ho1 Ho2].
  destruct D as (? & ? & ? & ? & ? & ?). rewrite E in Hm. destruct Hm as [Hm _]. split; [done| | | | | |].
  - intros x Hx. apply Hd. destruct (decide (x = m)) as [->|]; [by rewrite E|]. by lookups.
  - lookups. rewrite E. simpl. split; [done|]. destruct K as [-> | -> ]; auto.
  - intros q Hq. lookups. rewrite E in Hq. by simplify_eq/=.
  - intros q Hq. lookups. by apply Hp.
  - by lookups.
  - intros q Hq Kq. lookups. rewrite E in Hq. simplify_eq/=. by destruct K.
Qed.

(** What an exit does to the table. *)
Lemma exit_dom pid w x : is_Some (do_exit pid w !! x) -> is_Some (w !! x).
Proof.
  rewrite do_exit_lookup, fmap_is_Some, goto_lookup. case_decide; [|done]. by rewrite fmap_is_Some.
Qed.

Lemma exit_ne pid w x :
  x <> pid -> (forall p, w !! x = Some p -> parent p <> pid) -> do_exit pid w !! x = w !! x.
Proof.
  intros Hx Hp. rewrite do_exit_lookup, goto_lookup, decide_False by done.
  destruct (w !! x) as [p|] eqn:E; [|done]. simpl. unfold adopt.
  by rewrite (proj2 (Z.eqb_neq _ _)) by (by apply Hp).
Qed.

Lemma exit_self pid w p :
  w !! pid = Some p -> parent p <> pid -> do_exit pid w !! pid = Some (Proc (parent p) Zombie).
Proof.
  intros E Hp. rewrite do_exit_lookup, goto_lookup, decide_True, E by done. simpl. unfold adopt; simpl.
  by rewrite (proj2 (Z.eqb_neq _ _)).
Qed.

(** The exit of main: the server, if there is one, gets another parent. *)
Lemma main_exit_inv m w s c p :
  inv m w s c -> w !! m = Some p -> inv m (do_exit m w) s c.
Proof.
  intros [D Hd Hm Ho Hp Hs Hf] E. pose proof (Ho p E) as [Ho1 Ho2].
  destruct D as (? & ? & ? & ? & ? & ?). rewrite E in Hm. destruct Hm as [Hm _].
  pose proof (exit_self m w p E Hm) as Em.
  assert (do_exit m w !! c = w !! c) as Ec.
  { apply exit_ne; [done|]. intros q Eq Hq. unfold server_ok in Hs. rewrite Eq in Hs.
    destruct (w !! s) as [q'|]; [|done]. destruct (at_ q'); try done.
    destruct Hs as (_ & [[= ->] | [= ->] ]); by simpl in Hq. }
  assert (do_exit m w !! s = adopt m <$> w !! s) as Es by lookups.
  split; [done| |rewrite Em; done| | |rewrite Es, Ec|].
  - intros x Hx. by eapply Hd, exit_dom.
  - intros q Hq. rewrite Em in Hq. by simplify_eq/=.
  - intros q Hq. rewrite Es in Hq. destruct (w !! s) as [q'|] eqn:Es'; simplify_eq/=.
    unfold adopt. destruct (Z.eqb_spec (parent q') m); simpl; [done|by apply Hp].
  - destruct (w !! s); simpl in *; [by rewrite adopt_at|done].
  - intros q Hq Kq. rewrite Em in Hq. by simplify_eq/=.
Qed.

(** Steps of the server, and the end of its worker. *)
Lemma server_fork_inv m w s c p child :
  inv m w s c -> w !! s = Some p -> at_ p = SFork -> unused w child ->
  exists m', inv m' (spawn s child Worker (goto s (SWait child) w)) s child.
Proof.
  intros [D Hd Hm Ho Hp Hs Hf] E K (H1 & Hn & Hu). rewrite E in Hs. simpl in Hs. rewrite K in Hs.
  destruct D as (? & ? & ? & ? & ? & ?). assert (child <> s) by congruence.
  assert (exists m', m' <> s /\ m' <> child /\ m' <> 1 /\ main_ok m' (w !! m') /\
    (forall x, is_Some (w !! x) -> x = m' \/ x = s) /\ (w !! m' = w !! m))
    as (m' & ? & ? & ? & Hm' & Hd' & Em).
  { destruct (decide (child = m)) as [->|]; [exists c|exists m]; split_and!; auto.
    - by rewrite Hs.
    - intros x Hx. destruct (Hd x Hx) as [-> | [-> | -> ]]; auto. by rewrite Hn in Hx; destruct Hx.
    - congruence.
    - intros x Hx. destruct (Hd x Hx) as [-> | [-> | -> ]]; auto. by rewrite Hs in Hx; destruct Hx. }
  exists m'. split; [split_and!; auto; lia| | | | | |].
  - intros x Hx. destruct (decide (x = s)) as [->|]; [auto|]. lookups; [auto|].
    destruct (Hd' x Hx); auto.
  - lookups.
  - intros q Hq. lookups. rewrite Em in Hq. split; [by apply Ho|].
    apply (Hu m q). congruence.
  - intros q Hq. lookups. rewrite E in Hq. simplify_eq/=. split; [by apply Hp|by apply (Hu s)].
  - lookups. rewrite E. simpl. auto.
  - intros q Hq Kq. lookups. rewrite Em in Hq. specialize (Hf q Hq Kq). congruence.
Qed.

(** The exit of the server or of its worker [x] leaves main alone. *)
Lemma other_exit_inv m w s c x p :
  inv m w s c -> w !! x = Some p -> x = s \/ x = c -> parent p <> x ->
  (x = c -> forall q, w !! s = Some q -> parent q <> c) ->
  server_ok s c (do_exit x w !! s) (do_exit x w !! c) -> inv m (do_exit x w) s c.
Proof.
  intros HI E Hx Hpar Hsp Hok. pose proof HI as [D Hd Hm Ho Hp Hs Hf].
  destruct D as (? & ? & ? & ? & ? & ?).
  assert (do_exit x w !! m = w !! m) as Em.
  { apply exit_ne; [destruct Hx; congruence|]. intros q Eq. destruct (Ho q Eq), Hx; congruence. }
  split; [done| |by rewrite Em|by rewrite Em| |done|].
  - intros y Hy. by eapply Hd, exit_dom.
  - intros q Hq. destruct Hx as [-> | -> ].
    + rewrite (exit_self _ _ _ E Hpar) in Hq. simplify_eq/=. by apply Hp.
    + rewrite exit_ne in Hq; [by apply Hp|done|by apply Hsp].
  - intros q Hq Kq. rewrite Em in Hq. specialize (Hf q Hq Kq). destruct Hx as [-> | -> ].
    + congruence.
    + rewrite Hf, E in Hs. done.
Qed.

Lemma server_exit_inv m w s c p :
  inv m w s c -> w !! s = Some p -> at_ p = SFork -> inv m (do_exit s w) s c.
Proof.
  intros HI E K. pose proof HI as [D _ _ _ Hp Hs _]. rewrite E in Hs. simpl in Hs. rewrite K in Hs.
  destruct (Hp p E) as [Hp1 _].
  apply (other_exit_inv m w s c s p); auto; [naive_solver|].
  rewrite (exit_self _ _ _ E Hp1), exit_ne, Hs; [done|naive_solver|by rewrite Hs].
Qed.

Lemma worker_exit_inv m w s c p :
  inv m w s c -> w !! c = Some p -> at_ p = Worker -> inv m (do_exit c w) s c.
Proof.
  intros HI E K. pose proof HI as [D _ _ _ Hp Hs _]. rewrite E in Hs.
  destruct D as (? & ? & ? & ? & ? & ?).
  destruct (w !! s) as [q|] eqn:Es; [|done]. simpl in Hs.
  destruct (at_ q) as [| | |t| |] eqn:Kq; try done.
  destruct Hs as (-> & Hs). assert (p = Proc s Worker) as -> by (destruct Hs; naive_solver).
  destruct (Hp q eq_refl) as [_ Hq].
  apply (other_exit_inv m w s c c (Proc s Worker)); auto.
  - intros _ q' Eq'. rewrite Es in Eq'. by simplify_eq.
  - rewrite (exit_self _ _ _ E) by done. rewrite exit_ne, Es; [|done|naive_solver].
    simpl. rewrite Kq. auto.
Qed.

Lemma waitpid_inv m w s c p t child q :
  inv m w s c -> w !! s = Some p -> at_ p = SWait t ->
  w !! child = Some q -> parent q = s -> at_ q = Zombie ->
  child = t /\ inv m (goto s SFork (delete child w)) s c.
Proof.
  intros [D Hd Hm Ho Hp Hs Hf] E K Eq Hq Kq. rewrite E in Hs. simpl in Hs. rewrite K in Hs.
  destruct D as (? & ? & ? & ? & ? & ?). destruct Hs as (-> & Hs).
  assert (child = c) as ->.
  { destruct (Hd child) as [-> | [-> | -> ]]; [by eauto| | |done].
    - by destruct (Ho q Eq).
    - by destruct (Hp q Eq). }
  split; [done|].
  assert (forall x, x <> c -> delete c w !! x = w !! x) as Hx by (intros; by apply lookup_delete_ne).
  split; [done| | | | | |].
  - intros x Hx'. apply Hd. destruct (decide (x = c)) as [->|]; [by rewrite Eq|].
    destruct (decide (x = s)) as [->|]; [by rewrite E|]. lookups. by rewrite Hx in Hx' by done.
  - lookups. by rewrite Hx.
  - intros q' Hq'. lookups. rewrite Hx in Hq' by done. by apply Ho.
  - intros q' Hq'. lookups. rewrite Hx, E in Hq' by done. simplify_eq/=. by apply Hp.
  - lookups. rewrite Hx, E by done. simpl. by rewrite lookup_delete_eq.
  - intros q' Hq' Kq'. lookups. rewrite Hx in Hq' by done. specialize (Hf q' Hq' Kq'). congruence.
Qed.

Lemma reaped_inv m w s c pid p :
  inv m w s c -> w !! pid = Some p -> at_ p = Zombie -> w !! parent p = None ->
  inv m (delete pid w) s c.
Proof.
  intros [D Hd Hm Ho Hp Hs Hf] E K Hpar. destruct D as (? & ? & ? & ? & ? & ?).
  assert (forall x, x <> pid -> delete pid w !! x = w !! x) as Hx by (intros; by apply lookup_delete_ne).
  assert (forall x, is_Some (delete pid w !! x) -> is_Some (w !! x)) as Hsub.
  { intros x [q Hq]. apply lookup_delete_Some in Hq as [_ Hq]. by eauto. }
  destruct (Hd pid) as [-> | [-> | -> ]]; [by eauto| | |].
  - split; rewrite ?lookup_delete_eq, ?(Hx s), ?(Hx c) by done; auto; done.
  - rewrite E in Hs. simpl in Hs. rewrite K in Hs.
    split; rewrite ?lookup_delete_eq, ?(Hx m), ?(Hx c) by done; auto; done.
  - exfalso. rewrite E in Hs. destruct (w !! s) as [q|] eqn:Es; [|done]. simpl in Hs.
    destruct (at_ q); try done. destruct Hs as (_ & [[= ->] | [= ->] ]); simpl in *; congruence.
Qed.

Lemma server_step_inv m w s c w' : inv m w s c -> step w w' -> exists m' s' c', inv m' w' s' c'.
Proof.
  intros HI Hs. destruct Hs as [w pid p i child E K Hi Hu|w pid p i E K Hi|w pid p i E K Hi|w pid p E K
    |w pid p child E K Hu|w pid p E K|w pid p E K|w pid p t child q E K Eq Hq Kq|w pid p t E K
    |w pid p E K Hpar].
  1-4: assert (pid = m) as -> by (eapply inv_main_is; eauto).
  1-2: assert (i = 0) as -> by (pose proof (inv_main _ _ _ _ HI) as Hm; rewrite E in Hm;
         destruct Hm as [_ Hm]; rewrite K in Hm; unfold PROCS in Hi; lia).
  5-6: assert (pid = s) as -> by (eapply inv_server_is; eauto).
  - destruct (main_fork_inv _ _ _ _ _ _ HI E K Hu) as (s' & c' & ?). by exists m, s', c'.
  - exists m, s, c. by eapply main_goto_inv; [done|done|left].
  - exists m, s, c. by eapply main_goto_inv; [done|done|right].
  - exists m, s, c. by eapply main_exit_inv.
  - destruct (server_fork_inv _ _ _ _ _ _ HI E K Hu) as (m' & ?). by exists m', s, child.
  - exists m, s, c. by eapply server_exit_inv.
  - assert (pid = c) as -> by (eapply inv_worker_is; eauto).
    exists m, s, c. by eapply worker_exit_inv.
  - assert (pid = s) as -> by (eapply inv_server_is; eauto).
    destruct (waitpid_inv _ _ _ _ _ _ _ _ HI E K Eq Hq Kq) as (-> & ?).
    rewrite Z.eqb_refl. by exists m, s, c.
  - by exists m, s, c.
  - exists m, s, c. by eapply reaped_inv.
Qed.

Lemma server_reachable m sh w :
  1 < m -> sh <> m -> rtc step (started m sh) w -> exists m' s c, inv m' w s c.
Proof.
  intros Hm Hsh Hw.
  refine (rtc_ind_r (fun w => exists m' s c, inv m' w s c) (started m sh) _ _ w Hw).
  - destruct (started_inv m sh Hm Hsh) as (s & c & ?). by exists m, s, c.
  - intros w1 w2 _ Hst (m' & s & c & HI). by eapply server_step_inv.
Qed.

Lemma inv_size m w s c : inv m w s c -> (size w <= 3)%nat.
Proof.
  intros HI. rewrite <- size_dom. transitivity (size ({[m; s; c]} : gset Z)).
  - apply subseteq_size. intros x Hx%elem_of_dom. destruct (inv_dom _ _ _ _ HI x Hx); set_solver.
  - rewrite !size_union_alt, size_singleton.
    pose proof (subseteq_size ({[s]} ∖ {[m]} : gset Z) {[s]}).
    pose proof (subseteq_size ({[c]} ∖ ({[m]} ∪ {[s]}) : gset Z) {[c]}).
    rewrite !size_singleton in *. assert (size ({[s]} ∖ {[m]} : gset Z) <= 1)%nat by set_solver.
    assert (size ({[c]} ∖ ({[m]} ∪ {[s]}) : gset Z) <= 1)%nat by set_solver. lia.
Qed.

(** C10.  The program never has more than three processes, and it waits for what
    it started: a server that waits has exactly one child, the one it waits
    for, so that the first waitpid that succeeds ends the wait; a server that
    is about to fork has none, so no dead worker is left behind. *)
Theorem kvm_server_waits m sh w :
  1 < m -> sh <> m -> rtc step (started m sh) w ->
  (size w <= 3)%nat /\
  forall s p, w !! s = Some p ->
    (forall t, at_ p = SWait t ->
       exists k, w !! t = Some (Proc s k) /\ (k = Worker \/ k = Zombie) /\
         forall x q, w !! x = Some q -> parent q = s -> x = t) /\
    (at_ p = SFork -> forall x q, w !! x = Some q -> parent q <> s).
Proof.
  intros Hm Hsh Hw. destruct (server_reachable m sh w Hm Hsh Hw) as (m' & s & c & HI).
  split; [by eapply inv_size|]. intros s' p E.
  assert (forall x q, s' = s -> w !! x = Some q -> parent q = s -> x = c) as Hchild.
  { intros x q _ Ex Hq. destruct HI as [D Hd _ Ho Hp _ _].
    destruct (Hd x) as [-> | [-> | -> ]]; [by eauto|by destruct (Ho q Ex)|by destruct (Hp q Ex)|done]. }
  split.
  - intros t K. assert (s' = s) as -> by (eapply inv_server_is; eauto).
    pose proof (inv_server _ _ _ _ HI) as Hs. rewrite E in Hs. simpl in Hs. rewrite K in Hs.
    destruct Hs as (-> & Hs). destruct Hs as [-> | -> ]; eexists; split_and!; eauto.
  - intros K x q Ex Hq. assert (s' = s) as -> by (eapply inv_server_is; eauto).
    pose proof (inv_server _ _ _ _ HI) as Hs. rewrite E in Hs. simpl in Hs. rewrite K in Hs.
    rewrite (Hchild x q eq_refl Ex Hq) in Ex. congruence.
Qed.

(** ** Rounds of the server *)

(** The tables between the fork of a worker and the end of the wait for it. *)
Definition forked (s child : Z) (w : world) : world :=
  spawn s child Worker (goto s (SWait child) w).

Lemma forked_exit s child w :
  s <> child -> unused w child ->
  goto s SFork (delete child (do_exit child (forked s child w))) = goto s SFork w.
Proof.
  intros Hs (_ & Hn & Hu). apply map_eq. intros x. unfold forked.
  destruct (decide (x = child)) as [->|Hx].
  { by rewrite !goto_lookup, !decide_False, lookup_delete_eq by done. }
  rewrite !goto_lookup, lookup_delete_ne, do_exit_lookup, goto_lookup, (decide_False (P := x = child)),
    spawn_lookup, (decide_False (P := x = child)), goto_lookup by done.
  destruct (w !! x) as [p|] eqn:E; [|by repeat case_decide].
  assert ((parent p =? child) = false) as Hp by (apply Z.eqb_neq, (Hu x p E)).
  case_decide; simpl; unfold adopt; simpl; rewrite Hp; done.
Qed.

(** One round of the inner loop is fork, end of the worker, waitpid, and
    leaves the process table as it was: the server can go on for ever without
    collecting processes.  It ends only when fork fails, and then by exit. *)
Theorem kvm_server_round w s p child :
  w !! s = Some p -> at_ p = SFork -> unused w child ->
  step w (forked s child w) /\
  step (forked s child w) (do_exit child (forked s child w)) /\
  step (do_exit child (forked s child w)) w.
Proof.
  intros E K Hu. pose proof Hu as (H1 & Hn & Hpar). assert (s <> child) as Hs by congruence.
  assert (forked s child w !! child = Some (Proc s Worker)) as Ec
    by (unfold forked; by rewrite spawn_lookup, decide_True).
  assert (forked s child w !! s = Some (Proc (parent p) (SWait child))) as Es.
  { unfold forked. by rewrite spawn_lookup, decide_False, goto_lookup, decide_True, E. }
  split; [by eapply server_fork|]. split; [by eapply worker_ends|].
  assert (goto s SFork w = w) as Ew.
  { apply map_eq. intros x. rewrite goto_lookup. case_decide; [|done]. subst. rewrite E. simpl.
    rewrite <- K. by destruct p. }
  rewrite <- Ew at 2. rewrite <- (forked_exit s child w Hs Hu).
  pose proof (waitpid_child (do_exit child (forked s child w)) s (Proc (parent p) (SWait child)) child
    child (Proc s Zombie)) as W. rewrite Z.eqb_refl in W. apply W; try done.
  - rewrite exit_ne; [done|done|]. intros q Eq. rewrite Es in Eq. simplify_eq/=. apply (Hpar s p E).
  - by apply (exit_self _ _ _ Ec).
Qed.

Section examples.
(** main is process 10, started by 5; the server is 11, its worker 12. *)
Definition ex_server : world := {[ 10 := Proc 5 (MLoop 1); 11 := Proc 10 SFork ]}.
Definition ex_waiting : world := forked 11 12 ex_server.

Lemma ex_unused : unused ex_server 12.
Proof.
  split_and!; [done|done|].
  unfold ex_server. repeat (apply map_Forall_insert_2; [done|]). apply map_Forall_empty.
Defined.

Lemma ex_server_reach : rtc step (started 10 5) ex_waiting.
Proof.
  eapply rtc_l.
  { apply (main_fork (started 10 5) 10 (Proc 5 (MLoop 0)) 0 11); [done|done|done|].
    split_and!; [done|done|]. by apply map_Forall_singleton. }
  replace (spawn _ _ _ _) with ex_server by (vm_compute; reflexivity).
  eapply rtc_l; [|apply rtc_refl]. by apply (server_fork ex_server 11 (Proc 10 SFork) 12), ex_unused.
Defined.

Lemma kvm_server_waits_witness :
  (size ex_waiting <= 3)%nat /\
  forall s p, ex_waiting !! s = Some p ->
    (forall t, at_ p = SWait t ->
       exists k, ex_waiting !! t = Some (Proc s k) /\ (k = Worker \/ k = Zombie) /\
         forall x q, ex_waiting !! x = Some q -> parent q = s -> x = t) /\
    (at_ p = SFork -> forall x q, ex_waiting !! x = Some q -> parent q <> s).
Proof. apply (kvm_server_waits 10 5 ex_waiting); [lia|lia|exact ex_server_reach]. Defined.

Lemma kvm_server_round_witness :
  step ex_server ex_waiting /\ step ex_waiting (do_exit 12 ex_waiting) /\
  step (do_exit 12 ex_waiting) ex_server.
Proof.
  apply (kvm_server_round ex_server 11 (Proc 10 SFork) 12); [reflexivity|reflexivity|exact ex_unused].
Defined.
End examples.
