(* ===== verification/Kvm2.v ===== *)
(** * kvm-test-lab/kvm-test-2.c

    A program that runs 69 bytes of code in a virtual machine with one page of
    memory while a second thread switches a capability on.  The two threads
    are lists of actions interleaved at every action; every system call of the
    program may fail, and the program looks at none of the results.  What the
    ioctls mean is not code of the program: [protocol] is the specification
    they are checked against, the order and the descriptors the KVM interface
    asks for and what is in force when the machine is run. *)

From S2P Require Import Prelude CMem.

Definition KVM_CAP_HYPERV_SYNIC : Z := 123.
Definition mem_size : Z := 0x1000.

(** The argument of memcpy. *)
Definition code : list Z :=
  [0x1a; 0xb5; 0x00; 0x04; 0x65; 0x26; 0x64; 0x26; 0xf0; 0x82; 0xaa; 0x00;
   0x02; 0x00; 0x3e; 0x75; 0x64; 0xf3; 0xf3; 0xf0; 0x18; 0x35; 0x66; 0xb9;
   0x99; 0x00; 0x00; 0x40; 0x46; 0xb8; 0xc0; 0x40; 0x00; 0x00; 0x66; 0xba;
   0x00; 0x00; 0x00; 0x00; 0x0f; 0x30; 0x0f; 0xfc; 0xda; 0xdb; 0xca; 0x36;
   0x26; 0x3e; 0x67; 0x3e; 0x67; 0xcf; 0x66; 0xb9; 0x4a; 0x0a; 0x00; 0x00;
   0x0f; 0x32; 0x2e; 0x26; 0x65; 0x0f; 0x0f; 0x01; 0xa0].

(** The fields the program sets and, in [rest], the others.  The general
    registers of [regs] are rax to r15 in the order of the structure. *)
Record sregs := Sregs { cr0 : Z; cr4 : Z; efer : Z; cs_selector : Z; cs_base : Z; rest : list Z }.
Record regs := Regs { general : list Z; rip : Z; rflags : Z }.

(** The ioctls with what they hand over. *)
Inductive kvm_call :=
  | KVM_CREATE_VM
  | KVM_SET_USER_MEMORY_REGION (slot flags guest_phys_addr memory_size : Z) (userspace_addr : ptr)
  | KVM_CREATE_VCPU
  | KVM_GET_SREGS
  | KVM_SET_SREGS (s : sregs)
  | KVM_SET_REGS (r : regs)
  | KVM_CREATE_IRQCHIP
  | KVM_ENABLE_CAP (flags cap : Z)
  | KVM_RUN.

(** ** The program *)

(** What the kernel answers in one run: whether mmap gives the page, the
    descriptors that open and the two creating ioctls return (-1 if they fail),
    what [sregs] holds after KVM_GET_SREGS, and whether pthread_create makes
    the thread. *)
Record env := Env {
  mmap_ok : bool; kvmfd : Z; vmfd : Z; cpufd : Z; got : sregs; create_ok : bool
}.

(** The block of mmap, zero-filled; MAP_FAILED points to no block. *)
Definition host_mem (e : env) : ptr := if mmap_ok e then (1, 0) else (-1, 0).
Definition mem0 (e : env) : mem :=
  if mmap_ok e then {[ 1 := Block mem_size (fun _ => 0) ]} else ∅.

Definition main_sregs (e : env) : sregs := Sregs 0 0 0 0 0 (rest (got e)).

(** memset, then rflags. *)
Definition main_regs : regs := Regs (replicate 16 0) 0 2.

Inductive action :=
  | Ioctl (fd : Z) (c : kvm_call)
  | Memcpy (p : ptr) (l : list Z)
  | PthreadCreate
  | PthreadJoin.

(** main up to pthread_create. *)
Definition setup (e : env) : list action :=
  [Ioctl (kvmfd e) KVM_CREATE_VM;
   Memcpy (host_mem e) code;
   Ioctl (vmfd e) (KVM_SET_USER_MEMORY_REGION 0 0 0 mem_size (host_mem e));
   Ioctl (vmfd e) KVM_CREATE_VCPU;
   Ioctl (cpufd e) KVM_GET_SREGS;
   Ioctl (cpufd e) (KVM_SET_SREGS (main_sregs e));
   Ioctl (cpufd e) (KVM_SET_REGS main_regs);
   Ioctl (vmfd e) KVM_CREATE_IRQCHIP].

Definition main_tail (e : env) : list action :=
  [PthreadCreate; Ioctl (cpufd e) KVM_RUN; PthreadJoin].

(** The thread; [arg] is the descriptor of the vCPU. *)
Definition thr (arg : Z) : list action := [Ioctl arg (KVM_ENABLE_CAP 0 KVM_CAP_HYPERV_SYNIC)].

(** [Undefined]: main joins a thread that was never made, through an
    uninitialised handle. *)
Inductive status := Running | Exited | Crashed | Undefined.

(** What main and the thread have left ([None]: there is no thread) and the
    ioctls made, newest last. *)
Record world := World {
  st : status; memory : mem; main_left : list action; thr_left : option (list action);
  calls : list (Z * kvm_call)
}.

Definition start (e : env) : world := World Running (mem0 e) (setup e ++ main_tail e) None [].

Definition main_step (e : env) (w : world) : option world :=
  match st w, main_left w with
  | Running, Ioctl fd c :: l => Some (World Running (memory w) l (thr_left w) (calls w ++ [(fd, c)]))
  | Running, Memcpy p s :: l =>
      match store_list (memory w) p s with
      | Some m => Some (World Running m l (thr_left w) (calls w))
      | None => Some (World Crashed (memory w) [] (thr_left w) (calls w))
      end
  | Running, PthreadCreate :: l =>
      Some (World Running (memory w) l (if create_ok e then Some (thr (cpufd e)) else None) (calls w))
  | Running, PthreadJoin :: l =>
      match thr_left w with
      | None => Some (World Undefined (memory w) l None (calls w))
      | Some [] => Some (World Exited (memory w) l (Some []) (calls w))
      | Some _ => None
      end
  | _, _ => None
  end.

Definition thr_step (w : world) : option world :=
  match st w, thr_left w with
  | Running, Some (Ioctl fd c :: l) =>
      Some (World Running (memory w) (main_left w) (Some l) (calls w ++ [(fd, c)]))
  | _, _ => None
  end.

Inductive step (e : env) : world -> world -> Prop :=
  | s_main w w' : main_step e w = Some w' -> step e w w'
  | s_thr w w' : thr_step w = Some w' -> step e w w'.

(** ** The protocol *)

Record region := Region { gpa : Z; size : Z; userspace : ptr }.

(** A start of the machine: what is in force then. *)
Record guest := Guest { g_sregs : sregs; g_regs : regs; g_region : region; g_synic : bool }.

Record machine := Machine {
  m_vm : option Z; m_region : option region; m_cpu : option Z; m_read : bool; m_sregs : option sregs;
  m_regs : option regs; m_irqchip : bool; m_synic : bool; m_runs : list guest
}.

Definition no_machine : machine := Machine None None None false None None false false [].

(** One ioctl; [None] when it comes too early, on the wrong descriptor or
    hands over registers that were never read. *)
Definition protocol (e : env) (k : machine) (fc : Z * kvm_call) : option machine :=
  let '(Machine vm rg cpu rd sr re ic sy runs) := k in
  let '(fd, c) := fc in
  match c with
  | KVM_CREATE_VM =>
      if bool_decide (fd = kvmfd e /\ vm = None)
      then Some (Machine (Some (vmfd e)) rg cpu rd sr re ic sy runs) else None
  | KVM_SET_USER_MEMORY_REGION _ _ a n p =>
      if bool_decide (vm = Some fd) then Some (Machine vm (Some (Region a n p)) cpu rd sr re ic sy runs)
      else None
  | KVM_CREATE_VCPU =>
      if bool_decide (vm = Some fd /\ cpu = None)
      then Some (Machine vm rg (Some (cpufd e)) rd sr re ic sy runs) else None
  | KVM_GET_SREGS =>
      if bool_decide (cpu = Some fd) then Some (Machine vm rg cpu true sr re ic sy runs) else None
  | KVM_SET_SREGS s =>
      if bool_decide (cpu = Some fd /\ rd = true /\ rest s = rest (got e))
      then Some (Machine vm rg cpu rd (Some s) re ic sy runs) else None
  | KVM_SET_REGS r =>
      if bool_decide (cpu = Some fd) then Some (Machine vm rg cpu rd sr (Some r) ic sy runs) else None
  | KVM_CREATE_IRQCHIP =>
      if bool_decide (vm = Some fd) then Some (Machine vm rg cpu rd sr re true sy runs) else None
  | KVM_ENABLE_CAP flags cap =>
      if bool_decide (cpu = Some fd /\ ic = true /\ flags = 0 /\ cap = KVM_CAP_HYPERV_SYNIC)
      then Some (Machine vm rg cpu rd sr re ic true runs) else None
  | KVM_RUN =>
      match rg, sr, re with
      | Some g, Some s, Some r =>
          if bool_decide (cpu = Some fd) then Some (Machine vm rg cpu rd sr re ic sy (Guest s r g sy :: runs))
          else None
      | _, _, _ => None
      end
  end.

Fixpoint protocol_run (e : env) (k : machine) (l : list (Z * kvm_call)) : option machine :=
  match l with
  | [] => Some k
  | fc :: l' => k' ← protocol e k fc; protocol_run e k' l'
  end.

(** The byte of the guest at physical address [a]. *)
Definition guest_byte (m : mem) (r : region) (a : Z) : option Z :=
  if bool_decide (gpa r <= a < gpa r + size r)
  then Some (peek m (userspace r).1 ((userspace r).2 + (a - gpa r))) else None.

(** The machine is started in real mode at the first byte of [code], which
    the rest of the page follows as zeros, with all general registers zero,
    the fixed bit of rflags set and interrupts off. *)
Definition starts_in_code (m : mem) (g : guest) : Prop :=
  Z.testbit (cr0 (g_sregs g)) 0 = false /\
  (forall i, 0 <= i < mem_size ->
     guest_byte m (g_region g) (cs_base (g_sregs g) + rip (g_regs g) + i)
     = Some (nth (Z.to_nat i) code 0)) /\
  Forall (fun r => r = 0) (general (g_regs g)) /\
  Z.testbit (rflags (g_regs g)) 1 = true /\ Z.testbit (rflags (g_regs g)) 9 = false.

(** ** Properties *)

#[local] Arguments nth : simpl never.

(** The page after memcpy. *)
Definition page (m : mem) : Prop :=
  forall i, 0 <= i < mem_size -> peek m 1 i = nth (Z.to_nat i) code 0.

Lemma copied_page e : mmap_ok e = true ->
  exists m, store_list (mem0 e) (host_mem e) code = Some m /\ page m.
Proof.
  unfold mem0, host_mem. intros ->.
  destruct (write_is_Some {[ 1 := Block mem_size (fun _ => 0) ]} (1, 0) 69
    (fun i => nth (Z.to_nat i) code 0)) as [m E]; [done|].
  exists m. split; [exact E|]. intros i Hi. destruct (decide (i < 69)).
  - pose proof (write_inside _ _ _ _ _ i E) as H. simpl in H. rewrite Z.sub_0_r in H. apply H. lia.
  - rewrite (write_frame _ _ _ _ _ 1 i E) by (simpl; lia). symmetry. apply nth_overflow. simpl. lia.
Qed.

(** The machine after the set-up, and when it runs. *)
Definition set_up (e : env) (sy : bool) (runs : list guest) : machine :=
  Machine (Some (vmfd e)) (Some (Region 0 mem_size (host_mem e))) (Some (cpufd e)) true
    (Some (main_sregs e)) (Some main_regs) true sy runs.
Definition guest_of (e : env) (sy : bool) : guest :=
  Guest (main_sregs e) main_regs (Region 0 mem_size (host_mem e)) sy.

Lemma guest_of_starts e m sy : mmap_ok e = true -> page m -> starts_in_code m (guest_of e sy).
Proof.
  intros Hm Hp. split_and!; [done| |by apply (bool_decide_unpack _)|done|done]. intros i Hi.
  unfold guest_byte, guest_of, host_mem; simpl. rewrite Hm. rewrite bool_decide_true by lia.
  simpl. f_equal. replace (0 + (0 + 0 + i - 0)) with i by lia. by apply Hp.
Qed.

Lemma protocol_run_app e k l1 l2 :
  protocol_run e k (l1 ++ l2) = k' ← protocol_run e k l1; protocol_run e k' l2.
Proof.
  revert k. induction l1 as [|fc l IH]; intros k; [done|]. cbn [app protocol_run].
  destruct (protocol e k fc) as [k'|]; [apply IH|done].
Qed.

(** The ioctls among the actions. *)
Fixpoint ioctls (l : list action) : list (Z * kvm_call) :=
  match l with
  | [] => []
  | Ioctl fd c :: l' => (fd, c) :: ioctls l'
  | _ :: l' => ioctls l'
  end.

Lemma setup_protocol e : protocol_run e no_machine (ioctls (setup e)) = Some (set_up e false []).
Proof.
  unfold setup. cbn. by repeat (rewrite bool_decide_true by done; cbn).
Qed.

(** A prefix of calls the protocol accepts is accepted. *)
Lemma protocol_prefix e k l1 l2 k2 :
  protocol_run e k (l1 ++ l2) = Some k2 -> exists k1, protocol_run e k l1 = Some k1.
Proof. rewrite protocol_run_app, bind_Some. intros (k1 & E & _). by exists k1. Qed.

(** The calls of the race that follows the set-up. *)
Definition cap (e : env) : Z * kvm_call := (cpufd e, KVM_ENABLE_CAP 0 KVM_CAP_HYPERV_SYNIC).
Definition run (e : env) : Z * kvm_call := (cpufd e, KVM_RUN).

(** What is left of the two threads when the calls [X] were made after the
    set-up. *)
Definition racing (e : env) (ml : list action) (tl : option (list action)) (X : list (Z * kvm_call)) : Prop :=
  let rj := [Ioctl (cpufd e) KVM_RUN; PthreadJoin] in
  if create_ok e then
    (ml = rj /\ tl = Some (thr (cpufd e)) /\ X = []) \/
    (ml = rj /\ tl = Some [] /\ X = [cap e]) \/
    (ml = [PthreadJoin] /\ tl = Some (thr (cpufd e)) /\ X = [run e]) \/
    (ml = [PthreadJoin] /\ tl = Some [] /\ (X = [cap e; run e] \/ X = [run e; cap e]))
  else (ml = rj /\ tl = None /\ X = []) \/ (ml = [PthreadJoin] /\ tl = None /\ X = [run e]).

(** The states of a run when mmap gave the page. *)
Inductive reached (e : env) : world -> Prop :=
  | r_setup n m : (n <= 8)%nat -> (if Nat.leb n 1 then m = mem0 e else page m) ->
      reached e (World Running m (drop n (setup e) ++ main_tail e) None (ioctls (take n (setup e))))
  | r_race m ml tl X : page m -> racing e ml tl X ->
      reached e (World Running m ml tl (ioctls (setup e) ++ X))
  | r_exit m X : page m -> create_ok e = true -> X = [cap e; run e] \/ X = [run e; cap e] ->
      reached e (World Exited m [] (Some []) (ioctls (setup e) ++ X))
  | r_undefined m : page m -> create_ok e = false ->
      reached e (World Undefined m [] None (ioctls (setup e) ++ [run e])).

Lemma reached_main e w w' : mmap_ok e = true -> main_step e w = Some w' -> reached e w -> reached e w'.
Proof.
  intros Hm E Hw. destruct Hw as [n m Hn Hmem|m ml tl X Hp Hr|m X Hp Hc HX|m Hp Hc]; [| |done|done].
  - destruct (copied_page e Hm) as (mp & Ec & Hpage).
    do 8 (destruct n as [|n];
      [unfold main_step in E; cbn -[store_list host_mem code] in E; simpl in Hmem; subst;
       rewrite ?Ec in E; simplify_eq;
       let go k := (apply (r_setup e k); [lia|by rewrite <- ?Hmem]) in
       first [go 1%nat|go 2%nat|go 3%nat|go 4%nat|go 5%nat|go 6%nat|go 7%nat|go 8%nat]|]).
    destruct n; [|lia]. unfold main_step in E; cbn in E. simplify_eq. simpl in Hmem.
    apply (r_race e m _ _ []); [done|]. unfold racing. destruct (create_ok e); auto.
  - unfold racing in Hr. unfold main_step in E; simpl in E.
    destruct (create_ok e) eqn:Hc; destruct_or!; destruct_and!; simplify_eq/=; rewrite <- ?app_assoc.
    all: try (apply r_race; [done|]; unfold racing; rewrite Hc; by auto 10).
    all: try (by apply r_exit; auto). all: by apply r_undefined.
Qed.

Lemma reached_thr e w w' : thr_step w = Some w' -> reached e w -> reached e w'.
Proof.
  intros E Hw. destruct Hw as [n m Hn Hmem|m ml tl X Hp Hr|m X Hp Hc HX|m Hp Hc]; try done.
  unfold racing in Hr. unfold thr_step in E; simpl in E.
  destruct (create_ok e) eqn:Hc; destruct_or!; destruct_and!; simplify_eq/=; rewrite <- ?app_assoc;
    apply r_race; try done; unfold racing; rewrite Hc; by auto 10.
Qed.

Lemma reached_all e w : mmap_ok e = true -> rtc (step e) (start e) w -> reached e w.
Proof.
  intros Hm Hr. eapply rtc_preserves; [|exact Hr|by apply (r_setup e 0); [lia|]].
  intros a b Hab. destruct Hab; [by apply reached_main|by apply reached_thr].
Qed.

(** What the protocol makes of the calls of a state. *)
Record explained (e : env) (w : world) (k : machine) : Prop := {
  x_calls : protocol_run e no_machine (calls w) = Some k;
  x_page : m_runs k <> [] -> page (memory w);
  x_runs : Forall (fun g => exists sy, g = guest_of e sy) (m_runs k);
  x_end : match st w with
          | Running => True
          | Exited => exists sy, m_runs k = [guest_of e sy] /\ m_synic k = true
          | Undefined => m_runs k = [guest_of e false] /\ m_synic k = false
          | Crashed => False
          end
}.

Lemma race_protocol e X k :
  protocol_run e (set_up e false []) X = Some k ->
  protocol_run e no_machine (ioctls (setup e) ++ X) = Some k.
Proof. intros E. by rewrite protocol_run_app, setup_protocol. Qed.

(** Evaluates the protocol on calls that follow the set-up. *)
Ltac protocol_eval := cbn; repeat (rewrite bool_decide_true by done; cbn).

Lemma reached_explained e w : reached e w -> exists k, explained e w k.
Proof.
  intros Hw. destruct Hw as [n m Hn Hmem|m ml tl X Hp Hr|m X Hp Hc HX|m Hp Hc].
  - do 8 (destruct n as [|n];
      [eexists; split; [protocol_eval; reflexivity|done|by constructor|done]|]).
    destruct n; [|lia]. eexists. split; [apply setup_protocol|done|by constructor|done].
  - unfold racing in Hr.
    destruct (create_ok e); destruct_or!; destruct_and!; destruct_or?; subst;
      (eexists; split; [apply race_protocol; protocol_eval; reflexivity|done| |done]);
      repeat constructor; by eexists.
  - destruct HX as [->| ->];
      (eexists; split; [apply race_protocol; protocol_eval; reflexivity|done| |by eexists]);
      repeat constructor; by eexists.
  - eexists. split; [apply race_protocol; protocol_eval; reflexivity|done| |done].
    repeat constructor. by eexists.
Qed.

(** A run goes on until main ends. *)
Lemma reached_progress e w : mmap_ok e = true -> reached e w -> st w = Running -> exists w', step e w w'.
Proof.
  intros Hm Hw. destruct Hw as [n m Hn Hmem|m ml tl X Hp Hr|m X Hp Hc HX|m Hp Hc]; try done; intros _.
  - destruct (copied_page e Hm) as (mp & Ec & _).
    do 8 (destruct n as [|n];
      [eexists; apply s_main; unfold main_step; cbn -[store_list host_mem code]; simpl in Hmem;
       subst; rewrite ?Ec; reflexivity|]).
    destruct n; [|lia]. eexists. by apply s_main.
  - unfold racing in Hr. destruct (create_ok e); destruct_or!; destruct_and!; destruct_or?; subst;
      first [by eexists; apply s_main|by eexists; apply s_thr].
Qed.

(** The steps left: pthread_create brings the one of the thread. *)
Fixpoint cost (l : list action) : nat :=
  match l with
  | [] => 0
  | PthreadCreate :: l' => 2 + cost l'
  | _ :: l' => 1 + cost l'
  end.
Definition left (w : world) : nat := cost (main_left w) + cost (default [] (thr_left w)).

Lemma step_left e w w' : step e w w' -> (left w' < left w)%nat.
Proof.
  unfold left. destruct 1 as [w w' E|w w' E]; destruct w as [s m ml tl cs];
    unfold main_step, thr_step in E; simpl in *; destruct s; try done.
  - destruct ml as [|[fd c|p l| |] ml]; simplify_eq/=; [lia| | |].
    + destruct (store_list m p l); simplify_eq/=; lia.
    + destruct (create_ok e), tl; simpl; lia.
    + destruct tl as [[|]|]; simplify_eq/=; lia.
  - destruct tl as [[|[fd c|p l| |] tl]|]; simplify_eq/=; lia.
Qed.

Lemma nsteps_left e n w w' : nsteps (step e) n w w' -> (n + left w' <= left w)%nat.
Proof. induction 1 as [|n x y z H _ IH]; [lia|]. apply step_left in H. lia. Qed.

(** Without the page the program dies in memcpy. *)
Lemma no_page e w : mmap_ok e = false -> rtc (step e) (start e) w ->
  w = start e \/
  w = World Running (mem0 e) (tail (setup e) ++ main_tail e) None [(kvmfd e, KVM_CREATE_VM)] \/
  w = World Crashed (mem0 e) [] None [(kvmfd e, KVM_CREATE_VM)].
Proof.
  intros Hm Hr. pattern w. eapply rtc_preserves; [|exact Hr|by left]. intros a b Hab Ha.
  assert (store_list (mem0 e) (host_mem e) code = None) as Hs
    by (unfold mem0, host_mem; by rewrite Hm).
  destruct Ha as [->|[->| ->]]; inversion Hab as [x y E|x y E]; subst; try done;
    unfold main_step in E; cbn -[store_list host_mem code mem0] in E; rewrite ?Hs in E; simplify_eq; auto.
Qed.

(** The capability is switched on before the machine runs, or after. *)
Lemma both_orders e (on : bool) : mmap_ok e = true -> create_ok e = true -> exists w k,
  rtc (step e) (start e) w /\ st w = Exited /\
  protocol_run e no_machine (calls w) = Some k /\ map g_synic (m_runs k) = [on].
Proof.
  intros Hm Hc. destruct (copied_page e Hm) as (mp & Ec & _).
  assert (rtc (step e) (start e) (World Running mp (tail (main_tail e)) (Some (thr (cpufd e))) (ioctls (setup e))))
    as Hs.
  { eapply rtc_l; [by apply s_main|].
    eapply rtc_l; [apply s_main; unfold main_step; cbn -[store_list host_mem code mem0];
      by rewrite Ec|].
    do 6 (eapply rtc_l; [by apply s_main|]). apply rtc_once, s_main.
    unfold main_step; cbn. by rewrite Hc. }
  destruct on; eexists _, _; (split_and!; [etrans; [exact Hs|]| | |]).
  - eapply rtc_l; [by apply s_thr|]. eapply rtc_l; [by apply s_main|]. apply rtc_once. by apply s_main.
  - done.
  - apply (race_protocol e [cap e; run e]). protocol_eval. reflexivity.
  - done.
  - eapply rtc_l; [by apply s_main|]. eapply rtc_l; [by apply s_thr|]. apply rtc_once. by apply s_main.
  - done.
  - apply (race_protocol e [run e; cap e]). protocol_eval. reflexivity.
  - done.
Qed.

