(* ===== verification/Threads.v ===== *)
(** * Kernel threads on a shared counter

    The threads of the sync labs as sequences of steps, interleaved at every
    step.  The locks are the kernel's: any type with the operations of [Lock]
    that obeys [LockSpec], an instance is given.  [disciplined] is a check of a
    thread's code against an annotation of its points, and [safe_reachable]
    shows once for all labs what the check guarantees in every interleaving. *)

From S2P Require Import Prelude.

Inductive mode := Excl | Shared.

#[export] Instance mode_eq_dec : EqDecision mode.
Proof. solve_decision. Defined.

(** ** Locks *)

Class Lock (L : Type) := {
  lock0 : L;
  acquire : mode -> Z -> L -> option L;      (* [None]: the caller waits *)
  release : mode -> Z -> L -> L;
  holds : mode -> Z -> L -> Prop
}.

Class LockSpec (L : Type) `{Lock L} := {
  lock0_free m t : ~ holds m t lock0;
  acquire_free m t l : (forall m' u, ~ holds m' u l) -> is_Some (acquire m t l);
  acquire_excl t l l' : acquire Excl t l = Some l' -> forall m u, ~ holds m u l;
  acquire_shared t l l' : acquire Shared t l = Some l' -> forall u, ~ holds Excl u l;
  acquire_holds m t l l' : acquire m t l = Some l' ->
    forall m' u, holds m' u l' <-> holds m' u l \/ (m' = m /\ u = t);
  release_holds m t l : holds m t l ->
    forall m' u, holds m' u (release m t l) <-> holds m' u l /\ ~ (m' = m /\ u = t)
}.

(** A lock with at most one writer, or any number of readers. *)
Record rwlock := RwLock { writer : option Z; readers : gset Z }.

#[export] Instance rwlock_lock : Lock rwlock := {
  lock0 := RwLock None ∅;
  acquire m t l :=
    match m, writer l with
    | Excl, None => if decide (readers l = ∅) then Some (RwLock (Some t) ∅) else None
    | Shared, None => Some (RwLock None ({[t]} ∪ readers l))
    | _, Some _ => None
    end;
  release m t l :=
    match m with
    | Excl => RwLock None (readers l)
    | Shared => RwLock (writer l) (readers l ∖ {[t]})
    end;
  holds m t l := match m with Excl => writer l = Some t | Shared => t ∈ readers l end
}.

#[export] Instance rwlock_spec : LockSpec rwlock.
Proof.
  split; simpl.
  - intros [] t; set_solver.
  - intros m t [w r] Hno; simpl. destruct w as [x|]; [by destruct (Hno Excl x)|].
    destruct m; [|eauto]. rewrite decide_True; [eauto|].
    apply set_eq. intros u. split; [|set_solver]. intros Hu. by destruct (Hno Shared u).
  - intros t [w r] l'; simpl. destruct w; [done|]. case_decide; [|done].
    intros _ [] u; simpl; set_solver.
  - intros t [w r] l'; simpl. by destruct w.
  - intros m t [w r] l'; simpl. destruct m, w as [x|]; simpl; try done.
    + case_decide as Hr; [|done]. intros [= <-] [] u; simpl in *; [naive_solver|]. subst. set_solver.
    + intros [= <-] [] u; simpl; [naive_solver|]. set_solver.
  - intros [] t [w r]; simpl.
    + intros -> [] u; simpl; naive_solver.
    + intros Ht [] u; simpl; [naive_solver|]. set_solver.
Qed.

(** ** Threads *)

(** One step of thread code.  [counter++] of a plain counter is [Load] and
    [StoreInc]; [CheckStop n] is [while (!kthread_should_stop())], which
    continues at [n] when the thread has been asked to stop. *)
Inductive instr :=
  | CheckStop (n : nat) | Acquire (m : mode) | Release (m : mode)
  | Load | StoreInc | Print | AtomicInc | Msleep | Goto (n : nat)
  | BrCounter (v : Z) (n : nat) | Complete | WaitForCompletion | DoExit.

#[export] Instance instr_eq_dec : EqDecision instr.
Proof. solve_decision. Defined.

Record thread := Thread { code : list instr; pc : nat; reg : Z; stop : bool; dead : bool }.

(** [incs] counts the increments finished and [log] is what was printed, newest
    first, with the number of increments finished then. *)
Record world (L : Type) := World {
  counter : Z; lk : L; completed : bool; incs : Z; log : list (Z * Z); thr : gmap Z thread
}.
Arguments World {L} counter lk completed incs log thr.
Arguments counter {L} w.
Arguments lk {L} w.
Arguments completed {L} w.
Arguments incs {L} w.
Arguments log {L} w.
Arguments thr {L} w.

Section semantics.
Context {L : Type} `{Lock L}.
Implicit Types (w : world L) (th : thread).

Definition goto (n : nat) th : thread := Thread (code th) n (reg th) (stop th) (dead th).

Definition with_thread (t : Z) th w : world L :=
  World (counter w) (lk w) (completed w) (incs w) (log w) (<[t := th]> (thr w)).

(** Thread [t] takes its next step; [None] when it is dead, waits, or runs off
    its code. *)
Definition exec (t : Z) w : option (world L) :=
  th ← thr w !! t;
  i ← code th !! pc th;
  if dead th then None
  else
    let next := goto (S (pc th)) th in
    match i with
    | CheckStop n => Some (with_thread t (if stop th then goto n th else next) w)
    | Acquire m =>
        l ← acquire m t (lk w);
        Some (World (counter w) l (completed w) (incs w) (log w) (<[t := next]> (thr w)))
    | Release m =>
        Some (World (counter w) (release m t (lk w)) (completed w) (incs w) (log w)
          (<[t := next]> (thr w)))
    | Load =>
        Some (with_thread t (Thread (code th) (S (pc th)) (counter w) (stop th) (dead th)) w)
    | StoreInc =>
        Some (World (u32 (reg th + 1)) (lk w) (completed w) (incs w + 1) (log w)
          (<[t := next]> (thr w)))
    | Print =>
        Some (World (counter w) (lk w) (completed w) (incs w) ((counter w, incs w) :: log w)
          (<[t := next]> (thr w)))
    | AtomicInc =>
        Some (World (s32 (counter w + 1)) (lk w) (completed w) (incs w + 1) (log w)
          (<[t := next]> (thr w)))
    | Msleep => Some (with_thread t next w)
    | Goto n => Some (with_thread t (goto n th) w)
    | BrCounter v n =>
        Some (with_thread t (if counter w =? v then goto n th else next) w)
    | Complete =>
        Some (World (counter w) (lk w) true (incs w) (log w) (<[t := next]> (thr w)))
    | WaitForCompletion => if completed w then Some (with_thread t next w) else None
    | DoExit => Some (with_thread t (Thread (code th) (pc th) (reg th) (stop th) true) w)
    end.

(** kthread_stop asks the thread to stop (and then waits for it). *)
Definition request_stop (t : Z) w : world L :=
  World (counter w) (lk w) (completed w) (incs w) (log w)
    (alter (fun th => Thread (code th) (pc th) (reg th) true (dead th)) t (thr w)).

Inductive step : world L -> world L -> Prop :=
  | step_exec t w w' : exec t w = Some w' -> step w w'
  | step_stop t w : step w (request_stop t w).

(** The threads of a module, freshly started. *)
Definition started (code : list instr) : thread := Thread code 0 0 false false.
Definition start (ts : gmap Z (list instr)) : world L :=
  World 0 lock0 false 0 [] (started <$> ts).

(** ** The lock discipline *)

(** What is known at a point of the code: the lock held, whether the counter
    was loaded under it, and whether the thread is stopping. *)
Record point := Point { hold : option mode; loaded : bool; stopping : bool }.

#[export] Instance point_eq_dec : EqDecision point.
Proof. solve_decision. Defined.

(** The points an instruction leads to, with what is known there; [None] if
    the instruction must not run at a point like [a]. *)
Definition after (a : point) (k : nat) (i : instr) : option (list (nat * point)) :=
  match i with
  | CheckStop n =>
      if decide (a = Point None false false)
      then Some [(S k, a); (n, Point None false true)] else None
  | Acquire m =>
      if decide (a = Point None false false) then Some [(S k, Point (Some m) false false)] else None
  | Release m =>
      if decide (a = Point (Some m) false false) then Some [(S k, Point None false false)] else None
  | Load =>
      if decide (a = Point (Some Excl) false false)
      then Some [(S k, Point (Some Excl) true false)] else None
  | StoreInc =>
      if decide (a = Point (Some Excl) true false)
      then Some [(S k, Point (Some Excl) false false)] else None
  | Print => match hold a with Some _ => Some [(S k, a)] | None => None end
  | Msleep => if decide (a = Point None false false) then Some [(S k, a)] else None
  | Goto n => Some [(n, a)]
  | DoExit => if decide (a = Point None false true) then Some [] else None
  | _ => None
  end.

Definition check_at (ann : list point) (k : nat) (i : instr) : bool :=
  match ann !! k with
  | Some a =>
      match after a k i with
      | Some l => forallb (fun e => bool_decide (ann !! e.1 = Some e.2)) l
      | None => false
      end
  | None => false
  end.

Definition disciplined (p : list instr) (ann : list point) : bool :=
  bool_decide (ann !! O = Some (Point None false false)) &&
  forallb (fun k => match p !! k with Some i => check_at ann k i | None => false end)
    (seq 0 (length p)).

(** The annotation of code that is one loop followed by its exit. *)
Fixpoint infer (a : point) (p : list instr) : list point :=
  match p with
  | [] => []
  | i :: p' =>
      a :: infer (match i with
                  | Acquire m => Point (Some m) false false
                  | Release _ => Point None false false
                  | Load => Point (Some Excl) true false
                  | StoreInc => Point (Some Excl) false false
                  | Goto _ => Point None false true
                  | _ => a
                  end) p'
  end.

Definition points (p : list instr) : list point := infer (Point None false false) p.

Lemma points_length p : length (points p) = length p.
Proof.
  unfold points. generalize (Point None false false). induction p as [|i p IH]; intros a; simpl; auto.
Qed.

(** The lock a thread holds at its point of the code. *)
Definition critical (th : thread) : option mode := a ← points (code th) !! pc th; hold a.

(** Thread [t] is alive and its next instruction is [i]. *)
Definition at_instr w (t : Z) (i : instr) : Prop :=
  exists th, thr w !! t = Some th /\ dead th = false /\ code th !! pc th = Some i.

(** What the code of a lab must have done with the lock when it comes to [i]:
    the counter is touched under the lock, exclusively to change it; only a
    lock that is held is released; nobody takes the lock again, sleeps, asks
    whether to stop or exits with the lock held. *)
Definition lock_use (t : Z) (l : L) (i : instr) : Prop :=
  match i with
  | Load | StoreInc => holds Excl t l
  | Print => exists m, holds m t l
  | Release m => holds m t l
  | CheckStop _ | Acquire _ | Msleep | DoExit => forall m, ~ holds m t l
  | _ => True
  end.

Definition touches (i : instr) : bool :=
  match i with Load | StoreInc | Print => true | _ => false end.

(** Two threads are about to touch the counter, one of them to change it. *)
Definition race w : Prop :=
  exists t u i, t <> u /\ at_instr w t StoreInc /\ at_instr w u i /\ touches i = true.

(** ** What the discipline guarantees *)

Context `{!LockSpec L} (ann_of : list instr -> list point).

Definition thread_ok w (t : Z) th : Prop :=
  disciplined (code th) (ann_of (code th)) = true /\
  exists a, ann_of (code th) !! pc th = Some a /\
    (forall m, holds m t (lk w) <-> hold a = Some m) /\
    (loaded a = true -> hold a = Some Excl /\ reg th = counter w) /\
    (stopping a = true -> stop th = true) /\ (dead th = true -> stop th = true).

Record safe w : Prop := {
  safe_counter : counter w = u32 (incs w);
  safe_incs : 0 <= incs w;
  safe_log : Forall (fun e => e.1 = u32 e.2 /\ 0 <= e.2 <= incs w) (log w);
  safe_excl t m u : holds Excl t (lk w) -> holds m u (lk w) -> m = Excl /\ u = t;
  safe_threads : map_Forall (thread_ok w) (thr w)
}.

Lemma disciplined_at p ann k i a :
  disciplined p ann = true -> p !! k = Some i -> ann !! k = Some a ->
  exists l, after a k i = Some l /\ Forall (fun e => ann !! e.1 = Some e.2) l.
Proof.
  unfold disciplined. intros [_ Hall]%andb_true_iff Hi Ha. rewrite forallb_forall in Hall.
  specialize (Hall k). rewrite Hi in Hall. unfold check_at in Hall. rewrite Ha in Hall.
  destruct (after a k i) as [l|]; [exists l; split; [done|]|].
  - apply Forall_forall. intros e He. rewrite forallb_forall in Hall.
    assert (In k (seq 0 (length p))) as Hk by (apply in_seq; apply lookup_lt_Some in Hi; lia).
    specialize (Hall Hk e). rewrite bool_decide_eq_true in Hall. apply Hall. by apply list_elem_of_In.
  - discriminate Hall. apply in_seq. apply lookup_lt_Some in Hi. lia.
Qed.

(** A step of thread [t] that leaves the locks of the other threads alone, and
    the counter too unless [t] holds the lock exclusively. *)
Lemma safe_update w w' t th th' :
  safe w -> thr w !! t = Some th -> thr w' = <[t := th']> (thr w) ->
  (forall m u, u <> t -> holds m u (lk w') <-> holds m u (lk w)) ->
  counter w' = counter w \/ holds Excl t (lk w) ->
  counter w' = u32 (incs w') -> incs w <= incs w' ->
  (log w' = log w \/ log w' = (counter w', incs w') :: log w) ->
  (forall t m u, holds Excl t (lk w') -> holds m u (lk w') -> m = Excl /\ u = t) ->
  thread_ok w' t th' -> safe w'.
Proof.
  intros [Hc Hi Hl Hx Ht] Et Ew Hh Hcnt Hc' Hinc Hlog Hx' Hth. split; [done|lia| |done|].
  - assert (Forall (fun e => e.1 = u32 e.2 /\ 0 <= e.2 <= incs w') (log w)) as Hl'
      by (eapply Forall_impl; [exact Hl|]; intros ? [? ?]; split; [done|lia]).
    destruct Hlog as [-> | ->]; [done|]. constructor; [|done]. simpl. split; [done|lia].
  - rewrite Ew. intros u thu. rewrite lookup_insert_Some. intros [[<- <-]|[Hne Eu]]; [done|].
    destruct (Ht u thu Eu) as (Hd & a & Ea & Hhold & Hload & Hstop). split; [done|].
    exists a. split; [done|]. split; [intros m; by rewrite Hh by done|]. split; [|done].
    intros Hld. destruct (Hload Hld) as [Hex Hreg]. split; [done|]. rewrite Hreg.
    destruct Hcnt as [-> |Hm]; [done|]. exfalso. apply Hne. symmetry.
    apply (Hx t Excl u Hm). by apply Hhold.
Qed.

Lemma excl_acquire w m t l :
  safe w -> acquire m t (lk w) = Some l ->
  forall t' m' u, holds Excl t' l -> holds m' u l -> m' = Excl /\ u = t'.
Proof.
  intros Hs Ha t' m' u. rewrite !(acquire_holds _ _ _ _ Ha).
  destruct m.
  - pose proof (acquire_excl _ _ _ Ha) as Hno. intros [?|[_ ->]] [?|[-> ->]]; naive_solver.
  - pose proof (acquire_shared _ _ _ Ha) as Hno. intros [?|[? _]]; [exfalso; by eapply Hno|done].
Qed.
(** A step that only moves thread [t], to a point with the same lock. *)
Lemma safe_move w t th th' lg :
  safe w -> thr w !! t = Some th ->
  lg = log w \/ lg = (counter w, incs w) :: log w -> thread_ok w t th' ->
  safe (World (counter w) (lk w) (completed w) (incs w) lg (<[t := th']> (thr w))).
Proof.
  intros Hs Et Hlg Hok. eapply (safe_update w _ t th th'); try done; simpl; auto; try apply Hs; lia.
Qed.

(** A step that changes the lock of thread [t]. *)
Lemma safe_lock w t th th' l :
  safe w -> thr w !! t = Some th ->
  (forall m u, u <> t -> holds m u l <-> holds m u (lk w)) ->
  (forall t m u, holds Excl t l -> holds m u l -> m = Excl /\ u = t) ->
  thread_ok (World (counter w) l (completed w) (incs w) (log w) (<[t := th']> (thr w))) t th' ->
  safe (World (counter w) l (completed w) (incs w) (log w) (<[t := th']> (thr w))).
Proof.
  intros Hs Et Hh Hx Hok. eapply (safe_update w _ t th th'); try done; simpl; auto; try apply Hs; lia.
Qed.

Lemma exec_safe t w w' : safe w -> exec t w = Some w' -> safe w'.
Proof.
  intros Hs E. unfold exec in E. apply bind_Some in E as (th & Et & E).
  apply bind_Some in E as (i & Ei & E). destruct (dead th) eqn:Hdead; [done|].
  destruct (safe_threads _ Hs t th Et) as (Hd & a & Ea & Hhold & Hload & Hstop & Hds).
  destruct (disciplined_at _ _ _ _ _ Hd Ei Ea) as (l & El & Hl).
  destruct i as [n|m|m| | | | | |n|v n| | |]; simpl in El; try done;
    try (case_decide as Hpt; [|done]); simplify_eq/=;
    repeat match goal with H : Forall _ (_ :: _) |- _ => apply Forall_cons in H as [? H] end;
    simpl in *.
  - apply (safe_move w t th); auto. split; [by destruct (stop th)|].
    destruct (stop th) eqn:Est; simpl; eauto 10.
  - apply bind_Some in E as (l & El & [= <-]). apply (safe_lock w t th); auto.
    + intros m' u Hu. rewrite (acquire_holds _ _ _ _ El). naive_solver.
    + by eapply excl_acquire.
    + split; [done|]. eexists. split; [done|]. simpl. split_and!; try done.
      intros m'. rewrite (acquire_holds _ _ _ _ El), Hhold. naive_solver.
  - assert (holds m t (lk w)) as Hm by by apply Hhold. apply (safe_lock w t th); auto.
    + intros m' u Hu. rewrite release_holds by done. naive_solver.
    + intros t' m' u. rewrite !release_holds by done. intros [H1 _] [H2 _]. by eapply safe_excl.
    + split; [done|]. eexists. split; [done|]. simpl. split_and!; try done.
      intros m'. rewrite release_holds by done. rewrite Hhold. naive_solver.
  - apply (safe_move w t th); auto. split; [done|]. eexists. split; [done|]. simpl. auto.
  - assert (holds Excl t (lk w)) as Hm by by apply Hhold.
    destruct (Hload eq_refl) as [_ Hreg].
    eapply (safe_update w _ t th); try done; simpl; auto; try apply Hs; try lia.
    + rewrite Hreg, (safe_counter _ Hs). unfold u32, wrap. apply Zplus_mod_idemp_l.
    + split; [done|]. eexists. split; [done|]. simpl. by split_and!.
  - destruct (hold a) eqn:Eh; [|done]. simplify_eq. apply Forall_cons in Hl as [Hl _].
    apply (safe_move w t th); auto. split; [done|]. exists a. simpl. rewrite Eh. auto.
  - apply (safe_move w t th); auto. split; [done|]. eexists. split; [done|]. simpl. auto.
  - apply (safe_move w t th); auto. split; [done|]. exists a. simpl. auto.
  - apply (safe_move w t th); auto. split; [done|]. eexists. split; [done|]. simpl. auto.
Qed.

(** Every live thread has an instruction to run, and has used the lock as the
    code must at it. *)
Lemma safe_at w t th :
  safe w -> thr w !! t = Some th -> length (ann_of (code th)) = length (code th) ->
  exists i, code th !! pc th = Some i /\ lock_use t (lk w) i /\
    match i with AtomicInc | BrCounter _ _ | Complete | WaitForCompletion => False | _ => True end.
Proof.
  intros Hs Et Hlen. destruct (safe_threads _ Hs t th Et) as (Hd & a & Ea & Hhold & _).
  destruct (lookup_lt_is_Some_2 (code th) (pc th)) as [i Ei].
  { rewrite <- Hlen. by eapply lookup_lt_Some. }
  exists i. split; [done|]. destruct (disciplined_at _ _ _ _ _ Hd Ei Ea) as (l & El & _).
  destruct i; simpl in El; try done; try (case_decide as Hpt; [rewrite Hpt in Hhold|done]); simpl in *;
    (split; [|done]); try done; try (by apply Hhold); try (by intros ? ?%Hhold).
  destruct (hold a) as [m|] eqn:Eh; [|done]. exists m. by apply Hhold.
Qed.

Lemma safe_race_free w :
  safe w -> map_Forall (fun _ th => length (ann_of (code th)) = length (code th)) (thr w) -> ~ race w.
Proof.
  intros Hs Hlen (t & u & i & Hne & (th & Et & _ & Ei) & (thu & Eu & _ & Eui) & Hi).
  destruct (safe_at w t th Hs Et (Hlen t th Et)) as (j & Ej & Ht & _).
  destruct (safe_at w u thu Hs Eu (Hlen u thu Eu)) as (k & Ek & Hu & _). simplify_eq.
  assert (exists m, holds m u (lk w)) as [m Hm] by (destruct i; try done; eauto).
  apply Hne. symmetry. by apply (safe_excl _ Hs t m u).
Qed.

(** A live thread that cannot go on waits for a lock that is held. *)
Lemma safe_waits w t th :
  safe w -> thr w !! t = Some th -> length (ann_of (code th)) = length (code th) ->
  dead th = false -> exec t w = None ->
  exists m, at_instr w t (Acquire m) /\ ~ (forall m' u, ~ holds m' u (lk w)).
Proof.
  intros Hs Et Hlen Hdead E. destruct (safe_at w t th Hs Et Hlen) as (i & Ei & _ & Hi).
  unfold exec in E. rewrite Et in E; simpl in E. rewrite Ei in E; simpl in E. rewrite Hdead in E.
  destruct i; simpl in E; try done. exists m. split; [by exists th|]. intros Hfree.
  destruct (acquire_free m t (lk w) Hfree) as [l El]. by rewrite El in E.
Qed.

Lemma stop_safe t w : safe w -> safe (request_stop t w).
Proof.
  intros Hs. split; simpl; try apply Hs. intros u thu. rewrite lookup_alter_Some.
  intros [(<- & th & Et & ->)|[Hne Eu]]; [|by apply Hs in Eu].
  destruct (safe_threads _ Hs t th Et) as (Hd & a & Ea & Hhold & Hload & Hstop & Hds).
  split; [done|]. exists a. simpl. auto.
Qed.

Lemma start_safe ts :
  map_Forall (fun _ p => disciplined p (ann_of p) = true) ts -> safe (start ts).
Proof.
  intros Hts. split; simpl; try done.
  - intros t m u Ht. by apply lock0_free in Ht.
  - intros t th. rewrite lookup_fmap, fmap_Some. intros (p & Ep & ->). split; [by apply (Hts t)|].
    specialize (Hts t p Ep). simpl in Hts. unfold disciplined in Hts.
    apply andb_true_iff in Hts as [H0 _]. apply bool_decide_eq_true in H0.
    eexists. simpl. split; [done|]. split_and!; simpl; try done.
    intros m. split; [|done]. intros Hm. by apply lock0_free in Hm.
Qed.

(** Threads whose code passes the check run safely in every interleaving. *)
Lemma safe_reachable ts w :
  map_Forall (fun _ p => disciplined p (ann_of p) = true) ts ->
  rtc step (start ts) w -> safe w.
Proof.
  intros Hts Hr. refine (rtc_ind_r safe (start ts) _ _ w Hr); [by apply start_safe|].
  intros w1 w2 _ Hst Hs. destruct Hst; [by eapply exec_safe|by apply stop_safe].
Qed.
End semantics.
