(* ===== verification/Sync.v ===== *)
(** * sync: spinlock.c, mutex.c, rw_lock.c, atomic.c, completion.c

    The thread functions of the five labs in the step language of Threads, and
    the modules that start and stop them.  [start] stands for the world right
    after my_mod_init. *)

From S2P Require Import Prelude Kernel Threads.

Module Spinlock.
Definition write_function : list instr :=
  [CheckStop 7; Acquire Excl; Load; StoreInc; Release Excl; Msleep; Goto 0; DoExit].

Definition read_function : list instr :=
  [CheckStop 6; Acquire Excl; Print; Release Excl; Msleep; Goto 0; DoExit].

Record st := St { read_thread : Z; write_thread : Z; counter : Z }.

Definition my_mod_init : M st Z :=
  modify (fun s => St (read_thread s) (write_thread s) 0);;
  r ← call (kthread_run "read_thread");
  modify (fun s => St r (write_thread s) (counter s));;
  w ← call (kthread_run "write_thread");
  modify (fun s => St (read_thread s) w (counter s));;
  mret 0.

Definition my_mod_exit : M st () :=
  s ← get;
  call (kthread_stop (read_thread s));;
  call (kthread_stop (write_thread s));;
  mret ().

(** The threads started, by their numbers. *)
Definition threads : gmap Z (list instr) := {[ 1 := read_function; 2 := write_function ]}.
End Spinlock.

Module Mutex.
Definition write_function : list instr :=
  [CheckStop 7; Acquire Excl; Load; StoreInc; Release Excl; Msleep; Goto 0; DoExit].

Definition read_function : list instr :=
  [CheckStop 6; Acquire Excl; Print; Release Excl; Msleep; Goto 0; DoExit].

Record st := St { read_thread : Z; write_thread : Z; counter : Z; mut : Z }.

Definition sizeof_mutex : Z := 32.

(** mutex_init only writes to the mutex. *)
Definition my_mod_init : M st Z :=
  modify (fun s => St (read_thread s) (write_thread s) 0 (mut s));;
  p ← call (kmalloc sizeof_mutex);
  modify (fun s => St (read_thread s) (write_thread s) (counter s) p);;
  if p =? 0 then mret (-1)
  else
    r ← call (kthread_run "read_thread");
    modify (fun s => St r (write_thread s) (counter s) (mut s));;
    w ← call (kthread_run "write_thread");
    modify (fun s => St (read_thread s) w (counter s) (mut s));;
    mret 0.

Definition my_mod_exit : M st () :=
  s ← get;
  call (kthread_stop (read_thread s));;
  call (kthread_stop (write_thread s));;
  mret ().

Definition threads : gmap Z (list instr) := {[ 1 := read_function; 2 := write_function ]}.
End Mutex.

Module RwSpin.
Definition write_function : list instr :=
  [CheckStop 7; Acquire Excl; Load; StoreInc; Release Excl; Msleep; Goto 0; DoExit].

Definition read_function : list instr :=
  [CheckStop 6; Acquire Shared; Print; Release Shared; Msleep; Goto 0; DoExit].

Record st := St {
  read_thread1 : Z; read_thread2 : Z; read_thread3 : Z; write_thread : Z; counter : Z
}.

Definition my_mod_init : M st Z :=
  modify (fun s => St (read_thread1 s) (read_thread2 s) (read_thread3 s) (write_thread s) 0);;
  r1 ← call (kthread_run "read_thread1");
  r2 ← call (kthread_run "read_thread2");
  r3 ← call (kthread_run "read_thread3");
  w ← call (kthread_run "write_thread");
  modify (fun s => St r1 r2 r3 w (counter s));;
  mret 0.

Definition my_mod_exit : M st () :=
  s ← get;
  call (kthread_stop (read_thread1 s));;
  call (kthread_stop (read_thread2 s));;
  call (kthread_stop (read_thread3 s));;
  call (kthread_stop (write_thread s));;
  mret ().

Definition threads : gmap Z (list instr) :=
  {[ 1 := read_function; 2 := read_function; 3 := read_function; 4 := write_function ]}.
End RwSpin.

Module Atomic.
(** atomic_read is the read of [Print]. *)
Definition write_function : list instr := [CheckStop 4; AtomicInc; Msleep; Goto 0; DoExit].

Definition read_function : list instr := [CheckStop 4; Print; Msleep; Goto 0; DoExit].

Record st := St { read_thread : Z; write_thread : Z; counter : Z }.

Definition my_mod_init : M st Z :=
  modify (fun s => St (read_thread s) (write_thread s) 0);;
  r ← call (kthread_run "read_thread");
  modify (fun s => St r (write_thread s) (counter s));;
  w ← call (kthread_run "write_thread");
  modify (fun s => St (read_thread s) w (counter s));;
  mret 0.

Definition my_mod_exit : M st () :=
  s ← get;
  call (kthread_stop (read_thread s));;
  call (kthread_stop (write_thread s));;
  mret ().

Definition threads : gmap Z (list instr) := {[ 1 := read_function; 2 := write_function ]}.
End Atomic.

Module Completion.
(** [while (counter != 1234) counter++; complete(comp);] *)
Definition write_function : list instr :=
  [BrCounter 1234 4; Load; StoreInc; Goto 0; Complete; DoExit].

Definition read_function : list instr := [WaitForCompletion; Print; DoExit].

Record st := St { read_thread : Z; write_thread : Z; counter : Z; comp : Z }.

Definition sizeof_completion : Z := 32.

Definition my_mod_init : M st Z :=
  modify (fun s => St (read_thread s) (write_thread s) 0 (comp s));;
  p ← call (kmalloc sizeof_completion);
  modify (fun s => St (read_thread s) (write_thread s) (counter s) p);;
  if p =? 0 then mret (-1)
  else
    r ← call (kthread_run "read_thread");
    modify (fun s => St r (write_thread s) (counter s) (comp s));;
    w ← call (kthread_run "write_thread");
    modify (fun s => St (read_thread s) w (counter s) (comp s));;
    mret 0.

Definition my_mod_exit : M st () :=
  s ← get;
  call (kthread_stop (read_thread s));;
  call (kthread_stop (write_thread s));;
  mret ().

Definition threads : gmap Z (list instr) := {[ 1 := read_function; 2 := write_function ]}.
End Completion.

(** ** Locks *)

Section locks.
Context {L : Type} `{LockSpec L}.

Definition lock_labs : list (gmap Z (list instr)) :=
  [Spinlock.threads; Mutex.threads; RwSpin.threads].

Lemma labs_disciplined ts :
  ts ∈ lock_labs -> map_Forall (fun _ p => disciplined p (points p) = true) ts.
Proof.
  unfold lock_labs. rewrite !elem_of_cons, elem_of_nil.
  intros [->|[->|[->|[]]]]; apply (bool_decide_unpack _); vm_compute; exact I.
Qed.

(** C24.  The threads of the spinlock, mutex and rw_lock labs use their lock
    right and are safe for it, in every interleaving with each other and with
    kthread_stop and for every lock that keeps the kernel's contract.  Whoever
    is about to load or store the counter holds the lock exclusively and
    whoever is about to print it holds the lock; only a lock held in that mode
    is released, and nobody takes it twice, sleeps or exits with it; so
    no two threads ever race on the counter.  No increment is lost, and every
    value printed is the number of increments finished at that time (modulo
    2^32).  A live thread stops only to wait for a lock that is held, and
    exits only after it was asked to stop. *)
Theorem sync_labs_safe ts (w : world L) :
  ts ∈ lock_labs -> rtc step (start ts) w ->
  (forall t i, at_instr w t i -> lock_use t (lk w) i) /\
  ~ race w /\
  counter w = u32 (incs w) /\
  Forall (fun e => e.1 = u32 e.2 /\ 0 <= e.2 <= incs w) (log w) /\
  forall t th, thr w !! t = Some th ->
    if dead th then stop th = true
    else exec t w = None ->
      exists m, at_instr w t (Acquire m) /\ ~ (forall m' u, ~ holds m' u (lk w)).
Proof.
  intros Hts Hr. pose proof (safe_reachable points ts w (labs_disciplined ts Hts) Hr) as Hs.
  split_and!.
  - intros t i (th & Et & _ & Ei).
    destruct (safe_at _ w t th Hs Et (points_length _)) as (j & Ej & Hu & _). by simplify_eq.
  - apply (safe_race_free points w Hs). intros t th _. apply points_length.
  - apply Hs.
  - apply Hs.
  - intros t th Et. destruct (dead th) eqn:Hd.
    + destruct (safe_threads _ _ Hs t th Et) as (_ & _ & _ & _ & _ & _ & Hds). by apply Hds.
    + by apply (safe_waits points w t th Hs Et (points_length _)).
Qed.
End locks.

(** ** Atomic *)

Section atomic.
Context {L : Type} `{Lock L}.

Lemma atomic_exec t (w w' : world L) :
  (forall u th, thr w !! u = Some th ->
     code th = Atomic.read_function \/ code th = Atomic.write_function) ->
  counter w = s32 (incs w) -> Forall (fun e => e.1 = s32 e.2) (log w) ->
  exec t w = Some w' ->
  (forall u th, thr w' !! u = Some th ->
     code th = Atomic.read_function \/ code th = Atomic.write_function) /\
  counter w' = s32 (incs w') /\ Forall (fun e => e.1 = s32 e.2) (log w').
Proof.
  intros Hc Hn Hl E. unfold exec in E. apply bind_Some in E as (th & Et & E).
  apply bind_Some in E as (i & Ei & E). destruct (dead th); [done|].
  assert (forall th', code th' = code th -> forall u thu, <[t := th']> (thr w) !! u = Some thu ->
    code thu = Atomic.read_function \/ code thu = Atomic.write_function) as Hins.
  { intros th' Ec u thu. rewrite lookup_insert_Some. intros [[_ <-]|[_ Eu]]; [|by eapply Hc].
    rewrite Ec. by eapply Hc. }
  assert (i ∈ Atomic.read_function ++ Atomic.write_function) as Hi.
  { destruct (Hc t th Et) as [Ec|Ec]; rewrite Ec in Ei; apply list_elem_of_lookup_2 in Ei;
      apply elem_of_app; auto. }
  unfold Atomic.read_function, Atomic.write_function in Hi. simpl in Hi.
  rewrite !elem_of_cons, elem_of_nil in Hi.
  repeat destruct Hi as [->|Hi]; try done; simplify_eq/=;
    (split; [apply Hins; by try destruct (stop th)|]); split; try done.
  - by constructor.
  - rewrite Hn. unfold_int. zify_bool; Z.div_mod_to_equations; lia.
Qed.

(** The atomic counter of the atomic lab counts every increment, in every
    interleaving, and every value printed is the number of increments at that
    time, as a 32-bit int. *)
Theorem atomic_counts (w : world L) :
  rtc step (start Atomic.threads) w ->
  counter w = s32 (incs w) /\ Forall (fun e => e.1 = s32 e.2) (log w).
Proof.
  intros Hr. refine (proj2 (rtc_ind_r (fun w => (forall u th, thr w !! u = Some th ->
     code th = Atomic.read_function \/ code th = Atomic.write_function) /\
     counter w = s32 (incs w) /\ Forall (fun e => e.1 = s32 e.2) (log w))
     (start Atomic.threads) _ _ w Hr)).
  - split; [|by split]. intros u th. simpl. rewrite lookup_fmap, fmap_Some.
    intros (p & Ep & ->). simpl. unfold Atomic.threads in Ep.
    rewrite lookup_insert_Some, lookup_singleton_Some in Ep. naive_solver.
  - intros w1 w2 _ Hst (H1 & H2 & H3). destruct Hst as [t w1 w2 E|t w1]; [by eapply atomic_exec|].
    split; [|done]. intros u th. simpl. rewrite lookup_alter_Some.
    intros [(_ & th0 & Et & ->)|[_ Et]]; by apply H1 in Et.
Qed.
End atomic.

(** ** Completion *)

Section completion.
Context {L : Type} `{Lock L}.

(** The two threads at given points. *)
Definition reader (k : nat) (g : Z) (s d : bool) : thread := Thread Completion.read_function k g s d.
Definition writer (k : nat) (g : Z) (s d : bool) : thread := Thread Completion.write_function k g s d.

(** The writer's point, its register and the counter. *)
Definition writer_at (k : nat) (g c : Z) : Prop :=
  match k with
  | 0%nat | 3%nat => 0 <= c <= 1234
  | 1%nat => 0 <= c < 1234
  | 2%nat => 0 <= c < 1234 /\ g = c
  | 4%nat | 5%nat => c = 1234
  | _ => False
  end.

Record completion_at (w : world L) (rk : nat) (rd : bool) (wk : nat) (wg : Z) (wd : bool) : Prop := {
  c_writer : writer_at wk wg (counter w);
  c_incs : incs w = counter w;
  c_completed : completed w = true <-> wk = 5%nat;
  c_waited : rk <> 0%nat -> completed w = true;
  c_reader : (rk <= 2)%nat;
  c_log : log w = if Nat.eqb rk 2 then [(1234, 1234)] else [];
  c_reader_dead : rd = true -> rk = 2%nat;
  c_writer_dead : wd = true -> wk = 5%nat
}.

Definition completion_inv (w : world L) : Prop :=
  exists rk rg rs rd wk wg ws wd,
    thr w = {[ 1 := reader rk rg rs rd; 2 := writer wk wg ws wd ]} /\ completion_at w rk rd wk wg wd.

Lemma two_insert1 (a b c : thread) :
  <[1 := c]> ({[1 := a; 2 := b]} : gmap Z thread) = {[1 := c; 2 := b]}.
Proof. by rewrite insert_insert_eq. Qed.

Lemma two_insert2 (a b c : thread) :
  <[2 := c]> ({[1 := a; 2 := b]} : gmap Z thread) = {[1 := a; 2 := c]}.
Proof. by rewrite insert_insert_ne, insert_singleton_eq by done. Qed.

Lemma two_lookup (a b : thread) (t : Z) th :
  ({[1 := a; 2 := b]} : gmap Z thread) !! t = Some th -> (t = 1 /\ th = a) \/ (t = 2 /\ th = b).
Proof. rewrite lookup_insert_Some, lookup_singleton_Some. naive_solver. Qed.

#[local] Arguments Z.eqb : simpl never.

Lemma completion_exec t w w' : completion_inv w -> exec t w = Some w' -> completion_inv w'.
Proof.
  intros (rk & rg & rs & rd & wk & wg & ws & wd & Ew & [Hw Hi Hc Hrk Hr Hlog Hrd Hwd]) E.
  unfold exec in E. rewrite Ew in E. apply bind_Some in E as (th & Et & E).
  apply two_lookup in Et as [[-> ->]|[-> ->]]; apply bind_Some in E as (i & Ei & E); simpl in *.
  - destruct rd; [done|].
    destruct rk as [|[|[|rk]]]; simpl in Ei; simplify_eq/=; unfold with_thread;
      rewrite ?Ew, ?two_insert1.
    + destruct (completed w) eqn:Ec; [|done]. simplify_eq.
      unfold with_thread. rewrite Ew, two_insert1.
      exists 1%nat, rg, rs, false, wk, wg, ws, wd. split; [done|]. split; simpl; rewrite ?Ec; auto; done.
    + assert (completed w = true) as Ec by by apply Hrk. assert (wk = 5%nat) as -> by by apply Hc.
      exists 2%nat, rg, rs, false, 5%nat, wg, ws, wd. split; [done|]. simpl in Hw.
      split; simpl; try done. by rewrite Hlog, Hi, Hw.
    + exists 2%nat, rg, rs, true, wk, wg, ws, wd. split; [done|]. by split.
  - destruct wd; [done|].
    assert (wk <> 5%nat -> completed w = false) as Hnc
      by (destruct (completed w); [intros Hne; by destruct Hne; apply Hc|done]).
    assert (wk <> 5%nat -> rk = 0%nat) as Hr0
      by (intros Hne; destruct rk; [done|]; specialize (Hnc Hne); rewrite Hrk in Hnc; done).
    destruct wk as [|[|[|[|[|[|wk]]]]]]; simpl in Ei; simplify_eq/=; unfold with_thread;
      rewrite ?Ew, ?two_insert2;
      try (rewrite (Hr0 ltac:(done)) in *; rewrite (Hnc ltac:(done)) in *).
    + destruct (Z.eqb_spec (counter w) 1234) as [Ec|Ec].
      * exists 0%nat, rg, rs, rd, 4%nat, wg, ws, false. split; [done|].
        split; simpl; rewrite ?Hnc by done; try done; auto.
      * exists 0%nat, rg, rs, rd, 1%nat, wg, ws, false. split; [done|].
        split; simpl; rewrite ?Hnc by done; try done; auto; lia.
    + exists 0%nat, rg, rs, rd, 2%nat, (counter w), ws, false. split; [done|].
      split; simpl; rewrite ?Hnc by done; try done; auto.
    + destruct Hw as [Hw ->]. exists 0%nat, rg, rs, rd, 3%nat, (counter w), ws, false. split; [done|].
      split; simpl; rewrite ?u32_id by lia; try done; auto; lia.
    + exists 0%nat, rg, rs, rd, 0%nat, wg, ws, false. split; [done|].
      split; simpl; rewrite ?Hnc by done; try done; auto.
    + exists 0%nat, rg, rs, rd, 5%nat, wg, ws, false. split; [done|]. by split.
    + exists rk, rg, rs, rd, 5%nat, wg, ws, true. split; [done|]. by split.
Qed.

Lemma completion_start : completion_inv (start Completion.threads).
Proof. exists 0%nat, 0, false, false, 0%nat, 0, false, false. split; [done|]. split; simpl; try done; lia. Qed.

Lemma completion_step w w' : step w w' -> completion_inv w -> completion_inv w'.
Proof.
  intros Hst Hi. destruct Hst as [t w w' E|t w]; [by eapply completion_exec|].
  destruct Hi as (rk & rg & rs & rd & wk & wg & ws & wd & Ew & Hi).
  destruct (decide (t = 1)) as [->|H1]; [|destruct (decide (t = 2)) as [->|H2]].
  - exists rk, rg, true, rd, wk, wg, ws, wd. split; [simpl; by rewrite Ew, alter_insert_eq|].
    by destruct Hi.
  - exists rk, rg, rs, rd, wk, wg, true, wd.
    split; [simpl; by rewrite Ew, alter_insert_ne, alter_singleton_eq|]. by destruct Hi.
  - exists rk, rg, rs, rd, wk, wg, ws, wd.
    split; [simpl; by rewrite Ew, alter_insert_ne, alter_singleton_ne|]. by destruct Hi.
Qed.

Lemma completion_reachable w : rtc step (start Completion.threads) w -> completion_inv w.
Proof.
  intros Hr. eapply rtc_preserves; [|exact Hr|exact completion_start]. apply completion_step.
Qed.

(** One step of the reader (thread 1) or of the writer (thread 2). *)
Definition pair (c : Z) (l : L) (d : bool) (i : Z) (lg : list (Z * Z)) (r q : thread) : world L :=
  World c l d i lg {[1 := r; 2 := q]}.

Ltac pair_step t :=
  eapply rtc_l; [apply (step_exec t); reflexivity|];
  unfold with_thread, goto; simpl; rewrite ?two_insert1, ?two_insert2.

Lemma writer_loop (n : nat) c l i lg r g :
  0 <= c -> c + Z.of_nat n = 1234 ->
  exists g', rtc step (pair c l false i lg r (writer 0 g false false))
    (pair 1234 l false (i + Z.of_nat n) lg r (writer 4 g' false false)).
Proof.
  revert c i g. induction n as [|n IH]; intros c i g Hc Hn.
  - assert (c = 1234) as -> by lia. exists g. pair_step 2. rewrite Z.add_0_r. apply rtc_refl.
  - destruct (IH (c + 1) (i + 1) c) as (g' & Hr); [lia..|]. exists g'.
    eapply rtc_l.
    { apply (step_exec 2). unfold exec, pair, writer; simpl.
      rewrite (lookup_insert_ne _ 1 2), lookup_singleton_eq by done. simpl.
      rewrite (proj2 (Z.eqb_neq c 1234)) by lia. reflexivity. }
    unfold with_thread, goto; simpl. rewrite two_insert2. do 3 pair_step 2.
    rewrite u32_id by lia. replace (i + Z.of_nat (S n)) with (i + 1 + Z.of_nat n) by lia. exact Hr.
Qed.

(** The completion lab does its work and its threads exit by themselves:
    there is a run in which the reader prints 1234 and both threads are dead
    although nobody asked them to stop.  my_mod_exit then calls kthread_stop
    on threads that no longer exist. *)
Theorem completion_exits_unasked :
  exists w : world L, rtc step (start Completion.threads) w /\ log w = [(1234, 1234)] /\
    forall t th, thr w !! t = Some th -> dead th = true /\ stop th = false.
Proof.
  destruct (writer_loop 1234 0 lock0 0 [] (reader 0 0 false false) 0) as (g' & Hr); [lia..|].
  exists (pair 1234 lock0 true 1234 [(1234, 1234)] (reader 2 0 false true) (writer 5 g' false true)).
  split_and!; [|done|].
  - etrans; [exact Hr|]. unfold pair, writer, reader. do 2 pair_step 2. do 3 pair_step 1.
    apply rtc_refl.
  - intros t th [[_ ->]|[_ ->]]%two_lookup; done.
Qed.
End completion.

(** ** Resources *)

(** Every thread could be started. *)
Definition threads_run (env : kenv) : Prop :=
  forall tr n, IS_ERR (env tr (kthread_run n)).1 = false.

(** Starts a thread in a symbolic run with the account [A]. *)
Ltac wthread A Hrun :=
  apply wp_bind_call; let r := fresh "r" in let o := fresh "o" in let E := fresh "E" in
  intros r o E;
  apply (answer_is _ _ _ _ (fun z => IS_ERR z = false) _ (fun tr => Hrun tr _)) in E;
  eapply (audit_acquire _ (kthread_run _) r o _ (RThread r)) in A;
    [|unfold acquired; by rewrite E]; wpure.

(** Unloading the spinlock and rw_lock labs stops every thread they
    started; the mutex lab also allocates its mutex, which nobody frees. *)
Theorem sync_unload env s1 s2 s3 :
  threads_run env -> (forall tr, (env tr (kmalloc Mutex.sizeof_mutex)).1 <> 0) ->
  (let '(_, s, tr) := Spinlock.my_mod_init env s1 [] in
   leaves (Spinlock.my_mod_exit env s tr) = Some []) /\
  (let '(_, s, tr) := RwSpin.my_mod_init env s2 [] in
   leaves (RwSpin.my_mod_exit env s tr) = Some []) /\
  (let '(_, s, tr) := Mutex.my_mod_init env s3 [] in
   leaves (Mutex.my_mod_exit env s tr) = Some [RMem (Mutex.mut s)]).
Proof.
  intros Hrun Hm. split_and!.
  - enough (wp Spinlock.my_mod_init env s1 [] (fun _ s tr =>
      wp Spinlock.my_mod_exit env s tr (fun _ _ tr' => audit tr' = Some []))) as W
      by (unfold wp in W; by destruct (Spinlock.my_mod_init env s1 []) as [[? ?] ?]).
    assert (audit [] = Some []) as A by done.
    unfold Spinlock.my_mod_init. wpure. wthread A Hrun. wthread A Hrun.
    apply audit_held in A. unfold Spinlock.my_mod_exit. wpure. simpl. wfree A. wfree A. wpure.
    by apply held_nil.
  - enough (wp RwSpin.my_mod_init env s2 [] (fun _ s tr =>
      wp RwSpin.my_mod_exit env s tr (fun _ _ tr' => audit tr' = Some []))) as W
      by (unfold wp in W; by destruct (RwSpin.my_mod_init env s2 []) as [[? ?] ?]).
    assert (audit [] = Some []) as A by done.
    unfold RwSpin.my_mod_init. wpure. do 4 wthread A Hrun.
    apply audit_held in A. unfold RwSpin.my_mod_exit. wpure. simpl. do 4 wfree A. wpure.
    by apply held_nil.
  - enough (wp Mutex.my_mod_init env s3 [] (fun _ s tr =>
      wp Mutex.my_mod_exit env s tr (fun _ _ tr' => audit tr' = Some [RMem (Mutex.mut s)]))) as W
      by (unfold wp in W; by destruct (Mutex.my_mod_init env s3 []) as [[? ?] ?]).
    unfold Mutex.my_mod_init. wpure. apply wp_bind_call.
    intros p o Hp%(answer_is _ _ _ _ (fun z => z <> 0) _ Hm). wpure. rewrite if_null by done.
    assert (audit [(kmalloc Mutex.sizeof_mutex, (p, o))] = Some [RMem p]) as A
      by (apply (audit_acquire [] _ _ _ []); [done|acq]).
    wthread A Hrun. wthread A Hrun.
    apply audit_held in A. unfold Mutex.my_mod_exit. wpure. simpl. wfree A. wfree A. wpure.
    destruct A as (h & -> & Hh). f_equal. by apply Permutation_singleton_r in Hh.
Qed.

(** ** Examples *)

Section examples.
(** The writer of rw_lock.c between the load and the store of its increment. *)
Definition ex_writing : world rwlock :=
  World 0 (RwLock (Some 4) ∅) false 0 []
    (<[4 := Thread RwSpin.write_function 3 0 false false]> (started <$> RwSpin.threads)).

Lemma sync_labs_safe_witness :
  rtc step (start RwSpin.threads) ex_writing /\ at_instr ex_writing 4 StoreInc /\
  exec 1 ex_writing <> None /\
  let w := ex_writing in
  (forall t i, at_instr w t i -> lock_use t (lk w) i) /\
  ~ race w /\
  counter w = u32 (incs w) /\
  Forall (fun e => e.1 = u32 e.2 /\ 0 <= e.2 <= incs w) (log w) /\
  forall t th, thr w !! t = Some th ->
    if dead th then stop th = true
    else exec t w = None ->
      exists m, at_instr w t (Acquire m) /\ ~ (forall m' u, ~ holds m' u (lk w)).
Proof.
  assert (rtc step (start RwSpin.threads) ex_writing) as Hr.
  { do 3 (eapply rtc_l; [apply (step_exec 4); reflexivity|]). apply rtc_refl. }
  split; [exact Hr|]. split; [by eexists|]. split; [done|].
  apply (sync_labs_safe RwSpin.threads ex_writing);
    [unfold lock_labs; rewrite !elem_of_cons; tauto|exact Hr].
Defined.

(** One increment by the writer. *)
Lemma ex_atomic : exists w : world rwlock, rtc step (start Atomic.threads) w /\ incs w = 1.
Proof.
  eexists. split; [|shelve].
  eapply rtc_l; [apply (step_exec 2); reflexivity|].
  eapply rtc_l; [apply (step_exec 2); reflexivity|]. apply rtc_refl.
  Unshelve. reflexivity.
Defined.

Lemma atomic_counts_witness :
  counter (start (L := rwlock) Atomic.threads) = s32 (incs (start (L := rwlock) Atomic.threads)) /\
  Forall (fun e => e.1 = s32 e.2) (log (start (L := rwlock) Atomic.threads)).
Proof. apply (atomic_counts (start Atomic.threads)). apply rtc_refl. Defined.

Lemma sync_unload_witness :
  (let '(_, s, tr) := Spinlock.my_mod_init nice_env (Spinlock.St 0 0 0) [] in
   leaves (Spinlock.my_mod_exit nice_env s tr) = Some []) /\
  (let '(_, s, tr) := RwSpin.my_mod_init nice_env (RwSpin.St 0 0 0 0 0) [] in
   leaves (RwSpin.my_mod_exit nice_env s tr) = Some []) /\
  (let '(_, s, tr) := Mutex.my_mod_init nice_env (Mutex.St 0 0 0 0) [] in
   leaves (Mutex.my_mod_exit nice_env s tr) = Some [RMem (Mutex.mut s)]).
Proof.
  apply (sync_unload nice_env (Spinlock.St 0 0 0) (RwSpin.St 0 0 0 0 0) (Mutex.St 0 0 0 0));
    [intros tr n; reflexivity|]. intros tr. apply (proj1 (proj2 nice_env_good)). reflexivity.
Defined.
End examples.
