(* ===== verification/SyncStop.v ===== *)
(** * Stopping the threads of the sync labs

    my_mod_exit calls kthread_stop for one thread after the other, and each call
    waits until its thread has ended.  In whatever state the threads are, and
    whatever they do meanwhile, the thread asked to stop can still come to its
    end: no state is reachable from which a call of kthread_stop could not
    return.  And the two threads of the completion lab, which nobody needs to
    stop, come to their end in every run. *)

From S2P Require Import Prelude Kernel Threads Sync.

(** ** One step *)

Section steps.
Context {L : Type} `{Lock L}.

(** What a step of thread [t] does to its thread and to the lock. *)
Lemma exec_inv (t : Z) (w w' : world L) :
  exec t w = Some w' ->
  exists th th' i, thr w !! t = Some th /\ code th !! pc th = Some i /\ dead th = false /\
    thr w' = <[t := th']> (thr w) /\ code th' = code th /\ stop th' = stop th /\
    (dead th' = true -> i = DoExit /\ pc th' = pc th) /\
    (lk w' = lk w \/ (exists m, acquire m t (lk w) = Some (lk w')) \/
     (exists m, i = Release m /\ lk w' = release m t (lk w))).
Proof.
  unfold exec. intros E. apply bind_Some in E as (th & Et & E).
  apply bind_Some in E as (i & Ei & E). exists th.
  destruct (dead th) eqn:Hd; [done|].
  destruct i; try (apply bind_Some in E as (l & El & E));
    try (destruct (completed w); [|done]); simplify_eq;
    (eexists _, _; split_and!; [done|exact Ei|done|reflexivity|by repeat case_match
      |by repeat case_match|intros Hd'; repeat case_match; simpl in *; first [congruence|done]
      |first [by left|right; left; by exists m|right; right; by exists m]]).
Qed.
End steps.

(** ** The lock labs *)

Section lock_labs.
Context {L : Type} `{LockSpec L}.
Implicit Types (w : world L) (th : thread).

(** The code of the six thread functions. *)
Definition loops : list (list instr) :=
  [Spinlock.write_function; Spinlock.read_function; RwSpin.read_function].

Record sane w : Prop := {
  sane_safe : safe points w;
  sane_holders : forall m u, holds m u (lk w) -> is_Some (thr w !! u);
  sane_code : map_Forall (fun _ th => code th ∈ loops) (thr w);
  sane_dead : map_Forall (fun _ th => dead th = true -> critical th = None) (thr w)
}.

Lemma loops_end p k : p ∈ loops -> p !! k = Some DoExit -> points p !! k ≫= hold = None.
Proof.
  unfold loops. rewrite !elem_of_cons, elem_of_nil. intros [->|[->|[->|[]]]] Hk;
    do 8 (destruct k as [|k]; [try done|]); by destruct k.
Qed.

(** A thread releases only what it holds. *)
Lemma release_held t w th m :
  safe points w -> thr w !! t = Some th -> code th !! pc th = Some (Release m) -> holds m t (lk w).
Proof.
  intros Hs Et Ei. destruct (safe_threads _ _ Hs t th Et) as (Hdis & a & Ea & Hhold & _).
  destruct (disciplined_at _ _ _ _ _ Hdis Ei Ea) as (l & Hl & _). simpl in Hl.
  case_decide as Ha; [|done]. apply Hhold. by rewrite Ha.
Qed.

Lemma sane_exec t w w' : sane w -> exec t w = Some w' -> sane w'.
Proof.
  intros [Hs Hh Hc Hd] E. pose proof (exec_safe points t w w' Hs E) as Hs'.
  destruct (exec_inv t w w' E) as (th & th' & i & Et & Ei & Hdead & Ew & Ec & _ & Hx & Hl).
  pose proof (Hc t th Et) as Hcode. simpl in Hcode. split; [done| | |].
  - intros m u Hu. rewrite Ew. destruct (decide (t = u)) as [->|Hne]; [by rewrite lookup_insert_eq|].
    rewrite lookup_insert_ne by done. destruct Hl as [El|[(m' & El)|(m' & -> & El)]].
    + apply (Hh m). by rewrite <- El.
    + apply (Hh m). apply (acquire_holds _ _ _ _ El) in Hu. naive_solver.
    + rewrite El in Hu. apply (Hh m).
      apply (release_holds m' t (lk w)) in Hu; [tauto|]. by eapply release_held.
  - rewrite Ew. apply map_Forall_insert_2; [by rewrite Ec|done].
  - rewrite Ew. apply map_Forall_insert_2; [|done]. intros Hd'. destruct (Hx Hd') as [-> Epc].
    unfold critical. rewrite Ec, Epc. by apply loops_end.
Qed.

Lemma sane_stop t w : sane w -> sane (request_stop t w).
Proof.
  intros [Hs Hh Hc Hd]. split; [by apply stop_safe| | |]; simpl.
  - intros m u Hu. rewrite lookup_alter_is_Some. by eapply Hh.
  - intros u th. rewrite lookup_alter_Some. intros [(_ & th0 & Et & ->)|[_ Et]]; simpl; by eapply Hc.
  - intros u th. rewrite lookup_alter_Some. intros [(_ & th0 & Et & ->)|[_ Et]]; simpl;
      [by apply (Hd _ _ Et)|by eapply Hd].
Qed.

Lemma sane_start ts : ts ∈ lock_labs -> sane (start ts).
Proof.
  intros Hts. pose proof (labs_disciplined ts Hts) as Hdis.
  assert (map_Forall (fun _ p => p ∈ loops) ts) as Hp.
  { unfold lock_labs in Hts. rewrite !elem_of_cons, elem_of_nil in Hts.
    destruct Hts as [->|[->|[->|[]]]]; apply (bool_decide_unpack _); vm_compute; exact I. }
  split; [by apply start_safe| | |]; simpl.
  - intros m u Hu. by apply lock0_free in Hu.
  - intros t th. rewrite lookup_fmap, fmap_Some. intros (p & Ep & ->). simpl. by eapply Hp.
  - intros t th. rewrite lookup_fmap, fmap_Some. by intros (p & Ep & ->).
Qed.

Lemma sane_reachable ts w : ts ∈ lock_labs -> rtc step (start ts) w -> sane w.
Proof.
  intros Hts Hr. refine (rtc_ind_r sane (start ts) _ _ w Hr); [by apply sane_start|].
  intros w1 w2 _ Hst Hs. destruct Hst; [by eapply sane_exec|by apply sane_stop].
Qed.

(** The steps a thread asked to stop still has to take. *)
Definition stop_rank th : nat :=
  if dead th then 0%nat
  else match pc th with
       | O => 2%nat
       | S _ => if decide (S (pc th) = length (code th)) then 1%nat else (3 + length (code th) - pc th)%nat
       end.

Definition nobody_holds w : Prop := forall m u, ~ holds m u (lk w).

(** A thread can go on in its critical section, and outside of it when it was
    asked to stop and the lock is free; each step brings it closer to its
    end. *)
Lemma thread_progress t w th :
  sane w -> thr w !! t = Some th -> dead th = false ->
  (critical th = None -> stop th = true /\ nobody_holds w) ->
  exists w' th', exec t w = Some w' /\ thr w' !! t = Some th' /\ (stop_rank th' < stop_rank th)%nat.
Proof.
  intros [Hs _ Hc _] Et Hd Hfree. pose proof (Hc t th Et) as Hcode. simpl in Hcode.
  destruct (safe_threads _ _ Hs t th Et) as (_ & a & Ea & _).
  destruct th as [p k g b d]. simpl in *. subst d.
  assert (k < length p)%nat as Hk.
  { apply lookup_lt_Some in Ea. assert (length (points p) = length p) as E; [|by rewrite <- E].
    unfold loops in Hcode. rewrite !elem_of_cons, elem_of_nil in Hcode.
    by destruct Hcode as [->|[->|[->|[]]]]. }
  unfold exec. rewrite Et. simpl. unfold critical in Hfree; simpl in Hfree.
  unfold loops in Hcode. rewrite !elem_of_cons, elem_of_nil in Hcode.
  destruct Hcode as [->|[->|[->|[]]]]; simpl in Hk;
    destruct k as [|[|[|[|[|[|[|[|k]]]]]]]]; simpl in Hfree |- *; try lia;
    try (destruct (Hfree eq_refl) as [-> Hno]; clear Hfree);
    try (match goal with |- context [acquire ?m _ _] => destruct (acquire_free m t (lk w) Hno) as [l ->] end);
    simpl; (eexists _, _; split; [reflexivity|]); simpl; rewrite lookup_insert_eq;
    (split; [reflexivity|]); unfold stop_rank; simpl; lia.
Qed.

(** Thread [t] leaves its critical section. *)
Lemma leave_critical t w th :
  sane w -> thr w !! t = Some th ->
  exists w' th', rtc step w w' /\ sane w' /\ thr w' = <[t := th']> (thr w) /\
    critical th' = None /\ stop th' = stop th.
Proof.
  remember (stop_rank th) as k eqn:Hk. revert w th Hk.
  induction k as [k IH] using lt_wf_ind. intros w th -> Hs Et.
  destruct (critical th) as [m|] eqn:Hc.
  - assert (dead th = false) as Hd.
    { destruct (dead th) eqn:Hd; [|done]. by rewrite (sane_dead _ Hs t th Et Hd) in Hc. }
    destruct (thread_progress t w th Hs Et Hd) as (w1 & th1 & E & Et1 & Hr); [by rewrite Hc|].
    destruct (exec_inv t w w1 E) as (th0 & th1' & i & Et0 & _ & _ & Ew & _ & Est & _).
    rewrite Ew, lookup_insert_eq in Et1. simplify_eq.
    destruct (IH _ Hr w1 th1 eq_refl) as (w' & th' & Hrtc & Hs' & Ew' & Hc' & Est');
      [by eapply sane_exec|by rewrite Ew, lookup_insert_eq|].
    exists w', th'. split_and!; [by eapply rtc_l; [eapply step_exec|]|done| |done|by rewrite Est'].
    by rewrite Ew', Ew, insert_insert_eq.
  - exists w, th. split_and!; [done|done|by rewrite insert_id|done|done].
Qed.

(** All of [l] leave theirs, one after the other. *)
Lemma all_leave (l : list Z) w :
  sane w -> exists w', rtc step w w' /\ sane w' /\
    (forall u th, u ∈ l -> thr w' !! u = Some th -> critical th = None) /\
    (forall u, stop <$> thr w' !! u = stop <$> thr w !! u).
Proof.
  intros Hs. induction l as [|a l IH].
  { exists w. split_and!; [done|done| |done]. by intros u th ?%elem_of_nil. }
  destruct IH as (w1 & Hr1 & Hs1 & Hl1 & Hst1).
  destruct (thr w1 !! a) as [th|] eqn:Ea.
  - destruct (leave_critical a w1 th Hs1 Ea) as (w' & th' & Hr & Hs' & Ew & Hc & Hst).
    exists w'. split_and!; [by etrans|done| |].
    + rewrite Ew. intros u thu Hu. rewrite lookup_insert_Some. intros [[<- <-]|[Hne Eu]]; [done|].
      apply (Hl1 u); [|done]. by apply elem_of_cons in Hu as [->|].
    + intros u. rewrite <- Hst1, Ew. destruct (decide (a = u)) as [<-|Hne].
      * by rewrite lookup_insert_eq, Ea; simpl; rewrite Hst.
      * by rewrite lookup_insert_ne.
  - exists w1. split_and!; [done|done| |done]. intros u thu Hu Eu.
    apply elem_of_cons in Hu as [->|Hu]; [congruence|by eapply Hl1].
Qed.

(** A thread outside of its critical section holds nothing. *)
Lemma not_critical t w th m :
  sane w -> thr w !! t = Some th -> critical th = None -> ~ holds m t (lk w).
Proof.
  intros Hs Et. destruct (safe_threads _ _ (sane_safe _ Hs) t th Et) as (_ & a & Ea & Hhold & _).
  unfold critical. rewrite Ea; simpl. intros Hn Hm%Hhold. congruence.
Qed.

Definition others_free t w : Prop := forall m u, u <> t -> ~ holds m u (lk w).

Lemma others_free_exec t w w' : sane w -> exec t w = Some w' -> others_free t w -> others_free t w'.
Proof.
  intros Hs E Hf m u Hu Hm.
  destruct (exec_inv t w w' E) as (th & th' & i & Et & Ei & _ & _ & _ & _ & _ & [El|[(m' & El)|(m' & -> & El)]]).
  - rewrite El in Hm. by eapply Hf.
  - apply (acquire_holds _ _ _ _ El) in Hm. destruct Hm as [Hm|[_ ?]]; [by eapply Hf|done].
  - rewrite El in Hm. apply (release_holds m' t (lk w)) in Hm; [|by eapply release_held; [apply Hs|..]].
    eapply Hf; [exact Hu|]. apply Hm.
Qed.

(** A thread that was asked to stop runs to its end when nobody is in its way. *)
Lemma run_out t w th :
  sane w -> thr w !! t = Some th -> stop th = true -> others_free t w ->
  exists w' th', rtc step w w' /\ thr w' !! t = Some th' /\ dead th' = true.
Proof.
  remember (stop_rank th) as k eqn:Hk. revert w th Hk.
  induction k as [k IH] using lt_wf_ind. intros w th -> Hs Et Hst Hf.
  destruct (dead th) eqn:Hd; [by exists w, th|].
  destruct (thread_progress t w th Hs Et Hd) as (w1 & th1 & E & Et1 & Hr).
  { intros Hc. split; [done|]. intros m u. destruct (decide (u = t)) as [->|]; [|by apply Hf].
    by eapply not_critical. }
  destruct (exec_inv t w w1 E) as (th0 & th1' & i & Et0 & _ & _ & Ew & _ & Est & _).
  rewrite Ew, lookup_insert_eq in Et1. simplify_eq.
  destruct (IH _ Hr w1 th1 eq_refl) as (w' & th' & Hrtc & Et' & Hd');
    [by eapply sane_exec|by rewrite Ew, lookup_insert_eq|congruence|by eapply others_free_exec|].
  exists w', th'. split_and!; [by eapply rtc_l; [eapply step_exec|]|done|done].
Qed.

(** A thread stays, and stays asked to stop. *)
Definition stopped t w : Prop := exists th, thr w !! t = Some th /\ stop th = true.

Lemma thread_step t w w' : step w w' -> is_Some (thr w !! t) -> is_Some (thr w' !! t).
Proof.
  intros Hst Hw. destruct Hst as [u w w' E|u w]; [|simpl; by rewrite lookup_alter_is_Some].
  destruct (exec_inv u w w' E) as (? & ? & ? & _ & _ & _ & -> & _).
  apply lookup_insert_is_Some. destruct (decide (u = t)); [by left|by right].
Qed.

Lemma stopped_step t w w' : step w w' -> stopped t w -> stopped t w'.
Proof.
  intros Hst (th & Et & Hth). unfold stopped. destruct Hst as [u w w' E|u w].
  - destruct (exec_inv u w w' E) as (th0 & th1 & ? & E0 & _ & _ & -> & _ & Est & _).
    destruct (decide (u = t)) as [->|]; [|rewrite lookup_insert_ne by done; by exists th].
    rewrite lookup_insert_eq. exists th1. split; [done|congruence].
  - simpl. destruct (decide (u = t)) as [->|]; [|rewrite lookup_alter_ne by done; by exists th].
    rewrite lookup_alter_eq, Et. by eexists.
Qed.

Lemma stopped_request t w : is_Some (thr w !! t) -> stopped t (request_stop t w).
Proof. intros [th Et]. unfold stopped; simpl. rewrite lookup_alter_eq, Et. by eexists. Qed.

(** C26.  No deadlock on the way out: in the spinlock, mutex and rw_lock labs,
    for every lock that keeps the kernel's contract, whatever state the
    threads have come to, when kthread_stop is called for one of them that
    thread can still reach its end, also while the others, not asked to stop,
    keep taking the lock; so each of the calls of my_mod_exit can return. *)
Theorem sync_labs_stop ts w t :
  ts ∈ lock_labs -> rtc step (start ts) w -> is_Some (ts !! t) ->
  forall w1, rtc step (request_stop t w) w1 ->
  exists w2 th, rtc step w1 w2 /\ thr w2 !! t = Some th /\ dead th = true.
Proof.
  intros Hts Hr Ht w1 Hr1.
  assert (sane w1) as Hs1.
  { apply (sane_reachable ts); [done|]. etrans; [exact Hr|]. eapply rtc_l; [apply step_stop|exact Hr1]. }
  assert (stopped t w1) as (th & Et & Hst).
  { eapply (rtc_preserves _ (stopped t)); [|exact Hr1|]; [by apply stopped_step|].
    apply stopped_request. eapply (rtc_preserves _ (fun v => is_Some (thr v !! t))); [|exact Hr|].
    - by apply thread_step.
    - simpl. rewrite lookup_fmap. by apply fmap_is_Some. }
  destruct (all_leave (map_to_list (thr w1)).*1 w1 Hs1) as (w2 & Hr2 & Hs2 & Hc2 & Hst2).
  assert (exists th2, thr w2 !! t = Some th2 /\ stop th2 = true) as (th2 & Et2 & Hst2').
  { specialize (Hst2 t). rewrite Et in Hst2. simpl in Hst2.
    destruct (thr w2 !! t) as [th2|]; [|done]. exists th2. simpl in Hst2. split; [done|congruence]. }
  destruct (run_out t w2 th2 Hs2 Et2 Hst2') as (w3 & th3 & Hr3 & Et3 & Hd3).
  - intros m u _ Hm. destruct (sane_holders _ Hs2 m u Hm) as [thu Eu].
    eapply (not_critical u w2 thu m Hs2 Eu); [|exact Hm].
    apply (Hc2 u); [|done]. apply list_elem_of_fmap.
    specialize (Hst2 u). rewrite Eu in Hst2. destruct (thr w1 !! u) as [th1|] eqn:E1; [|done].
    exists (u, th1). split; [done|]. by apply elem_of_map_to_list.
  - exists w3, th3. split_and!; [by etrans|done|done].
Qed.
End lock_labs.

(** ** The completion lab *)

Section completion.
Context {L : Type} `{Lock L}.
Implicit Types (w : world L) (th : thread).

(** The threads run; whether somebody asks them to stop makes no difference. *)
Definition runs w w' : Prop := exists t, exec t w = Some w'.

(** The steps left of the reader and of the writer. *)
Definition reader_left th : Z := if dead th then 0 else 3 - Z.of_nat (pc th).
Definition writer_left (c : Z) th : Z :=
  if dead th then 0
  else match pc th with
       | 0%nat => 4 * (1234 - c) + 6 | 1%nat => 4 * (1234 - c) + 5
       | 2%nat => 4 * (1234 - c) + 4 | 3%nat => 4 * (1234 - c) + 7
       | 4%nat => 3 | _ => 2
       end.

Definition completion_rank w : Z :=
  default 0 (reader_left <$> thr w !! 1) + default 0 (writer_left (counter w) <$> thr w !! 2).

#[local] Arguments Z.eqb : simpl never.
#[local] Arguments Z.mul : simpl never.
#[local] Arguments Z.sub : simpl never.

Lemma rank_of w r q c :
  thr w = {[1 := r; 2 := q]} -> counter w = c -> completion_rank w = reader_left r + writer_left c q.
Proof.
  intros E <-. unfold completion_rank. rewrite E, lookup_insert_eq, lookup_insert_ne, lookup_singleton_eq by done.
  done.
Qed.

Lemma completion_rank_exec t w w' :
  completion_inv w -> exec t w = Some w' -> completion_rank w' < completion_rank w.
Proof.
  intros (rk & rg & rs & rd & wk & wg & ws & wd & Ew & [Hw _ _ _ Hr _ _ _]) E.
  rewrite (rank_of w _ _ _ Ew eq_refl).
  unfold exec in E. rewrite Ew in E. apply bind_Some in E as (th & Et & E).
  apply two_lookup in Et as [[-> ->]|[-> ->]]; apply bind_Some in E as (i & Ei & E); simpl in *.
  - destruct rd; [done|].
    destruct rk as [|[|[|rk]]]; simpl in Ei; simplify_eq/=;
      try (destruct (completed w); [|done]); simplify_eq; unfold with_thread;
      rewrite ?Ew, ?two_insert1; erewrite rank_of by done; unfold reader_left; simpl; lia.
  - destruct wd; [done|].
    destruct wk as [|[|[|[|[|[|wk]]]]]]; simpl in Ei; simplify_eq/=; unfold with_thread;
      rewrite ?Ew, ?two_insert2; erewrite rank_of by done; unfold writer_left; simpl;
      rewrite ?u32_id by lia; try lia.
    destruct (Z.eqb_spec (counter w) 1234); simpl; lia.
Qed.

Lemma completion_rank_nonneg w : completion_inv w -> 0 <= completion_rank w.
Proof.
  intros (rk & rg & rs & rd & wk & wg & ws & wd & Ew & [Hw _ _ _ Hr _ _ _]).
  rewrite (rank_of w _ _ _ Ew eq_refl). unfold reader_left, writer_left; simpl.
  destruct rd, wd, wk as [|[|[|[|[|[|wk]]]]]]; simpl in *; lia.
Qed.

(** A world in which nobody can go on is one where both threads have ended. *)
Lemma completion_stuck w :
  completion_inv w -> (forall w', ~ runs w w') ->
  log w = [(1234, 1234)] /\ map_Forall (fun _ th => dead th = true) (thr w).
Proof.
  intros (rk & rg & rs & rd & wk & wg & ws & wd & Ew & [Hw _ Hc _ Hr Hl Hrd Hwd]) Hno.
  assert (forall t, exec t w = None) as Hx.
  { intros t. destruct (exec t w) as [w'|] eqn:E; [|done]. destruct (Hno w'). by exists t. }
  assert (wd = true) as ->.
  { specialize (Hx 2). unfold exec in Hx. rewrite Ew in Hx.
    rewrite lookup_insert_ne, lookup_singleton_eq in Hx by done. simpl in Hx.
    destruct wd; [done|]. destruct wk as [|[|[|[|[|[|wk]]]]]]; simpl in *; done. }
  rewrite (Hwd eq_refl) in Hc. assert (rd = true) as ->.
  { specialize (Hx 1). unfold exec in Hx. rewrite Ew, lookup_insert_eq in Hx. simpl in Hx.
    destruct rd; [done|]. rewrite (proj2 Hc eq_refl) in Hx.
    destruct rk as [|[|[|rk]]]; simpl in *; first [done|lia]. }
  split; [by rewrite Hl, (Hrd eq_refl)|]. rewrite Ew. apply map_Forall_insert_2; [done|].
  by apply map_Forall_singleton.
Qed.

(** C25.  The completion lab comes to its end in every run: from any state its
    threads reach there is no infinite run, and when none can go on the reader
    has printed 1234, once, and both have exited, although nobody asked them
    to stop.  Until then the reader has printed nothing else. *)
Theorem completion_ends w :
  rtc step (start Completion.threads) w ->
  Acc (flip runs) w /\ (log w = [] \/ log w = [(1234, 1234)]) /\
  ((forall w', ~ runs w w') ->
   log w = [(1234, 1234)] /\ map_Forall (fun _ th => dead th = true) (thr w)).
Proof.
  intros Hi%completion_reachable. split_and!.
  - remember (completion_rank w) as k eqn:Hk. revert w Hk Hi.
    induction k as [k IH] using (well_founded_induction (Z.lt_wf 0)). intros w -> Hi.
    constructor. intros w' [t E]. pose proof (completion_exec t w w' Hi E) as Hi'.
    eapply IH; [|reflexivity|done]. split; [by apply completion_rank_nonneg|].
    by eapply completion_rank_exec.
  - destruct Hi as (rk & rg & rs & rd & wk & wg & ws & wd & _ & Hi).
    rewrite (c_log _ _ _ _ _ _ Hi). destruct (Nat.eqb rk 2); auto.
  - by apply completion_stuck.
Qed.
End completion.

(** ** Examples *)

Section examples.
Lemma completion_ends_witness :
  let w : world rwlock := start Completion.threads in
  Acc (flip runs) w /\ (log w = [] \/ log w = [(1234, 1234)]) /\
  ((forall w', ~ runs w w') ->
   log w = [(1234, 1234)] /\ map_Forall (fun _ th => dead th = true) (thr w)).
Proof. apply (completion_ends (start Completion.threads)). apply rtc_refl. Defined.

(** The reader of rw_lock.c is asked to stop while the writer holds the lock. *)
Definition ex_writing : world rwlock :=
  default (start RwSpin.threads) (w ← exec 4 (start RwSpin.threads); exec 4 w).

Lemma ex_writing_reachable : rtc step (start RwSpin.threads) ex_writing.
Proof.
  eapply rtc_l; [apply (step_exec 4); reflexivity|].
  eapply rtc_l; [apply (step_exec 4); reflexivity|]. apply rtc_refl.
Defined.

Lemma sync_labs_stop_witness :
  exists w2 th, rtc step (request_stop 1 ex_writing) w2 /\ thr w2 !! 1 = Some th /\ dead th = true.
Proof.
  apply (sync_labs_stop RwSpin.threads ex_writing 1 ltac:(unfold lock_labs; rewrite !elem_of_cons; tauto)
    ex_writing_reachable ltac:(eexists; reflexivity) (request_stop 1 ex_writing)). apply rtc_refl.
Defined.
End examples.
