(* ===== verification/Interrupt.v ===== *)
(** * interrupt-labs: interrupt_tasklet.c, interrupt_workqueue.c

    Interrupt handlers that hand work to a tasklet or a work item.  Handlers
    and bottom halves are lists of atomic actions in the order of the source,
    and run interleaved with each other and with the unloading of the module.
    The labs with threads are in IrqThread, unloading is verified for all four
    in IrqUnload. *)

From S2P Require Import Prelude Kernel.

(** ** Tasklet and work queue *)

(** [Schedule] is tasklet_schedule or schedule_work: it marks the bottom half
    pending, once. *)
Inductive action := IncTh | SetJiffies (now : Z) | Schedule | IncBh | Print.

(** The calls of my_exit, all of which wait for something. *)
Inductive exit_action := SyncIrq | FreeIrq | TaskletKill | KthreadStop.

(** [nth] and [nbh] count the interrupts and the bottom halves, the counters
    of the source are 32-bit atomics; [printed] holds what the bottom half
    printed, newest first. *)
Record st := St {
  counter_th : Z; counter_bh : Z; jif : Z; pending : bool; printed : list (Z * Z * Z);
  nth : Z; nbh : Z
}.

Definition run (a : action) (s : st) : st :=
  match a with
  | IncTh => St (s32 (counter_th s + 1)) (counter_bh s) (jif s) (pending s) (printed s)
               (nth s + 1) (nbh s)
  | SetJiffies now => St (counter_th s) (counter_bh s) now (pending s) (printed s) (nth s) (nbh s)
  | Schedule => St (counter_th s) (counter_bh s) (jif s) true (printed s) (nth s) (nbh s)
  | IncBh => St (counter_th s) (s32 (counter_bh s + 1)) (jif s) (pending s) (printed s)
               (nth s) (nbh s + 1)
  | Print => St (counter_th s) (counter_bh s) (jif s) (pending s)
               ((counter_th s, counter_bh s, jif s) :: printed s) (nth s) (nbh s)
  end.

Record lab := Lab {
  handler : Z -> list action; bottom_half : list action; unload : list exit_action
}.

Module Tasklet.
(** The default of the module parameter [irq]. *)
Definition SHARE_IRQ : Z := 19.
Definition my_interrupt (now : Z) : list action := [IncTh; SetJiffies now; Schedule].
Definition t_fun : list action := [IncBh; Print].

Definition my_init (irq : Z) : M st Z :=
  modify (fun s => St 0 0 (jif s) false (printed s) 0 0);;
  call tasklet_init;;
  r ← call (request_irq irq);
  if negb (r =? 0) then mret (-1) else mret 0.

Definition my_exit (irq : Z) : M st () :=
  call (synchronize_irq irq);;
  call (free_irq irq);;
  call tasklet_kill;;
  mret ().

Definition exit_steps : list exit_action := [SyncIrq; FreeIrq; TaskletKill].
End Tasklet.

Module Workqueue.
(** The default of the module parameter [irq]. *)
Definition SHARE_IRQ : Z := 19.
Definition my_interrupt (now : Z) : list action := [IncTh; SetJiffies now; Schedule].
Definition t_fun : list action := [IncBh; Print].

Definition my_init (irq : Z) : M st Z :=
  modify (fun s => St 0 0 (jif s) false (printed s) 0 0);;
  call INIT_WORK;;
  r ← call (request_irq irq);
  if negb (r =? 0) then mret (-1) else mret 0.

Definition my_exit (irq : Z) : M st () :=
  call (synchronize_irq irq);;
  call (free_irq irq);;
  mret ().

Definition exit_steps : list exit_action := [SyncIrq; FreeIrq].
End Workqueue.

Definition tasklet_lab : lab := Lab Tasklet.my_interrupt Tasklet.t_fun Tasklet.exit_steps.
Definition workqueue_lab : lab := Lab Workqueue.my_interrupt Workqueue.t_fun Workqueue.exit_steps.

(** The actions left of the running handler and bottom half, whether the
    interrupt line is ours, and the steps left of my_exit once it began. *)
Record world := World {
  state : st; hp : list action; bp : list action; irq_on : bool; leaving : option (list exit_action)
}.

(** The kernel runs a handler when an interrupt arrives, one at a time; it
    clears the pending mark before it runs the bottom half, which never runs
    twice at the same time; synchronize_irq and free_irq wait for the handler,
    tasklet_kill for the bottom half. *)
Inductive step (l : lab) : world -> world -> Prop :=
  | interrupt s bp e now :
      step l (World s [] bp true e) (World s (handler l now) bp true e)
  | in_handler s a hp bp i e :
      step l (World s (a :: hp) bp i e) (World (run a s) hp bp i e)
  | start_bh s hp i e :
      pending s = true ->
      step l (World s hp [] i e)
        (World (St (counter_th s) (counter_bh s) (jif s) false (printed s) (nth s) (nbh s))
           hp (bottom_half l) i e)
  | in_bh s hp a bp i e :
      step l (World s hp (a :: bp) i e) (World (run a s) hp bp i e)
  | exit_begin s hp bp i :
      step l (World s hp bp i None) (World s hp bp i (Some (unload l)))
  | exit_sync_irq s bp i e :
      step l (World s [] bp i (Some (SyncIrq :: e))) (World s [] bp i (Some e))
  | exit_free_irq s bp i e :
      step l (World s [] bp i (Some (FreeIrq :: e))) (World s [] bp false (Some e))
  | exit_tasklet_kill s hp i e :
      pending s = false ->
      step l (World s hp [] i (Some (TaskletKill :: e))) (World s hp [] i (Some e)).

Definition st0 : st := St 0 0 0 false [] 0 0.
Definition loaded : world := World st0 [] [] true None.

(** The bottom half printed the time of the last interrupt. *)
Definition up_to_date (s : st) : Prop :=
  match printed s with [] => jif s = 0 | (_, _, j) :: _ => j = jif s end.

(** How far the handler is, and the bottom half. *)
Definition h_point (hp : list action) : Prop :=
  hp = [] \/ (exists now, hp = Tasklet.my_interrupt now) \/
  (exists now, hp = [SetJiffies now; Schedule]) \/ hp = [Schedule].
Definition b_point (bp : list action) : Prop := bp = [] \/ bp = Tasklet.t_fun \/ bp = [Print].

(** Interrupts counted whose bottom half is still to be counted, at least:
    one while the handler has not scheduled it, one while it is pending, one
    while it has not counted itself. *)
Definition h_owed (hp : list action) : Z :=
  match hp with [SetJiffies _; Schedule] | [Schedule] => 1 | _ => 0 end.
Definition b_owed (bp : list action) : Z := match bp with [IncBh; Print] => 1 | _ => 0 end.
Definition p_owed (s : st) : Z := if pending s then 1 else 0.

Record inv (w : world) : Prop := {
  inv_h : h_point (hp w);
  inv_b : b_point (bp w);
  inv_counts : counter_th (state w) = s32 (nth (state w)) /\ counter_bh (state w) = s32 (nbh (state w));
  inv_owed : nbh (state w) + h_owed (hp w) + p_owed (state w) + b_owed (bp w) <= nth (state w);
  inv_fresh : pending (state w) = false -> hp w <> [Schedule] -> bp w = [] -> up_to_date (state w)
}.

Definition labs : list lab := [tasklet_lab; workqueue_lab].

Lemma lab_code l : l ∈ labs -> handler l = Tasklet.my_interrupt /\ bottom_half l = Tasklet.t_fun.
Proof. unfold labs. rewrite !elem_of_cons, elem_of_nil. by intros [->|[->|[]]]. Qed.

Lemma s32_succ n : s32 (s32 n + 1) = s32 (n + 1).
Proof. blia. Qed.

Lemma irq_step_inv l w w' : l ∈ labs -> inv w -> step l w w' -> inv w'.
Proof.
  intros [Hh Hb]%lab_code [Ih Ib [Ict Icb] Io If] Hs.
  destruct Hs; simpl in *; rewrite ?Hh, ?Hb in *.
  - split; simpl; [right; left; eauto|done|done|done|]. intros Hp _ Hbp. by apply If.
  - destruct Ih as [?|[[now E]|[[now E]|E]]]; [done|..];
      unfold Tasklet.my_interrupt in *; simplify_eq/=.
    + split; simpl; [right; right; left; eauto|done| | |].
      * by rewrite Ict, s32_succ.
      * unfold p_owed in *; simpl in *; lia.
      * intros Hp _ Hbp. by apply If.
    + split; simpl; [by do 3 right|done|done|done|]. intros _ Hne. by destruct Hne.
    + split; simpl; [by left|done|done| |done]. unfold p_owed in *. simpl in *.
      destruct (pending s); lia.
  - split; simpl; [done|by right; left|done| |done]. unfold p_owed in *. simpl in *.
    rewrite H in Io. lia.
  - destruct Ib as [?|[E|E]]; [done|..]; unfold Tasklet.t_fun in *; simplify_eq/=.
    + split; simpl; [done|by right; right| | |done].
      * by rewrite Icb, s32_succ.
      * unfold p_owed in *; simpl in *; lia.
    + split; simpl; [done|by left|done|done|done].
  - by split.
  - by split.
  - by split.
  - by split.
Qed.

Lemma irq_reachable_inv l w : l ∈ labs -> rtc (step l) loaded w -> inv w.
Proof.
  intros Hl Hr. refine (rtc_ind_r inv loaded _ _ w Hr).
  - split; simpl; try done; by left.
  - intros w1 w2 _ Hst Hi. by eapply irq_step_inv.
Qed.


(** ** Examples *)

Section examples.
(** One interrupt and its bottom half. *)
Definition ex_served : world := World (St 1 1 7 false [(1, 1, 7)] 1 1) [] [] true None.

Lemma ex_served_reachable : rtc (step tasklet_lab) loaded ex_served.
Proof.
  eapply rtc_l; [apply (interrupt _ st0 [] None 7)|].
  do 3 (eapply rtc_l; [apply in_handler|]).
  eapply rtc_l; [apply start_bh; reflexivity|].
  do 2 (eapply rtc_l; [apply in_bh|]). apply rtc_refl.
Defined.

End examples.
