(* ===== verification/IrqThread.v ===== *)
(** * interrupt-labs: interrupt_thread.c, interrupt_add_thread.c

    The labs whose bottom half is a thread: the thread of a threaded interrupt,
    and a kernel thread the module starts itself.  The threads run interleaved
    with the handler and with the unloading of the module. *)

From S2P Require Import Prelude Kernel Interrupt.

(** ** The threaded interrupt *)

Module Threaded.
(** The default of the module parameter [irq]. *)
Definition SHARE_IRQ : Z := 19.

(** [WakeThread] is what returning IRQ_WAKE_THREAD makes the kernel do. *)
Inductive taction := TIncTh | TIncEvents | TWakeThread.

Definition my_interrupt : list taction := [TIncTh; TIncEvents; TWakeThread].

(** The points of thread_run: before the increment of [counter_bh], before
    atomic_dec_and_test, before the printk. *)
Inductive tpc := TIdle | TInc | TDec | TPrint.

Record tst := Tst { counter_th : Z; counter_bh : Z; nevents : Z; wake : bool }.

Definition trun (a : taction) (s : tst) : tst :=
  match a with
  | TIncTh => Tst (s32 (counter_th s + 1)) (counter_bh s) (nevents s) (wake s)
  | TIncEvents => Tst (counter_th s) (counter_bh s) (s32 (nevents s + 1)) (wake s)
  | TWakeThread => Tst (counter_th s) (counter_bh s) (nevents s) true
  end.

(** One step of thread_run at a point. *)
Definition thread_run (p : tpc) (s : tst) : option (tpc * tst) :=
  match p with
  | TIdle => None
  | TInc => Some (TDec, Tst (counter_th s) (s32 (counter_bh s + 1)) (nevents s) (wake s))
  | TDec =>
      let n := s32 (nevents s - 1) in
      Some (if n =? 0 then TPrint else TInc, Tst (counter_th s) (counter_bh s) n (wake s))
  | TPrint => Some (TIdle, s)
  end.

Definition my_init (irq : Z) : M tst Z :=
  modify (fun s => Tst 0 0 0 (wake s));;
  r ← call (request_irq irq);
  if negb (r =? 0) then mret (-1) else mret 0.

Definition my_exit (irq : Z) : M tst () :=
  call (synchronize_irq irq);;
  call (free_irq irq);;
  mret ().

Definition exit_steps : list exit_action := [SyncIrq; FreeIrq].

Record tworld := Tworld {
  tstate : tst; thp : list taction; tp : tpc; tirq_on : bool; tleaving : option (list exit_action)
}.

(** The thread is no longer woken. *)
Definition awake (s : tst) : tst := Tst (counter_th s) (counter_bh s) (nevents s) false.

(** The interrupt thread runs its function when it was woken, and can be woken
    again while it runs.  synchronize_irq waits until the handler and the
    thread are through, free_irq for the handler and the run of the thread. *)
Inductive tstep : tworld -> tworld -> Prop :=
  | t_interrupt s p e : tstep (Tworld s [] p true e) (Tworld s my_interrupt p true e)
  | t_handler s a h p i e : tstep (Tworld s (a :: h) p i e) (Tworld (trun a s) h p i e)
  | t_start s h i e :
      wake s = true -> tstep (Tworld s h TIdle i e) (Tworld (awake s) h TInc i e)
  | t_thread s h p p' s' i e :
      thread_run p s = Some (p', s') -> tstep (Tworld s h p i e) (Tworld s' h p' i e)
  | t_exit_begin s h p i : tstep (Tworld s h p i None) (Tworld s h p i (Some exit_steps))
  | t_sync_irq s i e :
      wake s = false ->
      tstep (Tworld s [] TIdle i (Some (SyncIrq :: e))) (Tworld s [] TIdle i (Some e))
  | t_free_irq s i e :
      tstep (Tworld s [] TIdle i (Some (FreeIrq :: e))) (Tworld (awake s) [] TIdle false (Some e)).

Definition tloaded : tworld := Tworld (Tst 0 0 0 false) [] TIdle true None.

Definition tinv (w : tworld) : Prop :=
  (thp w = [] \/ thp w = my_interrupt \/ thp w = [TIncEvents; TWakeThread] \/ thp w = [TWakeThread]) /\
  (tirq_on w = true -> tp w = TIdle \/ tp w = TPrint -> wake (tstate w) = false ->
   thp w <> [TWakeThread] -> nevents (tstate w) = 0).

Lemma tstep_inv w w' : tinv w -> tstep w w' -> tinv w'.
Proof.
  intros [H1 H2] Hs. destruct Hs as [s p e|s a h p i e|s h i e Hw|s h p p' s' i e E|s h p i|s i e Hw|s i e];
    simpl in *.
  - split; simpl; [auto|]. intros Hi Hp Hw _. by apply H2.
  - destruct H1 as [?|[E|[E|E]]]; [done|..]; unfold my_interrupt in *; simplify_eq/=.
    + split; simpl; [auto|]. intros Hi Hp Hw _. by apply H2.
    + split; simpl; [auto|]. by intros _ _ _ [].
    + split; simpl; [auto|done].
  - split; simpl; [done|]. by intros _ [].
  - destruct p; simplify_eq/=.
    + split; simpl; [done|]. by intros _ [].
    + split; simpl; [done|]. destruct (Z.eqb_spec (s32 (nevents s - 1)) 0) as [-> |]; [done|].
      by intros _ [].
    + split; simpl; [done|]. intros Hi _. apply H2; auto.
  - by split.
  - by split.
  - by split.
Qed.

(** C29.  No event is left behind by the threaded interrupt while its line is
    in use: when its thread is idle, not woken, and no handler is about to wake
    it, [nevents] is 0.  But
    thread_run takes one event for granted: when an interrupt arrives while it
    runs, it handles that event too and is then started again with nothing
    left; it counts a bottom half too many, brings [nevents] to -1 and goes on
    looping. *)
Theorem threaded_irq_events :
  (forall w, rtc tstep tloaded w -> tirq_on w = true -> tp w = TIdle -> wake (tstate w) = false ->
     thp w <> [TWakeThread] -> nevents (tstate w) = 0) /\
  (exists w, rtc tstep tloaded w /\ thp w = [] /\ wake (tstate w) = false /\ tp w = TInc /\
     counter_th (tstate w) = 2 /\ counter_bh (tstate w) = 3 /\ nevents (tstate w) = -1).
Proof.
  split.
  - intros w Hr Hon Hp Hw Hh. enough (tinv w) as [_ Hi] by auto.
    refine (rtc_ind_r tinv tloaded _ _ w Hr); [by split; [left|]|].
    intros w1 w2 _ Hst Hi. by eapply tstep_inv.
  - eexists. split; [|shelve].
    eapply rtc_l; [apply t_interrupt|]. do 3 (eapply rtc_l; [apply t_handler|]).
    eapply rtc_l; [apply t_start; reflexivity|].
    eapply rtc_l; [apply t_interrupt|]. do 3 (eapply rtc_l; [apply t_handler|]).
    do 5 (eapply rtc_l; [apply t_thread; reflexivity|]).
    eapply rtc_l; [apply t_start; reflexivity|].
    do 2 (eapply rtc_l; [apply t_thread; reflexivity|]). apply rtc_refl.
    Unshelve. by split_and!.
Qed.
End Threaded.

(** ** A kernel thread of its own *)

Module AddThread.
(** The default of the module parameter [irq]. *)
Definition SHARE_IRQ : Z := 19.

Inductive aaction := AIncTh | ASetJiffies (now : Z) | ASetCond | AWakeUp.

Definition my_interrupt (now : Z) : list aaction := [AIncTh; ASetJiffies now; ASetCond; AWakeUp].

(** The points of thr_fun: before [cond] is cleared, in
    wait_event_interruptible (about to test, asleep), before the test of
    [cond], before the increment, before the printk, before the test of the
    loop. *)
Inductive apc := AClear | ATest | AAsleep | AIf | AInc | APrint | AWhile | ADone.

(** [nset] counts how often [cond] was set by the handler, [nbh] the bottom
    halves. *)
Record ast := Ast {
  counter_th : Z; counter_bh : Z; jif : Z; cond : Z; should_stop : bool;
  printed : list (Z * Z * Z); nset : Z; nbh : Z
}.

(** wake_up_interruptible. *)
Definition woken (p : apc) : apc := match p with AAsleep => ATest | _ => p end.

Definition arun (a : aaction) (p : apc) (s : ast) : apc * ast :=
  match a with
  | AIncTh => (p, Ast (s32 (counter_th s + 1)) (counter_bh s) (jif s) (cond s) (should_stop s)
                    (printed s) (nset s) (nbh s))
  | ASetJiffies now => (p, Ast (counter_th s) (counter_bh s) now (cond s) (should_stop s)
                    (printed s) (nset s) (nbh s))
  | ASetCond => (p, Ast (counter_th s) (counter_bh s) (jif s) 1 (should_stop s)
                    (printed s) (nset s + 1) (nbh s))
  | AWakeUp => (woken p, s)
  end.

Definition thr_fun (p : apc) (s : ast) : option (apc * ast) :=
  match p with
  | AClear => Some (ATest, Ast (counter_th s) (counter_bh s) (jif s) 0 (should_stop s)
                    (printed s) (nset s) (nbh s))
  | ATest => Some (if should_stop s || negb (cond s =? 0) then AIf else AAsleep, s)
  | AAsleep => None
  | AIf => Some (if negb (cond s =? 0) then AInc else APrint, s)
  | AInc => Some (APrint, Ast (counter_th s) (s32 (counter_bh s + 1)) (jif s) (cond s)
                    (should_stop s) (printed s) (nset s) (nbh s + 1))
  | APrint => Some (AWhile, Ast (counter_th s) (counter_bh s) (jif s) (cond s) (should_stop s)
                    ((counter_th s, counter_bh s, jif s) :: printed s) (nset s) (nbh s))
  | AWhile => Some (if should_stop s then ADone else AClear, s)
  | ADone => None
  end.

(** The static variables of the module. *)
Record mst := Mst { vars : ast; tsk : Z }.
Definition ast0 : ast := Ast 0 0 0 0 false [] 0 0.

(** kthread_run reports failure with an error pointer, which is not NULL. *)
Definition my_init (irq : Z) : M mst Z :=
  modify (fun m => let s := vars m in
    Mst (Ast 0 0 (jif s) 1 (should_stop s) (printed s) 0 0) (tsk m));;
  r ← call (request_irq irq);
  if negb (r =? 0) then mret (-1)
  else
    t ← call (kthread_run "thr_fun");
    modify (fun m => Mst (vars m) t);;
    if t =? 0 then mret (-1) else mret 0.

Definition my_exit (irq : Z) : M mst () :=
  m ← get;
  call (kthread_stop (tsk m));;
  call (synchronize_irq irq);;
  call (free_irq irq);;
  mret ().

Definition exit_steps : list exit_action := [KthreadStop; SyncIrq; FreeIrq].

Record aworld := Aworld {
  astate : ast; ahp : list aaction; ap : apc; airq_on : bool; aleaving : option (list exit_action)
}.

(** kthread_stop sets the flag the thread tests and wakes it, then waits for
    its end; the calls behind it wait for the handler. *)
Definition ask_stop (s : ast) : ast :=
  Ast (counter_th s) (counter_bh s) (jif s) (cond s) true (printed s) (nset s) (nbh s).

Inductive astep : aworld -> aworld -> Prop :=
  | a_interrupt s p now e : astep (Aworld s [] p true e) (Aworld s (my_interrupt now) p true e)
  | a_handler s a h p i e :
      astep (Aworld s (a :: h) p i e) (Aworld (arun a p s).2 h (arun a p s).1 i e)
  | a_thread s h p p' s' i e :
      thr_fun p s = Some (p', s') -> astep (Aworld s h p i e) (Aworld s' h p' i e)
  | a_exit_begin s h p i :
      astep (Aworld s h p i None) (Aworld (ask_stop s) h (woken p) i (Some exit_steps))
  | a_stopped s h i e :
      astep (Aworld s h ADone i (Some (KthreadStop :: e))) (Aworld s h ADone i (Some e))
  | a_sync_irq s p i e :
      astep (Aworld s [] p i (Some (SyncIrq :: e))) (Aworld s [] p i (Some e))
  | a_free_irq s p i e :
      astep (Aworld s [] p i (Some (FreeIrq :: e))) (Aworld s [] p false (Some e)).

(** my_init sets [cond] to 1. *)
Definition aloaded : aworld := Aworld (Ast 0 0 0 1 false [] 0 0) [] AClear true None.

(** A bottom half is due: [cond] was set since it was cleared. *)
Definition due (w : aworld) : Z :=
  match ap w with
  | ATest | AAsleep | AIf => if cond (astate w) =? 0 then 0 else 1
  | AInc => 1
  | _ => 0
  end.

Definition ainv (w : aworld) : Prop :=
  (ahp w = [AWakeUp] \/ (exists now, ahp w = my_interrupt now) \/
   (exists now, ahp w = [ASetJiffies now; ASetCond; AWakeUp]) \/ ahp w = [ASetCond; AWakeUp] \/
   ahp w = []) /\
  nbh (astate w) + due w <= nset (astate w) /\
  counter_bh (astate w) = s32 (nbh (astate w)) /\
  (ap w = AAsleep -> should_stop (astate w) = false /\
     (cond (astate w) <> 0 -> ahp w = [AWakeUp])).

#[local] Arguments Z.eqb : simpl never.

Lemma astep_inv w w' : ainv w -> astep w w' -> ainv w'.
Proof.
  unfold ainv, due. intros (Hh & Hd & Hc & Hz) Hs. destruct Hs as
    [s p now e|s a h p i e|s h p p' s' i e E|s h p i|s h i e|s p i e|s p i e]; simpl in *.
  - split_and!; simpl; try done; [right; left; eauto|]. intros Hp. destruct (Hz Hp) as [? Hw].
    split; [done|]. intros Hne. by specialize (Hw Hne).
  - unfold my_interrupt in *.
    destruct Hh as [E|[[now E]|[[now E]|[E|E]]]]; simplify_eq/=.
    + split_and!; simpl; [by do 4 right|by destruct p|done|by destruct p].
    + split_and!; simpl; [right; right; left; eauto|done|done|]. intros Hp.
      destruct (Hz Hp) as [? Hw]. split; [done|]. intros Hne. by specialize (Hw Hne).
    + split_and!; simpl; [by do 3 right; left|done|done|]. intros Hp.
      destruct (Hz Hp) as [? Hw]. split; [done|]. intros Hne. by specialize (Hw Hne).
    + split_and!; simpl; [by left| |done|]; [destruct p; zify_bool; lia|].
      intros Hp. by destruct (Hz Hp).
  - destruct p; simpl in E; try done; injection E as <- <-; simpl.
    + split_and!; simpl; try done; lia.
    + destruct (should_stop s) eqn:Es; simpl; [by split_and!|].
      destruct (Z.eqb_spec (cond s) 0) as [Ez|Ez]; simpl;
        (split_and!; simpl; [done|zify_bool; lia|done|done]).
    + destruct (Z.eqb_spec (cond s) 0); simpl; (split_and!; simpl; [done|zify_bool; lia|done|done]).
    + split_and!; simpl; [done|lia| |done]. by rewrite Hc, s32_succ.
    + by split_and!.
    + destruct (should_stop s); by split_and!.
  - split_and!; simpl; [done|by destruct p|done|by destruct p].
  - done.
  - done.
  - done.
Qed.

(** C30.  The thread of interrupt_add_thread.c never counts more bottom halves
    than [cond] was set for, and never sleeps while [cond] is set unless the
    handler is about to wake it.  But it clears [cond] itself before it waits:
    an interrupt before that point is lost, the thread sleeps although it has
    neither counted nor printed it. *)
Theorem add_thread_events :
  (forall w, rtc astep aloaded w -> nbh (astate w) <= nset (astate w) /\
     counter_bh (astate w) = s32 (nbh (astate w)) /\
     (ap w = AAsleep -> cond (astate w) <> 0 -> ahp w = [AWakeUp])) /\
  (exists w, rtc astep aloaded w /\ ahp w = [] /\ ap w = AAsleep /\ cond (astate w) = 0 /\
     counter_th (astate w) = 1 /\ counter_bh (astate w) = 0 /\ printed (astate w) = []).
Proof.
  split.
  - intros w Hr. assert (ainv w) as (_ & Hd & Hc & Hz).
    { refine (rtc_ind_r ainv aloaded _ _ w Hr).
      - split_and!; [by do 4 right|done|done|done].
      - intros w1 w2 _ Hst Hi. by eapply astep_inv. }
    split_and!; [|done|by intros Hp; apply Hz].
    unfold due in Hd. destruct (ap w); repeat case_match; lia.
  - eexists. split; [|shelve].
    eapply rtc_l; [apply (a_interrupt _ _ 7 None)|]. do 4 (eapply rtc_l; [apply a_handler|]).
    do 2 (eapply rtc_l; [apply a_thread; reflexivity|]). apply rtc_refl.
    Unshelve. by split_and!.
Qed.
End AddThread.
