(* ===== verification/IrqUnload.v ===== *)
(** * Unloading the interrupt labs

    What a module promises when it is unloaded, for any module that runs a
    handler: once my_exit has begun, it comes to its end as soon as interrupts
    stay away, and when it has ended no code of the module runs any more.
    Three of the four interrupt labs keep the promise; the work queue lab does
    not wait for its work item. *)

From S2P Require Import Prelude Kernel Interrupt IrqThread.

(** ** The promise *)

(** A module that runs: its steps, its state after the load, how much of the
    handler is left, and the calls of my_exit that are left once it began. *)
Class Unloadable (W : Type) := {
  ustep : W -> W -> Prop;
  uloaded : W;
  handler_left : W -> nat;
  exit_left : W -> option (list exit_action)
}.

Section promise.
Context {W : Type} `{Unloadable W}.
Implicit Types w : W.

(** A step that does not start a handler. *)
Definition quiet w w' : Prop := ustep w w' /\ (handler_left w' <= handler_left w)%nat.

Definition gone w : Prop := exit_left w = Some [].

Definition unloads : Prop :=
  (forall w, rtc ustep uloaded w -> exit_left w = None ->
     exists w', ustep w w' /\ exit_left w' <> None) /\
  (forall w, rtc ustep uloaded w -> exit_left w <> None ->
     Acc (flip quiet) w /\
     forall w', rtc quiet w w' -> (forall w'', ~ quiet w' w'') -> gone w') /\
  (forall w, rtc ustep uloaded w -> gone w -> forall w', ~ ustep w w').

(** What a module has to show: an invariant, and a rank that every step on the
    way out lowers. *)
Class UnloadSpec := {
  uinv : W -> Prop;
  urank : W -> Z;
  uinv_loaded : uinv uloaded;
  ubegin w : exit_left w = None -> exists w', ustep w w' /\ exit_left w' <> None;
  uinv_step w w' : uinv w -> ustep w w' -> uinv w';
  exit_left_step w w' : exit_left w <> None -> ustep w w' -> exit_left w' <> None;
  urank_nonneg w : 0 <= urank w;
  urank_step w w' : uinv w -> exit_left w <> None -> quiet w w' -> urank w' < urank w;
  uprogress w : uinv w -> exit_left w <> None -> gone w \/ exists w', quiet w w';
  gone_stuck w w' : uinv w -> gone w -> ~ ustep w w'
}.

Context `{!UnloadSpec}.

Lemma uinv_rtc w w' : uinv w -> rtc ustep w w' -> uinv w'.
Proof. intros Hi Hr. eapply rtc_preserves; [|exact Hr|done]. intros a b Hs Ha. by eapply uinv_step. Qed.

Lemma leaving_ends w : uinv w -> exit_left w <> None -> Acc (flip quiet) w.
Proof.
  remember (urank w) as k eqn:Hk. revert w Hk.
  induction k as [k IH] using (well_founded_induction (Z.lt_wf 0)).
  intros w -> Hi Hl. constructor. intros w' [Hs Hq].
  eapply IH; [|reflexivity|by eapply uinv_step|by eapply exit_left_step].
  split; [apply urank_nonneg|]. by apply urank_step.
Qed.

Lemma quiet_rtc w w' :
  rtc quiet w w' -> rtc ustep w w' /\ (exit_left w <> None -> exit_left w' <> None).
Proof.
  induction 1 as [|w1 w2 w3 [Hs _] _ [IH1 IH2]]; [done|]. split; [by eapply rtc_l|].
  intros Hl. by eapply IH2, exit_left_step.
Qed.

Lemma unload_spec_unloads : unloads.
Proof.
  split_and!.
  - intros w _. apply ubegin.
  - intros w Hr Hl. pose proof (uinv_rtc _ _ uinv_loaded Hr) as Hi. split; [by apply leaving_ends|].
    intros w' Hq Hno. apply quiet_rtc in Hq as [Hs Hk].
    destruct (uprogress w') as [|[w'' Hw]]; [by eapply uinv_rtc|by apply Hk|done|].
    by destruct (Hno w'').
  - intros w Hr Hg w'. apply gone_stuck; [|done]. eapply uinv_rtc; [apply uinv_loaded|done].
Qed.
End promise.

Arguments UnloadSpec W {_}.
Arguments unloads W {_}.

(** ** Tasklet and work queue *)

Definition interrupt_unloadable (l : lab) : Unloadable Interrupt.world := {|
  ustep := step l; uloaded := loaded; handler_left w := length (hp w); exit_left := leaving
|}.

Section tasklet.
#[local] Instance tasklet_unloadable : Unloadable Interrupt.world := interrupt_unloadable tasklet_lab.

(** Past free_irq there is no handler, past tasklet_kill no bottom half. *)
Definition tasklet_exit (w : Interrupt.world) : Prop :=
  match leaving w with
  | None => True
  | Some e =>
      e = [SyncIrq; FreeIrq; TaskletKill] \/ e = [FreeIrq; TaskletKill] \/
      (irq_on w = false /\ hp w = [] /\
       (e = [TaskletKill] \/ (e = [] /\ pending (state w) = false /\ bp w = [])))
  end.

Lemma tasklet_exit_step w w' : tasklet_exit w -> step tasklet_lab w w' -> tasklet_exit w'.
Proof.
  unfold tasklet_exit. intros Hi Hs.
  destruct Hs as [s bp [e|] now|s a hp bp i [e|]|s hp i [e|] Hp|s hp a bp i [e|]|s hp bp i|s bp i e
    |s bp i e|s hp i e Hp]; simpl in *; intuition (simplify_eq/=; intuition congruence).
Qed.

(** What is left to do: the calls of my_exit, the bottom half running and the
    one pending, the handler, which makes one pending. *)
Definition tasklet_rank (w : Interrupt.world) : Z :=
  Z.of_nat (default 0%nat (length <$> leaving w)) + Z.of_nat (length (bp w)) +
  (if pending (state w) then 4 else 0) + 10 * Z.of_nat (length (hp w)).

Lemma tasklet_rank_step w w' :
  b_point (bp w) -> leaving w <> None -> step tasklet_lab w w' -> (length (hp w') <= length (hp w))%nat ->
  tasklet_rank w' < tasklet_rank w.
Proof.
  unfold tasklet_rank, b_point, Tasklet.t_fun. intros Hb Hl Hs.
  destruct Hs as [s bp e now|s a hp bp i e|s hp i e Hp|s hp a bp i e|s hp bp i|s bp i e|s bp i e
    |s hp i e Hp]; cbn -[Z.mul] in *; intros Hq; try done; rewrite ?Hp;
    try match type of Hb with _ :: _ = _ \/ _ => destruct Hb as [Hb|[Hb|Hb]]; simplify_eq end;
    try (destruct a; cbn -[Z.mul]); cbn -[Z.mul]; repeat case_match; lia.
Qed.

Lemma tasklet_progress w :
  tasklet_exit w -> leaving w <> None -> leaving w = Some [] \/ exists w', quiet w w'.
Proof.
  unfold tasklet_exit, quiet; simpl. destruct w as [s h b i [e|]]; [|done]. simpl. intros Hi _.
  destruct h as [|a h]; [|right; eexists; split; [apply in_handler|simpl; lia]].
  destruct Hi as [->|[->|(-> & _ & [->|[-> _]])]]; [right..|by left].
  - eexists. split; [apply exit_sync_irq|done].
  - eexists. split; [apply exit_free_irq|done].
  - destruct b as [|a b]; [|eexists; split; [apply in_bh|done]].
    destruct (pending s) eqn:Hp; [eexists; split; [by apply start_bh|done]|].
    eexists. split; [by apply exit_tasklet_kill|done].
Qed.

Lemma tasklet_stuck w w' : tasklet_exit w -> leaving w = Some [] -> ~ step tasklet_lab w w'.
Proof.
  unfold tasklet_exit. intros Hi E. rewrite E in Hi.
  destruct Hi as [?|[?|(Ei & Eh & [?|(_ & Ep & Eb)])]]; [done..|].
  intros Hs. destruct Hs; simpl in *; congruence.
Qed.

#[local] Instance tasklet_spec : UnloadSpec Interrupt.world.
Proof.
  assert (tasklet_lab ∈ labs) as Hlab by left.
  refine {| uinv w := inv w /\ tasklet_exit w; urank := tasklet_rank |}; simpl.
  - split; [|done]. by apply (irq_reachable_inv tasklet_lab).
  - intros [s h b i [e|]]; [done|]. intros _. eexists. split; [apply exit_begin|done].
  - intros w w' [Hi He] Hs. split; [by eapply irq_step_inv|by eapply tasklet_exit_step].
  - intros w w' Hl Hs. by destruct Hs.
  - intros w. unfold tasklet_rank. destruct (pending (state w)); lia.
  - intros w w' [Hi _] Hl [Hs Hq]. apply tasklet_rank_step; [apply Hi|done..].
  - intros w [_ He]. by apply tasklet_progress.
  - intros w w' [_ He]. by apply tasklet_stuck.
Qed.

Lemma tasklet_unloads : unloads Interrupt.world.
Proof. apply unload_spec_unloads. Qed.
End tasklet.

(** ** The threaded interrupt *)

Section threaded.
Import Threaded.

#[local] Instance threaded_unloadable : Unloadable tworld := {|
  ustep := tstep; uloaded := tloaded; handler_left w := length (thp w); exit_left := tleaving
|}.

Definition threaded_exit (w : tworld) : Prop :=
  match tleaving w with
  | None => True
  | Some e =>
      e = [SyncIrq; FreeIrq] \/ e = [FreeIrq] \/
      (e = [] /\ tirq_on w = false /\ thp w = [] /\ tp w = TIdle /\ wake (tstate w) = false)
  end.

Lemma threaded_exit_step w w' : threaded_exit w -> tstep w w' -> threaded_exit w'.
Proof.
  unfold threaded_exit, exit_steps. intros Hi Hs.
  destruct Hs as [s p [e|]|s a h p i [e|]|s h i [e|] Hw|s h p p' s' i [e|] E|s h p i|s i e Hw|s i e];
    simpl in *; intuition (simplify_eq/=; intuition congruence).
Qed.

(** The iterations of the loop of thread_run that are left: [nevents] counts
    down to 0, if need be all the way round. *)
Definition turns (n : Z) : Z := (n - 1) mod 2 ^ 32.

Lemma turns_bound n : 0 <= turns n < 2 ^ 32.
Proof. unfold turns. apply Z.mod_pos_bound. lia. Qed.

Lemma turns_end n : s32 (n - 1) = 0 <-> turns n = 0.
Proof. unfold turns. unfold_int. zify_bool; Z.div_mod_to_equations; lia. Qed.

Lemma turns_step n : turns n <> 0 -> turns (s32 (n - 1)) = turns n - 1.
Proof. unfold turns. unfold_int. zify_bool; Z.div_mod_to_equations; lia. Qed.

Definition thread_rank (p : tpc) (n : Z) : Z :=
  match p with TIdle => 0 | TPrint => 1 | TDec => 2 + 2 * turns n | TInc => 3 + 2 * turns n end.

Lemma thread_rank_bound p n : 0 <= thread_rank p n < 2 ^ 34.
Proof. pose proof (turns_bound n). destruct p; simpl; lia. Qed.

Lemma thread_rank_step p s p' s' :
  thread_run p s = Some (p', s') ->
  thread_rank p' (nevents s') < thread_rank p (nevents s) /\ wake s' = wake s.
Proof.
  destruct p; simpl; intros; simplify_eq/=; split; try done; try lia.
  destruct (Z.eqb_spec (s32 (nevents s - 1)) 0) as [E|E]; simpl; [pose proof (turns_bound (nevents s)); lia|].
  rewrite turns_step; [lia|]. by rewrite <- turns_end.
Qed.

(** A wake-up counts for more than any run of the thread. *)
Definition threaded_rank (w : tworld) : Z :=
  Z.of_nat (default 0%nat (length <$> tleaving w)) +
  2 ^ 35 * (2 * Z.of_nat (length (thp w)) + if wake (tstate w) then 1 else 0) +
  thread_rank (tp w) (nevents (tstate w)).

Lemma threaded_rank_step w w' :
  tleaving w <> None -> tstep w w' -> (length (thp w') <= length (thp w))%nat ->
  threaded_rank w' < threaded_rank w.
Proof.
  unfold threaded_rank. intros Hl Hs.
  destruct Hs as [s p e|s a h p i e|s h i e Hw|s h p p' s' i e E|s h p i|s i e Hw|s i e];
    cbn [tstate thp tp tleaving length]; intros Hq; [simpl in Hq; lia|..|done| |].
  - pose proof (thread_rank_bound p (nevents s)). pose proof (thread_rank_bound p (nevents (trun a s))).
    destruct a, (wake s) eqn:Ew; cbn [trun wake nevents] in *; rewrite ?Ew; lia.
  - pose proof (thread_rank_bound TInc (nevents s)). rewrite Hw. unfold awake; cbn [wake nevents].
    change (thread_rank TIdle _) with 0. lia.
  - apply thread_rank_step in E as [Hr ->]. lia.
  - cbn. lia.
  - unfold awake; cbn -[Z.mul]. destruct (wake s); lia.
Qed.

Lemma threaded_progress w :
  threaded_exit w -> tleaving w <> None -> tleaving w = Some [] \/ exists w', quiet w w'.
Proof.
  unfold threaded_exit, quiet; simpl. destruct w as [s h p i [e|]]; [|done]. simpl. intros Hi _.
  destruct h as [|a h]; [|right; eexists; split; [apply t_handler|simpl; lia]].
  destruct p; [|right; eexists; (split; [by apply t_thread|done])..].
  destruct Hi as [->|[->|(-> & _)]]; [right..|by left].
  - destruct (wake s) eqn:Hw; [eexists; split; [by apply t_start|done]|].
    eexists. split; [by apply t_sync_irq|done].
  - eexists. split; [apply t_free_irq|done].
Qed.

Lemma threaded_stuck w w' : threaded_exit w -> tleaving w = Some [] -> ~ tstep w w'.
Proof.
  unfold threaded_exit. intros Hi E. rewrite E in Hi.
  destruct Hi as [?|[?|(_ & Ei & Eh & Ep & Ew)]]; [done..|].
  intros Hs. destruct Hs as [| | |s h p p' s' i e Ht| | |]; simpl in *; try congruence.
  by rewrite Ep in Ht.
Qed.

#[local] Instance threaded_spec : UnloadSpec tworld.
Proof.
  refine {| uinv := threaded_exit; urank := threaded_rank |}; simpl.
  - done.
  - intros [s h p i [e|]]; [done|]. intros _. eexists. split; [apply t_exit_begin|done].
  - exact threaded_exit_step.
  - intros w w' Hl Hs. by destruct Hs.
  - intros w. unfold threaded_rank. pose proof (thread_rank_bound (tp w) (nevents (tstate w))).
    destruct (wake (tstate w)); lia.
  - intros w w' _ Hl [Hs Hq]. by apply threaded_rank_step.
  - exact threaded_progress.
  - exact threaded_stuck.
Qed.

Lemma threaded_unloads : unloads tworld.
Proof. apply unload_spec_unloads. Qed.
End threaded.

(** ** The thread of its own *)

Section add_thread.
Import AddThread.

#[local] Instance add_thread_unloadable : Unloadable aworld := {|
  ustep := astep; uloaded := aloaded; handler_left w := length (ahp w); exit_left := aleaving
|}.

Definition add_thread_exit (w : aworld) : Prop :=
  match aleaving w with
  | None => True
  | Some e =>
      should_stop (astate w) = true /\ ap w <> AAsleep /\
      (e = exit_steps \/
       (ap w = ADone /\
        (e = [SyncIrq; FreeIrq] \/ e = [FreeIrq] \/
         (e = [] /\ airq_on w = false /\ ahp w = []))))
  end.

Lemma add_thread_exit_step w w' : add_thread_exit w -> astep w w' -> add_thread_exit w'.
Proof.
  unfold add_thread_exit, exit_steps. intros Hi Hs.
  destruct Hs as [s p now [e|]|s a h p i [e|]|s h p p' s' i [e|] E|s h p i|s h i e|s p i e|s p i e];
    simpl in *; try done.
  - intuition (simplify_eq/=; intuition congruence).
  - destruct Hi as (Hs & Hp & Hi). destruct a; simpl; (split; [done|]);
      (split; [by destruct p|]); intuition (subst; simplify_eq/=; intuition congruence).
  - destruct Hi as (Hs & Hp & Hi). destruct p; simpl in E; rewrite ?Hs in E; simplify_eq/=;
      (split; [done|]); (split; [by repeat case_match|]); intuition (simplify_eq/=; intuition congruence).
  - split; [done|]. split; [by destruct p|]. by left.
  - intuition (simplify_eq/=; intuition congruence).
  - intuition (simplify_eq/=; intuition congruence).
  - intuition (simplify_eq/=; intuition congruence).
Qed.

(** The steps left of the thread once it was asked to stop. *)
Definition stop_rank (p : apc) : Z :=
  match p with
  | AClear => 6 | ATest => 5 | AIf => 4 | AInc => 3 | APrint => 2 | AWhile => 1
  | AAsleep | ADone => 0
  end.

Definition add_thread_rank (w : aworld) : Z :=
  Z.of_nat (default 0%nat (length <$> aleaving w)) + 10 * Z.of_nat (length (ahp w)) +
  stop_rank (ap w).

Lemma add_thread_rank_step w w' :
  add_thread_exit w -> aleaving w <> None -> astep w w' -> (length (ahp w') <= length (ahp w))%nat ->
  add_thread_rank w' < add_thread_rank w.
Proof.
  unfold add_thread_exit, add_thread_rank. intros Hi Hl Hs.
  destruct Hs as [s p now e|s a h p i e|s h p p' s' i e E|s h p i|s h i e|s p i e|s p i e];
    cbn -[Z.mul] in *; intros Hq; try done; try lia.
  - destruct a; cbn -[Z.mul]; try lia. destruct p; cbn -[Z.mul]; lia.
  - destruct e as [e|]; [|done]. destruct Hi as (Hs & Hp & _).
    destruct p; simpl in E; rewrite ?Hs in E; simplify_eq/=; repeat case_match; simpl; lia.
Qed.

Lemma add_thread_progress w :
  add_thread_exit w -> aleaving w <> None -> aleaving w = Some [] \/ exists w', quiet w w'.
Proof.
  unfold add_thread_exit, quiet; simpl. destruct w as [s h p i [e|]]; [|done]. simpl.
  intros (Hs & Hp & Hi) _.
  destruct h as [|a h]; [|right; eexists; split; [apply a_handler|simpl; lia]].
  destruct Hi as [->|(-> & [->|[->|(-> & _)]])]; [right..|by left].
  - destruct p; try done; try (eexists; split; [by apply a_thread|done]).
    eexists. split; [apply a_stopped|done].
  - eexists. split; [apply a_sync_irq|done].
  - eexists. split; [apply a_free_irq|done].
Qed.

Lemma add_thread_stuck w w' : add_thread_exit w -> aleaving w = Some [] -> ~ astep w w'.
Proof.
  unfold add_thread_exit. intros Hi E. rewrite E in Hi.
  destruct Hi as (_ & _ & [?|(Ep & [?|[?|(_ & Ei & Eh)]])]); [done..|].
  intros Hs. destruct Hs as [| |s h p p' s' i e Ht| | | |]; simpl in *; try congruence.
  by rewrite Ep in Ht.
Qed.

#[local] Instance add_thread_spec : UnloadSpec aworld.
Proof.
  refine {| uinv := add_thread_exit; urank := add_thread_rank |}; simpl.
  - done.
  - intros [s h p i [e|]]; [done|]. intros _. eexists. split; [apply a_exit_begin|done].
  - exact add_thread_exit_step.
  - intros w w' Hl Hs. by destruct Hs.
  - intros w. unfold add_thread_rank. destruct (ap w); simpl; lia.
  - intros w w' Hi Hl [Hs Hq]. by apply add_thread_rank_step.
  - exact add_thread_progress.
  - exact add_thread_stuck.
Qed.

Lemma add_thread_unloads : unloads aworld.
Proof. apply unload_spec_unloads. Qed.
End add_thread.

(** ** The four labs *)

(** The worlds the runs start from are what my_init leaves when the kernel
    grants the line and the thread. *)
Lemma irq_labs_loaded irq env :
  (forall tr, (env tr (request_irq irq)).1 = 0) ->
  (forall tr, (env tr (kthread_run "thr_fun")).1 <> 0) ->
  wp (Tasklet.my_init irq) env st0 [] (fun r s _ => r = Some 0 /\ s = state loaded) /\
  wp (Workqueue.my_init irq) env st0 [] (fun r s _ => r = Some 0 /\ s = state loaded) /\
  wp (Threaded.my_init irq) env (Threaded.Tst 0 0 0 false) []
    (fun r s _ => r = Some 0 /\ s = Threaded.tstate Threaded.tloaded) /\
  wp (AddThread.my_init irq) env (AddThread.Mst AddThread.ast0 0) []
    (fun r s _ => r = Some 0 /\ AddThread.vars s = AddThread.astate AddThread.aloaded).
Proof.
  intros Hr Hk.
  unfold Tasklet.my_init, Workqueue.my_init, Threaded.my_init, AddThread.my_init. split_and!; wpure.
  1,2: apply wp_bind_call; intros ? ? _.
  all: apply wp_bind_call; intros ? ? ->%(answer_is _ _ _ _ (fun z => z = 0) _ Hr); simpl; wpure.
  1-3: done.
  apply wp_bind_call. intros t ? Ht%(answer_is _ _ _ _ (fun z => z <> 0) _ Hk). wpure.
  rewrite (proj2 (Z.eqb_neq t 0)) by done. by wpure.
Qed.

(** The work queue lab unloaded right after an interrupt. *)
Definition work_left : Interrupt.world := World (St 1 0 7 true [] 1 0) [] [] false (Some []).

Lemma work_left_reachable : rtc (step workqueue_lab) loaded work_left.
Proof.
  eapply rtc_l; [apply (interrupt _ st0 [] None 7)|]. do 3 (eapply rtc_l; [apply in_handler|]).
  eapply rtc_l; [apply exit_begin|]. eapply rtc_l; [apply exit_sync_irq|].
  eapply rtc_l; [apply exit_free_irq|]. apply rtc_refl.
Qed.

(** C27.  Unloading the interrupt labs.  The tasklet lab, the threaded interrupt
    and the lab with a thread of its own can be unloaded at any time; once
    my_exit has begun there is no infinite run without further interrupts,
    however the rest interleaves, and a run that can go no further has ended
    my_exit; and once my_exit has ended no handler, bottom half or thread of
    the module ever takes a step again.  The work queue lab does not wait for
    its work item: my_exit can end with the item pending, whose function then
    starts in memory that was freed. *)
Theorem irq_labs_unload :
  unloads Interrupt.world (H := interrupt_unloadable tasklet_lab) /\
  unloads Threaded.tworld (H := threaded_unloadable) /\
  unloads AddThread.aworld (H := add_thread_unloadable) /\
  exists w w', rtc (step workqueue_lab) loaded w /\ leaving w = Some [] /\
    step workqueue_lab w w' /\ bp w' = Workqueue.t_fun.
Proof.
  split_and!; [exact tasklet_unloads|exact threaded_unloads|exact add_thread_unloads|].
  exists work_left, (World (St 1 0 7 false [] 1 0) [] Workqueue.t_fun false (Some [])).
  split_and!; [exact work_left_reachable|done|by apply (start_bh workqueue_lab)|done].
Qed.
