(* ===== verification/Modules.v ===== *)
(** * The modules as the kernel sees them

    Every lab that is a module names one function to run when it is loaded and
    one to run when it is unloaded.  This file puts the labs that take
    resources from the kernel into one table, runs the life of a module the way
    the kernel does, and states for each of them whether its books balance: in
    a kernel that grants every request, and in any kernel at all. *)

From S2P Require Import MmapRoot MmapLab RamhdMkreq RamhdReq SampleBlk LabMisc LabChar WaitEvent.
From S2P Require Import NetHash ListLabs Kobject Poll MemLabs Hooks Deferred ProductTree Sync.
From S2P Require Import Interrupt IrqThread.
From S2P Require Import Prelude CMem PhysMem Kernel.

(** ** Life of a module *)

Record kmodule := KModule {
  mstate : Type; mstart : mstate; module_init : M mstate Z; module_exit : M mstate ()
}.

(** The kernel gives up on a module whose init function returns a negative
    value and never runs its exit function; otherwise the module stays until
    it is unloaded.  The result is what is left when the module is gone,
    [None] for an oops or for something given back that was not held. *)
Definition life (m : kmodule) (env : kenv) : option (list res) :=
  match module_init m env (mstart m) [] with
  | (None, _, _) => None
  | (Some r, s, tr) =>
      if r <? 0 then audit tr
      else match module_exit m env s tr with
           | (Some _, _, tr') => audit tr'
           | (None, _, _) => None
           end
  end.

(** The return value of an init function that also reports what it printed. *)
Definition status {S A} (c : M S (Z * A)) : M S Z := r ← c; mret r.1.
Definition ignore {S A} (c : M S A) : M S () := c;; mret ().

(** A list operation that ran off is an oops. *)
Definition finished {S A} (c : M S (outcome A)) : M S () :=
  o ← c; match o with Done _ => mret () | _ => oops end.

(** ** The table *)

(** The address of the list head of list.c. *)
Definition my_list : Z := 1.

Section table.
(** Contents of fresh memory, addresses, and sizes that only the kernel
    knows.  The memory of a module that starts is what it allocates. *)
Context (junk : Z -> Z) (kva virt_to_phys va pa : Z -> Z) (HZ : Z).
Context (PG : list Z) (virt_to_page : Z -> option MemLabs.Rammap.page).
Context (sizeof_notifier_block sizeof_kobject sizeof_my_entry : Z).
Context (junk_table : list NetHash.hlist) (junk_devs : list NetHash.net_device).
Context (ram : pmem).
(** The parameter of the interrupt modules. *)
Context (irq : Z).

Definition sample_blk : kmodule :=
  KModule _ (SampleBlk.st0 ∅) (SampleBlk.sampleblk_init junk) SampleBlk.sampleblk_exit.
Definition ramhd_mkreq : kmodule :=
  KModule _ (RamhdMkreq.st0 ∅) (RamhdMkreq.ramhd_init junk) RamhdMkreq.ramhd_exit.
Definition ramhd_req : kmodule :=
  KModule _ (RamhdMkreq.st0 ∅) (RamhdReq.ramhd_init junk) RamhdReq.ramhd_exit.
Definition lab_misc : kmodule :=
  KModule _ (LabMisc.st0 ∅) (LabMisc.my_generic_init junk) LabMisc.my_generic_exit.
Definition lab_char : kmodule :=
  KModule _ LabChar.st0 LabChar.my_generic_init LabChar.my_generic_exit.
Definition wait_event : kmodule :=
  KModule _ (WaitEvent.St 0 0 ∅) (WaitEvent.my_generic_init junk) WaitEvent.my_generic_exit.
Definition poll : kmodule := KModule _ Poll.st0 Poll.my_init Poll.my_exit.
Definition mmap_root : kmodule :=
  KModule _ MmapRoot.Cve.st0 MmapRoot.Cve.cve_mmap_init MmapRoot.Cve.cve_mmap_exit.
Definition kmalloc_lab : kmodule :=
  KModule _ (MmapRoot.Kstr.St 0 ram) (MmapRoot.Kstr.init_kmalloc virt_to_phys)
    (ignore (MmapRoot.Kstr.exit_kmalloc virt_to_phys)).
Definition mmap_lab : kmodule :=
  KModule _ (MmapLab.st0 ram) (MmapLab.demo_map_init HZ kva) MmapLab.demo_map_exit.
Definition rammap : kmodule :=
  KModule _ 0 (status (MemLabs.Rammap.mod_init PG virt_to_page va pa)) MemLabs.Rammap.mod_exit.
Definition kmem_cache : kmodule :=
  KModule _ MemLabs.Slab.st0 MemLabs.Slab.jslab_init MemLabs.Slab.jslab_exit.
Definition high_mem : kmodule :=
  KModule _ (∅ : mem) (status (MemLabs.HighMem.my_mod_init junk)) MemLabs.HighMem.my_mod_exit.
Definition list_lab : kmodule :=
  KModule _ (ListLabs.MyList.St [my_list] ∅) (status (ListLabs.MyList.my_init my_list sizeof_my_entry 3))
    (finished (ListLabs.MyList.my_exit my_list 3)).
Definition hlist_lab : kmodule :=
  KModule _ (NetHash.St 0 0 [] []) (status (NetHash.hlist_module_init junk_table junk_devs))
    NetHash.hlist_module_exit.
Definition notifier : kmodule :=
  KModule _ Hooks.Notifier.st0 (Hooks.Notifier.hello_init sizeof_notifier_block) Hooks.Notifier.hello_exit.
Definition kprobe : kmodule :=
  KModule _ () Hooks.Kprobe.init_kprobe_sample Hooks.Kprobe.cleanup_kprobe_sample.
Definition kobject_event : kmodule :=
  KModule _ Kobject.st0 (Kobject.kobj_init sizeof_kobject) Kobject.kobj_exit.
Definition interrupt_tasklet : kmodule :=
  KModule _ Interrupt.st0 (Interrupt.Tasklet.my_init irq) (Interrupt.Tasklet.my_exit irq).
Definition interrupt_workqueue : kmodule :=
  KModule _ Interrupt.st0 (Interrupt.Workqueue.my_init irq) (Interrupt.Workqueue.my_exit irq).
Definition interrupt_thread : kmodule :=
  KModule _ (IrqThread.Threaded.Tst 0 0 0 false) (IrqThread.Threaded.my_init irq) (IrqThread.Threaded.my_exit irq).
Definition interrupt_add_thread : kmodule :=
  KModule _ (IrqThread.AddThread.Mst IrqThread.AddThread.ast0 0) (IrqThread.AddThread.my_init irq)
    (IrqThread.AddThread.my_exit irq).
Definition spinlock : kmodule :=
  KModule _ (Sync.Spinlock.St 0 0 0) Sync.Spinlock.my_mod_init Sync.Spinlock.my_mod_exit.
Definition mutex : kmodule :=
  KModule _ (Sync.Mutex.St 0 0 0 0) Sync.Mutex.my_mod_init Sync.Mutex.my_mod_exit.
Definition rw_lock : kmodule :=
  KModule _ (Sync.RwSpin.St 0 0 0 0 0) Sync.RwSpin.my_mod_init Sync.RwSpin.my_mod_exit.
Definition atomic : kmodule :=
  KModule _ (Sync.Atomic.St 0 0 0) Sync.Atomic.my_mod_init Sync.Atomic.my_mod_exit.
Definition completion : kmodule :=
  KModule _ (Sync.Completion.St 0 0 0 0) Sync.Completion.my_mod_init Sync.Completion.my_mod_exit.
Definition kthread_lab : kmodule := KModule _ 0 Deferred.thread_init Deferred.thread_exit.

#[local] Existing Instance ProductTree.chain.
Definition rbtree : kmodule :=
  KModule _ ProductTree.st0 (ProductTree.rbtree_init 4) (ProductTree.rbtree_exit 4).

(** A module with the two verdicts on it: whether nothing is left, and nothing
    given back twice, when the kernel grants every request, and whether that
    holds whatever the kernel answers. *)
Record entry := Entry { source : string; code : kmodule; balances : bool; unwinds : bool }.

Definition lab_modules : list entry := [
  Entry "ramdisk-lab/sample_blk.c" sample_blk true false;
  Entry "ramdisk-lab/ramhd_mkreq.c" ramhd_mkreq true false;
  Entry "ramdisk-lab/ramhd_req.c" ramhd_req true false;
  Entry "char-device-labs/lab-misc.c" lab_misc true false;
  Entry "char-device-labs/lab-char.c" lab_char false false;
  Entry "wait-event-labs/wait_event.c" wait_event true false;
  Entry "poll-labs/poll.c" poll true true;
  Entry "mmap-root/mmap-root.c" mmap_root false false;
  Entry "mmap-root/kmalloc.c" kmalloc_lab true true;
  Entry "mmap-labs/mmap.c" mmap_lab false false;
  Entry "mmap-labs/rammap.c" rammap false false;
  Entry "mm-lab/mod_kmem_cache.c" kmem_cache true false;
  Entry "sync/high_mem.c" high_mem true true;
  Entry "data-struct-labs/list.c" list_lab true false;
  Entry "data-struct-labs/hlist.c" hlist_lab true true;
  Entry "data-struct-labs/rbtree.c" rbtree false false;
  Entry "notifier-labs/notifier-module.c" notifier true false;
  Entry "kprobe-labs/kprobe.c" kprobe true false;
  Entry "kobject-ueveng-lab/kobject-event.c" kobject_event false false;
  Entry "interrupt-labs/interrupt_tasklet.c" interrupt_tasklet true true;
  Entry "interrupt-labs/interrupt_workqueue.c" interrupt_workqueue true true;
  Entry "interrupt-labs/interrupt_thread.c" interrupt_thread true true;
  Entry "interrupt-labs/interrupt_add_thread.c" interrupt_add_thread true false;
  Entry "sync/spinlock.c" spinlock true false;
  Entry "sync/mutex.c" mutex false false;
  Entry "sync/rw_lock.c" rw_lock true false;
  Entry "sync/atomic.c" atomic true false;
  Entry "sync/completion.c" completion false false;
  Entry "sched-lab/kthread_run.c" kthread_lab true false].
End table.

(** ** Kernels *)

(** A kernel that grants every request. *)
Definition grant_env : kenv := fun tr c =>
  match c with
  | kallsyms_lookup_name _ | kobject_create_and_add _ _ | kset_create_and_add _ _ | ioremap _ _ =>
      (4096, 0)
  | _ => nice_env tr c
  end.

(** How each call reports failure. *)
Definition refusal (c : kcall) : Z * Z :=
  if alloc_call c then (0, 0)
  else match c with
       | kallsyms_lookup_name _ | kobject_create_and_add _ _ | kset_create_and_add _ _
       | ioremap _ _ => (0, 0)
       | class_create _ | device_create _ _ _ | kthread_run _ => (2 ^ 64 - ENOMEM, 0)
       | _ => (- ENOMEM, 0)
       end.

(** A kernel that grants every request but the one after [n] calls. *)
Definition refuse_at (n : nat) : kenv := fun tr c =>
  if Nat.eqb (length tr) n then refusal c else grant_env tr c.

Lemma grant_env_errno : errno_env grant_env.
Proof. intros tr c Hc. by destruct c. Qed.

Lemma refuse_at_errno n : errno_env (refuse_at n).
Proof. intros tr c Hc. unfold refuse_at. by destruct (Nat.eqb _ _), c. Qed.

(** ** The books *)

Definition books (e : entry) : Prop :=
  (life (code e) grant_env = Some [] <-> balances e = true) /\
  ((forall env, errno_env env -> life (code e) env = Some []) <-> unwinds e = true).

Definition clean (o : option (list res)) : bool := match o with Some [] => true | _ => false end.

Lemma clean_spec o b : clean o = b -> (o = Some [] <-> b = true).
Proof. intros <-. destruct o as [[]|]; naive_solver. Qed.

(** A module that unwinds balances in particular. *)
Lemma books_unwind p m :
  (forall env, errno_env env -> life m env = Some []) -> books (Entry p m true true).
Proof. intros H. split; simpl; split; try done. intros _. apply H, grant_env_errno. Qed.

(** A module that does not: one refused request is enough to see it. *)
Lemma books_refused p m b n :
  clean (life m grant_env) = b -> clean (life m (refuse_at n)) = false -> books (Entry p m b false).
Proof.
  intros Hb Hn. split; simpl; [by apply clean_spec|]. split; [|done]. intros H.
  by rewrite H in Hn by apply refuse_at_errno.
Qed.

(** The life of a module, step by step. *)
Lemma life_wp m env :
  wp (module_init m) env (mstart m) [] (fun r s tr => exists v, r = Some v /\
    if v <? 0 then audit tr = Some []
    else wp (module_exit m) env s tr (fun a _ tr' => a = Some () /\ audit tr' = Some [])) ->
  life m env = Some [].
Proof.
  unfold life, wp. destruct (module_init m env (mstart m) []) as [[r s] tr]. simpl.
  intros (v & -> & H). destruct (v <? 0); [done|].
  destruct (module_exit m env s tr) as [[a ?] ?]. simpl in H. by destruct H as [-> ?].
Qed.

Section unwinding.
Context (env : kenv) (Herr : errno_env env).

Lemma failure_ltb e : failure env e -> (e <? 0) = true.
Proof. intros [_ H]. apply Z.ltb_lt. auto. Qed.

Lemma poll_life : life poll env = Some [].
Proof.
  apply life_wp. simpl. unfold Poll.my_init. apply wp_bind_call. intros r o _.
  destruct (Z.eqb_spec r 0) as [->|Hr]; simpl; wpure; eexists; (split; [done|]); simpl.
  - assert (audit [(misc_register "mycdev", (0, o))] = Some [RMisc "mycdev"]) as A by done.
    unfold Poll.my_exit. wpop A. wpure. done.
  - by apply (audit_silent [] _ _ _ []); [|simpl; by rewrite if_null|..].
Qed.

Lemma kmalloc_life virt_to_phys ram : life (kmalloc_lab virt_to_phys ram) env = Some [].
Proof.
  apply life_wp. simpl. unfold Kstr.init_kmalloc. apply wp_bind_call. intros r o _. wpure.
  destruct (Z.eqb_spec r 0) as [->|Hr]; wpure; eexists; (split; [done|]); [done|]. simpl.
  assert (audit [(kmalloc 20, (r, o))] = Some [RMem r]) as A
    by (apply (audit_acquire [] _ _ _ []); [done|acq]).
  unfold ignore, Kstr.exit_kmalloc. wpure. wpop A. wpure. done.
Qed.

Lemma high_mem_life junk : life (high_mem junk) env = Some [].
Proof.
  pose proof (high_mem_spec junk env ∅) as H. unfold life, high_mem, status; simpl.
  munfold. destruct (HighMem.my_mod_init junk env ∅ []) as [[r s] tr].
  destruct H as [A [-> | -> ] ]; done.
Qed.

Lemma hlist_life junk_table junk_devs :
  length junk_table = Z.to_nat NETDEV_HASHENTRIES -> length junk_devs = Z.to_nat dev_num ->
  life (hlist_lab junk_table junk_devs) env = Some [].
Proof.
  intros Ht Hd. pose proof (hlist_module_spec junk_table junk_devs env Ht Hd (NetHash.St 0 0 [] [])) as H.
  unfold life, hlist_lab, status; simpl. munfold.
  destruct (hlist_module_init junk_table junk_devs env _ []) as [[r s] tr].
  destruct H as [[-> A]|(x & -> & _ & _ & A)]; [done|]. simpl. exact A.
Qed.

(** The interrupt modules: the line is requested last and freed first, and
    nothing else they call hands anything out. *)
Ltac irq_life :=
  assert (audit [] = Some []) as A by done; apply life_wp; simpl;
  repeat first
    [ progress wpure
    | lazymatch goal with |- wp (mbind _ (call (request_irq _))) _ _ _ _ => fail 1 | _ => idtac end;
      wsilent A; clear A; intros ? ? A ];
  let r := fresh "r" in apply wp_bind_call; intros r ? _;
  destruct (Z.eqb_spec r 0) as [->|Hr]; simpl; wpure; eexists; (split; [done|]); simpl;
  [ lazymatch goal with |- wp _ _ _ ((request_irq ?i, (0, ?o)) :: _) _ =>
      apply (audit_acquire _ (request_irq i) 0 o _ (RIrq i)) in A; [|reflexivity] end;
    repeat first [progress wpure | wpop A | wsilent A; clear A; intros ? ? A]; done
  | unfold account; simpl; by rewrite if_null ].

Lemma tasklet_life irq : life (interrupt_tasklet irq) env = Some [].
Proof. unfold interrupt_tasklet, Tasklet.my_init, Tasklet.my_exit. irq_life. Qed.

Lemma workqueue_life irq : life (interrupt_workqueue irq) env = Some [].
Proof. unfold interrupt_workqueue, Workqueue.my_init, Workqueue.my_exit. irq_life. Qed.

Lemma thread_life irq : life (interrupt_thread irq) env = Some [].
Proof. unfold interrupt_thread, Threaded.my_init, Threaded.my_exit. irq_life. Qed.
End unwinding.

(** Proves the books of a module that a refused request upsets: the [n]-th
    call is the one to refuse. *)
Ltac refused n := apply (books_refused _ _ _ n); vm_compute; reflexivity.

(** The thread of interrupt_add_thread.c is stopped and the line freed; an error
    pointer from kthread_run is stopped too. *)
Lemma add_thread_books p irq : books (Entry p (interrupt_add_thread irq) true false).
Proof.
  apply (books_refused _ _ _ 1%nat).
  - unfold life. simpl. unfold account. simpl. by rewrite decide_True.
  - unfold life. simpl. unfold account. simpl. done.
Qed.

(** C7.  Who keeps the books: of the 29 modules that take resources from the
    kernel, 21 give back exactly what they took when the kernel grants every
    request, and seven do so whatever it answers; every other module has a
    request whose refusal makes it leak, give back what it does not hold, or
    crash.  The eight that fail even when everything is granted are rbtree,
    kobject-event, mutex and completion, which leak memory; lab-char, mmap and
    mmap-root, which leak the cdev that cdev_init made theirs to free; and
    rammap, which releases a memory region it never requested. *)
Theorem modules_books junk kva virt_to_phys va pa HZ PG virt_to_page size_nb size_kobj size_entry
    junk_table junk_devs ram irq :
  length junk_table = Z.to_nat NETDEV_HASHENTRIES -> length junk_devs = Z.to_nat dev_num ->
  Forall books (lab_modules junk kva virt_to_phys va pa HZ PG virt_to_page size_nb size_kobj size_entry
    junk_table junk_devs ram irq).
Proof.
  intros Ht Hd. unfold lab_modules. repeat apply Forall_cons_2; [..|apply Forall_nil_2].
  - refused 1%nat.
  - refused 1%nat.
  - refused 2%nat.
  - refused 1%nat.
  - refused 3%nat.
  - refused 1%nat.
  - apply books_unwind. intros. by apply poll_life.
  - refused 9%nat.
  - apply books_unwind. intros. by apply kmalloc_life.
  - refused 9%nat.
  - refused 0%nat.
  - refused 1%nat.
  - apply books_unwind. intros. by apply high_mem_life.
  - refused 1%nat.
  - apply books_unwind. intros. by apply hlist_life.
  - refused 2%nat.
  - refused 1%nat.
  - refused 0%nat.
  - refused 0%nat.
  - apply books_unwind. intros. by apply tasklet_life.
  - apply books_unwind. intros. by apply workqueue_life.
  - apply books_unwind. intros. by apply thread_life.
  - apply add_thread_books.
  - refused 0%nat.
  - refused 1%nat.
  - refused 0%nat.
  - refused 0%nat.
  - refused 1%nat.
  - refused 0%nat.
Qed.

Section examples.
Definition ex_name : list Z := replicate 16 0.

Lemma modules_books_witness :
  Forall books (lab_modules id id id id id 250 [] (fun _ => None) 24 64 24
    (replicate (Z.to_nat NETDEV_HASHENTRIES) []) (replicate (Z.to_nat dev_num) (NetDevice ex_name 0))
    (fun _ => 0) Interrupt.Tasklet.SHARE_IRQ).
Proof. apply modules_books; reflexivity. Defined.

(** Ways to lose the books. *)
Example misc_leaks : life (lab_misc id) (refuse_at 1) = Some [RMem 4096].
Proof. reflexivity. Qed.

Example notifier_underflows : life (notifier 24) (refuse_at 1) = None.
Proof. reflexivity. Qed.

Example mmap_leaks_cdev : exists c, life (mmap_lab id 250 (fun _ => 0)) grant_env = Some [RCdevMem c].
Proof. eexists. vm_compute. reflexivity. Qed.

Example rammap_releases : life (rammap id id [] (fun _ => None)) grant_env = None.
Proof. reflexivity. Qed.

Example mutex_leaks : life mutex grant_env = Some [RMem 4096].
Proof. reflexivity. Qed.
End examples.
